(* ===== verification/_CoqProject ===== *)
-Q . S2P
Prelude.v
ClassifyScan.v
ClassifyArgs.v
ClassifyNet.v
ClassifySystem.v
ClassifyText.v
Classify.v
ClassifyProps.v
ClassifyRulesProps.v
Base64.v
Json.v
JsonProps.v
JsonValue.v
JsonValueProps.v
Sigwire.v
SigwireProps.v
RedactScanner.v
Regexp.v
RedactRules.v
RedactPem.v
RedactMatchProps.v
RegexpProps.v
RedactFilterProps.v
RedactWriter.v
RedactStreamProps.v
RedactGapsProps.v
GateVerify.v
GateVerifyProps.v
GateAudit.v
GateRevoke.v
GateRevokeProps.v
GateExec.v
GateExecProps.v
GateMain.v
GateMainProps.v
SignerDaemon.v
SignerDaemonProps.v
SignerWire.v
SignerWireProps.v
GoTime.v
SignerAudit.v
SignerTelegram.v
SignerTelegramProps.v
SignerTelegramTextProps.v
SignerExplainer.v
SignerExplainerProps.v
SignerChatStore.v
SignerHosted.v
SignerHostedProps.v
SignerServer.v
SignerServerProps.v
McpRegistry.v
McpRegistryProps.v
McpKeys.v
McpKeysProps.v
McpProvision.v
McpProvisionProps.v
McpRun.v
McpRunProps.v
McpHost.v
McpTools.v
McpLive.v
McpLiveProps.v
McpHostProps.v
McpToolsProps.v
McpStatus.v
McpStatusProps.v
RedTeam.v
RedTeamProps.v
SignerKeys.v
SignerKeysProps.v
SignerSocket.v
SignerSocketProps.v
GoUrl.v
SignerMain.v
SignerMainProps.v
Cli.v
CliProps.v
SignerSystem.v
RedTeamRig.v
