(* ===== verification/Prelude.v ===== *)
(** * SSHGate: a verification development

    SSHGate lets an agent run commands on remote servers under a policy.  On each
    server OpenSSH forces every command of the agent's key through the gate
    binary; reads run, anything else needs a signature made by the signer daemon
    after a human approved it, and whatever a command prints passes a redactor
    before it leaves the server.  The development models that path from the agent's
    tool call to the bytes and records a command leaves: the tools that ask for a
    signature, the signer and the ways it reaches a human, and the gate.

    ** Parts and how they interact

    [McpRun.Tools.Run] and [RunBatch] look a server up in
    [McpRegistry.Registry], classify the command with [Classify.Classify], and for a
    write call the signer ([SignerWire.Wire.Sign]); then they send the line over
    SSH.  [SignerDaemon.Daemon] answers the call: [SignerWire.Wire.read_line] is how
    it reads a line, and it waits on a backend, which is
    [SignerTelegram.Telegram] or [SignerHosted.Hosted], the latter a client of
    [SignerServer.Server].  The daemon signs the [Sigwire.Sigwire.SigPayload] the
    gate decodes.  [GateMain.Gate.run] is one gate process.  It decides with
    [Classify.Classify] whether the line is a read and with
    [GateVerify.Verify.VerifySigned] whether it is signed, runs it through
    [GateExec.Exec.ExecWithRedaction], whose streams go through
    [RedactWriter.Writer] with the rules of [RedactRules.Rules.Combined], and records the decision with
    [GateAudit.Audit.RecordLine]; a signed SSHGATE_REVOKE goes to
    [GateRevoke.Revoke.RevokeGate].  A server comes into the registry by
    [McpProvision.Provision.Provision], which installs the gate and rewrites the
    target's authorized_keys with [McpKeys.Keys.rewriteAuthorizedKeys], and leaves
    it by [McpTools.ServerTools.RevokeServer].  Each call's result passes
    [McpLive.Front], which also writes the live log; the connections themselves are
    runs of [McpHost.SSHClient], which pins host keys, and the daemon's are those of
    [SignerSocket.Socket].

    Four theorems follow a command or a key across parts:
    [SignerSystem.no_signature_without_tap] (from a response with signatures
    back to the operator's tap), [SignerDaemonProps.signatures_reach_gate] (from the
    daemon's signature to the gate's verdict),
    [McpRunProps.batch_runs_what_was_asked] (from the tool call to what the gate
    runs) and [McpKeysProps.install_then_revoke] (which lines of
    authorized_keys the gate removes again, and when the installer's is among them).

    ** Files

    - [Prelude]: scopes, tactics, bytes and the Go string functions, list and
      string lemmas.
    - [ClassifyScan], [ClassifyArgs], [ClassifyNet], [ClassifySystem],
      [ClassifyText], [Classify] (src/classify): the quote-aware byte loops, the
      option matchers, one function per tool rule, and the verdict.  Theorems in
      [ClassifyProps] (when a line or a segment is a read, agreement of the four
      scanners with one lexer, sequences, quoting round trip) and
      [ClassifyRulesProps] (rules of every tool; command lines the rules miss).
    - [Base64], [Json]: base64url without padding and the JSON of flat objects, as
      encoding/base64 and encoding/json write and read them, with UTF-8.
      [JsonProps] has their round trips.  [JsonValue] has the values with arrays
      and objects in them, the parser with Go's nesting limit, and the decoders of
      structs, slices and pointers with their leniencies (case folding, unknown and
      repeated keys, null); [JsonValueProps] has what they read back.  [GoTime]:
      the texts of durations and of RFC 3339 times, and the parser of the latter.
    - [Sigwire] (src/sigwire): payload, envelope, timeouts.  [SigwireProps]: the
      codec's round trips and what it ignores.
    - [GateVerify] (src/gate/verify.go, errors.go), [GateVerifyProps]: exactly
      which lines verify.  Ed25519 is the interface [GateVerify.Ed25519].
    - [GateAudit] (src/gate/audit.go): levels, the log's bytes.
    - [RedactScanner], [RedactPem], [RedactWriter] (src/redact), with
      [RedactMatchProps], [RedactStreamProps] (the stream is the input with
      disjoint spans substituted; its memory is bounded) and [RedactGapsProps]
      (two ways a found secret still gets out).
    - [Regexp]: Go's regexp for the syntax the rules use, the leftmost-first matcher
      and the parser of patterns; [RegexpProps]: it finds a match exactly when the
      pattern denotes one, and its index lists lie in the buffer.
    - [RedactRules] (src/redact/rules.go, src/redact/rules): both tables of rules, as
      written;
      [RedactFilterProps]: the keyword filter changes nothing on ASCII text, which
      secrets are found, and which are not.
    - [GateRevoke] (src/gate/revoke.go), [GateRevokeProps]: line stripping, and a
      teardown whose file operations may fail.
    - [GateExec] (src/gate/executor.go), [GateExecProps]: counters, capture, exit
      codes, redactor wiring.
    - [GateMain] (src/gate/cmd/sshgate-gate/main.go, src/gate/keystore.go),
      [GateMainProps]: the policy of a whole process, its refusals, its records,
      its output, and what a revoke does to the audit log.
    - [SignerDaemon] (src/signer/daemon.go, audit.go, backend/backend.go),
      [SignerDaemonProps]: the daemon as a transition system, with invariants over
      every interleaving of its handlers, and the path from its signatures to the
      gate's verdict.
    - [SignerWire] (the JSON of src/signer/daemon.go; src/mcp/sign),
      [SignerWireProps]: both ends of the daemon's socket, and that a call and the
      handler it meets agree on request and verdict.
    - [SignerTelegram] (src/signer/backend/telegram.go, the interface of
      chatstore.go): the approver as a transition system of requests, updates, taps
      and timers.  [SignerTelegramProps]: where results come from, and that every
      request gets one in time; [SignerTelegramTextProps]: what the operator's
      message tells apart, and what it does not.
    - [SignerExplainer] (src/signer/backend/explainer.go), [SignerExplainerProps]: the
      request to the explainer and its answer; that no answer changes the rest of the
      operator's message.
    - [SignerKeys] (src/signer/keystore.go), [SignerKeysProps]: the master key's
      files, over every step that may fail or be the last.
    - [SignerSocket] (src/signer/socket.go), [SignerSocketProps]: the accept loop as a
      transition system, and the three timeouts on one clock.
    - [SignerHosted] (src/signer/backend/hosted.go), [SignerHostedProps]: the
      submission and the poll loop on a clock; that the loop ends, and that its
      verdicts are the server's.
    - [SignerServer] (src/signer-server), [SignerServerProps]: the request table
      and the HTTP handlers over it; that decisions are final, and that this server
      and the hosted backend agree on both exchanges.
    - [McpRegistry] (src/mcp/registry/servers.go), [McpRegistryProps]: the file of
      servers and the copy in memory; that what is added is found, and where every
      answer comes from.
    - [McpRun] (src/mcp/tools/run.go, run_batch.go), [McpRunProps]: the calls the
      tools make, in order, on every branch, and the path to the gate.
    - [SignerChatStore] (src/signer/backend/chatstore.go):
      the file store behind the Telegram approver's chat, with the laws that
      approver relies on.
    - [McpKeys] (src/mcp/tools/authorizedkeys.go), [McpKeysProps]: the rewrite of
      authorized_keys and the probes of it.
    - [McpProvision] (src/mcp/tools/provision.go, add_server.go),
      [McpProvisionProps]: the installation of a gate and its rollbacks; what a
      success and a failure leave on the target.
    - [McpHost] (src/hostkey, src/mcp/ssh), [McpHostProps]: fingerprints, trust on
      first use and the SSH client; that commands go to the machine that was pinned.
    - [McpLive] (src/mcp/livelog, src/mcp/server.go), [McpLiveProps]: the rolling log
      and the tool handlers; what the log keeps and what never enters it.
    - [McpTools] (src/mcp/tools/request_grant.go, revoke_grant.go, list_grants.go,
      list_servers.go, revoke_server.go), [McpToolsProps]: the other tools, and why
      a read-only server stays one.
    - [GoUrl]: url.Parse as far as scheme and host, paths as path/filepath joins
      them, and Atoi.
    - [SignerMain] (src/signer/cmd/sshgate-signer-telegram, and the endpoint checks of
      telegram.go), [SignerMainProps]: configuration, the lock, the start and --init;
      that one signer serves at most, and on what.
    - [Cli] (src/cli, src/mcp/cmd/sshgate-mcp, src/signer-server/cmd, the key pair of
      provision.go), [CliProps]: which arguments add which server, what the agent's
      side and the signer-server check before they serve, and that a key pair is made
      once.
    - [McpStatus] (src/mcp/tools/status.go), [McpStatusProps]: the pool of probes as a
      transition system; that it ends, and what it reports.
    - [RedTeam] (internal/redteam), [RedTeamProps]: the harness's attacks and mutants,
      its detector and its campaign; that a gate refuses every one of them but one,
      and what the detector's verdicts and counts mean.
    - [RedTeamRig] (container.go, state.go and tripwire.go of internal/redteam;
      cmd/gate-redteam): instances, the standing target's state file, boot and
      tear-down, both modes of the tripwire, and the exit codes; that a mark's events
      are those after it, and a listing is read back.
    - [SignerAudit] (src/signer/audit.go): the JSON line of an audit event and the log
      file under concurrent writes, failures and crashes; that an acknowledged event
      stays.
    - [SignerSystem]: the daemon and the Telegram approver run side by side; that a
      signature goes back to a tap.

    A model file has the definitions; the file named after it with [Props] has the
    theorems, or the model file itself after them.

    ** State

    The classifier, the codecs and the verifier have none.  A redactor is the
    record [Writer] (buffer, PEM accumulator, suppression flag, what dst received,
    counters).  The gate's world is the host's files and directories, the two
    streams it wrote and the commands it ran ([GateMain.Gate.World]); a child
    process is any function of the command and the host.  The daemon's state is
    the grant table (a [gmap] by alias), the audit rows written and lost, the
    responses sent, and the requests waiting for the backend.  Handlers block in
    one place, the backend's answer; a handler is cut there into [arrive] and
    [resolve], each atomic, as the mutex around the table and the absence of other
    shared state allow.  A restart drops the table and the waiting requests.

    The Telegram approver's state is the chat store, every entry ever stored with
    its result channel, the table from request ids to entries (a handle, since two
    entries may claim an id), the tap in progress, the messages sent, and a clock;
    Request, handleCallback and the timer are cut where another goroutine can come
    between.  The hosted server's state is its database, which runs the
    store's own schema and statements, kept as data with their conditions and
    assignments ([SignerServer.Store]); the registry's is the map in memory with the
    hash of the file last seen, each call being given what the file system answers.
    The tools have none: a call's outcome is the list of the calls it made and its
    result.  Provisioning changes the target, which is the files it touches there
    and the commands sent; any command may stop anywhere, its effect half done
    ([McpProvision.Provision.effect]).

    ** Numbers, bounds and fuel

    int64 values are [Z]; additions and subtractions that could leave the range
    wrap ([Verify.wrap64]), and the theorems show where they do not.  Loops that
    are not structural take fuel that their input's length bounds: env's recursion
    (the number of arguments), the sed and awk scans, the PEM search and
    [processBuffer] (the length of the data), the JSON parser (the length of the
    text).  Lemmas beside their uses show that this fuel suffices; no theorem
    assumes it.  The hosted poll loop takes one step of fuel for every nanosecond of
    its budget, and [SignerHostedProps.poll_ends] proves that enough.  Times are
    nanoseconds.

    ** Taken as parameters

    Ed25519 (verification accepts what signing makes; signatures are not empty),
    HMAC-SHA256 and SHA-256 as functions, the regular expressions of a rule, in the
    theorems that hold for any rules, as the functions that answer
    FindAllSubmatchIndex (their index lists lie in the buffer:
    [RedactMatchProps.regex_ok], which [RedactFilterProps.Combined_ok] proves of the
    program's own), pem.Decode, SQLite as what runs any statement of
    SQL's (a class with its laws and an instance over a list), the HTTP transport as any function of what
    was sent and when, the SSH client, key lines as x/crypto/ssh reads and prints them (a
    class with its laws and an instance), net.ParseIP, what the dial and the probe
    of a provisioning answer, the explainer's endpoint, the child process, the clock,
    the TOML parser, randomness, and the outcome of file operations and of sends to Telegram.  In
    [SignerDaemon] the requests are given as decoded; [SignerWire] gives the
    decoding.

    ** Not modelled

    Flag parsing, signals and the text the main programs print; the JSON-RPC library
    and the tool descriptions given to it; the backend only tests construct; and the
    shell scripts the red-team rig runs in its container.  Go's regexp beyond the
    syntax of the rules is refused by the model's parser.  The log lines of the
    programs other than the gate, error texts other than those a peer or the gate's
    standard error shows, file modes beyond the checks the code makes, fsync (but for
    the signer's audit log and master key), and the temporary files of atomic writes
    (but for the master key) are left out of the models that are there; so are the
    registry's warnings, ServeMux's path cleaning and the time zone of a stored time.
    The words of an error of the system or of a library in the gate's lines are a
    parameter. *)

From Stdlib Require Export ZArith Lia Bool Ascii String List.
From stdpp Require Export base option list strings gmap.
Export ListNotations.

(** ** Notations and scopes *)

Declare Scope go_scope.
Delimit Scope go_scope with go.

(** Byte comparison, as the Go code writes [c == 'x']. *)
Notation "c =c d" := (Ascii.eqb c d) (at level 70) : go_scope.
(** String comparison, as the Go code writes [s == t]. *)
Notation "s =s t" := (String.eqb s t) (at level 70) : go_scope.

#[global] Open Scope go_scope.

(** Byte constants that have no readable character literal. *)
Definition DQUOTE : ascii := "034"%char.
Definition SQUOTE : ascii := "'"%char.
Definition BACKSLASH : ascii := "\"%char.
Definition NL : ascii := "010"%char.
Definition CR : ascii := "013"%char.
Definition TAB : ascii := "009"%char.
Definition SPACE : ascii := " "%char.
Definition NUL : ascii := "000"%char.

(** ** Automation *)

Create HintDb go discriminated.
Create Rewrite HintDb go_rw.

(** Split every [match]/[if] discriminee of the goal or of a hypothesis. *)
Ltac split_match :=
  match goal with
  | |- context [match ?x with _ => _ end] =>
      lazymatch x with
      | context [match _ with _ => _ end] => fail
      | _ => let E := fresh "E" in destruct x eqn:E
      end
  | H : context [match ?x with _ => _ end] |- _ =>
      lazymatch x with
      | context [match _ with _ => _ end] => fail
      | _ => let E := fresh "E" in destruct x eqn:E
      end
  end.

(** Boolean hypotheses to propositions. *)
Ltac bool_hyps :=
  repeat match goal with
  | H : _ && _ = true |- _ => apply andb_true_iff in H as [? ?]
  | H : _ && _ = false |- _ => apply andb_false_iff in H
  | H : _ || _ = false |- _ => apply orb_false_iff in H as [? ?]
  | H : _ || _ = true |- _ => apply orb_true_iff in H
  | H : negb _ = true |- _ => apply negb_true_iff in H
  | H : negb _ = false |- _ => apply negb_false_iff in H
  | H : (_ =c _) = true |- _ => apply Ascii.eqb_eq in H
  | H : (_ =c _) = false |- _ => apply Ascii.eqb_neq in H
  | H : (_ =s _) = true |- _ => apply String.eqb_eq in H
  | H : (_ =s _) = false |- _ => apply String.eqb_neq in H
  | H : (_ =? _)%nat = true |- _ => apply Nat.eqb_eq in H
  | H : (_ <=? _)%nat = true |- _ => apply Nat.leb_le in H
  | H : (_ <=? _)%nat = false |- _ => apply Nat.leb_gt in H
  | H : (_ <? _)%nat = true |- _ => apply Nat.ltb_lt in H
  | H : (_ <? _)%nat = false |- _ => apply Nat.ltb_ge in H
  | H : (_ =? _)%Z = true |- _ => apply Z.eqb_eq in H
  | H : (_ =? _)%Z = false |- _ => apply Z.eqb_neq in H
  | H : (_ <=? _)%Z = true |- _ => apply Z.leb_le in H
  | H : (_ <=? _)%Z = false |- _ => apply Z.leb_gt in H
  | H : (_ <? _)%Z = true |- _ => apply Z.ltb_lt in H
  | H : (_ <? _)%Z = false |- _ => apply Z.ltb_ge in H
  end.

(** ** Go strings

    A Go [string] is a byte sequence: the model is Stdlib's [string], whose
    characters are bytes.  The functions below are the parts of the [strings]
    package the modelled code calls. *)
Module GoStr.

(** [s[n:]] and [s[:n]]. *)
Fixpoint drop (n : nat) (s : string) : string :=
  match n, s with
  | 0, _ => s
  | S n', String _ s' => drop n' s'
  | S _, EmptyString => EmptyString
  end.

Fixpoint take (n : nat) (s : string) : string :=
  match n, s with
  | S n', String c s' => String c (take n' s')
  | _, _ => EmptyString
  end.

(** [len(s) > 0 && s[0] == c]: the lookahead test [i+1 < len(s) && s[i+1] == c]
    of the byte loops, on the remaining suffix. *)
Definition head_is (c : ascii) (s : string) : bool :=
  match s with
  | String d _ => d =c c
  | EmptyString => false
  end.

(** [strings.HasPrefix(s, p)]. *)
Definition HasPrefix (s p : string) : bool := String.prefix p s.

(** [strings.TrimPrefix(s, p)]. *)
Definition TrimPrefix (s p : string) : string :=
  if HasPrefix s p then drop (String.length p) s else s.

(** [strings.IndexByte(s, c)]; [None] is Go's [-1]. *)
Fixpoint IndexByte (s : string) (c : ascii) : option nat :=
  match s with
  | EmptyString => None
  | String d s' => if d =c c then Some 0 else option_map S (IndexByte s' c)
  end.

(** [strings.Contains(s, sub)]. *)
Fixpoint Contains (s sub : string) : bool :=
  HasPrefix s sub ||
  match s with
  | EmptyString => false
  | String _ s' => Contains s' sub
  end.

(** [c >= lo && c <= hi] on bytes. *)
Definition in_range (lo hi c : ascii) : bool :=
  (N_of_ascii lo <=? N_of_ascii c)%N && (N_of_ascii c <=? N_of_ascii hi)%N.

Definition is_lower (c : ascii) : bool := in_range "a" "z" c.
Definition is_upper (c : ascii) : bool := in_range "A" "Z" c.
Definition is_digit (c : ascii) : bool := in_range "0" "9" c.

(** The UTF-8 encodings of [unicode.IsSpace] beyond ASCII: U+0085, U+00A0,
    U+1680, U+2000-U+200A, U+2028, U+2029, U+202F, U+205F, U+3000. *)
Definition is_ascii_space (c : ascii) : bool :=
  in_range "009" "013" c || (c =c " ")%char.

Definition is_space2 (a b : ascii) : bool :=
  (a =c "194")%char && ((b =c "133")%char || (b =c "160")%char).

Definition is_space3 (a b c : ascii) : bool :=
  ((a =c "225")%char && (b =c "154")%char && (c =c "128")%char)
  || ((a =c "226")%char && (b =c "128")%char
      && (in_range "128" "138" c || (c =c "168")%char || (c =c "169")%char
          || (c =c "175")%char))
  || ((a =c "226")%char && (b =c "129")%char && (c =c "159")%char)
  || ((a =c "227")%char && (b =c "128")%char && (c =c "128")%char).

(** Strip leading white-space runes. *)
Fixpoint trim_left (l : list ascii) : list ascii :=
  match l with
  | a :: l1 =>
      if is_ascii_space a then trim_left l1
      else match l1 with
           | b :: l2 =>
               if is_space2 a b then trim_left l2
               else match l2 with
                    | c :: l3 => if is_space3 a b c then trim_left l3 else l
                    | [] => l
                    end
           | [] => l
           end
  | [] => []
  end.

(** The same from the right, on the reversed bytes. *)
Fixpoint trim_left_rev (l : list ascii) : list ascii :=
  match l with
  | a :: l1 =>
      if is_ascii_space a then trim_left_rev l1
      else match l1 with
           | b :: l2 =>
               if is_space2 b a then trim_left_rev l2
               else match l2 with
                    | c :: l3 => if is_space3 c b a then trim_left_rev l3 else l
                    | [] => l
                    end
           | [] => l
           end
  | [] => []
  end.

(** [strings.TrimSpace(s)]. *)
Definition TrimSpace (s : string) : string :=
  string_of_list_ascii
    (reverse (trim_left_rev (reverse (trim_left (list_ascii_of_string s))))).

Definition upper_byte (c : ascii) : ascii :=
  if is_lower c then ascii_of_N (N_of_ascii c - 32) else c.
Definition lower_byte (c : ascii) : ascii :=
  if is_upper c then ascii_of_N (N_of_ascii c + 32) else c.

(** [strings.ToUpper], exact for comparisons with ASCII words: ASCII letters,
    and the two runes whose upper case is an ASCII letter (U+0131 and U+017F).
    No other rune maps into ASCII, so the other bytes are left alone. *)
Fixpoint ToUpper (s : string) : string :=
  match s with
  | EmptyString => EmptyString
  | String a s1 =>
      match s1 with
      | String b s2 =>
          if (a =c "196")%char && (b =c "177")%char then String "I" (ToUpper s2)
          else if (a =c "197")%char && (b =c "191")%char then String "S" (ToUpper s2)
          else String (upper_byte a) (ToUpper s1)
      | EmptyString => String (upper_byte a) EmptyString
      end
  end.

(** [strings.ToLower], exact for comparisons with ASCII words: U+0130 and
    U+212A are the runes outside ASCII whose lower case is an ASCII letter. *)
Fixpoint ToLower (s : string) : string :=
  match s with
  | EmptyString => EmptyString
  | String a s1 =>
      match s1 with
      | String b s2 =>
          if (a =c "196")%char && (b =c "176")%char then String "i" (ToLower s2)
          else match s2 with
               | String c s3 =>
                   if (a =c "226")%char && (b =c "132")%char && (c =c "170")%char
                   then String "k" (ToLower s3)
                   else String (lower_byte a) (ToLower s1)
               | EmptyString => String (lower_byte a) (ToLower s1)
               end
      | EmptyString => String (lower_byte a) EmptyString
      end
  end.

(** A [switch s { case l...: }] arm on string constants. *)
Definition one_of (s : string) (l : list string) : bool := existsb (String.eqb s) l.

(** [len(s) > n]. *)
Definition longer (s : string) (n : nat) : bool := n <? String.length s.

End GoStr.

#[global] Arguments GoStr.one_of : simpl never.
#[global] Arguments GoStr.longer : simpl never.

(** ** Generic lemmas on strings and lists *)

Definition snoc (s : string) (c : ascii) : string := s +:+ String c "".

Lemma list_ascii_of_app (s t : string) :
  list_ascii_of_string (s +:+ t) = list_ascii_of_string s ++ list_ascii_of_string t.
Proof. induction s as [|c s IH]; simpl; [done|by rewrite IH]. Qed.

Lemma list_ascii_of_snoc (s : string) (c : ascii) :
  list_ascii_of_string (snoc s c) = list_ascii_of_string s ++ [c].
Proof. apply list_ascii_of_app. Qed.

Lemma str_app_nil_r (s : string) : s +:+ "" = s.
Proof. induction s as [|c s IH]; [done|exact (f_equal (String c) IH)]. Qed.

Lemma prefix_spec (p s : string) : GoStr.HasPrefix s p = true <-> exists t, s = p +:+ t.
Proof.
  unfold GoStr.HasPrefix. revert s. induction p as [|c p IH]; intros s; cbn.
  - destruct s; (split; [by eexists|done]).
  - destruct s as [|d s]; [split; [done|by intros [t Ht]]|].
    change (String.prefix (String c p) (String d s))
      with (if ascii_dec c d then String.prefix p s else false).
    destruct (ascii_dec c d) as [->|Hne].
    + rewrite IH. split; intros [t Ht]; exists t; [by rewrite Ht|by injection Ht].
    + split; [done|]. intros [t Ht]. by injection Ht.
Qed.

Lemma drop_app (p s : string) : GoStr.drop (String.length p) (p +:+ s) = s.
Proof. induction p as [|c p IH]; [by destruct s|exact IH]. Qed.

Lemma str_app_assoc (s t u : string) : s +:+ (t +:+ u) = (s +:+ t) +:+ u.
Proof. induction s as [|c s IH]; [done|]. exact (f_equal (String c) IH). Qed.

Lemma str_length_app (s t : string) : String.length (s +:+ t) = String.length s + String.length t.
Proof. induction s as [|c s IH]; [done|]. exact (f_equal S IH). Qed.

Lemma take_app (s t : string) : GoStr.take (String.length s) (s +:+ t) = s.
Proof. induction s as [|c s IH]; [by destruct t|]. exact (f_equal (String c) IH). Qed.

Lemma IndexByte_app (s : string) c t :
  GoStr.IndexByte s c = None ->
  GoStr.IndexByte (s +:+ String c t) c = Some (String.length s).
Proof.
  induction s as [|d s IH]; intros H.
  - change ("" +:+ String c t) with (String c t). cbn [GoStr.IndexByte].
    by rewrite Ascii.eqb_refl.
  - change (String d s +:+ String c t) with (String d (s +:+ String c t)).
    cbn [GoStr.IndexByte String.length] in *. destruct (d =c c); [done|].
    destruct (GoStr.IndexByte s c); [done|]. by rewrite IH.
Qed.

#[export] Hint Rewrite str_app_nil_r list_ascii_of_app list_ascii_of_snoc
  string_of_list_ascii_of_string list_ascii_of_string_of_list_ascii : go_rw.

(** Splitting a list on the elements that satisfy [p]; always non-empty. *)
Fixpoint split_on {A} (p : A -> bool) (l : list A) : list (list A) :=
  match l with
  | [] => [[]]
  | x :: xs =>
      if p x then [] :: split_on p xs
      else match split_on p xs with
           | h :: t => (x :: h) :: t
           | [] => [[x]]
           end
  end.

(** Put [pre] in front of the first list. *)
Definition on_head {A} (pre : list A) (ls : list (list A)) : list (list A) :=
  match ls with
  | h :: t => (pre ++ h) :: t
  | [] => [pre]
  end.

Lemma split_on_ne {A} (p : A -> bool) l : split_on p l <> [].
Proof. destruct l as [|x l]; simpl; [done|]. destruct (p x); [done|]. by destruct (split_on p l). Qed.

Lemma on_head_snoc {A} (p : A -> bool) (pre : list A) x l :
  p x = false ->
  on_head pre (split_on p (x :: l)) = on_head (pre ++ [x]) (split_on p l).
Proof.
  intros Hx. simpl. rewrite Hx.
  pose proof (split_on_ne p l) as Hne.
  destruct (split_on p l) as [|h t]; [done|]. simpl. by rewrite <- app_assoc.
Qed.

Lemma on_head_nil {A} (p : A -> bool) l : on_head [] (split_on p l) = split_on p l.
Proof. pose proof (split_on_ne p l). by destruct (split_on p l). Qed.

Lemma split_on_app {A} (p : A -> bool) l1 x l2 :
  p x = true ->
  split_on p (l1 ++ x :: l2) = split_on p l1 ++ split_on p l2.
Proof.
  intros Hx. induction l1 as [|y l1 IH]; simpl; [by rewrite Hx|].
  destruct (p y); [by rewrite IH|]. rewrite IH.
  pose proof (split_on_ne p l1) as Hne. by destruct (split_on p l1).
Qed.

Lemma split_on_no_sep {A} (p : A -> bool) l :
  Forall (fun x => p x = false) l -> split_on p l = [l].
Proof. induction 1 as [|x l Hx _ IH]; simpl; [done|]. by rewrite Hx, IH. Qed.

(** Strong induction on the length of a string: byte loops that consume one or
    two bytes per step. *)
Lemma string_length_ind (P : string -> Prop) :
  (forall s, (forall t, String.length t < String.length s -> P t) -> P s) ->
  forall s, P s.
Proof.
  intros H s. remember (String.length s) as n eqn:Hn. revert s Hn.
  induction n as [n IH] using lt_wf_ind. intros s ->.
  apply H. intros t Ht. by apply (IH (String.length t)).
Qed.

Lemma list_length_ind {A} (P : list A -> Prop) :
  (forall l, (forall l', List.length l' < List.length l -> P l') -> P l) ->
  forall l, P l.
Proof.
  intros H l. remember (List.length l) as n eqn:Hn. revert l Hn.
  induction n as [n IH] using lt_wf_ind. intros l ->.
  apply H. intros t Ht. by apply (IH (List.length t)).
Qed.

(** ** Bytes as integers *)

(** The value of a byte, and the byte of a value ([byte(v)] truncates). *)
Definition byte_val (c : ascii) : Z := Z.of_N (N_of_ascii c).
Definition byte_of (v : Z) : ascii := ascii_of_N (Z.to_N (v mod 256)).

Lemma byte_val_range c : (0 <= byte_val c < 256)%Z.
Proof. unfold byte_val. pose proof (N_ascii_bounded c). lia. Qed.

Lemma byte_of_val c : byte_of (byte_val c) = c.
Proof.
  unfold byte_of. rewrite Z.mod_small by apply byte_val_range.
  unfold byte_val. by rewrite N2Z.id, ascii_N_embedding.
Qed.

Lemma byte_val_of v : (0 <= v < 256)%Z -> byte_val (byte_of v) = v.
Proof.
  intros Hv. unfold byte_of, byte_val. rewrite Z.mod_small by done.
  rewrite N_ascii_embedding by lia. lia.
Qed.

(** Placing [b] under the [k] low bits of a shifted [a] is addition. *)
Lemma lor_shiftl_add a b k :
  (0 <= k)%Z -> (0 <= b < 2 ^ k)%Z -> Z.lor (Z.shiftl a k) b = (a * 2 ^ k + b)%Z.
Proof.
  intros Hk Hb. pose proof (Z.add_lor_land (Z.shiftl a k) b) as H.
  assert (Z.land (Z.shiftl a k) b = 0%Z) as H0.
  { apply Z.bits_inj'. intros n Hn. rewrite Z.land_spec, Z.bits_0.
    destruct (Z.lt_ge_cases n k).
    - by rewrite Z.shiftl_spec_low.
    - rewrite <- (Z.mod_small b (2 ^ k)) by done.
      by rewrite Z.mod_pow2_bits_high, andb_false_r. }
  rewrite Z.shiftl_mul_pow2 in * by done. lia.
Qed.

(** Case analysis on the Boolean tests of a byte loop, in goal and hypotheses. *)
Ltac byte_cases :=
  repeat first
    [ progress simpl
    | match goal with
      | |- context [if ?b then _ else _] =>
          lazymatch b with
          | context [if _ then _ else _] => fail
          | true => fail | false => fail
          | _ => let E := fresh "E" in destruct b eqn:E
          end
      end ].
