(* ===== verification/ClassifyScan.v ===== *)
(** * The quote-aware scanners of the classifier (src/classify/classifier.go)

    [hasPrintable], [containsSubstitution], [hasTopLevelRedirect],
    [splitSegments], [tokenize], [isAssignment]: the byte loops that decide
    where a shell command line ends, what is quoted and what the words are.
    Each Go loop [for i := 0; i < len(s); i++] is a recursion on the suffix
    [s[i:]]; [i++; continue] after a backslash consumes two bytes.

    The second half gives ONE reference lexer, [lex], which assigns every byte
    its quoting role, and shows that the four independent Go scanners are all
    functions of it: they can never disagree on what is quoted. *)

From S2P Require Import Prelude.

Module Scan.

(** hasPrintable *)
Fixpoint hasPrintable (s : string) : bool :=
  match s with
  | EmptyString => false
  | String c rest =>
      if (c =c NUL) || (c =c SPACE) || (c =c TAB) || (c =c NL) || (c =c CR)
      then hasPrintable rest
      else true
  end.

(** containsSubstitution, with its two quote flags. *)
Fixpoint containsSubstitution_loop (inSingle inDouble : bool) (s : string) : bool :=
  match s with
  | EmptyString => false
  | String c rest =>
      if (c =c BACKSLASH) && negb inSingle then
        match rest with
        | String _ rest' => containsSubstitution_loop inSingle inDouble rest'
        | EmptyString => false
        end
      else if inSingle then
        containsSubstitution_loop (negb (c =c SQUOTE)) inDouble rest
      else if inDouble then
        if c =c DQUOTE then containsSubstitution_loop inSingle false rest
        else if (c =c "`")%char then true
        else if (c =c "$")%char && GoStr.head_is "(" rest then true
        else containsSubstitution_loop inSingle inDouble rest
      else
        if c =c SQUOTE then containsSubstitution_loop true inDouble rest
        else if c =c DQUOTE then containsSubstitution_loop inSingle true rest
        else if (c =c "`")%char then true
        else if (c =c "$")%char && GoStr.head_is "(" rest then true
        else if ((c =c "<")%char || (c =c ">")%char) && GoStr.head_is "(" rest then true
        else containsSubstitution_loop inSingle inDouble rest
  end.

Definition containsSubstitution (s : string) : bool :=
  containsSubstitution_loop false false s.

(** hasTopLevelRedirect; [quote] is the open quote byte, NUL when none is open. *)
Fixpoint hasTopLevelRedirect_loop (quote : ascii) (s : string) : bool :=
  match s with
  | EmptyString => false
  | String c rest =>
      if (c =c BACKSLASH) && negb (quote =c SQUOTE) then
        match rest with
        | String _ rest' => hasTopLevelRedirect_loop quote rest'
        | EmptyString => false
        end
      else if negb (quote =c NUL) then
        hasTopLevelRedirect_loop (if c =c quote then NUL else quote) rest
      else if (c =c SQUOTE) || (c =c DQUOTE) then hasTopLevelRedirect_loop c rest
      else if (c =c ">")%char then true
      else hasTopLevelRedirect_loop quote rest
  end.

Definition hasTopLevelRedirect (s : string) : bool := hasTopLevelRedirect_loop NUL s.

(** The [flush] closure of splitSegments: the trimmed segment, unless blank. *)
Definition flushSegment (seg : string) (out : list string) : list string :=
  let seg := GoStr.TrimSpace seg in
  if seg =s "" then out else seg :: out.

(** splitSegments; [cur] is [s[start:i]]. *)
Fixpoint splitSegments_loop (quote : ascii) (cur s : string) : list string :=
  match s with
  | EmptyString => flushSegment cur []
  | String c rest =>
      if (c =c BACKSLASH) && negb (quote =c SQUOTE) then
        match rest with
        | String d rest' => splitSegments_loop quote (snoc (snoc cur c) d) rest'
        | EmptyString => flushSegment (snoc cur c) []
        end
      else if negb (quote =c NUL) then
        splitSegments_loop (if c =c quote then NUL else quote) (snoc cur c) rest
      else if (c =c SQUOTE) || (c =c DQUOTE) then
        splitSegments_loop c (snoc cur c) rest
      else if (c =c ";")%char || (c =c NL) then
        flushSegment cur (splitSegments_loop quote "" rest)
      else if (c =c "|")%char then
        flushSegment cur
          (match rest with
           | String d rest' =>
               if (d =c "|")%char then splitSegments_loop quote "" rest'
               else splitSegments_loop quote "" rest
           | EmptyString => splitSegments_loop quote "" rest
           end)
      else if (c =c "&")%char then
        flushSegment cur
          (match rest with
           | String d rest' =>
               if (d =c "&")%char then splitSegments_loop quote "" rest'
               else splitSegments_loop quote "" rest
           | EmptyString => splitSegments_loop quote "" rest
           end)
      else splitSegments_loop quote (snoc cur c) rest
  end.

Definition splitSegments (s : string) : list string := splitSegments_loop NUL "" s.

(** The [flush] closure of tokenize. *)
Definition flushToken (cur : string) (out : list string) : list string :=
  if cur =s "" then out else cur :: out.

(** tokenize; [cur] is the strings.Builder. *)
Fixpoint tokenize_loop (quote : ascii) (cur s : string) : list string :=
  match s with
  | EmptyString => flushToken cur []
  | String c rest =>
      if (c =c BACKSLASH) && negb (quote =c SQUOTE) then
        match rest with
        | String d rest' => tokenize_loop quote (snoc cur d) rest'
        | EmptyString => flushToken cur []
        end
      else if negb (quote =c NUL) then
        if c =c quote then tokenize_loop NUL cur rest
        else tokenize_loop quote (snoc cur c) rest
      else if (c =c SQUOTE) || (c =c DQUOTE) then tokenize_loop c cur rest
      else if (c =c SPACE) || (c =c TAB) || (c =c NL) || (c =c CR) then
        flushToken cur (tokenize_loop quote "" rest)
      else tokenize_loop quote (snoc cur c) rest
  end.

Definition tokenize (s : string) : list string := tokenize_loop NUL "" s.

(** The key characters of a KEY=VALUE token; [i > 0] is [negb first]. *)
Fixpoint assignKeyOk (first : bool) (key : string) : bool :=
  match key with
  | EmptyString => true
  | String c rest =>
      ((c =c "_")%char || GoStr.is_upper c || GoStr.is_lower c
       || (negb first && GoStr.is_digit c))
      && assignKeyOk false rest
  end.

(** isAssignment *)
Definition isAssignment (tok : string) : bool :=
  match GoStr.IndexByte tok "=" with
  | None | Some 0 => false
  | Some eq => assignKeyOk true (GoStr.take eq tok)
  end.

(** [tok[:strings.IndexByte(tok, '=')]], read only where isAssignment holds. *)
Definition assignKey (tok : string) : string :=
  match GoStr.IndexByte tok "=" with
  | Some eq => GoStr.take eq tok
  | None => ""
  end.

(** ** The reference lexer *)

(** The quoting context. *)
Inductive qst := QNone | QSingle | QDouble.

(** The role of a byte: active outside quotes, inside single or double quotes,
    escaped by a backslash, or quoting syntax itself (a delimiter or an
    escaping backslash). *)
Inductive role := RPlain | RSingle | RDouble | REscaped | RSyntax.

#[export] Instance qst_eq_dec : EqDecision qst.
Proof. solve_decision. Defined.
#[export] Instance role_eq_dec : EqDecision role.
Proof. solve_decision. Defined.

Fixpoint lex_from (q : qst) (s : string) : list (role * ascii) :=
  match s with
  | EmptyString => []
  | String c rest =>
      if (c =c BACKSLASH) && negb (bool_decide (q = QSingle)) then
        (RSyntax, c) ::
          match rest with
          | String d rest' => (REscaped, d) :: lex_from q rest'
          | EmptyString => []
          end
      else match q with
           | QSingle => if c =c SQUOTE then (RSyntax, c) :: lex_from QNone rest
                        else (RSingle, c) :: lex_from QSingle rest
           | QDouble => if c =c DQUOTE then (RSyntax, c) :: lex_from QNone rest
                        else (RDouble, c) :: lex_from QDouble rest
           | QNone => if c =c SQUOTE then (RSyntax, c) :: lex_from QSingle rest
                      else if c =c DQUOTE then (RSyntax, c) :: lex_from QDouble rest
                      else (RPlain, c) :: lex_from QNone rest
           end
  end.

Definition lex (s : string) : list (role * ascii) := lex_from QNone s.

Definition plain (p : ascii -> bool) (x : role * ascii) : bool :=
  match x with (RPlain, c) => p c | _ => false end.

Definition is_redirect : role * ascii -> bool := plain (fun c => c =c ">")%char.
Definition is_separator : role * ascii -> bool :=
  plain (fun c => (c =c ";") || (c =c NL) || (c =c "|") || (c =c "&"))%char.
Definition is_blank : role * ascii -> bool :=
  plain (fun c => (c =c SPACE) || (c =c TAB) || (c =c NL) || (c =c CR)).

(** A byte the shell expands: outside quotes or inside double quotes. *)
Definition expands (x : role * ascii) (c : ascii) : bool :=
  match x with (RPlain, d) | (RDouble, d) => d =c c | _ => false end.

Definition next_expands (l : list (role * ascii)) (c : ascii) : bool :=
  match l with y :: _ => expands y c | [] => false end.

(** A back-quote, [$(], or an unquoted [<(] / [>(]. *)
Fixpoint has_substitution (l : list (role * ascii)) : bool :=
  match l with
  | [] => false
  | x :: rest =>
      expands x "`"
      || ((expands x "$" || plain (fun c => (c =c "<") || (c =c ">"))%char x)
          && next_expands rest "(")
      || has_substitution rest
  end.

(** The source text of lexed bytes, and the word they denote. *)
Definition text (l : list (role * ascii)) : string := string_of_list_ascii (map snd l).
Definition word (l : list (role * ascii)) : string :=
  string_of_list_ascii (map snd (filter (fun x => x.1 <> RSyntax) l)).

Definition nonempty (s : string) : bool := negb (s =s "").

(** The bytes are all there, in order. *)
Lemma lex_text q s : text (lex_from q s) = s.
Proof.
  unfold text. revert q.
  enough (forall n q s, String.length s <= n ->
            string_of_list_ascii (map snd (lex_from q s)) = s)
    by (intros q; by apply (H (String.length s))).
  clear s. induction n as [|n IH]; intros q [|c s]; simpl; try done; [lia|].
  intros Hn. destruct (_ && _) eqn:E.
  - destruct s as [|d s]; simpl; [done|]. rewrite IH by (simpl in Hn; lia). done.
  - destruct q; repeat case_match; simpl; by rewrite IH by lia.
Qed.

(** ** The scanners are functions of the lexer *)

Definition qbyte (q : qst) : ascii :=
  match q with QNone => NUL | QSingle => SQUOTE | QDouble => DQUOTE end.

(** Close a case with the induction hypothesis, whatever the quote state. *)
Ltac use_ih IH :=
  first [ refine (IH _ _ QNone); simpl; lia
        | refine (IH _ _ QSingle); simpl; lia
        | refine (IH _ _ QDouble); simpl; lia ].

(** The case split every quote-aware loop goes through. *)
Ltac subst_byte :=
  repeat match goal with
  | H : (?c =c _) = true |- _ => is_var c; apply Ascii.eqb_eq in H as ->; simpl
  end.

Ltac quote_cases c s q :=
  destruct (c =c BACKSLASH) eqn:?;
  [ subst_byte; destruct q; simpl; [destruct s as [|d s]|..|destruct s as [|d s]]; simpl
  | destruct q; simpl; destruct (c =c SQUOTE) eqn:?; subst_byte; simpl;
    try (destruct (c =c DQUOTE) eqn:?; subst_byte; simpl) ].

Lemma redirect_loop_lex s : forall q,
  hasTopLevelRedirect_loop (qbyte q) s = existsb is_redirect (lex_from q s).
Proof.
  induction s as [s IH] using string_length_ind. intros q.
  destruct s as [|c s]; [done|]. simpl.
  quote_cases c s q; try done; try use_ih IH.
  destruct (c =c ">")%char; [done|]. use_ih IH.
Qed.

(** [containsSubstitution] tracks two flags; only one is ever set. *)
Definition qsingle (q : qst) : bool := bool_decide (q = QSingle).
Definition qdouble (q : qst) : bool := bool_decide (q = QDouble).

Lemma lex_head_paren q s :
  next_expands (lex_from q s) "(" = GoStr.head_is "(" s && negb (qsingle q).
Proof.
  destruct s as [|c s]; simpl; [done|].
  destruct (c =c "(")%char eqn:E.
  - apply Ascii.eqb_eq in E as ->. by destruct q.
  - quote_cases c s q; simpl; rewrite ?E; done.
Qed.

Lemma substitution_loop_lex s : forall q,
  containsSubstitution_loop (qsingle q) (qdouble q) s
  = has_substitution (lex_from q s).
Proof.
  induction s as [s IH] using string_length_ind. intros q.
  destruct s as [|c s]; [done|].
  pose proof (lex_head_paren QNone s) as Hp. pose proof (lex_head_paren QDouble s) as Hd.
  cbn [containsSubstitution_loop lex_from].
  quote_cases c s q; try done; try use_ih IH; rewrite ?Hp, ?Hd, ?andb_true_r.
  - destruct (c =c "`")%char; [done|]. simpl.
    destruct (c =c "$")%char, (c =c "<")%char, (c =c ">")%char, (GoStr.head_is _ s); simpl;
      try done; use_ih IH.
  - destruct (c =c "`")%char; [done|]. simpl.
    destruct (c =c "$")%char, (GoStr.head_is _ s); simpl; try done; use_ih IH.
Qed.

(** Segments and words as functions of the lexed line. *)
Definition segments_of (ls : list (list ascii)) : list string :=
  List.filter nonempty (map (fun l => GoStr.TrimSpace (string_of_list_ascii l)) ls).

Lemma segments_of_cons l ls :
  segments_of (l :: ls) = flushSegment (string_of_list_ascii l) (segments_of ls).
Proof. unfold segments_of, flushSegment, nonempty. simpl. by destruct (_ =s ""). Qed.

Definition cut (q : qst) (s : string) : list (list ascii) :=
  map (map snd) (split_on is_separator (lex_from q s)).

Lemma cut_ne q s : cut q s <> [].
Proof.
  unfold cut. pose proof (split_on_ne is_separator (lex_from q s)).
  by destruct (split_on _ _).
Qed.

Lemma cut_cons (pre : list ascii) x l :
  is_separator x = false ->
  on_head pre (map (map snd) (split_on is_separator (x :: l)))
  = on_head (pre ++ [x.2]) (map (map snd) (split_on is_separator l)).
Proof.
  intros Hx. simpl. rewrite Hx. pose proof (split_on_ne is_separator l) as Hne.
  destruct (split_on is_separator l); [done|]. simpl. by rewrite <- app_assoc.
Qed.

(** The same for a loop with an accumulator. *)
Ltac use_ih2 IH :=
  first [ refine (IH _ _ QNone _); simpl; lia
        | refine (IH _ _ QSingle _); simpl; lia
        | refine (IH _ _ QDouble _); simpl; lia ].

#[local] Arguments split_on : simpl never.

Lemma split_on_sep {A} (p : A -> bool) x l :
  p x = true -> split_on p (x :: l) = [] :: split_on p l.
Proof. intros Hx. unfold split_on. by rewrite Hx. Qed.

Lemma on_head_ne (ls : list (list ascii)) : ls <> [] -> on_head [] ls = ls.
Proof. by destruct ls. Qed.

(** A repeated separator ([||], [&&]) only yields one more blank segment. *)
Lemma segments_blank ls : segments_of ([] :: ls) = segments_of ls.
Proof. by rewrite segments_of_cons. Qed.

(** At an active separator the current segment is flushed. *)
Lemma cut_sep c cur s :
  is_separator (RPlain, c) = true ->
  segments_of (on_head (list_ascii_of_string cur)
    (map (map snd) (split_on is_separator ((RPlain, c) :: lex_from QNone s))))
  = flushSegment cur (segments_of (cut QNone s)).
Proof.
  intros Hc. rewrite split_on_sep by done. cbn [map on_head].
  by rewrite app_nil_r, segments_of_cons, string_of_list_ascii_of_string.
Qed.

Lemma cut_sep_blank c s :
  is_separator (RPlain, c) = true -> c <> SQUOTE -> c <> DQUOTE -> c <> BACKSLASH ->
  segments_of (cut QNone (String c s)) = segments_of (cut QNone s).
Proof.
  intros Hc H1 H2 H3. unfold cut. cbn [lex_from].
  apply Ascii.eqb_neq in H1 as ->, H2 as ->, H3 as ->. cbn [andb].
  rewrite split_on_sep by done. cbn [map]. by rewrite segments_blank.
Qed.

Lemma split_loop_lex s : forall q cur,
  splitSegments_loop (qbyte q) cur s
  = segments_of (on_head (list_ascii_of_string cur) (cut q s)).
Proof.
  unfold cut.
  induction s as [s IH] using string_length_ind. intros q cur.
  destruct s as [|c s].
  { simpl. rewrite app_nil_r, segments_of_cons, string_of_list_ascii_of_string. done. }
  cbn [splitSegments_loop lex_from].
  quote_cases c s q; rewrite ?cut_cons by done; cbn [snd];
    rewrite <- ?list_ascii_of_snoc; try use_ih2 IH;
    try (rewrite segments_of_cons, string_of_list_ascii_of_string; done).
  assert (forall t, String.length t < String.length (String c s) ->
            splitSegments_loop NUL "" t = segments_of (cut QNone t)) as IH0.
  { intros t Ht. rewrite <- (on_head_ne (cut QNone t)) by apply cut_ne.
    exact (IH t Ht QNone ""). }
  (* [||] and [&&]: the second byte only adds a blank segment *)
  assert (forall e, is_separator (RPlain, e) = true -> e <> SQUOTE -> e <> DQUOTE ->
            e <> BACKSLASH ->
            (match s with
             | "" => splitSegments_loop NUL "" s
             | String d rest' => if d =c e then splitSegments_loop NUL "" rest'
                                 else splitSegments_loop NUL "" s
             end) = segments_of (cut QNone s)) as Hdouble.
  { intros e He H1 H2 H3. destruct s as [|d s]; [apply IH0; simpl; lia|].
    destruct (d =c e) eqn:Ed; [|apply IH0; simpl; lia].
    apply Ascii.eqb_eq in Ed as ->. rewrite cut_sep_blank by done. apply IH0; simpl; lia. }
  destruct ((c =c ";")%char || (c =c NL)) eqn:Esep.
  - rewrite cut_sep by (simpl; by rewrite Esep). f_equal. apply IH0. simpl; lia.
  - apply orb_false_iff in Esep as [Es1 Es2].
    destruct (c =c "|")%char eqn:Ep; 
      [by rewrite cut_sep, Hdouble by (simpl; by rewrite ?Es1, ?Es2, ?Ep)|].
    destruct (c =c "&")%char eqn:Ea; 
      [by rewrite cut_sep, Hdouble by (simpl; by rewrite ?Es1, ?Es2, ?Ep, ?Ea)|].
    rewrite cut_cons by (simpl; by rewrite Es1, Es2, Ep, Ea).
    cbn [snd]. rewrite <- list_ascii_of_snoc. use_ih2 IH.
Qed.

(** Tokens. *)
Definition words_of (ls : list (list (role * ascii))) : list string :=
  List.filter nonempty (map word ls).

Lemma words_of_cons l ls : words_of (l :: ls) = flushToken (word l) (words_of ls).
Proof. unfold words_of, flushToken, nonempty. simpl. by destruct (_ =s ""). Qed.

(** The data bytes of a partial token. *)
Definition data (cur : string) : list (role * ascii) :=
  map (fun c => (RPlain, c)) (list_ascii_of_string cur).

Lemma word_app l1 l2 : word (l1 ++ l2) = word l1 +:+ word l2.
Proof.
  unfold word. rewrite filter_app, map_app.
  induction (map snd (filter _ l1)) as [|c l IH]; simpl; [done|by rewrite IH].
Qed.

Lemma word_cons_syntax c l : word ((RSyntax, c) :: l) = word l.
Proof. done. Qed.

Lemma word_cons_data r c l : r <> RSyntax -> word ((r, c) :: l) = String c (word l).
Proof. intros Hr. unfold word. rewrite filter_cons_True; done. Qed.

Lemma word_data cur l : word (data cur ++ l) = cur +:+ word l.
Proof.
  unfold data. induction cur as [|c cur IH]; [done|].
  cbn [list_ascii_of_string map app]. rewrite word_cons_data by done. by rewrite IH.
Qed.

(** The words of [cur] followed by a lexed rest. *)
Definition pending (cur : string) (l : list (role * ascii)) : list string :=
  words_of (on_head (data cur) (split_on is_blank l)).

Lemma pending_head (cur cur' : string) x l :
  is_blank x = false ->
  (forall w, cur +:+ word (x :: w) = cur' +:+ word w) ->
  pending cur (x :: l) = pending cur' l.
Proof.
  intros Hb Hw. unfold pending. rewrite on_head_snoc by done.
  pose proof (split_on_ne is_blank l). destruct (split_on is_blank l) as [|h t]; [done|].
  cbn [on_head]. rewrite !words_of_cons, !word_data. f_equal.
  rewrite <- app_assoc, word_data. apply Hw.
Qed.

Lemma app_snoc (s : string) c t : s +:+ String c t = snoc s c +:+ t.
Proof. unfold snoc. induction s as [|d s IH]; [done|]. exact (f_equal (String d) IH). Qed.

Lemma pending_data cur r c l :
  is_blank (r, c) = false -> r <> RSyntax ->
  pending cur ((r, c) :: l) = pending (snoc cur c) l.
Proof.
  intros Hb Hr. apply pending_head; [done|]. intros w.
  by rewrite word_cons_data, app_snoc by done.
Qed.

Lemma pending_syntax cur c l : pending cur ((RSyntax, c) :: l) = pending cur l.
Proof. by apply pending_head. Qed.

Lemma pending_nil cur : pending cur [] = flushToken cur [].
Proof.
  unfold pending. change (split_on is_blank []) with ([[]] : list (list (role * ascii))).
  cbn [on_head]. rewrite words_of_cons, word_data.
  change (word []) with "". by rewrite str_app_nil_r.
Qed.

Lemma pending_blank cur x l :
  is_blank x = true -> pending cur (x :: l) = flushToken cur (pending "" l).
Proof.
  intros Hx. unfold pending. rewrite split_on_sep by done. cbn [on_head].
  rewrite words_of_cons, word_data. change (word []) with "". rewrite str_app_nil_r.
  f_equal. change (data "") with (@nil (role * ascii)). by rewrite on_head_nil.
Qed.

Lemma tokenize_loop_lex s : forall q cur,
  tokenize_loop (qbyte q) cur s = pending cur (lex_from q s).
Proof.
  induction s as [s IH] using string_length_ind. intros q cur.
  destruct s as [|c s]; [symmetry; apply pending_nil|].
  cbn [tokenize_loop lex_from].
  quote_cases c s q; rewrite ?pending_syntax; rewrite ?pending_data by done;
    rewrite ?pending_nil; try done; try use_ih2 IH.
  destruct ((c =c SPACE) || (c =c TAB) || (c =c NL) || (c =c CR)) eqn:Eb.
  - rewrite pending_blank by (simpl; done). f_equal. use_ih2 IH.
  - rewrite pending_data by (simpl; done). use_ih2 IH.
Qed.

(** *** The four scanners and the lexer *)

Lemma hasTopLevelRedirect_lex s : hasTopLevelRedirect s = existsb is_redirect (lex s).
Proof. exact (redirect_loop_lex s QNone). Qed.

Lemma containsSubstitution_lex s : containsSubstitution s = has_substitution (lex s).
Proof. exact (substitution_loop_lex s QNone). Qed.

Lemma splitSegments_lex s :
  splitSegments s
  = List.filter nonempty
      (map (fun l => GoStr.TrimSpace (text l)) (split_on is_separator (lex s))).
Proof.
  etransitivity; [exact (split_loop_lex s QNone "")|].
  cbn [list_ascii_of_string]. rewrite on_head_ne by apply cut_ne.
  unfold segments_of, cut, text. by rewrite map_map.
Qed.

Lemma tokenize_lex s :
  tokenize s = List.filter nonempty (map word (split_on is_blank (lex s))).
Proof.
  etransitivity; [exact (tokenize_loop_lex s QNone "")|]. unfold pending.
  change (data "") with (@nil (role * ascii)). by rewrite on_head_nil.
Qed.

End Scan.
