(* ===== verification/ClassifyArgs.v ===== *)
(** * Argument rules: the common part (src/classify/classifier.go)

    The [Kind] of a command and the helpers every argument rule uses:
    [firstNonFlag], [hasEqValue], [eqValue] and [matchesAbbrev], the matcher of
    GNU long-option abbreviations. *)

From S2P Require Import Prelude.

(** Kind *)
Inductive Kind := KindUnknown | KindRead | KindWrite.

#[export] Instance Kind_eq_dec : EqDecision Kind.
Proof. solve_decision. Defined.

(** Kind.String *)
Definition KindString (k : Kind) : string :=
  match k with
  | KindRead => "read"
  | KindWrite => "write"
  | KindUnknown => "unknown"
  end.

(** argRule; the nil rule of the allowlist is [None] there. *)
Abbreviation argRule := (list string -> Kind).

Module Args.

(** [a[0] == '-'] where the code has checked [len(a) > 0]. *)
Definition is_flag (a : string) : bool := GoStr.head_is "-" a.

(** firstNonFlag *)
Fixpoint firstNonFlag (args : list string) : string :=
  match args with
  | [] => ""
  | a :: rest =>
      if (a =s "") || GoStr.HasPrefix a "-" then firstNonFlag rest else a
  end.

(** hasEqValue *)
Definition hasEqValue (arg : string) : bool :=
  GoStr.HasPrefix arg "--"
  && (match GoStr.IndexByte (GoStr.drop 2 arg) "=" with Some _ => true | None => false end).

(** eqValue *)
Definition eqValue (arg : string) : string :=
  match GoStr.IndexByte arg "=" with
  | Some eq => GoStr.drop (S eq) arg
  | None => ""
  end.

(** The option name of a long option: [body] after the [=VALUE] strip. *)
Definition optionName (body : string) : string :=
  match GoStr.IndexByte body "=" with
  | Some eq => GoStr.take eq body
  | None => body
  end.

(** matchesAbbrev *)
Definition matchesAbbrev (arg : string) (opts : list string) : bool :=
  if negb (GoStr.HasPrefix arg "--") then false
  else
    let body := optionName (GoStr.drop 2 arg) in
    if body =s "" then false
    else existsb (fun stem => GoStr.HasPrefix stem body) opts.

(** A short-flag bundle [-xyz]: [len(a) >= 2 && a[0] == '-' && a[1] != '-']. *)
Definition is_bundle (a : string) : bool :=
  match a with
  | String a0 (String a1 _) => (a0 =c "-")%char && negb (a1 =c "-")%char
  | _ => false
  end.

(** [i+1 < len(args) && args[i+1] != "-"]: a file operand follows. *)
Definition operand_is_file (rest : list string) : bool :=
  match rest with
  | b :: _ => negb (b =s "-")
  | [] => false
  end.

(** The write methods of curl and wget. *)
Definition isWriteMethod (m : string) : bool :=
  GoStr.one_of m ["POST"; "PUT"; "DELETE"; "PATCH"].

End Args.
