(* ===== verification/ClassifyNet.v ===== *)
(** * Argument rules for curl and wget (src/classify/rules_net.go) *)

From S2P Require Import Prelude ClassifyArgs.

Module Net.
Import GoStr Args.

(** The [switch a] of curlRule: true where the arm returns KindWrite. *)
Definition curlSwitch (a : string) (rest : list string) : bool :=
  if one_of a ["-X"; "--request"] then
    match rest with
    | b :: _ => isWriteMethod (ToUpper b)
    | [] => false
    end
  else if one_of a ["-d"; "--data"; "--data-raw"; "--data-binary"; "--data-urlencode";
                    "-F"; "--form"; "-T"; "--upload-file"] then true
  else if one_of a ["-K"; "--config"] then true
  else if one_of a ["-o"; "--output"] then operand_is_file rest
  else if one_of a ["-O"; "--remote-name"; "--remote-name-all"] then true
  else if one_of a ["-D"; "--dump-header"; "--trace"; "--trace-ascii";
                    "-c"; "--cookie-jar"; "--stderr"; "--libcurl";
                    "--etag-save"; "--hsts"; "--alt-svc"; "--output-dir"]
  then operand_is_file rest
  else false.

Definition curlFilePrefixes : list string :=
  ["--dump-header="; "--trace="; "--trace-ascii=";
   "--cookie-jar="; "--stderr="; "--libcurl=";
   "--etag-save="; "--hsts="; "--alt-svc="; "--output-dir="].

(** The tests that follow the switch, in order. *)
Definition curlGlued (a : string) : bool :=
  existsb (fun pfx => HasPrefix a pfx && negb (TrimPrefix a pfx =s "-")) curlFilePrefixes
  || (HasPrefix a "-o" && longer a 2 && negb (head_is "-" (drop 1 a))
      && negb (drop 2 a =s "-"))
  || ((HasPrefix a "-D" || HasPrefix a "-c") && longer a 2 && negb (drop 2 a =s "-"))
  || (HasPrefix a "--data=" || HasPrefix a "--data-raw=" || HasPrefix a "--data-binary="
      || HasPrefix a "--data-urlencode=" || HasPrefix a "--form=")
  || (HasPrefix a "--output=" && negb (TrimPrefix a "--output=" =s "-"))
  || HasPrefix a "--config="
  || (HasPrefix a "-X" && longer a 2 && isWriteMethod (ToUpper (drop 2 a))).

(** curlRule *)
Fixpoint curlRule (args : list string) : Kind :=
  match args with
  | [] => KindRead
  | a :: rest =>
      if curlSwitch a rest || curlGlued a then KindWrite else curlRule rest
  end.

(** One iteration of wgetRule: [None] is [return KindWrite], [Some b] goes on
    with [stdoutOutput = b]. *)
Definition wgetStep (stdoutOutput : bool) (a : string) (rest : list string) : option bool :=
  let next_is_dash := match rest with b :: _ => b =s "-" | [] => false end in
  let switch :=
    if one_of a ["-O-"; "--output-document=-"] then Some true
    else if one_of a ["-O"; "--output-document"] then
      if next_is_dash then Some true else None
    else if HasPrefix a "--output-document=" then None
    else if HasPrefix a "-O" && longer a 2 then None
    else if one_of a ["-o"; "--output-file"] then
      if next_is_dash then Some stdoutOutput else None
    else if HasPrefix a "--output-file=" then
      if TrimPrefix a "--output-file=" =s "-" then Some stdoutOutput else None
    else if HasPrefix a "-o" && longer a 2 then
      if drop 2 a =s "-" then Some stdoutOutput else None
    else if (a =s "--post-data") || HasPrefix a "--post-data="
            || (a =s "--post-file") || HasPrefix a "--post-file=" then None
    else Some stdoutOutput in
  match switch with
  | None => None
  | Some b =>
      if HasPrefix a "--method=" && isWriteMethod (ToUpper (TrimPrefix a "--method="))
      then None else Some b
  end.

Fixpoint wgetRule_loop (stdoutOutput : bool) (args : list string) : Kind :=
  match args with
  | [] => if stdoutOutput then KindRead else KindWrite
  | a :: rest =>
      match wgetStep stdoutOutput a rest with
      | None => KindWrite
      | Some b => wgetRule_loop b rest
      end
  end.

(** wgetRule *)
Definition wgetRule (args : list string) : Kind := wgetRule_loop false args.

End Net.
