(* ===== verification/ClassifySystem.v ===== *)
(** * Argument rules for system and subcommand tools (src/classify/rules_system.go) *)

From S2P Require Import Prelude ClassifyArgs.

Module System.
Import GoStr Args.

Definition write_if (b : bool) : Kind := if b then KindWrite else KindRead.

Definition journalctlDangerousLong : list string :=
  ["rotate"; "vacuum-size"; "vacuum-time"; "vacuum-files"; "flush"; "sync";
   "relinquish-var"; "smart-relinquish-var"; "update-catalog"; "setup-keys"].

(** journalctlFlagIsDangerous: like matchesAbbrev, but at least three characters. *)
Definition journalctlFlagIsDangerous (a : string) : bool :=
  if negb (HasPrefix a "--") then false
  else
    let body := optionName (drop 2 a) in
    if String.length body <? 3 then false
    else existsb (fun stem => HasPrefix stem body) journalctlDangerousLong.

(** journalctlRule *)
Definition journalctlRule (args : list string) : Kind :=
  write_if (existsb journalctlFlagIsDangerous args).

(** dateRule *)
Fixpoint dateRule (args : list string) : Kind :=
  match args with
  | [] => KindRead
  | a :: rest =>
      if (a =s "-s") || matchesAbbrev a ["set"]
         || (HasPrefix a "-s" && negb (HasPrefix a "--") && longer a 2) then KindWrite
      else if one_of a ["-d"; "--date"; "-r"; "--reference"; "-f"; "--file"] then
        match rest with
        | _ :: rest' => dateRule rest'
        | [] => KindRead
        end
      else if head_is "-" a || head_is "+" a then dateRule rest
      else KindWrite
  end.

Definition ipReadVerbs : list string := ["show"; "list"; "get"; "monitor"; "save"; "help"].
Definition ipWriteVerbs : list string :=
  ["add"; "del"; "delete"; "set"; "change"; "chg"; "replace"; "append";
   "prepend"; "flush"; "modify"; "remove"; "restore"; "reset"; "enslave"].

(** ipActionIsRead *)
Definition ipActionIsRead (action : string) : bool :=
  if negb (existsb (fun v => HasPrefix v action) ipReadVerbs) then false
  else negb (existsb (fun v => HasPrefix v action) ipWriteVerbs).

(** The object/action loop: the second token that is neither empty nor a flag. *)
Fixpoint ipAction (have : nat) (args : list string) : string :=
  match args with
  | [] => ""
  | a :: rest =>
      if (a =s "") || is_flag a then ipAction have rest
      else if have =? 1 then a else ipAction (S have) rest
  end.

(** ipRule *)
Definition ipRule (args : list string) : Kind :=
  if existsb (fun a => one_of a ["-b"; "-batch"; "--batch"; "-force"; "--force"]) args
  then KindWrite
  else
    let action := ipAction 0 args in
    if action =s "" then KindRead
    else if ipActionIsRead action then KindRead
    else KindWrite.

Fixpoint count_positionals (args : list string) : nat :=
  match args with
  | [] => 0
  | a :: rest => if is_flag a then count_positionals rest else S (count_positionals rest)
  end.

(** ifconfigRule *)
Definition ifconfigRule (args : list string) : Kind :=
  write_if (2 <=? count_positionals args).

(** timedatectlRule *)
Definition timedatectlRule (args : list string) : Kind :=
  if one_of (firstNonFlag args)
       [""; "status"; "show"; "show-timesync"; "timesync-status"; "list-timezones"]
  then KindRead else KindWrite.

(** dmesgRule *)
Definition dmesgRule (args : list string) : Kind :=
  write_if (existsb (fun a =>
    one_of a ["-C"; "-c"; "-D"; "-E"; "-n"]
    || matchesAbbrev a ["clear"; "read-clear"; "console-off"; "console-on"; "console-level"])
    args).

(** hostnameRule *)
Fixpoint hostnameRule (args : list string) : Kind :=
  match args with
  | [] => KindRead
  | a :: rest =>
      if a =s "" then hostnameRule rest
      else if is_flag a && negb (a =s "-") then
        if (a =s "-F") || matchesAbbrev a ["file"] then KindWrite else hostnameRule rest
      else KindWrite
  end.

(** ssRule *)
Definition ssRule (args : list string) : Kind :=
  write_if (existsb (fun a => (a =s "-K") || matchesAbbrev a ["kill"]) args).

(** lastlogRule *)
Definition lastlogRule (args : list string) : Kind :=
  write_if (existsb (fun a =>
    one_of a ["-C"; "-S"] || matchesAbbrev a ["clear"; "set"]) args).

(** lessRule *)
Definition lessRule (args : list string) : Kind :=
  write_if (existsb (fun a =>
    one_of a ["-o"; "-O"]
    || (matchesAbbrev a ["log-file"] || matchesAbbrev a ["LOG-FILE"])
    || (longer a 2 && head_is "-" a
        && (head_is "o" (drop 1 a) || head_is "O" (drop 1 a)))) args).

(** systemctlRule *)
Definition systemctlRule (args : list string) : Kind :=
  if one_of (firstNonFlag args)
       ["status"; "is-active"; "is-enabled"; "is-failed";
        "list-units"; "list-unit-files"; "list-sockets"; "list-timers";
        "show"; "cat"; "get-default"]
  then KindRead else KindWrite.

(** serviceRule *)
Definition serviceRule (args : list string) : Kind :=
  if (2 <=? List.length args) && (List.last args "" =s "status")
  then KindRead else KindWrite.

(** dockerRule *)
Definition dockerRule (args : list string) : Kind :=
  if one_of (firstNonFlag args)
       ["ps"; "logs"; "inspect"; "images"; "stats";
        "version"; "info"; "top"; "diff"; "history";
        "port"; "events"; "search"]
  then KindRead else KindWrite.

(** gitBranchKind *)
Definition gitBranchKind (args : list string) : Kind :=
  write_if (existsb (fun a =>
    one_of a ["-d"; "-D"; "-m"; "-M"; "-c"; "-C"]
    || matchesAbbrev a ["delete"; "move"; "copy"]) args).

(** gitStashKind *)
Fixpoint gitStashKind_loop (seen : bool) (args : list string) : Kind :=
  match args with
  | [] => KindWrite
  | a :: rest =>
      if (a =s "") || HasPrefix a "-" then gitStashKind_loop seen rest
      else if negb seen then gitStashKind_loop true rest
      else if one_of a ["list"; "show"] then KindRead
      else KindWrite
  end.

Definition gitStashKind (args : list string) : Kind := gitStashKind_loop false args.

(** gitConfigKind *)
Definition gitConfigKind (args : list string) : Kind :=
  write_if (existsb (fun a =>
    (a =s "-e")
    || matchesAbbrev a ["set"; "unset"; "unset-all"; "add"; "replace-all";
                        "remove-section"; "rename-section"; "edit"]) args).

(** gitRule *)
Definition gitRule (args : list string) : Kind :=
  if existsb (fun a => (a =s "-c") || (a =s "--config-env")
                       || HasPrefix a "--config-env=") args
  then KindWrite
  else
    let sub := firstNonFlag args in
    if one_of sub ["status"; "log"; "diff"; "show"; "blame"; "describe"; "remote";
                   "rev-parse"; "ls-files"; "ls-remote"; "shortlog"] then KindRead
    else if sub =s "branch" then gitBranchKind args
    else if sub =s "stash" then gitStashKind args
    else if sub =s "config" then gitConfigKind args
    else KindWrite.

End System.
