(* ===== verification/ClassifyText.v ===== *)
(** * Argument rules for find, sed, awk, uniq and sort (src/classify/rules_text.go)

    The sed and awk rules scan the program text.  Where the Go code looks back
    at [prog[i-1]] the model carries the preceding byte (or the reversed
    prefix); where it jumps forward it recurses on a later suffix, with a fuel
    that [*_fuel] lemmas show to be enough: the length of the text. *)

From S2P Require Import Prelude ClassifyArgs.

Module Text.
Import GoStr Args.

(** findRule *)
Fixpoint findRule (args : list string) : Kind :=
  match args with
  | [] => KindRead
  | a :: rest =>
      if one_of a ["-delete"; "-exec"; "-execdir"; "-ok"; "-okdir";
                   "-fprint"; "-fprintf"; "-fprint0"; "-fls"] then KindWrite
      else if HasPrefix a "-fprint" then KindWrite
      else findRule rest
  end.

(** ** sed *)

(** The short-flag scan of sedRule: an [i] before any of [e], [f], [l]. *)
Fixpoint sedBundleInPlace (flags : string) : bool :=
  match flags with
  | EmptyString => false
  | String c rest =>
      if (c =c "i")%char then true
      else if ((c =c "e") || (c =c "f") || (c =c "l"))%char then false
      else sedBundleInPlace rest
  end.

(** The first loop of sedRule. *)
Definition sedInPlace (a : string) : bool :=
  (a =s "-i") || HasPrefix a "--in" || (is_bundle a && sedBundleInPlace (drop 1 a)).

(** The option loop of sedScripts: (scripts, sawEOrF, hasF). *)
Fixpoint sedScripts_loop (args : list string) : list string * bool * bool :=
  match args with
  | [] => ([], false, false)
  | a :: rest =>
      let isExpr := (a =s "-e") || matchesAbbrev a ["expression"] in
      let isFile := (a =s "-f") || matchesAbbrev a ["file"] in
      if isExpr && hasEqValue a then
        let '(s, _, f) := sedScripts_loop rest in (eqValue a :: s, true, f)
      else if isExpr then
        match rest with
        | b :: rest' => let '(s, _, f) := sedScripts_loop rest' in (b :: s, true, f)
        | [] => ([], true, false)
        end
      else if isFile && hasEqValue a then
        let '(s, _, _) := sedScripts_loop rest in (s, true, true)
      else if isFile then
        match rest with
        | _ :: rest' => let '(s, _, _) := sedScripts_loop rest' in (s, true, true)
        | [] => ([], true, true)
        end
      else sedScripts_loop rest
  end.

(** sedScripts *)
Definition sedScripts (args : list string) : list string :=
  let '(scripts, sawEOrF, hasF) := sedScripts_loop args in
  let scripts :=
    if negb sawEOrF then
      match List.find (fun a => negb (a =s "") && negb (is_flag a)) args with
      | Some a => scripts ++ [a]
      | None => scripts
      end
    else scripts in
  if hasF then scripts ++ ["/e"] else scripts.

(** Skip back over blanks: the bytes before, nearest first, and [spaced]. *)
Fixpoint sedSkipBack (spaced : bool) (before : list ascii) : bool * list ascii :=
  match before with
  | c :: before' =>
      if (c =c SPACE) || (c =c TAB) then sedSkipBack true before' else (spaced, before)
  | [] => (spaced, [])
  end.

(** The command-position test at one letter. *)
Definition sedInCommandPosition (before : list ascii) : bool :=
  match sedSkipBack false before with
  | (_, []) => true
  | (spaced, p :: _) =>
      is_digit p || ((p =c ";") || (p =c "}") || (p =c "{") || (p =c "$"))%char
      || (spaced && (p =c "/")%char)
  end.

Fixpoint sedCommandLetters (before : list ascii) (script : string) : bool :=
  match script with
  | EmptyString => false
  | String c rest =>
      (((c =c "r") || (c =c "R") || (c =c "w") || (c =c "W") || (c =c "e"))%char
       && sedInCommandPosition before)
      || sedCommandLetters (c :: before) rest
  end.

(** Not a delimiter: [s] is data. *)
Definition sedNotDelimiter (d : ascii) : bool :=
  (d =c SPACE) || (d =c TAB) || (d =c NL) || (d =c BACKSLASH)
  || is_lower d || is_upper d || is_digit d.

(** Walk past pattern and replacement: two more delimiters. *)
Fixpoint sedWalk (d : ascii) (seen : nat) (s : string) : string * nat :=
  if seen <? 2 then
    match s with
    | EmptyString => (s, seen)
    | String c rest =>
        if c =c BACKSLASH then
          match rest with
          | String _ rest' => sedWalk d seen rest'
          | EmptyString => (rest, seen)
          end
        else sedWalk d (if c =c d then S seen else seen) rest
    end
  else (s, seen).

(** The flag run: [None] when it executes or writes, else what follows it. *)
Fixpoint sedFlagRun (s : string) : option string :=
  match s with
  | EmptyString => Some s
  | String c rest =>
      if ((c =c "e") || (c =c "w") || (c =c "W"))%char then None
      else if is_digit c || ((c =c "g") || (c =c "p") || (c =c "i") || (c =c "I")
                             || (c =c "m") || (c =c "M"))%char then sedFlagRun rest
      else Some s
  end.

Fixpoint sedSCommand_loop (fuel : nat) (script : string) : bool :=
  match fuel with
  | 0 => false
  | S fuel =>
      match script with
      | String c (String d body as rest) =>
          if negb (c =c "s")%char then sedSCommand_loop fuel rest
          else if sedNotDelimiter d then sedSCommand_loop fuel rest
          else
            let '(tail, seen) := sedWalk d 0 body in
            match sedFlagRun tail with
            | None => true
            | Some tail' => if seen <? 2 then false else sedSCommand_loop fuel tail'
            end
      | _ => false
      end
  end.

(** sedSCommandExecsOrWrites *)
Definition sedSCommandExecsOrWrites (script : string) : bool :=
  sedSCommand_loop (String.length script) script.

(** sedScriptIsDangerous *)
Definition sedScriptIsDangerous (script : string) : bool :=
  if Contains script "/e" || Contains script "e}" then true
  else if Contains script "/w " || Contains script "/W "
          || Contains script "/r " || Contains script "/R " then true
  else if sedSCommandExecsOrWrites script then true
  else sedCommandLetters [] script.

(** sedRule *)
Definition sedRule (args : list string) : Kind :=
  let scripts := sedScripts args in
  if existsb sedInPlace args then KindWrite
  else if existsb sedScriptIsDangerous scripts then KindWrite
  else KindRead.

(** ** awk *)

(** isAwkIdentChar *)
Definition isAwkIdentChar (c : ascii) : bool :=
  (c =c "_")%char || is_lower c || is_upper c || is_digit c.

Definition prev_is_ident (prev : option ascii) : bool :=
  match prev with Some c => isAwkIdentChar c | None => false end.
Definition next_is_ident (s : string) : bool :=
  match s with String c _ => isAwkIdentChar c | EmptyString => false end.

(** awkWordAt: [prev] is [prog[i-1]], [s] is [prog[i:]]. *)
Definition awkWordAt (prev : option ascii) (s word : string) : bool :=
  HasPrefix s word && negb (prev_is_ident prev)
  && negb (next_is_ident (drop (String.length word) s)).

(** containsGetline *)
Fixpoint containsGetline_loop (prev : option ascii) (prog : string) : bool :=
  awkWordAt prev prog "getline"
  || match prog with
     | String c rest => containsGetline_loop (Some c) rest
     | EmptyString => false
     end.

Definition containsGetline (prog : string) : bool := containsGetline_loop None prog.

Fixpoint skip_blanks (s : string) : string :=
  match s with
  | String c rest => if (c =c SPACE) || (c =c TAB) then skip_blanks rest else s
  | EmptyString => s
  end.

(** redirectsToFileOrPipe *)
Fixpoint redirectsToFileOrPipe (prog : string) : bool :=
  match prog with
  | EmptyString => false
  | String c rest =>
      if negb (c =c ">")%char then redirectsToFileOrPipe rest
      else if head_is "=" rest then redirectsToFileOrPipe rest
      else if head_is DQUOTE (skip_blanks rest) || head_is "(" (skip_blanks rest) then true
      else redirectsToFileOrPipe rest
  end.

(** awkSkipString, on the bytes after the opening quote: what follows the
    closing quote, or nothing when the literal is not closed. *)
Fixpoint awkSkipString (s : string) : string :=
  match s with
  | EmptyString => EmptyString
  | String c rest =>
      if c =c BACKSLASH then
        match rest with
        | String _ rest' => awkSkipString rest'
        | EmptyString => EmptyString
        end
      else if c =c DQUOTE then rest
      else awkSkipString rest
  end.

(** awkPrintStmtRedirects: [None] for (true, j); [Some (prev, rest)] for
    (false, j), with [rest] the program after index [j] and [prev] the byte at
    [j].  [prev] is the byte before [s]. *)
Fixpoint awkPrintStmtRedirects (fuel depth : nat) (prev : ascii) (s : string)
  : option (ascii * string) :=
  match fuel with
  | 0 => Some (prev, s)
  | S fuel =>
      match s with
      | EmptyString => Some (prev, s)
      | String c rest =>
          if c =c DQUOTE then awkPrintStmtRedirects fuel depth DQUOTE (awkSkipString rest)
          else if ((c =c "(") || (c =c "[") || (c =c "{"))%char then
            awkPrintStmtRedirects fuel (S depth) c rest
          else if ((c =c ")") || (c =c "]"))%char then
            awkPrintStmtRedirects fuel (pred depth) c rest
          else if (c =c "}")%char then
            if 0 <? depth then awkPrintStmtRedirects fuel (pred depth) c rest
            else Some (c, rest)
          else if (c =c ";")%char || (c =c NL) then
            if depth =? 0 then Some (c, rest) else awkPrintStmtRedirects fuel depth c rest
          else if (c =c ">")%char then
            if (depth =? 0) && negb (head_is "=" rest) then None
            else awkPrintStmtRedirects fuel depth c rest
          else if (c =c "|")%char then
            if (depth =? 0) && negb (prev =c "|")%char && negb (head_is "|" rest) then None
            else awkPrintStmtRedirects fuel depth c rest
          else awkPrintStmtRedirects fuel depth c rest
      end
  end.

(** awkProgHasPrintRedirect *)
Fixpoint awkPrintRedirect_loop (fuel : nat) (prev : option ascii) (prog : string) : bool :=
  match fuel with
  | 0 => false
  | S fuel =>
      match prog with
      | EmptyString => false
      | String c rest =>
          if c =c DQUOTE then awkPrintRedirect_loop fuel (Some DQUOTE) (awkSkipString rest)
          else
            let kwLen := if awkWordAt prev prog "printf" then 6
                         else if awkWordAt prev prog "print" then 5 else 0 in
            if kwLen =? 0 then awkPrintRedirect_loop fuel (Some c) rest
            else
              let body := drop kwLen prog in
              let kwEnd := if kwLen =? 6 then "f"%char else "t"%char in
              match awkPrintStmtRedirects (String.length body) 0 kwEnd body with
              | None => true
              | Some (prev', prog') => awkPrintRedirect_loop fuel (Some prev') prog'
              end
      end
  end.

Definition awkProgHasPrintRedirect (prog : string) : bool :=
  awkPrintRedirect_loop (String.length prog) None prog.

(** awkProgIsDangerous *)
Definition awkProgIsDangerous (prog : string) : bool :=
  if Contains prog "system" then true
  else if containsGetline prog then true
  else if Contains prog (String "|" (String " " (String DQUOTE "")))
          || Contains prog (String "|" (String DQUOTE "")) then true
  else if Contains prog ">>" then true
  else if redirectsToFileOrPipe prog then true
  else awkProgHasPrintRedirect prog.

(** The flag byte of a bundle, [a[1]]. *)
Definition awkShortFlag (a : string) : bool :=
  is_bundle a
  && match drop 1 a with
     | String c _ => ((c =c "i") || (c =c "e") || (c =c "l") || (c =c "E")
                      || (c =c "o") || (c =c "p") || (c =c "d") || (c =c "D"))%char
     | EmptyString => false
     end.

(** awkRule *)
Fixpoint awkRule (args : list string) : Kind :=
  match args with
  | [] => KindRead
  | a :: rest =>
      if (a =s "-f") || (HasPrefix a "-f" && longer a 2) then KindWrite
      else if matchesAbbrev a ["file"; "source"; "include"; "in-place"; "load";
                               "exec"; "pretty-print"; "profile"; "dump-variables"; "debug"]
      then KindWrite
      else if awkShortFlag a then KindWrite
      else if (a =s "") || is_flag a then awkRule rest
      else if awkProgIsDangerous a then KindWrite
      else awkRule rest
  end.

(** ** uniq and sort *)

Fixpoint uniqPositionals (args : list string) : nat :=
  match args with
  | [] => 0
  | a :: rest =>
      if a =s "" then uniqPositionals rest
      else if is_flag a && negb (a =s "-") then
        if one_of a ["-f"; "--skip-fields"; "-s"; "--skip-chars"; "-w"; "--check-chars"]
        then match rest with
             | _ :: rest' => uniqPositionals rest'
             | [] => 0
             end
        else uniqPositionals rest
      else S (uniqPositionals rest)
  end.

(** uniqRule *)
Definition uniqRule (args : list string) : Kind :=
  if 2 <=? uniqPositionals args then KindWrite else KindRead.

(** The bundle scan of sortRule: an [o] before any value-consuming flag. *)
Fixpoint sortBundleOutput (flags : string) : bool :=
  match flags with
  | EmptyString => false
  | String c rest =>
      if (c =c "o")%char then true
      else if ((c =c "k") || (c =c "t") || (c =c "S") || (c =c "T"))%char then false
      else sortBundleOutput rest
  end.

(** sortRule *)
Fixpoint sortRule (args : list string) : Kind :=
  match args with
  | [] => KindRead
  | a :: rest =>
      if matchesAbbrev a ["output"; "compress-program"] then KindWrite
      else if HasPrefix a "-o" && longer a 2 && negb (head_is "-" (drop 1 a)) then KindWrite
      else if is_bundle a && sortBundleOutput (drop 1 a) then KindWrite
      else sortRule rest
  end.

End Text.
