(* ===== verification/Classify.v ===== *)
(** * The read/write classifier (src/classify/classifier.go, src/classify/env.go)

    [Classify] puts the scanners, the allowlist and the argument rules
    together.  [readAllowlist["env"]] is wired to [envRule] in Go's [init]; here
    the allowlist takes the env rule as an argument, and [envRule] closes the
    recursion with a fuel equal to the number of arguments plus one, which
    [envRule_unfold] shows to be enough. *)

From S2P Require Import Prelude ClassifyScan ClassifyArgs ClassifyNet ClassifySystem ClassifyText.
Import Scan Args.

(** dangerousEnvVars *)
Definition dangerousEnvVars : list string :=
  ["GIT_EXTERNAL_DIFF"; "GIT_SSH_COMMAND"; "GIT_SSH"; "GIT_PAGER"; "GIT_EDITOR";
   "GIT_EXEC_PATH"; "GIT_TERMINAL_PROMPT"; "LESSOPEN"; "LESSCLOSE"; "LESSEDIT";
   "LD_PRELOAD"; "LD_LIBRARY_PATH"; "LD_AUDIT"; "IFS"; "PATH"; "SHELL"; "BASH_ENV";
   "ENV"; "PYTHONSTARTUP"; "PYTHONPATH"; "PERL5OPT"; "PERL5LIB"; "RUBYOPT"; "RUBYLIB";
   "MANPAGER"; "PAGER"; "HOME"; "XDG_CONFIG_HOME"; "XDG_DATA_HOME"; "XDG_CACHE_HOME";
   "XDG_STATE_HOME"; "XDG_RUNTIME_DIR"].

Definition dangerousEnv (key : string) : bool := GoStr.one_of key dangerousEnvVars.

(** The entries of readAllowlist; [None] is a nil rule. *)
Definition allowlistEntries (envR : argRule) : list (string * option argRule) :=
  [ ("cat", None); ("less", Some System.lessRule); ("more", None); ("head", None);
    ("tail", None); ("wc", None); ("file", None); ("stat", None); ("readlink", None);
    ("ls", None); ("find", Some Text.findRule); ("locate", None); ("which", None);
    ("whereis", None);
    ("grep", None); ("egrep", None); ("fgrep", None); ("awk", Some Text.awkRule);
    ("sed", Some Text.sedRule); ("sort", Some Text.sortRule);
    ("uniq", Some Text.uniqRule); ("diff", None); ("comm", None);
    ("df", None); ("du", None); ("free", None); ("uptime", None); ("uname", None);
    ("hostname", Some System.hostnameRule); ("whoami", None); ("id", None);
    ("groups", None); ("date", Some System.dateRule);
    ("timedatectl", Some System.timedatectlRule);
    ("env", Some envR); ("printenv", None);
    ("echo", None); ("printf", None); ("true", None); ("false", None);
    ("ps", None); ("top", None); ("htop", None); ("pgrep", None); ("lsof", None);
    ("ss", Some System.ssRule); ("netstat", None); ("ip", Some System.ipRule);
    ("ifconfig", Some System.ifconfigRule); ("ping", None); ("dig", None);
    ("nslookup", None); ("traceroute", None); ("curl", Some Net.curlRule);
    ("wget", Some Net.wgetRule);
    ("journalctl", Some System.journalctlRule); ("dmesg", Some System.dmesgRule);
    ("last", None); ("lastlog", Some System.lastlogRule); ("w", None); ("who", None);
    ("systemctl", Some System.systemctlRule); ("service", Some System.serviceRule);
    ("docker", Some System.dockerRule); ("git", Some System.gitRule) ].

Definition readAllowlist (envR : argRule) : gmap string (option argRule) :=
  list_to_map (allowlistEntries envR).

(** The end of classifySegment and of classifyWrapped: sudo, lookup, rule. *)
Definition classifyHead (envR : argRule) (head : string) (args : list string) : Kind :=
  if head =s "sudo" then KindWrite
  else match readAllowlist envR !! head with
       | None => KindWrite
       | Some None => KindRead
       | Some (Some rule) => rule args
       end.

(** The assignment-strip loop and the head dispatch, on tokens: the body of
    classifyWrapped. *)
Fixpoint classifyTokens (envR : argRule) (tokens : list string) : Kind :=
  match tokens with
  | [] => KindUnknown
  | tok :: rest =>
      if isAssignment tok then
        if dangerousEnv (assignKey tok) then KindWrite else classifyTokens envR rest
      else classifyHead envR tok rest
  end.

(** The loop of envRule, for [len(args) > 0]. *)
Fixpoint envRule_loop (wrapped : list string -> Kind) (args : list string) : Kind :=
  match args with
  | [] => KindRead
  | a :: rest =>
      if is_flag a && negb (a =s "--") then KindWrite
      else if a =s "--" then
        match rest with [] => KindRead | _ => wrapped rest end
      else if isAssignment a then
        if dangerousEnv (assignKey a) then KindWrite else envRule_loop wrapped rest
      else wrapped args
  end.

(** envRule, with the recursion through the allowlist bounded by fuel. *)
Fixpoint envRule_fuel (fuel : nat) (args : list string) : Kind :=
  match fuel with
  | 0 => KindWrite
  | S fuel => envRule_loop (classifyTokens (envRule_fuel fuel)) args
  end.

Definition envRule (args : list string) : Kind := envRule_fuel (S (List.length args)) args.

(** classifyWrapped *)
Definition classifyWrapped (tokens : list string) : Kind := classifyTokens envRule tokens.

(** classifySegment *)
Definition classifySegment (seg : string) : Kind := classifyTokens envRule (tokenize seg).

(** The segment loop of Classify. *)
Fixpoint classifySegments (sawRead : bool) (segments : list string) : Kind :=
  match segments with
  | [] => if sawRead then KindRead else KindUnknown
  | seg :: rest =>
      match classifySegment seg with
      | KindWrite => KindWrite
      | KindUnknown => classifySegments sawRead rest
      | KindRead => classifySegments true rest
      end
  end.

(** Classify *)
Definition Classify (cmd : string) : Kind :=
  if negb (hasPrintable cmd) then KindUnknown
  else if containsSubstitution cmd then KindWrite
  else if hasTopLevelRedirect cmd then KindWrite
  else
    let segments := splitSegments cmd in
    match segments with
    | [] => KindUnknown
    | _ => classifySegments false segments
    end.


#[global] Arguments dangerousEnv : simpl never.
#[global] Arguments isAssignment : simpl never.
#[global] Arguments assignKey : simpl never.
#[global] Arguments readAllowlist : simpl never.
#[global] Arguments classifyHead : simpl never.
#[global] Arguments classifySegment : simpl never.
#[global] Arguments envRule : simpl never.
