(* ===== verification/ClassifyProps.v ===== *)
(** * What the classifier guarantees

    Theorems about [Classify], [classifySegment], [envRule] and the argument
    rules of src/classify.  [Scan.lex] is the specification of quoting: the
    statements speak of active (unquoted, unescaped) bytes, of the segments
    between active separators and of the words between active blanks. *)

From S2P Require Import Prelude ClassifyScan ClassifyArgs ClassifyNet ClassifySystem ClassifyText Classify.
Import Scan Args.

(** The segments and words of a line, by the reference lexer. *)
Definition line_segments (cmd : string) : list string :=
  List.filter nonempty
    (map (fun l => GoStr.TrimSpace (text l)) (split_on is_separator (lex cmd))).

Definition segment_words (seg : string) : list string :=
  List.filter nonempty (map word (split_on is_blank (lex seg))).

(** A leading assignment the classifier skips. *)
Definition safe_assignment (tok : string) : Prop :=
  isAssignment tok = true /\ dangerousEnv (assignKey tok) = false.

(** The allowlist accepts this head with these arguments. *)
Definition allowed (head : string) (args : list string) : Prop :=
  head <> "sudo" /\
  (readAllowlist envRule !! head = Some None
   \/ exists rule, readAllowlist envRule !! head = Some (Some rule) /\ rule args = KindRead).

(** ** Structure lemmas *)

Lemma classifyHead_read head args :
  classifyHead envRule head args = KindRead <-> allowed head args.
Proof.
  unfold classifyHead, allowed. destruct (head =s "sudo") eqn:Es.
  - apply String.eqb_eq in Es. split; [done|intros [H _]; done].
  - apply String.eqb_neq in Es.
    destruct (readAllowlist envRule !! head) as [[rule|]|] eqn:El.
    + split; [eauto|]. intros (_ & [H|(r & H & Hr)]); congruence.
    + split; auto.
    + split; [done|]. intros (_ & [H|(r & H & _)]); congruence.
Qed.

Lemma classifyTokens_skip envR assigns rest :
  Forall safe_assignment assigns ->
  classifyTokens envR (assigns ++ rest) = classifyTokens envR rest.
Proof. induction 1 as [|tok l [Ha Hd] _ IH]; [done|]. cbn. by rewrite Ha, Hd. Qed.

Lemma classifyTokens_read_inv tokens :
  classifyTokens envRule tokens = KindRead ->
  exists assigns head args,
    tokens = assigns ++ head :: args /\ Forall safe_assignment assigns
    /\ isAssignment head = false /\ allowed head args.
Proof.
  induction tokens as [|tok rest IH]; [done|]. cbn.
  destruct (isAssignment tok) eqn:Ea.
  - destruct (dangerousEnv (assignKey tok)) eqn:Ed; [done|]. intros H.
    destruct (IH H) as (assigns & head & args & -> & Hs & Hh & Hal).
    exists (tok :: assigns), head, args. repeat split; try done; try apply Hal.
    constructor; [split|]; done.
  - intros H%classifyHead_read. exists [], tok, rest. by repeat split; try apply H.
Qed.

Lemma classifySegments_write saw segs :
  classifySegments saw segs = KindWrite <->
  Exists (fun s => classifySegment s = KindWrite) segs.
Proof.
  revert saw. induction segs as [|s segs IH]; intros saw; cbn.
  - destruct saw; (split; [done|by intros H%Exists_nil]).
  - rewrite Exists_cons. destruct (classifySegment s) eqn:E; rewrite ?IH; split; auto;
      intros [H|H]; try done.
Qed.

Lemma classifySegments_read saw segs :
  classifySegments saw segs = KindRead <->
  Forall (fun s => classifySegment s <> KindWrite) segs
  /\ (saw = true \/ Exists (fun s => classifySegment s = KindRead) segs).
Proof.
  revert saw. induction segs as [|s segs IH]; intros saw; cbn.
  - destruct saw; split; auto.
    + intros H; discriminate H.
    + intros [_ [H|H%Exists_nil]]; done.
  - rewrite Forall_cons, Exists_cons. destruct (classifySegment s) eqn:E; rewrite ?IH.
    + split; [intros [? [?|?]]; auto|intros [[? ?] [?|[?|?]]]; auto; done].
    + split; [intros [? _]; split; auto|intros [[? ?] _]; auto].
    + split; [done|intros [[H _] _]; done].
Qed.

(** ** C: reads, exactly *)

(** C7: A command line is classified as a read exactly when it is printable,
    expands nothing and redirects nothing outside quotes, none of the segments
    between its active separators is a write, and one of them is a read. *)
Theorem classify_read_iff (cmd : string) :
  Classify cmd = KindRead <->
  hasPrintable cmd = true
  /\ has_substitution (lex cmd) = false
  /\ Forall (fun x => is_redirect x = false) (lex cmd)
  /\ Forall (fun s => classifySegment s <> KindWrite) (line_segments cmd)
  /\ Exists (fun s => classifySegment s = KindRead) (line_segments cmd).
Proof.
  unfold Classify, line_segments.
  rewrite containsSubstitution_lex, hasTopLevelRedirect_lex, splitSegments_lex.
  destruct (hasPrintable cmd); cbn [negb]; [|split; [done|intros [? _]; done]].
  destruct (has_substitution (lex cmd)); [split; [done|intros (_ & ? & _); done]|].
  destruct (existsb is_redirect (lex cmd)) eqn:Er.
  - split; [done|]. intros (_ & _ & H & _). apply existsb_exists in Er as (x & Hx & Hr).
    rewrite List.Forall_forall in H. apply H in Hx. congruence.
  - assert (Forall (fun x => is_redirect x = false) (lex cmd)) as Hf.
    { apply List.Forall_forall. intros x Hx. destruct (is_redirect x) eqn:E; [|done].
      rewrite <- Er. symmetry. apply existsb_exists. eauto. }
    destruct (List.filter _ _) as [|seg segs] eqn:Es.
    + split; [done|]. intros (_ & _ & _ & _ & H%Exists_nil). done.
    + rewrite classifySegments_read. split; [intros [? [?|?]]; auto; done|].
      intros (_ & _ & _ & ? & ?). auto.
Qed.

(** A segment is a read exactly when, after leading assignments of harmless
    variables, its first word is an allowlisted command other than sudo whose
    argument rule accepts the remaining words. *)
Theorem segment_read_iff (seg : string) :
  classifySegment seg = KindRead <->
  exists assigns head args,
    segment_words seg = assigns ++ head :: args
    /\ Forall safe_assignment assigns
    /\ isAssignment head = false
    /\ allowed head args.
Proof.
  unfold classifySegment, segment_words. rewrite tokenize_lex. split.
  - apply classifyTokens_read_inv.
  - intros (assigns & head & args & -> & Hs & Hh & Hal).
    rewrite classifyTokens_skip by done. cbn. rewrite Hh. by apply classifyHead_read.
Qed.

(** The four hand-written byte scanners agree on what is quoted: each is a
    function of one lexing of the line. *)
Theorem scanners_agree (s : string) :
  hasTopLevelRedirect s = existsb is_redirect (lex s)
  /\ containsSubstitution s = has_substitution (lex s)
  /\ splitSegments s = line_segments s
  /\ tokenize s = segment_words s.
Proof.
  repeat split; [apply hasTopLevelRedirect_lex|apply containsSubstitution_lex
                |apply splitSegments_lex|apply tokenize_lex].
Qed.

(** ** Sequencing *)

(** The quote state at the end of a line; [None] after a dangling backslash. *)
Fixpoint lex_end (q : qst) (s : string) : option qst :=
  match s with
  | EmptyString => Some q
  | String c rest =>
      if (c =c BACKSLASH) && negb (bool_decide (q = QSingle)) then
        match rest with
        | String _ rest' => lex_end q rest'
        | EmptyString => None
        end
      else match q with
           | QSingle => lex_end (if c =c SQUOTE then QNone else QSingle) rest
           | QDouble => lex_end (if c =c DQUOTE then QNone else QDouble) rest
           | QNone => lex_end (if c =c SQUOTE then QSingle
                               else if c =c DQUOTE then QDouble else QNone) rest
           end
  end.

(** A line with no open quote and no dangling backslash. *)
Definition complete (s : string) : Prop := lex_end QNone s = Some QNone.

Lemma lex_from_app s t : forall q q',
  lex_end q s = Some q' -> lex_from q (s +:+ t) = lex_from q s ++ lex_from q' t.
Proof.
  induction s as [s IH] using string_length_ind. intros q q'.
  destruct s as [|c s]; [by intros [= ->]|].
  change (String c s +:+ t) with (String c (s +:+ t)). cbn [lex_end lex_from].
  assert (forall u qq, String.length u < String.length (String c s) ->
            lex_end qq u = Some q' ->
            lex_from qq (u +:+ t) = lex_from qq u ++ lex_from q' t) as IH'
    by (intros; by apply IH). clear IH.
  destruct (_ && _).
  - destruct s as [|d s]; [done|]. intros H. simpl. do 2 f_equal.
    apply IH'; [simpl; lia|done].
  - assert (String.length s < String.length (String c s)) as Hl by (simpl; lia).
    destruct q; destruct (c =c SQUOTE); try destruct (c =c DQUOTE);
      intros H; cbn [app]; f_equal; by apply IH'.
Qed.

Lemma lex_seq s1 s2 :
  complete s1 -> lex (s1 +:+ String ";" s2) = lex s1 ++ (RPlain, ";"%char) :: lex s2.
Proof. intros H. unfold lex. by rewrite (lex_from_app _ _ _ _ H). Qed.

Lemma has_substitution_seq l1 l2 :
  has_substitution (l1 ++ (RPlain, ";"%char) :: l2)
  = has_substitution l1 || has_substitution l2.
Proof.
  induction l1 as [|x l1 IH]; [done|].
  cbn [app has_substitution]. rewrite IH.
  assert (next_expands (l1 ++ (RPlain, ";"%char) :: l2) "(" = next_expands l1 "(") as ->
    by (by destruct l1).
  by rewrite orb_assoc.
Qed.

(** The verdict on a compound line: a write wins, then a read. *)
Definition join (a b : Kind) : Kind :=
  match a, b with
  | KindWrite, _ | _, KindWrite => KindWrite
  | KindRead, _ | _, KindRead => KindRead
  | _, _ => KindUnknown
  end.

Lemma classifySegments_app saw a b :
  classifySegments saw (a ++ b) = join (classifySegments saw a) (classifySegments false b).
Proof.
  assert (forall saw l, classifySegments saw l
            = join (if saw then KindRead else KindUnknown) (classifySegments false l)) as Hsaw.
  { intros saw0 l. revert saw0. induction l as [|x l IH]; intros saw0; cbn; [by destruct saw0|].
    destruct (classifySegment x) eqn:E; [apply IH| |by destruct saw0].
    rewrite (IH true). by destruct saw0, (classifySegments false l). }
  revert saw. induction a as [|x a IH]; intros saw; cbn; [apply Hsaw|].
  destruct (classifySegment x); auto.
Qed.

(** [Classify] past the printable check. *)
Definition classify_printable (cmd : string) : Kind :=
  if containsSubstitution cmd then KindWrite
  else if hasTopLevelRedirect cmd then KindWrite
  else classifySegments false (splitSegments cmd).

Lemma classify_printable_seq s1 s2 :
  complete s1 ->
  classify_printable (s1 +:+ String ";" s2)
  = join (classify_printable s1) (classify_printable s2).
Proof.
  intros H. unfold classify_printable.
  rewrite !containsSubstitution_lex, !hasTopLevelRedirect_lex, !splitSegments_lex.
  rewrite lex_seq, has_substitution_seq, existsb_app, split_on_app by done.
  cbn [existsb is_redirect plain]. rewrite orb_false_l.
  rewrite map_app, List.filter_app, classifySegments_app.
  destruct (has_substitution (lex s1)), (has_substitution (lex s2)),
    (existsb is_redirect (lex s1)), (existsb is_redirect (lex s2)); cbn; try done;
    by destruct (classifySegments false _).
Qed.

Definition nul_free (s : string) : Prop :=
  Forall (fun c => c <> NUL) (list_ascii_of_string s).

Definition is_ws (c : ascii) : bool :=
  (c =c SPACE) || (c =c TAB) || (c =c NL) || (c =c CR).

Lemma blank_bytes s :
  nul_free s -> hasPrintable s = false ->
  Forall (fun c => is_ws c = true) (list_ascii_of_string s).
Proof.
  unfold nul_free. induction s as [|c s IH]; cbn; [by constructor|].
  intros [Hc Hs]%Forall_cons. apply Ascii.eqb_neq in Hc. rewrite Hc. cbn.
  destruct (_ || _) eqn:E; [|done]. intros Hp. constructor; [done|by apply IH].
Qed.

Lemma blank_lex s :
  Forall (fun c => is_ws c = true) (list_ascii_of_string s) ->
  lex s = map (fun c => (RPlain, c)) (list_ascii_of_string s).
Proof.
  unfold lex. induction s as [|c s IH]; [done|].
  cbn [list_ascii_of_string map lex_from]. intros [Hc Hs]%Forall_cons.
  assert ((c =c BACKSLASH) = false /\ (c =c SQUOTE) = false /\ (c =c DQUOTE) = false)
    as (-> & -> & ->).
  { unfold is_ws in Hc. apply orb_true_iff in Hc as [[[Hc|Hc]%orb_true_iff|Hc]%orb_true_iff|Hc];
      apply Ascii.eqb_eq in Hc as ->; done. }
  cbn. by rewrite IH.
Qed.

Lemma trim_blank l : Forall (fun c => is_ws c = true) l -> GoStr.trim_left l = [].
Proof.
  induction 1 as [|c l Hc _ IH]; [done|]. cbn [GoStr.trim_left].
  assert (GoStr.is_ascii_space c = true) as ->; [|done].
  unfold is_ws in Hc. apply orb_true_iff in Hc as [[[Hc|Hc]%orb_true_iff|Hc]%orb_true_iff|Hc];
    apply Ascii.eqb_eq in Hc as ->; done.
Qed.

Lemma TrimSpace_blank l :
  Forall (fun c => is_ws c = true) l -> GoStr.TrimSpace (string_of_list_ascii l) = "".
Proof.
  intros H. unfold GoStr.TrimSpace.
  by rewrite list_ascii_of_string_of_list_ascii, trim_blank.
Qed.

(** A line without printable bytes has no words. *)
Lemma blank_line_segments s :
  Forall (fun c => is_ws c = true) (list_ascii_of_string s) ->
  has_substitution (lex s) = false /\ existsb is_redirect (lex s) = false
  /\ line_segments s = [].
Proof.
  intros H. unfold line_segments. rewrite (blank_lex s H).
  repeat split.
  - induction H as [|c l Hc _ IH]; [done|]. cbn [map has_substitution]. rewrite IH.
    unfold is_ws in Hc.
    apply orb_true_iff in Hc as [[[Hc|Hc]%orb_true_iff|Hc]%orb_true_iff|Hc];
      apply Ascii.eqb_eq in Hc as ->; done.
  - induction H as [|c l Hc _ IH]; [done|]. cbn [map existsb]. rewrite IH.
    unfold is_ws in Hc.
    apply orb_true_iff in Hc as [[[Hc|Hc]%orb_true_iff|Hc]%orb_true_iff|Hc];
      apply Ascii.eqb_eq in Hc as ->; done.
  - assert (Forall (fun l => GoStr.TrimSpace (text l) = "")
              (split_on is_separator (map (fun c => (RPlain, c)) (list_ascii_of_string s))))
      as Hl.
    { assert (forall l, Forall (fun c => is_ws c = true) l ->
        Forall (fun l' => Forall (fun x => is_ws x.2 = true) l')
          (split_on is_separator (map (fun c => (RPlain, c)) l))) as Hsplit.
      { intros l. induction 1 as [|c l Hc _ IH]; cbn [map split_on]; [by repeat constructor|].
        destruct (is_separator _); [by constructor|].
        destruct (split_on _ _) as [|h t]; [by repeat constructor|].
        apply Forall_cons in IH as [Hh Ht]. by repeat constructor. }
      eapply Forall_impl; [by apply Hsplit|]. intros l Hws. apply TrimSpace_blank.
      by apply Forall_map. }
    induction Hl as [|l ls Hl _ IH]; [done|]. cbn [map List.filter]. rewrite Hl. exact IH.
Qed.

Lemma Classify_printable s : nul_free s -> Classify s = classify_printable s.
Proof.
  intros Hs. unfold Classify, classify_printable.
  destruct (hasPrintable s) eqn:Hp; cbn [negb].
  - by destruct (splitSegments s).
  - pose proof (blank_line_segments s (blank_bytes s Hs Hp)) as (H1 & H2 & H3).
    rewrite containsSubstitution_lex, hasTopLevelRedirect_lex, splitSegments_lex.
    unfold line_segments in H3. by rewrite H1, H2, H3.
Qed.

Lemma nul_free_app s t : nul_free (s +:+ t) <-> nul_free s /\ nul_free t.
Proof. unfold nul_free. by rewrite list_ascii_of_app, Forall_app. Qed.

(** Classifying a compound line is compositional: after a line with no open
    quote, a semicolon joins the two verdicts - a write wins, then a read, and
    two unknowns stay unknown.  A harmless prefix can hide nothing. *)
Theorem classify_sequence (s1 s2 : string)
    (Hcomplete : complete s1) (Hnul1 : nul_free s1) (Hnul2 : nul_free s2) :
  Classify (s1 +:+ String ";" s2) = join (Classify s1) (Classify s2).
Proof.
  rewrite !Classify_printable, classify_printable_seq; try done.
  apply nul_free_app. split; [done|]. by constructor.
Qed.

Lemma classify_sequence_witness :
  complete "echo 'a;b'" /\ nul_free "echo 'a;b'" /\ nul_free " rm -rf /"
  /\ Classify "echo 'a;b'; rm -rf /" = join KindRead KindWrite.
Proof.
  split; [reflexivity|]. split; [by repeat constructor|].
  split; [by repeat constructor|].
  apply (classify_sequence "echo 'a;b'" " rm -rf /"); [reflexivity|by repeat constructor..].
Defined.

(** ** Quoting *)

(** The shell's quoting of a word: single quotes around it, and each single
    quote inside it written quote, backslash, quote, quote. *)
Fixpoint quote_body (w : string) : string :=
  match w with
  | EmptyString => String SQUOTE ""
  | String c w =>
      if c =c SQUOTE
      then String SQUOTE (String BACKSLASH (String SQUOTE (String SQUOTE (quote_body w))))
      else String c (quote_body w)
  end.

Definition quote (w : string) : string := String SQUOTE (quote_body w).

Fixpoint quote_line (ws : list string) : string :=
  match ws with
  | [] => ""
  | [w] => quote w
  | w :: ws => quote w +:+ String SPACE (quote_line ws)
  end.

(** What the lexer makes of them. *)
Fixpoint quoted_body (w : string) : list (role * ascii) :=
  match w with
  | EmptyString => [(RSyntax, SQUOTE)]
  | String c w =>
      if c =c SQUOTE
      then (RSyntax, SQUOTE) :: (RSyntax, BACKSLASH) :: (REscaped, SQUOTE)
             :: (RSyntax, SQUOTE) :: quoted_body w
      else (RSingle, c) :: quoted_body w
  end.

Definition quoted (w : string) : list (role * ascii) := (RSyntax, SQUOTE) :: quoted_body w.

Fixpoint quoted_line (ws : list string) : list (role * ascii) :=
  match ws with
  | [] => []
  | [w] => quoted w
  | w :: ws => quoted w ++ (RPlain, SPACE) :: quoted_line ws
  end.

Lemma quoted_line_cons w w' ws :
  quoted_line (w :: w' :: ws) = quoted w ++ (RPlain, SPACE) :: quoted_line (w' :: ws).
Proof. done. Qed.

Lemma lex_quote_body w r :
  lex_from QSingle (quote_body w +:+ r) = quoted_body w ++ lex_from QNone r.
Proof.
  induction w as [|c w IH]; [done|]. cbn [quote_body quoted_body].
  destruct (c =c SQUOTE) eqn:E.
  - change (String SQUOTE (String BACKSLASH (String SQUOTE (String SQUOTE (quote_body w)))) +:+ r)
      with (String SQUOTE (String BACKSLASH (String SQUOTE (String SQUOTE (quote_body w +:+ r))))).
    cbn. by rewrite IH.
  - change (String c (quote_body w) +:+ r) with (String c (quote_body w +:+ r)).
    cbn [lex_from]. rewrite bool_decide_true, andb_false_r, E by done. cbn. by rewrite IH.
Qed.

Lemma lex_quote w r : lex (quote w +:+ r) = quoted w ++ lex r.
Proof.
  change (lex (quote w +:+ r)) with ((RSyntax, SQUOTE) :: lex_from QSingle (quote_body w +:+ r)).
  by rewrite lex_quote_body.
Qed.

Lemma lex_quote_line ws : lex (quote_line ws) = quoted_line ws.
Proof.
  induction ws as [|w [|w' ws] IH]; [done|..].
  - cbn [quote_line quoted_line]. rewrite <- (str_app_nil_r (quote w)), lex_quote.
    apply app_nil_r.
  - cbn [quote_line quoted_line] in *. rewrite lex_quote. f_equal.
    change (lex (String SPACE ?s)) with ((RPlain, SPACE) :: lex s). by rewrite IH.
Qed.

Lemma quoted_body_word w l : word (quoted_body w ++ l) = w +:+ word l.
Proof.
  induction w as [|c w IH]; [done|]. cbn [quoted_body]. destruct (c =c SQUOTE) eqn:E.
  - apply Ascii.eqb_eq in E as ->. cbn [app].
    rewrite !word_cons_syntax, word_cons_data, word_cons_syntax by done.
    exact (f_equal (String SQUOTE) IH).
  - cbn [app]. rewrite word_cons_data by done. exact (f_equal (String c) IH).
Qed.

Lemma quoted_word w : word (quoted w) = w.
Proof.
  unfold quoted. rewrite word_cons_syntax, <- (app_nil_r (quoted_body w)).
  rewrite quoted_body_word. apply str_app_nil_r.
Qed.

(** No byte of a quoted word is active. *)
Lemma quoted_inactive w p : Forall (fun x => plain p x = false) (quoted w).
Proof.
  unfold quoted. constructor; [done|]. induction w as [|c w IH]; [by repeat constructor|].
  cbn [quoted_body]. by destruct (c =c SQUOTE); repeat constructor.
Qed.

Lemma quoted_line_inactive ws p :
  p SPACE = false -> Forall (fun x => plain p x = false) (quoted_line ws).
Proof.
  intros Hp. induction ws as [|w [|w' ws] IH]; [constructor|apply quoted_inactive|].
  cbn [quoted_line]. apply Forall_app; split; [apply quoted_inactive|by constructor].
Qed.

Lemma substitution_app l1 l2 :
  Forall (fun x => forall c, expands x c = false) l1 ->
  has_substitution (l1 ++ l2) = has_substitution l2.
Proof.
  induction 1 as [|[r d] l Hx Hl IH]; [done|]. cbn [app has_substitution]. rewrite !Hx, IH.
  assert (plain (fun c => (c =c "<") || (c =c ">"))%char (r, d) = false) as ->; [|done].
  pose proof (Hx "<"%char) as H1. pose proof (Hx ">"%char) as H2.
  cbn in *. destruct r; try done. by rewrite H1, H2.
Qed.

Lemma quoted_no_expansion w : Forall (fun x => forall c, expands x c = false) (quoted w).
Proof.
  unfold quoted. constructor; [done|]. induction w as [|c w IH]; [by repeat constructor|].
  cbn [quoted_body]. by destruct (c =c SQUOTE); repeat constructor.
Qed.

Lemma quoted_line_no_substitution ws : has_substitution (quoted_line ws) = false.
Proof.
  induction ws as [|w [|w' ws] IH]; [done|..].
  - cbn [quoted_line]. rewrite <- (app_nil_r (quoted w)).
    by rewrite substitution_app by apply quoted_no_expansion.
  - rewrite quoted_line_cons, substitution_app by apply quoted_no_expansion.
    etransitivity; [|exact IH]. done.
Qed.

Lemma quoted_line_words ws : map word (split_on is_blank (quoted_line ws)) = match ws with [] => [""] | _ => ws end.
Proof.
  induction ws as [|w [|w' ws] IH]; [done|..].
  - cbn [quoted_line]. rewrite split_on_no_sep by apply quoted_inactive.
    cbn [map]. by rewrite quoted_word.
  - rewrite quoted_line_cons, split_on_app by done.
    rewrite split_on_no_sep by apply quoted_inactive.
    cbn [app map]. by rewrite quoted_word, IH.
Qed.

(** A line of quoted words begins and ends with a quote, so trimming keeps it. *)
Lemma quote_line_ends ws :
  ws <> [] -> exists l, list_ascii_of_string (quote_line ws) = l ++ [SQUOTE].
Proof.
  assert (forall w, exists l, list_ascii_of_string (quote_body w) = l ++ [SQUOTE]) as Hb.
  { induction w as [|c w [l IH]]; [by exists []|]. cbn [quote_body].
    destruct (c =c SQUOTE); cbn [list_ascii_of_string]; rewrite IH.
    - exists (SQUOTE :: BACKSLASH :: SQUOTE :: SQUOTE :: l). done.
    - by exists (c :: l). }
  induction ws as [|w [|w' ws] IH]; intros Hne; [done|..]; cbn [quote_line].
  - destruct (Hb w) as [l Hl]. exists (SQUOTE :: l). cbn. by rewrite Hl.
  - destruct IH as [l IH]; [done|]. cbn [quote_line] in IH.
    rewrite list_ascii_of_app. cbn [list_ascii_of_string]. rewrite IH.
    exists (list_ascii_of_string (quote w) ++ SPACE :: l). by rewrite <- app_assoc.
Qed.

Lemma quote_line_starts ws :
  ws <> [] -> exists s, quote_line ws = String SQUOTE s.
Proof. intros H. destruct ws as [|w [|w' ws]]; [done|..]; by eexists. Qed.

Lemma trim_left_quote l : GoStr.trim_left (SQUOTE :: l) = SQUOTE :: l.
Proof. destruct l as [|b [|c l]]; done. Qed.

Lemma trim_right_quote l : GoStr.trim_left_rev (SQUOTE :: l) = SQUOTE :: l.
Proof.
  destruct l as [|b l]; [done|]. cbn.
  assert (GoStr.is_space2 b SQUOTE = false) as -> by (unfold GoStr.is_space2; by rewrite andb_false_r).
  destruct l as [|c l]; [done|].
  assert (GoStr.is_space3 c b SQUOTE = false) as ->; [|done].
  unfold GoStr.is_space3. cbn. by rewrite !andb_false_r.
Qed.

Lemma TrimSpace_quote_line ws : GoStr.TrimSpace (quote_line ws) = quote_line ws.
Proof.
  destruct ws as [|w ws]; [done|]. unfold GoStr.TrimSpace.
  destruct (quote_line_starts (w :: ws)) as [s Hs]; [done|].
  destruct (quote_line_ends (w :: ws)) as [l Hl]; [done|].
  rewrite Hs in *. cbn [list_ascii_of_string] in *.
  rewrite trim_left_quote, Hl, reverse_snoc, trim_right_quote, reverse_cons, reverse_involutive.
  rewrite <- Hl. change (String SQUOTE ?x) with (String SQUOTE x).
  by rewrite <- (string_of_list_ascii_of_string (String SQUOTE s)).
Qed.

Lemma filter_nonempty ws : Forall (fun w => w <> "") ws -> List.filter nonempty ws = ws.
Proof.
  induction 1 as [|w l Hw _ IH]; [done|]. cbn [List.filter].
  unfold nonempty at 1. apply String.eqb_neq in Hw as ->. cbn [negb]. by rewrite IH.
Qed.

(** Shell quoting is a round trip through the scanners: whatever bytes the
    words hold, quoting each of them yields one segment that tokenizes back to
    exactly these words, and the verdict is the one for the words. *)
Theorem quote_line_roundtrip (ws : list string)
    (Hne : ws <> []) (Hwords : Forall (fun w => w <> "") ws) :
  splitSegments (quote_line ws) = [quote_line ws]
  /\ tokenize (quote_line ws) = ws
  /\ Classify (quote_line ws) = classifyTokens envRule ws.
Proof.
  assert (splitSegments (quote_line ws) = [quote_line ws]) as Hsplit.
  { rewrite splitSegments_lex, split_on_no_sep.
    - cbn [map]. unfold lex. rewrite lex_text, TrimSpace_quote_line.
      destruct (quote_line_starts ws Hne) as [s ->]. done.
    - rewrite lex_quote_line. by apply quoted_line_inactive. }
  assert (tokenize (quote_line ws) = ws) as Htok.
  { rewrite tokenize_lex, lex_quote_line, quoted_line_words. destruct ws as [|w ws]; [done|].
    by apply filter_nonempty. }
  split; [done|]. split; [done|].
  unfold Classify. rewrite Hsplit, containsSubstitution_lex, hasTopLevelRedirect_lex.
  rewrite lex_quote_line, quoted_line_no_substitution.
  assert (existsb is_redirect (quoted_line ws) = false) as ->.
  { apply not_true_is_false. intros (x & Hx & Hr)%existsb_exists.
    pose proof (quoted_line_inactive ws (fun c => c =c ">")%char eq_refl) as Hf.
    rewrite List.Forall_forall in Hf. unfold is_redirect in Hr. by rewrite (Hf x Hx) in Hr. }
  destruct (quote_line_starts ws Hne) as [s Hs]. rewrite Hs at 1. cbn [hasPrintable negb].
  cbn [classifySegments]. unfold classifySegment. rewrite Htok.
  by destruct (classifyTokens envRule ws).
Qed.

Lemma quote_line_roundtrip_witness :
  tokenize (quote_line ["echo"; "it's; rm -rf > $(x)"]) = ["echo"; "it's; rm -rf > $(x)"]
  /\ Classify (quote_line ["echo"; "it's; rm -rf > $(x)"]) = KindRead.
Proof.
  destruct (quote_line_roundtrip ["echo"; "it's; rm -rf > $(x)"]) as (_ & Ht & Hc);
    [done|by repeat constructor|]. split; [exact Ht|]. rewrite Hc. vm_compute. reflexivity.
Defined.
