(* ===== verification/Base64.v ===== *)
(** * base64.URLEncoding without padding

    The encoder and the (non-strict) decoder of Go's encoding/base64 for the
    alphabet [sigwire.sigEncoding] selects: URL-safe, unpadded.  The decoder
    skips line breaks, ignores the unused low bits of a short last group and
    refuses a group of one character. *)

From S2P Require Import Prelude.

Module Base64.
#[local] Open Scope Z_scope.

(** [encode[v]], for [v] a sextet. *)
Definition encode_char (v : Z) : ascii :=
  if v <? 26 then byte_of (byte_val "A" + v)
  else if v <? 52 then byte_of (byte_val "a" + (v - 26))
  else if v <? 62 then byte_of (byte_val "0" + (v - 52))
  else if v =? 62 then "-"%char
  else "_"%char.

(** [decodeMap[c]]; [None] is 0xFF. *)
Definition decode_char (c : ascii) : option Z :=
  if GoStr.is_upper c then Some (byte_val c - byte_val "A")
  else if GoStr.is_lower c then Some (byte_val c - byte_val "a" + 26)
  else if GoStr.is_digit c then Some (byte_val c - byte_val "0" + 52)
  else if (c =c "-")%char then Some 62
  else if (c =c "_")%char then Some 63
  else None.

(** [encode[val>>n&0x3F]] *)
Definition sextet (val n : Z) : ascii := encode_char (Z.land (Z.shiftr val n) 63).

(** EncodeToString *)
Fixpoint encode (src : list ascii) : list ascii :=
  match src with
  | [] => []
  | [a] =>
      let val := Z.shiftl (byte_val a) 16 in
      [sextet val 18; sextet val 12]
  | [a; b] =>
      let val := Z.lor (Z.shiftl (byte_val a) 16) (Z.shiftl (byte_val b) 8) in
      [sextet val 18; sextet val 12; sextet val 6]
  | a :: b :: c :: rest =>
      let val := Z.lor (Z.lor (Z.shiftl (byte_val a) 16) (Z.shiftl (byte_val b) 8))
                       (byte_val c) in
      sextet val 18 :: sextet val 12 :: sextet val 6 :: sextet val 0 :: encode rest
  end.

(** [dbuf[0]<<18 | dbuf[1]<<12 | dbuf[2]<<6 | dbuf[3]] *)
Definition quantum (d0 d1 d2 d3 : Z) : Z :=
  Z.lor (Z.lor (Z.lor (Z.shiftl d0 18) (Z.shiftl d1 12)) (Z.shiftl d2 6)) d3.

Fixpoint decode_groups (ds : list Z) : option (list ascii) :=
  match ds with
  | [] => Some []
  | [_] => None
  | [d0; d1] => Some [byte_of (Z.shiftr (quantum d0 d1 0 0) 16)]
  | [d0; d1; d2] =>
      let val := quantum d0 d1 d2 0 in
      Some [byte_of (Z.shiftr val 16); byte_of (Z.shiftr val 8)]
  | d0 :: d1 :: d2 :: d3 :: rest =>
      let val := quantum d0 d1 d2 d3 in
      match decode_groups rest with
      | Some out =>
          Some (byte_of (Z.shiftr val 16) :: byte_of (Z.shiftr val 8) :: byte_of val :: out)
      | None => None
      end
  end.

(** DecodeString *)
Definition decode (src : list ascii) : option (list ascii) :=
  match mapM decode_char (List.filter (fun c => negb ((c =c NL) || (c =c CR))) src) with
  | Some ds => decode_groups ds
  | None => None
  end.

(** ** The codec is a round trip *)

Lemma sextet_range val n : 0 <= Z.land (Z.shiftr val n) 63 < 64.
Proof. change 63 with (Z.ones 6). rewrite Z.land_ones by lia. apply Z.mod_pos_bound. lia. Qed.

Lemma sextet_all (P : Z -> bool) v :
  forallb (fun n => P (Z.of_nat n)) (seq 0 64) = true -> 0 <= v < 64 -> P v = true.
Proof.
  intros H Hv. rewrite forallb_forall in H. rewrite <- (Z2Nat.id v) by lia.
  apply H, in_seq. lia.
Qed.

Lemma decode_encode_char v : 0 <= v < 64 -> decode_char (encode_char v) = Some v.
Proof.
  intros Hv.
  pose proof (sextet_all (fun v => match decode_char (encode_char v) with
                                   | Some w => w =? v
                                   | None => false
                                   end) v ltac:(by vm_compute) Hv) as H.
  cbn beta in H. destruct (decode_char _); bool_hyps; congruence.
Qed.

Lemma decode_sextet val n :
  decode_char (sextet val n) = Some (Z.land (Z.shiftr val n) 63).
Proof. apply decode_encode_char, sextet_range. Qed.

(** No code character is a line break, a space or a colon: the envelope's
    separators never occur inside a field. *)
Definition is_code (c : ascii) : bool :=
  match decode_char c with Some _ => true | None => false end.

Lemma encode_char_code v : 0 <= v < 64 -> is_code (encode_char v) = true.
Proof. intros Hv. unfold is_code. by rewrite decode_encode_char. Qed.

Lemma is_code_plain c :
  is_code c = true ->
  (c =c NL) = false /\ (c =c CR) = false /\ (c =c SPACE) = false /\ (c =c ":")%char = false.
Proof.
  intros H. repeat split; apply Ascii.eqb_neq; intros ->; vm_compute in H; done.
Qed.

Lemma encode_code src : Forall (fun c => is_code c = true) (encode src).
Proof.
  induction src as [[|a [|b [|c src]]] IH] using list_length_ind; cbn [encode];
    repeat (apply List.Forall_cons || constructor);
    try (apply encode_char_code, sextet_range). apply IH. cbn. lia.
Qed.

Lemma sextets_of_encode src :
  exists ds, mapM decode_char (encode src) = Some ds
    /\ List.filter (fun c => negb ((c =c NL) || (c =c CR))) (encode src) = encode src.
Proof.
  pose proof (encode_code src) as H. induction H as [|c l Hc _ (ds & IH1 & IH2)].
  - by exists [].
  - destruct (is_code_plain c Hc) as (H1 & H2 & _). unfold is_code in Hc.
    destruct (decode_char c) as [d|] eqn:E; [|done]. exists (d :: ds). split.
    + cbn. by rewrite E, IH1.
    + cbn [List.filter]. by rewrite H1, H2, IH2.
Qed.

(** The bit packing, as arithmetic. *)
Ltac bits_to_arith :=
  rewrite ?Z.shiftr_0_r, ?Z.shiftr_div_pow2, ?Z.shiftl_mul_pow2 by lia;
  change 63 with (Z.ones 6); rewrite ?Z.land_ones by lia.

Lemma pack3 a b c :
  0 <= a < 256 -> 0 <= b < 256 -> 0 <= c < 256 ->
  Z.lor (Z.lor (Z.shiftl a 16) (Z.shiftl b 8)) c = a * 65536 + b * 256 + c.
Proof.
  intros. rewrite <- Z.lor_assoc, (lor_shiftl_add b c 8) by lia.
  rewrite (lor_shiftl_add a _ 16) by lia. lia.
Qed.

Lemma quantum_arith d0 d1 d2 d3 :
  0 <= d0 < 64 -> 0 <= d1 < 64 -> 0 <= d2 < 64 -> 0 <= d3 < 64 ->
  quantum d0 d1 d2 d3 = d0 * 262144 + d1 * 4096 + d2 * 64 + d3.
Proof.
  intros. unfold quantum. rewrite <- Z.lor_assoc, (lor_shiftl_add d2 d3 6) by lia.
  rewrite <- Z.lor_assoc, (lor_shiftl_add d1 _ 12) by lia.
  rewrite (lor_shiftl_add d0 _ 18) by lia. lia.
Qed.

Lemma byte_of_shiftr val n c :
  0 <= n -> (val / 2 ^ n) mod 256 = byte_val c -> byte_of (Z.shiftr val n) = c.
Proof.
  intros Hn H. rewrite Z.shiftr_div_pow2 by done. unfold byte_of. rewrite H.
  unfold byte_val. by rewrite N2Z.id, ascii_N_embedding.
Qed.

Ltac sextet_arith :=
  repeat match goal with
  | |- context [Z.land (Z.shiftr ?v ?n) 63] =>
      let H := fresh "H" in
      pose proof (sextet_range v n) as H;
      let E := fresh "E" in
      assert (Z.land (Z.shiftr v n) 63 = (v / 2 ^ n) mod 64) as E
        by (rewrite Z.shiftr_div_pow2 by lia; change 63 with (Z.ones 6);
            by rewrite Z.land_ones by lia);
      rewrite E in *; clear E
  end.

Lemma quantum_sextets v :
  0 <= v < 16777216 ->
  quantum (Z.land (Z.shiftr v 18) 63) (Z.land (Z.shiftr v 12) 63)
          (Z.land (Z.shiftr v 6) 63) (Z.land (Z.shiftr v 0) 63) = v.
Proof.
  intros Hv. sextet_arith. rewrite quantum_arith by lia.
  Z.to_euclidean_division_equations. lia.
Qed.

Lemma decode_encode src : decode (encode src) = Some src.
Proof.
  unfold decode. destruct (sextets_of_encode src) as (ds & Hm & ->). rewrite Hm.
  revert ds Hm. induction src as [[|a [|b [|c src]]] IH] using list_length_ind; intros ds Hm.
  - by injection Hm as <-.
  - cbn in Hm. rewrite !decode_sextet in Hm. injection Hm as <-.
    pose proof (byte_val_range a). cbn [decode_groups]. do 2 f_equal.
    apply byte_of_shiftr; [lia|]. sextet_arith.
    rewrite quantum_arith by lia. rewrite Z.shiftl_mul_pow2 by lia.
    Z.to_euclidean_division_equations. lia.
  - cbn in Hm. rewrite !decode_sextet in Hm. injection Hm as <-.
    pose proof (byte_val_range a). pose proof (byte_val_range b). cbn [decode_groups].
    sextet_arith. rewrite quantum_arith by lia.
    pose proof (pack3 (byte_val a) (byte_val b) 0) as Hp. rewrite Z.lor_0_r in Hp.
    rewrite Hp in * by lia. clear Hp.
    do 2 f_equal; [|f_equal]; apply byte_of_shiftr; try lia;
    Z.to_euclidean_division_equations; lia.
  - cbn in Hm.
    rewrite !decode_sextet in Hm. cbn in Hm.
    destruct (mapM decode_char (encode src)) as [ds'|] eqn:Hs; [|done]. injection Hm as <-.
    pose proof (byte_val_range a). pose proof (byte_val_range b). pose proof (byte_val_range c).
    cbn [decode_groups]. rewrite (IH src ltac:(cbn; lia) ds' Hs).
    rewrite pack3 by lia.
    rewrite quantum_sextets by lia.
    rewrite <- (Z.shiftr_0_r (_ + byte_val c)) at 3.
    do 2 f_equal; [|f_equal; [|f_equal]]; apply byte_of_shiftr; try lia;
    Z.to_euclidean_division_equations; lia.
Qed.

End Base64.
