(* ===== verification/Json.v ===== *)
(** * The JSON the program writes and reads

    The parts of Go's encoding/json the wire formats use: string quoting with
    HTML escaping, string literals with their escapes and UTF-8 repair, 64-bit
    integers, and objects whose members are scalars (every struct the modelled
    code encodes or strictly decodes has string, integer and Boolean fields).
    A byte sequence is split into runes once, by [runes], the way
    utf8.DecodeRune does. *)

From Stdlib Require Import DecimalN DecimalPos ZifyBool ZifyN.
From S2P Require Import Prelude.

Module Utf8.
Import GoStr.

(** One step of [for range] / utf8.DecodeRune: an ASCII byte, a well-formed
    multi-byte sequence, or one byte that is not UTF-8 (RuneError, width 1). *)
Inductive rune :=
  | Asc (c : ascii)
  | Multi (bytes : list ascii)
  | Bad (c : ascii).

Definition cont (c : ascii) : bool := in_range "128" "191" c.

(** The accept ranges of utf8.DecodeRune for two, three and four bytes. *)
Definition is_rune2 (a b : ascii) : bool := in_range "194" "223" a && cont b.

Definition is_rune3 (a b c : ascii) : bool :=
  (if (a =c "224")%char then in_range "160" "191" b
   else if (a =c "237")%char then in_range "128" "159" b
   else in_range "225" "239" a && cont b)
  && cont c.

Definition is_rune4 (a b c d : ascii) : bool :=
  (if (a =c "240")%char then in_range "144" "191" b
   else if (a =c "244")%char then in_range "128" "143" b
   else in_range "241" "243" a && cont b)
  && cont c && cont d.

Definition is_ascii (c : ascii) : bool := in_range "000" "127" c.

Fixpoint runes (l : list ascii) : list rune :=
  match l with
  | [] => []
  | a :: l1 =>
      if is_ascii a then Asc a :: runes l1
      else match l1 with
           | b :: l2 =>
               if is_rune2 a b then Multi [a; b] :: runes l2
               else match l2 with
                    | c :: l3 =>
                        if is_rune3 a b c then Multi [a; b; c] :: runes l3
                        else match l3 with
                             | d :: l4 =>
                                 if is_rune4 a b c d then Multi [a; b; c; d] :: runes l4
                                 else Bad a :: runes l1
                             | [] => Bad a :: runes l1
                             end
                    | [] => Bad a :: runes l1
                    end
           | [] => Bad a :: runes l1
           end
  end.

Definition rune_bytes (r : rune) : list ascii :=
  match r with
  | Asc c | Bad c => [c]
  | Multi bs => bs
  end.

Definition bytes_of (rs : list rune) : list ascii := flat_map rune_bytes rs.

(** U+FFFD *)
Definition replacement : rune := Multi ["239"; "191"; "189"]%char.

(** utf8.AppendRune for a code point below 0x110000 that is no surrogate. *)
Definition encode_rune (cp : Z) : rune :=
  (if cp <? 128 then Asc (byte_of cp)
   else if cp <? 2048 then
     Multi [byte_of (Z.lor 192 (Z.shiftr cp 6)); byte_of (Z.lor 128 (Z.land cp 63))]
   else if cp <? 65536 then
     Multi [byte_of (Z.lor 224 (Z.shiftr cp 12));
            byte_of (Z.lor 128 (Z.land (Z.shiftr cp 6) 63));
            byte_of (Z.lor 128 (Z.land cp 63))]
   else
     Multi [byte_of (Z.lor 240 (Z.shiftr cp 18));
            byte_of (Z.lor 128 (Z.land (Z.shiftr cp 12) 63));
            byte_of (Z.lor 128 (Z.land (Z.shiftr cp 6) 63));
            byte_of (Z.lor 128 (Z.land cp 63))])%Z.

(** Replace what is not UTF-8 by U+FFFD, as encoding/json does. *)
Definition clean_rune (r : rune) : rune :=
  match r with Bad _ => replacement | r => r end.

Definition clean (l : list ascii) : list ascii := bytes_of (map clean_rune (runes l)).

(** utf8.Valid *)
Definition valid_rune (r : rune) : bool :=
  match r with
  | Asc c => is_ascii c
  | Multi [a; b] => is_rune2 a b
  | Multi [a; b; c] => is_rune3 a b c
  | Multi [a; b; c; d] => is_rune4 a b c d
  | _ => false
  end.

Definition valid (l : list ascii) : bool := forallb valid_rune (runes l).

(** ** Splitting into runes *)

Lemma eqb_val c d : (c =c d) = (N_of_ascii c =? N_of_ascii d)%N.
Proof.
  destruct (c =c d) eqn:E; symmetry.
  - apply Ascii.eqb_eq in E as ->. apply N.eqb_refl.
  - apply N.eqb_neq. intros H. apply Ascii.eqb_neq in E. apply E.
    by rewrite <- (ascii_N_embedding c), H, ascii_N_embedding.
Qed.

(** Byte classes as linear arithmetic. *)
Ltac byte_arith :=
  unfold is_rune2, is_rune3, is_rune4, cont, is_ascii, in_range in *;
  rewrite ?eqb_val in *;
  repeat match goal with
  | |- context [N_of_ascii (Ascii ?a ?b ?c ?d ?e ?f ?g ?h)] =>
      let v := eval vm_compute in (N_of_ascii (Ascii a b c d e f g h)) in
      change (N_of_ascii (Ascii a b c d e f g h)) with v in *
  | H : context [N_of_ascii (Ascii ?a ?b ?c ?d ?e ?f ?g ?h)] |- _ =>
      let v := eval vm_compute in (N_of_ascii (Ascii a b c d e f g h)) in
      change (N_of_ascii (Ascii a b c d e f g h)) with v in *
  end;
  repeat match goal with
  | H : context [if ?b then _ else _] |- _ => destruct b eqn:?
  | |- context [if ?b then _ else _] => destruct b eqn:?
  end; lia.

Lemma rune2_shape a b : is_rune2 a b = true -> is_ascii a = false.
Proof. intros H. byte_arith. Qed.

Lemma rune3_shape a b c :
  is_rune3 a b c = true -> is_ascii a = false /\ is_rune2 a b = false.
Proof. intros H. split; byte_arith. Qed.

Lemma rune4_shape a b c d :
  is_rune4 a b c d = true ->
  is_ascii a = false /\ is_rune2 a b = false /\ is_rune3 a b c = false.
Proof. intros H. repeat split; byte_arith. Qed.

(** Well-formed runes are found again at the front of any bytes. *)
Lemma runes_cons r rest :
  valid_rune r = true -> runes (rune_bytes r ++ rest) = r :: runes rest.
Proof.
  destruct r as [c|[|a [|b [|c [|d [|e bs]]]]]|c]; cbn [valid_rune rune_bytes]; try done.
  - intros Hc. cbn. by rewrite Hc.
  - intros H. pose proof (rune2_shape _ _ H) as H1. cbn. by rewrite H1, H.
  - intros H. pose proof (rune3_shape _ _ _ H) as [H1 H2]. cbn. by rewrite H1, H2, H.
  - intros H. pose proof (rune4_shape _ _ _ _ H) as (H1 & H2 & H3).
    cbn. by rewrite H1, H2, H3, H.
Qed.

Lemma runes_bytes_of rs rest :
  forallb valid_rune rs = true -> runes (bytes_of rs ++ rest) = rs ++ runes rest.
Proof.
  induction rs as [|r rs IH]; [done|]. cbn [forallb]. intros H. bool_hyps.
  unfold bytes_of in *. cbn [flat_map]. rewrite <- app_assoc, runes_cons by done.
  cbn [app]. by rewrite IH.
Qed.

(** What [runes] yields: well-formed runes and stray bytes above 0x7f. *)
Definition scanned (r : rune) : Prop :=
  valid_rune r = true \/ exists c, r = Bad c /\ is_ascii c = false.

(** One step of [runes]. *)
Lemma runes_step a l1 :
  exists r rest, runes (a :: l1) = r :: runes rest /\ rune_bytes r ++ rest = a :: l1
                 /\ scanned r /\ List.length rest <= List.length l1.
Proof.
  cbn [runes]. destruct (is_ascii a) eqn:Ea.
  { exists (Asc a), l1. repeat split; [by left|done]. }
  assert (exists r rest, Bad a :: runes l1 = r :: runes rest /\ rune_bytes r ++ rest = a :: l1
            /\ scanned r /\ List.length rest <= List.length l1) as Hbad.
  { exists (Bad a), l1. repeat split; [right; eauto|done]. }
  destruct l1 as [|b l2]; [done|]. destruct (is_rune2 a b) eqn:E2.
  { exists (Multi [a; b]), l2. repeat split; [by left|cbn; lia]. }
  destruct l2 as [|c l3]; [done|]. destruct (is_rune3 a b c) eqn:E3.
  { exists (Multi [a; b; c]), l3. repeat split; [by left|cbn; lia]. }
  destruct l3 as [|d l4]; [done|]. destruct (is_rune4 a b c d) eqn:E4; [|done].
  exists (Multi [a; b; c; d]), l4. repeat split; [by left|cbn; lia].
Qed.

Lemma runes_ind (P : list ascii -> list rune -> Prop) :
  P [] [] ->
  (forall r rest, scanned r -> P rest (runes rest) ->
     P (rune_bytes r ++ rest) (r :: runes rest)) ->
  forall l, P l (runes l).
Proof.
  intros H0 HS l. induction l as [[|a l] IH] using list_length_ind; [done|].
  destruct (runes_step a l) as (r & rest & -> & <- & Hr & Hl).
  apply HS; [done|]. apply IH. cbn. lia.
Qed.

Lemma runes_scanned l : Forall scanned (runes l).
Proof. apply (runes_ind (fun _ rs => Forall scanned rs)); [constructor|]. by constructor. Qed.

Lemma bytes_of_runes l : bytes_of (runes l) = l.
Proof.
  apply (runes_ind (fun l rs => bytes_of rs = l)); [done|].
  intros r rest _ IH. unfold bytes_of in *. cbn [flat_map]. by rewrite IH.
Qed.

Lemma clean_valid l : valid (clean l) = true.
Proof.
  unfold valid, clean. pose proof (runes_scanned l) as H.
  assert (forallb valid_rune (map clean_rune (runes l)) = true) as Hv.
  { induction H as [|r rs [Hr|(c & -> & _)] _ IH]; [done|..]; cbn [map forallb].
    - destruct r as [c|bs|c]; [..|done]; cbn [clean_rune]; by rewrite Hr, IH.
    - by rewrite IH. }
  by rewrite <- (app_nil_r (bytes_of _)), runes_bytes_of, app_nil_r.
Qed.

Lemma clean_id l : valid l = true -> clean l = l.
Proof.
  unfold valid, clean. intros H. transitivity (bytes_of (runes l)); [|apply bytes_of_runes].
  f_equal. induction (runes l) as [|r rs IH]; [done|]. cbn in *. bool_hyps.
  rewrite IH by done. by destruct r.
Qed.

Lemma valid_ascii l : Forall (fun c => is_ascii c = true) l -> valid l = true.
Proof.
  unfold valid. induction 1 as [|c l Hc _ IH]; [done|].
  cbn [runes]. rewrite Hc. cbn [forallb valid_rune]. by rewrite Hc.
Qed.

End Utf8.

Module Json.
Import Utf8.
#[local] Open Scope Z_scope.

Definition asc (s : string) : list rune := map Asc (list_ascii_of_string s).

(** ** Writing *)

(** ["0123456789abcdef"[n]] *)
Definition hex_digit (n : Z) : ascii :=
  if n <? 10 then byte_of (48 + n) else byte_of (97 + (n - 10)).

Definition LINE_SEP : list ascii := ["226"; "128"; "168"]%char.
Definition PARA_SEP : list ascii := ["226"; "128"; "169"]%char.

(** One rune of appendString, with escapeHTML set. *)
Definition quote_rune (r : rune) : list rune :=
  match r with
  | Asc c =>
      if (c =c DQUOTE) || (c =c BACKSLASH) then [Asc BACKSLASH; Asc c]
      else if (c =c "008")%char then asc "\b"
      else if (c =c "012")%char then asc "\f"
      else if c =c NL then asc "\n"
      else if c =c CR then asc "\r"
      else if c =c TAB then asc "\t"
      else if (byte_val c <? 32) || (c =c "<")%char || (c =c ">")%char || (c =c "&")%char then
        asc "\u00" ++ [Asc (hex_digit (Z.shiftr (byte_val c) 4));
                       Asc (hex_digit (Z.land (byte_val c) 15))]
      else [r]
  | Multi bs =>
      if bool_decide (bs = LINE_SEP) then asc "\u2028"
      else if bool_decide (bs = PARA_SEP) then asc "\u2029"
      else [r]
  | Bad _ => asc "\ufffd"
  end.

(** A JSON string literal. *)
Definition quote_body (l : list ascii) : list ascii :=
  bytes_of (flat_map quote_rune (runes l)).

Definition quote (l : list ascii) : list ascii := DQUOTE :: quote_body l ++ [DQUOTE].

(** Decimal digits. *)
Fixpoint uint_chars (u : Decimal.uint) : list ascii :=
  match u with
  | Decimal.Nil => []
  | Decimal.D0 u => "0"%char :: uint_chars u
  | Decimal.D1 u => "1"%char :: uint_chars u
  | Decimal.D2 u => "2"%char :: uint_chars u
  | Decimal.D3 u => "3"%char :: uint_chars u
  | Decimal.D4 u => "4"%char :: uint_chars u
  | Decimal.D5 u => "5"%char :: uint_chars u
  | Decimal.D6 u => "6"%char :: uint_chars u
  | Decimal.D7 u => "7"%char :: uint_chars u
  | Decimal.D8 u => "8"%char :: uint_chars u
  | Decimal.D9 u => "9"%char :: uint_chars u
  end.

Definition format_nat (n : N) : list ascii := uint_chars (N.to_uint n).

(** strconv.AppendInt(_, z, 10) *)
Definition format_int (z : Z) : list ascii :=
  if z <? 0 then "-"%char :: format_nat (Z.to_N (- z)) else format_nat (Z.to_N z).

(** ** Reading *)

Definition hex_val (c : ascii) : option Z :=
  if GoStr.is_digit c then Some (byte_val c - 48)
  else if GoStr.in_range "a" "f" c then Some (byte_val c - 97 + 10)
  else if GoStr.in_range "A" "F" c then Some (byte_val c - 65 + 10)
  else None.

Definition is_hex (c : ascii) : bool :=
  match hex_val c with Some _ => true | None => false end.

(** getu4, on four hexadecimal digits. *)
Definition hex4 (h1 h2 h3 h4 : ascii) : option Z :=
  match hex_val h1, hex_val h2, hex_val h3, hex_val h4 with
  | Some a, Some b, Some c, Some d => Some (((a * 16 + b) * 16 + c) * 16 + d)
  | _, _, _, _ => None
  end.

(** The letters after a backslash that stand for one byte. *)
Definition unescape (e : ascii) : option ascii :=
  if (e =c DQUOTE) || (e =c BACKSLASH) || (e =c "/")%char then Some e
  else if (e =c "b")%char then Some "008"%char
  else if (e =c "f")%char then Some "012"%char
  else if (e =c "n")%char then Some NL
  else if (e =c "r")%char then Some CR
  else if (e =c "t")%char then Some TAB
  else None.

(** The scanner's string states: the raw literal up to the closing quote, and
    what follows it. *)
Fixpoint scan_string (l : list ascii) : option (list ascii * list ascii) :=
  match l with
  | [] => None
  | c :: rest =>
      if c =c DQUOTE then Some ([], rest)
      else if c =c BACKSLASH then
        match rest with
        | e :: rest' =>
            if (e =c "u")%char then
              match rest' with
              | h1 :: h2 :: h3 :: h4 :: rest'' =>
                  if is_hex h1 && is_hex h2 && is_hex h3 && is_hex h4 then
                    match scan_string rest'' with
                    | Some (raw, tail) => Some (c :: e :: h1 :: h2 :: h3 :: h4 :: raw, tail)
                    | None => None
                    end
                  else None
              | _ => None
              end
            else match unescape e with
                 | Some _ =>
                     match scan_string rest' with
                     | Some (raw, tail) => Some (c :: e :: raw, tail)
                     | None => None
                     end
                 | None => None
                 end
        | [] => None
        end
      else if byte_val c <? 32 then None
      else match scan_string rest with
           | Some (raw, tail) => Some (c :: raw, tail)
           | None => None
           end
  end.

Definition is_high (cp : Z) : bool := (55296 <=? cp) && (cp <? 56320).
Definition is_low (cp : Z) : bool := (56320 <=? cp) && (cp <? 57344).

(** utf16.DecodeRune on a surrogate pair. *)
Definition pair_rune (hi lo : Z) : Z := (hi - 55296) * 1024 + (lo - 56320) + 65536.

(** unquoteBytes, on a literal the scanner accepted. *)
Fixpoint unquote (rs : list rune) : list rune :=
  match rs with
  | [] => []
  | Multi bs :: rest => Multi bs :: unquote rest
  | Bad _ :: rest => replacement :: unquote rest
  | Asc c :: rest =>
      if negb (c =c BACKSLASH) then Asc c :: unquote rest
      else match rest with
           | Asc e :: rest1 =>
               if negb (e =c "u")%char then
                 match unescape e with
                 | Some d => Asc d :: unquote rest1
                 | None => []
                 end
               else match rest1 with
                    | Asc h1 :: Asc h2 :: Asc h3 :: Asc h4 :: rest4 =>
                        match hex4 h1 h2 h3 h4 with
                        | None => []
                        | Some cp =>
                            if negb (is_high cp || is_low cp) then
                              encode_rune cp :: unquote rest4
                            else match rest4 with
                                 | Asc b :: Asc u :: Asc g1 :: Asc g2 :: Asc g3 :: Asc g4 :: rest10 =>
                                     match hex4 g1 g2 g3 g4 with
                                     | Some cp2 =>
                                         if (b =c BACKSLASH) && (u =c "u")%char
                                            && is_high cp && is_low cp2
                                         then encode_rune (pair_rune cp cp2) :: unquote rest10
                                         else replacement :: unquote rest4
                                     | None => replacement :: unquote rest4
                                     end
                                 | _ => replacement :: unquote rest4
                                 end
                        end
                    | _ => []
                    end
           | _ => []
           end
  end.

Definition unquote_bytes (raw : list ascii) : list ascii := bytes_of (unquote (runes raw)).

(** A decimal digit in front of the digits [u]. *)
Definition digit (c : ascii) (u : Decimal.uint) : Decimal.uint :=
  match byte_val c - 48 with
  | 0 => Decimal.D0 u | 1 => Decimal.D1 u | 2 => Decimal.D2 u | 3 => Decimal.D3 u
  | 4 => Decimal.D4 u | 5 => Decimal.D5 u | 6 => Decimal.D6 u | 7 => Decimal.D7 u
  | 8 => Decimal.D8 u | _ => Decimal.D9 u
  end.

Fixpoint scan_digits (l : list ascii) : Decimal.uint * list ascii :=
  match l with
  | c :: rest =>
      if GoStr.is_digit c then
        let '(u, tail) := scan_digits rest in (digit c u, tail)
      else (Decimal.Nil, l)
  | [] => (Decimal.Nil, [])
  end.

(** An integer literal: no empty digits and no leading zero.  A fraction or an
    exponent is left to the caller, who refuses it: no field takes one. *)
Definition scan_nat (l : list ascii) : option (N * list ascii) :=
  match scan_digits l with
  | (Decimal.Nil, _) => None
  | (Decimal.D0 (Decimal.Nil), tail) => Some (0%N, tail)
  | (Decimal.D0 _, _) => None
  | (u, tail) => Some (N.of_uint u, tail)
  end.

Definition scan_int (l : list ascii) : option (Z * list ascii) :=
  match l with
  | c :: rest =>
      if (c =c "-")%char then
        match scan_nat rest with
        | Some (n, tail) => Some (- Z.of_N n, tail)
        | None => None
        end
      else match scan_nat l with
           | Some (n, tail) => Some (Z.of_N n, tail)
           | None => None
           end
  | [] => None
  end.

(** The scalar values of an object's members. *)
Inductive scalar :=
  | JStr (s : list ascii)
  | JInt (z : Z)
  | JBool (b : bool)
  | JNull.

Fixpoint skip_ws (l : list ascii) : list ascii :=
  match l with
  | c :: rest =>
      if (c =c SPACE) || (c =c TAB) || (c =c CR) || (c =c NL) then skip_ws rest else l
  | [] => []
  end.

(** [rest] of [l] after the literal word [w]. *)
Fixpoint after_word (w : list ascii) (l : list ascii) : option (list ascii) :=
  match w, l with
  | [], _ => Some l
  | a :: w, b :: l => if a =c b then after_word w l else None
  | _ :: _, [] => None
  end.

Definition word (s : string) : list ascii := list_ascii_of_string s.

Definition scan_scalar (l : list ascii) : option (scalar * list ascii) :=
  match l with
  | [] => None
  | c :: rest =>
      if c =c DQUOTE then
        match scan_string rest with
        | Some (raw, tail) => Some (JStr (unquote_bytes raw), tail)
        | None => None
        end
      else if (c =c "t")%char then
        option_map (fun tail => (JBool true, tail)) (after_word (word "true") l)
      else if (c =c "f")%char then
        option_map (fun tail => (JBool false, tail)) (after_word (word "false") l)
      else if (c =c "n")%char then
        option_map (fun tail => (JNull, tail)) (after_word (word "null") l)
      else match scan_int l with
           | Some (z, tail) => Some (JInt z, tail)
           | None => None
           end
  end.

(** One ["key": value] and what follows it. *)
Definition scan_member (l : list ascii) : option ((list ascii * scalar) * list ascii) :=
  match skip_ws l with
  | q :: l1 =>
      if q =c DQUOTE then
        match scan_string l1 with
        | Some (raw, l2) =>
            match skip_ws l2 with
            | colon :: l3 =>
                if (colon =c ":")%char then
                  match scan_scalar (skip_ws l3) with
                  | Some (v, tail) => Some ((unquote_bytes raw, v), tail)
                  | None => None
                  end
                else None
            | [] => None
            end
        | None => None
        end
      else None
  | [] => None
  end.

(** The members after [{], up to the closing brace. *)
Fixpoint scan_members (fuel : nat) (l : list ascii) : option (list (list ascii * scalar)) :=
  match fuel with
  | O => None
  | S fuel =>
      match scan_member l with
      | Some (m, tail) =>
          match skip_ws tail with
          | c :: rest =>
              if (c =c ",")%char then
                match scan_members fuel rest with
                | Some ms => Some (m :: ms)
                | None => None
                end
              else if (c =c "}")%char then Some [m]
              else None
          | [] => None
          end
      | None => None
      end
  end.

(** The members of the first JSON value of the input, for an object whose
    members are scalars; [null] leaves the destination alone, and what follows
    the value is not read.  [None] is an error of the scanner, or a value of
    another shape, which no field of the destination accepts. *)
Definition decode_object (l : list ascii) : option (list (list ascii * scalar)) :=
  match skip_ws l with
  | c :: rest =>
      if (c =c "{")%char then
        match skip_ws rest with
        | d :: _ =>
            if (d =c "}")%char then Some [] else scan_members (List.length rest) rest
        | [] => None
        end
      else match after_word (word "null") (c :: rest) with
           | Some _ => Some []
           | None => None
           end
  | [] => None
  end.

(** Marshal of a struct: its members in field order, without spaces. *)
Definition write_scalar (v : scalar) : list ascii :=
  match v with
  | JStr s => quote s
  | JInt z => format_int z
  | JBool true => word "true"
  | JBool false => word "false"
  | JNull => word "null"
  end.

Definition write_member (m : list ascii * scalar) : list ascii :=
  quote m.1 ++ ":"%char :: write_scalar m.2.

Fixpoint write_members (ms : list (list ascii * scalar)) : list ascii :=
  match ms with
  | [] => []
  | [m] => write_member m
  | m :: ms => write_member m ++ ","%char :: write_members ms
  end.

(** The same for members whose values are already rendered (nested objects). *)
Fixpoint write_raw_members (ms : list (string * list ascii)) : list ascii :=
  match ms with
  | [] => []
  | [(k, v)] => quote (word k) ++ ":"%char :: v
  | (k, v) :: ms => quote (word k) ++ ":"%char :: v ++ ","%char :: write_raw_members ms
  end.

Definition write_raw_object (ms : list (string * list ascii)) : list ascii :=
  "{"%char :: write_raw_members ms ++ ["}"%char].

Definition write_object (ms : list (list ascii * scalar)) : list ascii :=
  "{"%char :: write_members ms ++ ["}"%char].

(** foldName: the key with ASCII letters upper-cased, and the two runes that
    fold to an ASCII letter (U+017F and U+212A). *)
Definition fold_rune (r : rune) : rune :=
  match r with
  | Asc c => Asc (GoStr.upper_byte c)
  | Multi bs =>
      if bool_decide (bs = ["197"; "191"]%char) then Asc "S"
      else if bool_decide (bs = ["226"; "132"; "170"]%char) then Asc "K"
      else r
  | Bad c => r
  end.

Definition foldName (key : list ascii) : list ascii :=
  bytes_of (map fold_rune (runes key)).

Definition key_is (key : list ascii) (name : string) : bool :=
  bool_decide (foldName key = foldName (word name)).

End Json.
