(* ===== verification/JsonProps.v ===== *)
(** * The JSON codec is a round trip

    What is written by [Json.quote] and [Json.format_int] is read back by the
    scanner, up to the repair of bytes that are not UTF-8; what is read is
    always UTF-8. *)

From Stdlib Require Import DecimalN DecimalPos DecimalFacts ZifyBool ZifyN.
From S2P Require Import Prelude Json.
Import Utf8 Json.

(** ** String literals *)

Definition prepend (bs : list ascii) (o : option (list ascii * list ascii))
  : option (list ascii * list ascii) :=
  match o with
  | Some (raw, tail) => Some (bs ++ raw, tail)
  | None => None
  end.

Lemma prepend_app a b o : prepend a (prepend b o) = prepend (a ++ b) o.
Proof. destruct o as [[raw tail]|]; [|done]. cbn. by rewrite <- app_assoc. Qed.

(** Every byte of a multi-byte rune is above 0x7f. *)
Lemma multi_high bs :
  valid_rune (Multi bs) = true -> Forall (fun c => is_ascii c = false) bs.
Proof.
  destruct bs as [|a [|b [|c [|d [|e bs]]]]]; cbn [valid_rune]; try done; intros H;
    repeat constructor; byte_arith.
Qed.

Lemma high_plain c :
  is_ascii c = false ->
  (c =c DQUOTE) = false /\ (c =c BACKSLASH) = false /\ (byte_val c <? 32)%Z = false.
Proof.
  intros H. repeat split.
  - apply Ascii.eqb_neq. intros ->. vm_compute in H. done.
  - apply Ascii.eqb_neq. intros ->. vm_compute in H. done.
  - apply Z.ltb_ge. unfold byte_val. byte_arith.
Qed.

Lemma scan_high bs rest :
  Forall (fun c => is_ascii c = false) bs ->
  scan_string (bs ++ rest) = prepend bs (scan_string rest).
Proof.
  induction 1 as [|c bs Hc _ IH]; cbn [app].
  - by destruct (scan_string rest) as [[? ?]|].
  - destruct (high_plain c Hc) as (H1 & H2 & H3). cbn [scan_string].
    rewrite H1, H2, H3, IH. by destruct (scan_string rest) as [[? ?]|].
Qed.

Lemma scan_quote_rune r rest :
  scanned r ->
  scan_string (bytes_of (quote_rune r) ++ rest)
  = prepend (bytes_of (quote_rune r)) (scan_string rest).
Proof.
  destruct r as [c|bs|c]; intros Hr.
  - by destruct c as [[] [] [] [] [] [] [] []].
  - cbn [quote_rune]. repeat case_bool_decide; [done..|].
    unfold bytes_of. cbn [flat_map rune_bytes]. rewrite app_nil_r. apply scan_high, multi_high.
    destruct Hr as [Hr|(c & ? & _)]; done.
  - done.
Qed.

Lemma scan_quote_body l rest :
  scan_string (quote_body l ++ DQUOTE :: rest) = Some (quote_body l, rest).
Proof.
  unfold quote_body. pose proof (runes_scanned l) as H. induction H as [|r rs Hr _ IH]; [done|].
  cbn [flat_map]. unfold bytes_of in *. rewrite flat_map_app, <- app_assoc.
  change (flat_map rune_bytes (quote_rune r)) with (bytes_of (quote_rune r)).
  rewrite scan_quote_rune, IH by done. done.
Qed.

(** The runes of a literal are well-formed. *)
Lemma quote_rune_valid r : scanned r -> forallb valid_rune (quote_rune r) = true.
Proof.
  destruct r as [c|bs|c]; intros Hr.
  - destruct Hr as [Hr|(? & ? & _)]; [|done]. cbn in Hr.
    by destruct c as [[] [] [] [] [] [] [] []].
  - destruct Hr as [Hr|(? & ? & _)]; [|done]. cbn [quote_rune].
    repeat case_bool_decide; [done..|]. cbn [forallb]. by rewrite Hr.
  - done.
Qed.

Lemma unquote_quote_rune r rest :
  scanned r -> unquote (quote_rune r ++ rest) = clean_rune r :: unquote rest.
Proof.
  destruct r as [c|bs|c]; intros Hr.
  - by destruct c as [[] [] [] [] [] [] [] []].
  - cbn [quote_rune]. repeat case_bool_decide; subst; done.
  - done.
Qed.

Lemma unquote_quote_body l : unquote_bytes (quote_body l) = clean l.
Proof.
  unfold unquote_bytes, quote_body, clean. f_equal. pose proof (runes_scanned l) as H.
  assert (forallb valid_rune (flat_map quote_rune (runes l)) = true) as Hv.
  { induction H as [|r rs Hr _ IH]; [done|]. cbn [flat_map].
    by rewrite forallb_app, quote_rune_valid, IH. }
  rewrite <- (app_nil_r (bytes_of _)), runes_bytes_of, app_nil_r by done. clear Hv.
  induction H as [|r rs Hr _ IH]; [done|]. cbn [flat_map map].
  by rewrite unquote_quote_rune, IH.
Qed.

(** ** What is read is UTF-8 *)

Lemma byte_val_ascii v : (0 <= v < 256)%Z -> N_of_ascii (byte_of v) = Z.to_N v.
Proof. intros Hv. pose proof (byte_val_of v Hv) as H. unfold byte_val in H. lia. Qed.

Lemma lor_base base b v k :
  base = (b * 2 ^ k)%Z -> (0 <= k)%Z -> (0 <= v < 2 ^ k)%Z -> Z.lor base v = (base + v)%Z.
Proof.
  intros -> Hk Hv. rewrite <- Z.shiftl_mul_pow2 by done.
  rewrite lor_shiftl_add by done. by rewrite Z.shiftl_mul_pow2.
Qed.

Lemma cont_byte v : (0 <= v < 64)%Z -> N_of_ascii (byte_of (Z.lor 128 v)) = Z.to_N (128 + v).
Proof.
  intros Hv. rewrite (lor_base _ 2 v 6) by lia. apply byte_val_ascii. lia.
Qed.

Lemma land63 v : Z.land v 63 = (v mod 64)%Z.
Proof. change 63%Z with (Z.ones 6). by rewrite Z.land_ones by lia. Qed.

Lemma encode_rune_valid cp :
  (0 <= cp < 1114112)%Z -> is_high cp || is_low cp = false -> valid_rune (encode_rune cp) = true.
Proof.
  intros Hcp Hs. unfold is_high, is_low in Hs. unfold encode_rune.
  pose proof (Z.mod_pos_bound cp 64 ltac:(lia)) as M0.
  pose proof (Z.mod_pos_bound (cp / 64) 64 ltac:(lia)) as M1.
  pose proof (Z.mod_pos_bound (cp / 4096) 64 ltac:(lia)) as M2.
  rewrite !land63, !Z.shiftr_div_pow2 by lia.
  change (2 ^ 6)%Z with 64%Z. change (2 ^ 12)%Z with 4096%Z. change (2 ^ 18)%Z with 262144%Z.
  repeat case_match; cbn [valid_rune]; unfold is_rune2, is_rune3, is_rune4, cont, is_ascii, GoStr.in_range;
    rewrite ?eqb_val, ?cont_byte by done.
  - rewrite byte_val_ascii by lia. change (N_of_ascii "127") with 127%N.
    change (N_of_ascii "000") with 0%N. lia.
  - assert (0 <= cp / 64 < 32)%Z by (Z.to_euclidean_division_equations; lia).
    rewrite (lor_base _ 6 _ 5), byte_val_ascii by lia.
    assert (2 <= cp / 64)%Z by (Z.to_euclidean_division_equations; lia).
    byte_arith.
  - assert (0 <= cp / 4096 < 16)%Z by (Z.to_euclidean_division_equations; lia).
    rewrite (lor_base _ 14 _ 4), byte_val_ascii by lia.
    assert (cp = (cp / 4096) * 4096 + (cp / 64) mod 64 * 64 + cp mod 64)%Z
      by (Z.to_euclidean_division_equations; lia).
    byte_arith.
  - assert (0 <= cp / 262144 < 5)%Z by (Z.to_euclidean_division_equations; lia).
    rewrite (lor_base _ 30 _ 3), byte_val_ascii by lia.
    assert (cp = (cp / 262144) * 262144 + (cp / 4096) mod 64 * 4096
                 + (cp / 64) mod 64 * 64 + cp mod 64)%Z
      by (Z.to_euclidean_division_equations; lia).
    byte_arith.
Qed.

Lemma hex_val_range c v : hex_val c = Some v -> (0 <= v < 16)%Z.
Proof.
  destruct c as [[] [] [] [] [] [] [] []]; intros H; vm_compute in H;
    discriminate H || (injection H as <-; lia).
Qed.

Lemma hex4_range a b c d v : hex4 a b c d = Some v -> (0 <= v < 65536)%Z.
Proof.
  unfold hex4. destruct (hex_val a) eqn:Ea, (hex_val b) eqn:Eb, (hex_val c) eqn:Ec,
    (hex_val d) eqn:Ed; try done. intros [= <-].
  apply hex_val_range in Ea, Eb, Ec, Ed. lia.
Qed.

Lemma unescape_ascii e d : unescape e = Some d -> is_ascii d = true.
Proof.
  destruct e as [[] [] [] [] [] [] [] []]; intros H; vm_compute in H;
    discriminate H || (by injection H as <-).
Qed.

Lemma scanned_tail r rs : Forall scanned (r :: rs) -> Forall scanned rs.
Proof. by intros [_ H]%Forall_cons. Qed.

Lemma scanned_asc c rs : Forall scanned (Asc c :: rs) -> is_ascii c = true.
Proof. intros [[H|(? & ? & _)] _]%Forall_cons; done. Qed.

Lemma pair_rune_valid hi lo :
  is_high hi = true -> is_low lo = true -> valid_rune (encode_rune (pair_rune hi lo)) = true.
Proof.
  unfold is_high, is_low, pair_rune. intros. apply encode_rune_valid; [lia|].
  unfold is_high, is_low. lia.
Qed.

Lemma unquote_valid rs : Forall scanned rs -> forallb valid_rune (unquote rs) = true.
Proof.
  induction rs as [[|r rs] IH] using list_length_ind; [done|]. intros H.
  assert (forall rs', List.length rs' <= List.length rs -> Forall scanned rs' ->
            forallb valid_rune (unquote rs') = true) as IH'
    by (intros; apply IH; [cbn; lia|done]). clear IH.
  pose proof (scanned_tail _ _ H) as Ht. destruct r as [c|bs|c].
  - cbn [unquote]. destruct (negb _).
    { cbn [forallb valid_rune]. by rewrite (scanned_asc _ _ H), IH'. }
    destruct rs as [|[e|?|?] rs1]; try done. pose proof (scanned_tail _ _ Ht) as H1.
    destruct (negb _).
    { destruct (unescape e) eqn:Ee; [|done]. cbn [forallb valid_rune].
      rewrite (unescape_ascii _ _ Ee), IH'; [done|cbn; lia|done]. }
    destruct rs1 as [|[h1|?|?] [|[h2|?|?] [|[h3|?|?] [|[h4|?|?] rs4]]]]; try done.
    do 4 apply scanned_tail in H1. cbn in IH'.
    destruct (hex4 h1 h2 h3 h4) as [cp|] eqn:Eh; [|done]. apply hex4_range in Eh.
    destruct (is_high cp || is_low cp) eqn:Es; cbn [negb].
    + assert (forallb valid_rune (replacement :: unquote rs4) = true) as Hr
        by (cbn; apply IH'; [lia|done]).
      destruct rs4 as [|[x1|?|?] [|[x2|?|?] [|[g1|?|?] [|[g2|?|?] [|[g3|?|?] [|[g4|?|?] rs10]]]]]];
        try exact Hr.
      destruct (hex4 g1 g2 g3 g4) as [cp2|]; [|exact Hr].
      destruct (_ && _) eqn:E; [|exact Hr]. bool_hyps. cbn [forallb].
      do 6 apply scanned_tail in H1.
      rewrite pair_rune_valid, IH'; try done. cbn. lia.
    + cbn [forallb]. rewrite encode_rune_valid, IH'; try done; lia.
  - cbn [unquote forallb]. apply Forall_cons in H as [[H|(? & ? & _)] _]; [|done].
    by rewrite H, IH'.
  - cbn [unquote forallb]. by rewrite IH'.
Qed.

Lemma unquote_bytes_valid raw : valid (unquote_bytes raw) = true.
Proof.
  unfold valid, unquote_bytes. pose proof (unquote_valid _ (runes_scanned raw)) as H.
  by rewrite <- (app_nil_r (bytes_of _)), runes_bytes_of, app_nil_r.
Qed.

(** ** Integers *)

(** The next byte ends a number. *)
Definition no_digit (l : list ascii) : Prop :=
  match l with c :: _ => GoStr.is_digit c = false | [] => True end.

Lemma scan_digits_chars u rest :
  no_digit rest -> scan_digits (uint_chars u ++ rest) = (u, rest).
Proof.
  intros Hr. induction u as [|u IH|u IH|u IH|u IH|u IH|u IH|u IH|u IH|u IH|u IH];
    cbn [uint_chars app]; [destruct rest as [|c rest]; cbn; [done|]; cbn in Hr; by rewrite Hr|..];
    cbn [scan_digits]; by rewrite IH.
Qed.

Lemma scan_format_nat n rest :
  no_digit rest -> scan_nat (format_nat n ++ rest) = Some (n, rest).
Proof.
  intros Hr. unfold scan_nat, format_nat. rewrite scan_digits_chars by done.
  pose proof (DecimalN.Unsigned.of_to n) as Hof.
  pose proof (DecimalN.Unsigned.to_of (N.to_uint n)) as Hn. rewrite Hof in Hn.
  assert (N.to_uint n <> Decimal.Nil) as Hnil.
  { destruct n as [|p]; [done|]. apply DecimalPos.Unsigned.to_uint_nonnil. }
  destruct (N.to_uint n) as [|u|u|u|u|u|u|u|u|u|u] eqn:E; try done;
    try (by rewrite Hof).
  unfold Decimal.unorm in Hn. destruct (Decimal.nzhead (Decimal.D0 u)) eqn:Ez;
    try discriminate Hn.
  - injection Hn as ->. f_equal. f_equal. by destruct n.
  - exfalso. by apply (DecimalFacts.nzhead_nonzero (Decimal.D0 u) u0).
Qed.

Lemma format_nat_head n : exists c l, format_nat n = c :: l /\ (c =c "-")%char = false.
Proof.
  unfold format_nat. assert (N.to_uint n <> Decimal.Nil) as Hnil.
  { destruct n as [|p]; [done|]. apply DecimalPos.Unsigned.to_uint_nonnil. }
  destruct (N.to_uint n); [done|..]; cbn [uint_chars]; by eexists _, _.
Qed.

Lemma scan_format_int z rest :
  no_digit rest -> scan_int (format_int z ++ rest) = Some (z, rest).
Proof.
  intros Hr. unfold format_int. destruct (z <? 0)%Z eqn:Hz; cbn [app].
  - cbn [scan_int]. change ("-" =c "-")%char with true. cbn iota.
    rewrite scan_format_nat by done. do 2 f_equal. bool_hyps. lia.
  - destruct (format_nat_head (Z.to_N z)) as (c & l & Hf & Hc).
    pose proof (scan_format_nat (Z.to_N z) rest Hr) as Hs. rewrite Hf in *.
    cbn [app scan_int] in *. rewrite Hc, Hs. do 2 f_equal. bool_hyps. lia.
Qed.

(** ** Objects *)

Definition clean_scalar (v : scalar) : scalar :=
  match v with JStr s => JStr (clean s) | _ => v end.

Definition clean_member (m : list ascii * scalar) : list ascii * scalar :=
  (clean m.1, clean_scalar m.2).

(** The bytes that follow a member. *)
Definition ends_value (l : list ascii) : Prop :=
  exists c rest, l = c :: rest /\ (c = ","%char \/ c = "}"%char).

Lemma scan_quote l rest :
  exists q, quote l ++ rest = q :: quote_body l ++ DQUOTE :: rest /\ (q =c DQUOTE) = true.
Proof. exists DQUOTE. split; [|done]. unfold quote. cbn. by rewrite <- app_assoc. Qed.

Lemma format_nat_digit n : exists c l, format_nat n = c :: l /\ GoStr.is_digit c = true.
Proof.
  unfold format_nat. assert (N.to_uint n <> Decimal.Nil) as Hnil.
  { destruct n as [|p]; [done|]. apply DecimalPos.Unsigned.to_uint_nonnil. }
  destruct (N.to_uint n); [done|..]; cbn [uint_chars]; by eexists _, _.
Qed.

Lemma number_head c :
  GoStr.is_digit c = true \/ c = "-"%char ->
  (c =c DQUOTE) = false /\ (c =c "t")%char = false /\ (c =c "f")%char = false
  /\ (c =c "n")%char = false
  /\ ((c =c SPACE) || (c =c TAB) || (c =c CR) || (c =c NL)) = false.
Proof.
  intros [H| ->]; [|by vm_compute].
  destruct c as [[] [] [] [] [] [] [] []]; vm_compute in H; discriminate H || (by vm_compute).
Qed.

Lemma format_int_head z :
  exists c l, format_int z = c :: l /\ (GoStr.is_digit c = true \/ c = "-"%char).
Proof.
  unfold format_int. destruct (z <? 0)%Z; [by eexists _, _; split; [|right]|].
  destruct (format_nat_digit (Z.to_N z)) as (c & l & -> & Hc). eauto.
Qed.

Lemma scan_write_scalar v rest :
  ends_value rest -> scan_scalar (write_scalar v ++ rest) = Some (clean_scalar v, rest).
Proof.
  intros (e & tl & -> & He). destruct v as [s|z|[]|]; cbn [write_scalar clean_scalar]; try done.
  - destruct (scan_quote s (e :: tl)) as (q & -> & Hq). cbn [scan_scalar].
    by rewrite Hq, scan_quote_body, unquote_quote_body.
  - assert (no_digit (e :: tl)) as Hn by (destruct He as [->| ->]; done).
    pose proof (scan_format_int z _ Hn) as Hs.
    destruct (format_int_head z) as (c & l & Hf & Hc). rewrite Hf in *. cbn [app] in *.
    destruct (number_head c Hc) as (H1 & H2 & H3 & H4 & _). cbn [scan_scalar].
    by rewrite H1, H2, H3, H4, Hs.
Qed.

Lemma skip_ws_id c l :
  ((c =c SPACE) || (c =c TAB) || (c =c CR) || (c =c NL)) = false -> skip_ws (c :: l) = c :: l.
Proof. intros H. cbn. by rewrite H. Qed.

Lemma skip_ws_scalar v rest : skip_ws (write_scalar v ++ rest) = write_scalar v ++ rest.
Proof.
  destruct v as [s|z|[]|]; try done. cbn [write_scalar].
  destruct (format_int_head z) as (c & l & -> & Hc). apply skip_ws_id, (number_head c Hc).
Qed.

Lemma scan_write_member m rest :
  ends_value rest -> scan_member (write_member m ++ rest) = Some (clean_member m, rest).
Proof.
  intros Hr. unfold write_member, clean_member. rewrite <- app_assoc.
  destruct (scan_quote m.1 ((":"%char :: write_scalar m.2) ++ rest)) as (q & -> & Hq).
  unfold scan_member. apply Ascii.eqb_eq in Hq as ->.
  rewrite skip_ws_id by done. rewrite Ascii.eqb_refl, scan_quote_body. cbn [app].
  rewrite skip_ws_id by done. rewrite Ascii.eqb_refl, skip_ws_scalar.
  by rewrite scan_write_scalar, unquote_quote_body.
Qed.

Lemma write_members_head m ms :
  exists l, write_members (m :: ms) = DQUOTE :: l /\ List.length ms <= List.length l.
Proof.
  revert m. induction ms as [|m' ms IH]; intros m.
  - cbn. eexists. split; [reflexivity|]. lia.
  - destruct (IH m') as (l & Hl & Hlen). change (write_members (m :: m' :: ms))
      with (write_member m ++ ","%char :: write_members (m' :: ms)). rewrite Hl.
    eexists. split; [reflexivity|]. rewrite !length_app. cbn. lia.
Qed.

Lemma scan_write_members fuel m ms rest :
  List.length ms < fuel ->
  scan_members fuel (write_members (m :: ms) ++ "}"%char :: rest)
  = Some (map clean_member (m :: ms)).
Proof.
  revert m ms. induction fuel as [|fuel IH]; intros m ms Hf; [lia|].
  destruct ms as [|m' ms]; cbn [scan_members].
  - cbn [write_members]. rewrite scan_write_member by (eexists _, _; eauto).
    by rewrite skip_ws_id.
  - change (write_members (m :: m' :: ms))
      with (write_member m ++ ","%char :: write_members (m' :: ms)).
    rewrite <- app_assoc. cbn [app].
    rewrite scan_write_member by (eexists _, _; eauto). rewrite skip_ws_id by done.
    rewrite Ascii.eqb_refl, IH by (cbn in Hf; lia). done.
Qed.

(** Decoding what was written gives the members back, their strings made UTF-8;
    trailing bytes are not looked at. *)
Lemma decode_write_object ms rest :
  decode_object (write_object ms ++ rest) = Some (map clean_member ms).
Proof.
  unfold decode_object, write_object. cbn [app]. rewrite skip_ws_id by done.
  rewrite Ascii.eqb_refl, <- app_assoc. cbn [app]. destruct ms as [|m ms]; [done|].
  destruct (write_members_head m ms) as (l & Hl & Hlen).
  rewrite Hl at 1. cbn [app]. rewrite skip_ws_id by done.
  change (DQUOTE =c "}")%char with false. cbn iota.
  apply scan_write_members. rewrite Hl. cbn. rewrite length_app. lia.
Qed.

(** ** The scanner terminates

    Every scanner returns a strictly shorter rest, so the bytes of the input
    bound the members of an object. *)

Lemma skip_ws_length l : List.length (skip_ws l) <= List.length l.
Proof. induction l as [|c l IH]; cbn; [done|]. destruct (_ || _); cbn; lia. Qed.

Lemma scan_string_length l raw tail :
  scan_string l = Some (raw, tail) -> List.length tail < List.length l.
Proof.
  revert raw. induction l as [l IH] using list_length_ind. intros raw.
  assert (forall l' pre raw, List.length l' < List.length l ->
            (match scan_string l' with
             | Some (raw, tail) => Some (pre ++ raw, tail)
             | None => None
             end) = Some (raw, tail) -> List.length tail < List.length l') as IH'.
  { intros l' pre raw' Hl H. destruct (scan_string l') as [[r t]|] eqn:E; [|done].
    injection H as _ ->. by eapply IH. }
  destruct l as [|c l]; [done|]. cbn [scan_string].
  destruct (c =c DQUOTE); [intros [= _ ->]; cbn; lia|]. destruct (c =c BACKSLASH).
  - destruct l as [|e l]; [done|]. destruct (e =c "u")%char.
    + destruct l as [|h1 [|h2 [|h3 [|h4 l]]]]; try done. destruct (_ && _); [|done].
      intros H%(IH' l [c; e; h1; h2; h3; h4]); cbn in *; lia.
    + destruct (unescape e); [|done]. intros H%(IH' l [c; e]); cbn in *; lia.
  - destruct (_ <? _)%Z; [done|]. intros H%(IH' l [c]); cbn in *; lia.
Qed.

Lemma scan_digits_length l u tail :
  scan_digits l = (u, tail) -> List.length tail <= List.length l.
Proof.
  revert u. induction l as [|c l IH]; intros u; cbn; [by intros [= _ <-]|].
  destruct (GoStr.is_digit c); [|by intros [= _ <-]].
  destruct (scan_digits l) as [u' t]. intros [= _ <-]. specialize (IH u' eq_refl). lia.
Qed.

Lemma scan_nat_length l n tail :
  scan_nat l = Some (n, tail) -> List.length tail <= List.length l.
Proof.
  unfold scan_nat. destruct (scan_digits l) as [u t] eqn:E. apply scan_digits_length in E.
  repeat case_match; intros H'; first [discriminate H' | by injection H' as _ <-].
Qed.

Lemma after_word_length w l tail :
  after_word w l = Some tail -> List.length tail <= List.length l.
Proof.
  revert l. induction w as [|a w IH]; intros [|b l]; cbn; try done; try (by intros [= <-]).
  destruct (a =c b); [|done]. intros H%IH. lia.
Qed.

Lemma scan_scalar_length l v tail :
  scan_scalar l = Some (v, tail) -> List.length tail <= List.length l.
Proof.
  destruct l as [|c l]; [done|]. cbn [scan_scalar]. destruct (c =c DQUOTE).
  { destruct (scan_string l) as [[raw t]|] eqn:E; [|done]. intros [= _ <-].
    apply scan_string_length in E. cbn. lia. }
  repeat (destruct (c =c _); [destruct (after_word _ _) eqn:E; [|done];
    intros [= _ <-]; by apply after_word_length in E|]).
  cbn [scan_int]. destruct (c =c "-")%char.
  - destruct (scan_nat l) as [[n t]|] eqn:E; [|done]. intros [= _ <-].
    apply scan_nat_length in E. cbn. lia.
  - destruct (scan_nat (c :: l)) as [[n t]|] eqn:E; [|done]. intros [= _ <-].
    by apply scan_nat_length in E.
Qed.

Lemma scan_member_length l m tail :
  scan_member l = Some (m, tail) -> List.length tail < List.length l.
Proof.
  unfold scan_member. pose proof (skip_ws_length l).
  destruct (skip_ws l) as [|q l1]; [done|]. destruct (q =c DQUOTE); [|done].
  destruct (scan_string l1) as [[raw l2]|] eqn:E1; [|done]. apply scan_string_length in E1.
  pose proof (skip_ws_length l2). destruct (skip_ws l2) as [|colon l3]; [done|].
  destruct (colon =c ":")%char; [|done]. pose proof (skip_ws_length l3).
  destruct (scan_scalar _) as [[v t]|] eqn:E2; [|done]. apply scan_scalar_length in E2.
  intros [= _ <-]. cbn in *. lia.
Qed.

Lemma scan_members_enough n m l :
  List.length l <= n -> List.length l <= m -> scan_members n l = scan_members m l.
Proof.
  revert m l. induction n as [|n IH]; intros [|m] l Hn Hm;
    try (destruct l; [|cbn in *; lia]); try done.
  cbn [scan_members]. destruct (scan_member l) as [[mem tail]|] eqn:E; [|done].
  apply scan_member_length in E. pose proof (skip_ws_length tail).
  destruct (skip_ws tail) as [|c rest]; [done|]. destruct (c =c ",")%char; [|done].
  cbn in *. by rewrite (IH m rest) by lia.
Qed.

(** Every string the decoder returns is UTF-8. *)
Definition utf8_scalar (v : scalar) : Prop :=
  match v with JStr s => valid s = true | _ => True end.

Lemma scan_scalar_utf8 l v tail : scan_scalar l = Some (v, tail) -> utf8_scalar v.
Proof.
  destruct l as [|c l]; [done|]. cbn [scan_scalar]. destruct (c =c DQUOTE).
  { destruct (scan_string l) as [[raw t]|]; [|done]. intros [= <- _]. apply unquote_bytes_valid. }
  repeat (destruct (c =c _); [destruct (after_word _ _); [|done]; by intros [= <- _]|]).
  destruct (scan_int (c :: l)) as [[z t]|]; [|done]. by intros [= <- _].
Qed.

Lemma scan_member_utf8 l m tail : scan_member l = Some (m, tail) -> utf8_scalar m.2.
Proof.
  unfold scan_member. intros H. repeat case_match; try done. injection H as <- _.
  by eapply scan_scalar_utf8.
Qed.

Lemma scan_members_utf8 fuel : forall l ms,
  scan_members fuel l = Some ms -> Forall (fun m => utf8_scalar m.2) ms.
Proof.
  induction fuel as [|fuel IH]; intros l ms; [done|]. cbn [scan_members].
  destruct (scan_member l) as [[m tail]|] eqn:Em; [|done]. apply scan_member_utf8 in Em.
  destruct (skip_ws tail) as [|c rest]; [done|]. destruct (c =c ",")%char.
  - destruct (scan_members fuel rest) eqn:E; [|done]. intros [= <-]. constructor; eauto.
  - destruct (c =c "}")%char; [|done]. intros [= <-]. by constructor.
Qed.

Lemma decode_object_utf8 l ms :
  decode_object l = Some ms -> Forall (fun m => utf8_scalar m.2) ms.
Proof.
  unfold decode_object. intros H. repeat case_match; try done;
    try (by injection H as <-). by eapply scan_members_utf8.
Qed.

(** ** What is written stays on one line *)

Definition no_newline (l : list ascii) : Prop := Forall (fun c => c <> NL) l.

Lemma no_newline_app a b : no_newline a -> no_newline b -> no_newline (a ++ b).
Proof. apply Forall_app_2. Qed.

Lemma quote_rune_no_newline r : scanned r -> no_newline (bytes_of (quote_rune r)).
Proof.
  intros Hr. destruct r as [c|bs|c].
  - destruct c as [[] [] [] [] [] [] [] []]; vm_compute; repeat constructor; discriminate.
  - destruct Hr as [Hr|(? & ? & _)]; [|done]. cbn [quote_rune].
    repeat case_bool_decide; [vm_compute; repeat constructor; discriminate..|].
    unfold bytes_of, no_newline. cbn [flat_map rune_bytes]. rewrite app_nil_r.
    eapply Forall_impl; [by apply multi_high|]. intros c Hc ->. vm_compute in Hc. done.
  - vm_compute. repeat constructor; discriminate.
Qed.

Lemma quote_no_newline l : no_newline (quote l).
Proof.
  unfold quote, no_newline. constructor; [done|]. apply Forall_app_2; [|by repeat constructor].
  unfold quote_body. pose proof (runes_scanned l) as H. induction H as [|r rs Hr _ IH]; [constructor|].
  cbn [flat_map]. unfold bytes_of. rewrite flat_map_app.
  apply Forall_app_2; [by apply quote_rune_no_newline|exact IH].
Qed.

Lemma format_int_no_newline z : no_newline (format_int z).
Proof.
  assert (forall u, no_newline (uint_chars u)) as Hu
    by (induction u; cbn [uint_chars]; constructor; (discriminate || done)).
  unfold format_int, format_nat. destruct (z <? 0)%Z; [constructor; [discriminate|]|]; apply Hu.
Qed.

Lemma raw_object_no_newline ms :
  Forall (fun m => no_newline m.2) ms -> no_newline (write_raw_object ms).
Proof.
  intros H. unfold write_raw_object. constructor; [discriminate|].
  apply no_newline_app; [|by repeat constructor].
  induction H as [|[k v] ms Hv _ IH]; [constructor|]. cbn [snd] in Hv.
  assert (no_newline (quote (word k) ++ ":"%char :: v)) as H1.
  { apply no_newline_app; [apply quote_no_newline|]. by constructor. }
  destruct ms as [|m ms]; [exact H1|].
  change (write_raw_members ((k, v) :: m :: ms))
    with (quote (word k) ++ ":"%char :: v ++ ","%char :: write_raw_members (m :: ms)).
  apply no_newline_app; [apply quote_no_newline|]. constructor; [discriminate|].
  apply no_newline_app; [done|]. by constructor.
Qed.

Lemma object_no_newline ms :
  Forall (fun m => match m.2 with JInt _ => True | _ => False end) ms ->
  no_newline (write_object ms).
Proof.
  intros H. unfold write_object. constructor; [discriminate|].
  apply no_newline_app; [|by repeat constructor].
  induction H as [|[k v] ms Hv _ IH]; [constructor|]. destruct v; try done.
  assert (no_newline (write_member (k, JInt z))) as H1.
  { unfold write_member. apply no_newline_app; [apply quote_no_newline|].
    constructor; [discriminate|apply format_int_no_newline]. }
  destruct ms as [|m ms]; [exact H1|].
  change (write_members ((k, JInt z) :: m :: ms))
    with (write_member (k, JInt z) ++ ","%char :: write_members (m :: ms)).
  apply no_newline_app; [exact H1|]. by constructor.
Qed.
