(* ===== verification/JsonValue.v ===== *)
(** * JSON values of any shape

    encoding/json beyond flat objects: the scanner and the decoder of nested
    values, their encoding, and decoding into Go structs, slices and maps with the
    rules the package has for them: a member goes to the field whose name it has,
    or folds to; [null] leaves a field alone; a value of another type is an error,
    but the rest is decoded; unknown members are skipped or, when the decoder says
    so, an error; a slice is decoded over the elements it had. *)

From S2P Require Import Prelude Json.

Module JsonValue.
Import Json.

(** A number is its literal: what it is decoded into decides its range. *)
Inductive value :=
  | VNull
  | VBool (b : bool)
  | VNum (literal : list ascii)
  | VStr (s : list ascii)
  | VArr (vs : list value)
  | VObj (ms : list (list ascii * value)).

(** ** Scanning *)

Fixpoint digits (l : list ascii) : list ascii * list ascii :=
  match l with
  | c :: rest =>
      if GoStr.is_digit c then let '(ds, tail) := digits rest in (c :: ds, tail) else ([], l)
  | [] => ([], [])
  end.

(** At least one digit. *)
Definition digits1 (l : list ascii) : option (list ascii * list ascii) :=
  match digits l with
  | ([], _) => None
  | r => Some r
  end.

(** The integer part: no leading zero. *)
Definition scan_int_part (l : list ascii) : option (list ascii * list ascii) :=
  match l with
  | c :: rest => if (c =c "0")%char then Some ([c], rest) else digits1 l
  | [] => None
  end.

Definition scan_fraction (l : list ascii) : option (list ascii * list ascii) :=
  match l with
  | c :: rest =>
      if (c =c ".")%char then option_map (fun r => (c :: r.1, r.2)) (digits1 rest) else Some ([], l)
  | [] => Some ([], l)
  end.

Definition scan_exponent (l : list ascii) : option (list ascii * list ascii) :=
  match l with
  | c :: rest =>
      if (c =c "e")%char || (c =c "E")%char then
        match rest with
        | s :: rest' =>
            if (s =c "+")%char || (s =c "-")%char
            then option_map (fun r => (c :: s :: r.1, r.2)) (digits1 rest')
            else option_map (fun r => (c :: r.1, r.2)) (digits1 rest)
        | [] => None
        end
      else Some ([], l)
  | [] => Some ([], l)
  end.

Definition scan_unsigned (l : list ascii) : option (list ascii * list ascii) :=
  match scan_int_part l with
  | Some (i, l1) =>
      match scan_fraction l1 with
      | Some (f, l2) =>
          match scan_exponent l2 with
          | Some (e, l3) => Some (i ++ f ++ e, l3)
          | None => None
          end
      | None => None
      end
  | None => None
  end.

Definition scan_number (l : list ascii) : option (list ascii * list ascii) :=
  match l with
  | c :: rest =>
      if (c =c "-")%char then option_map (fun r => (c :: r.1, r.2)) (scan_unsigned rest)
      else scan_unsigned l
  | [] => None
  end.

(** A key, up to and including its colon. *)
Definition scan_key (l : list ascii) : option (list ascii * list ascii) :=
  match skip_ws l with
  | q :: l1 =>
      if q =c DQUOTE then
        match scan_string l1 with
        | Some (raw, l2) =>
            match skip_ws l2 with
            | c :: l3 => if (c =c ":")%char then Some (unquote_bytes raw, l3) else None
            | [] => None
            end
        | None => None
        end
      else None
  | [] => None
  end.

(** A value that is neither an object nor an array. *)
Definition scan_atom (l : list ascii) : option (value * list ascii) :=
  match l with
  | [] => None
  | c :: rest =>
      if c =c DQUOTE then option_map (fun r => (VStr (unquote_bytes r.1), r.2)) (scan_string rest)
      else if (c =c "t")%char then option_map (fun tail => (VBool true, tail)) (after_word (word "true") l)
      else if (c =c "f")%char then option_map (fun tail => (VBool false, tail)) (after_word (word "false") l)
      else if (c =c "n")%char then option_map (fun tail => (VNull, tail)) (after_word (word "null") l)
      else option_map (fun r => (VNum r.1, r.2)) (scan_number l)
  end.

(** maxNestingDepth of the scanner. *)
Definition maxNestingDepth : nat := 10000.

(** One value; the members of an object and the elements of an array up to their
    closing bracket. *)
Fixpoint scan_value (fuel depth : nat) (l : list ascii) : option (value * list ascii) :=
  match fuel with
  | O => None
  | S fuel =>
      match skip_ws l with
      | [] => None
      | c :: rest =>
          if (c =c "{")%char then
            match depth with
            | O => None
            | S depth =>
                match skip_ws rest with
                | [] => None
                | d :: tail =>
                    if (d =c "}")%char then Some (VObj [], tail)
                    else option_map (fun r => (VObj r.1, r.2)) (scan_fields fuel depth rest)
                end
            end
          else if (c =c "[")%char then
            match depth with
            | O => None
            | S depth =>
                match skip_ws rest with
                | [] => None
                | d :: tail =>
                    if (d =c "]")%char then Some (VArr [], tail)
                    else option_map (fun r => (VArr r.1, r.2)) (scan_elements fuel depth rest)
                end
            end
          else scan_atom (c :: rest)
      end
  end
with scan_fields (fuel depth : nat) (l : list ascii)
    : option (list (list ascii * value) * list ascii) :=
  match fuel with
  | O => None
  | S fuel =>
      match scan_key l with
      | Some (k, l1) =>
          match scan_value fuel depth l1 with
          | Some (v, l2) =>
              match skip_ws l2 with
              | c :: l3 =>
                  if (c =c ",")%char
                  then option_map (fun r => ((k, v) :: r.1, r.2)) (scan_fields fuel depth l3)
                  else if (c =c "}")%char then Some ([(k, v)], l3) else None
              | [] => None
              end
          | None => None
          end
      | None => None
      end
  end
with scan_elements (fuel depth : nat) (l : list ascii) : option (list value * list ascii) :=
  match fuel with
  | O => None
  | S fuel =>
      match scan_value fuel depth l with
      | Some (v, l1) =>
          match skip_ws l1 with
          | c :: l2 =>
              if (c =c ",")%char
              then option_map (fun r => (v :: r.1, r.2)) (scan_elements fuel depth l2)
              else if (c =c "]")%char then Some ([v], l2) else None
          | [] => None
          end
      | None => None
      end
  end.

(** Fuel that every input's length bounds. *)
Definition fuel_for (l : list ascii) : nat := 2 * List.length l + 2.

(** What Decoder.Decode reads: the first value, whatever follows it. *)
Definition first_value (l : list ascii) : option value :=
  option_map fst (scan_value (fuel_for l) maxNestingDepth l).

(** What Unmarshal reads: one value and nothing but space after it. *)
Definition only_value (l : list ascii) : option value :=
  match scan_value (fuel_for l) maxNestingDepth l with
  | Some (v, tail) => match skip_ws tail with [] => Some v | _ => None end
  | None => None
  end.

(** ** Writing *)

(** Elements or members with commas between them. *)
Fixpoint join (parts : list (list ascii)) : list ascii :=
  match parts with
  | [] => []
  | [p] => p
  | p :: parts => p ++ ","%char :: join parts
  end.

(** Marshal, with the members already in order. *)
Fixpoint write_value (v : value) : list ascii :=
  match v with
  | VNull => word "null"
  | VBool true => word "true"
  | VBool false => word "false"
  | VNum lit => lit
  | VStr s => quote s
  | VArr vs => "["%char :: join (map write_value vs) ++ ["]"%char]
  | VObj ms =>
      "{"%char :: join (map (fun m => quote m.1 ++ ":"%char :: write_value m.2) ms) ++ ["}"%char]
  end.

(** ** Decoding into Go values

    A decoder takes the value and what the destination holds, and says whether
    there was an error; the destination is changed either way. *)

Definition decoder (A : Type) : Type := value -> A -> A * bool.

Definition bytes (s : string) : list ascii := list_ascii_of_string s.
Definition str (l : list ascii) : string := string_of_list_ascii l.

Definition decode_string : decoder string := fun v old =>
  match v with VStr s => (str s, true) | VNull => (old, true) | _ => (old, false) end.

Definition decode_bool : decoder bool := fun v old =>
  match v with VBool b => (b, true) | VNull => (old, true) | _ => (old, false) end.

Definition is_int64 (z : Z) : bool := ((- 2 ^ 63 <=? z) && (z <? 2 ^ 63))%Z.

(** strconv.ParseInt of the literal. *)
Definition decode_int64 : decoder Z := fun v old =>
  match v with
  | VNum lit =>
      match scan_int lit with
      | Some (z, []) => if is_int64 z then (z, true) else (old, false)
      | _ => (old, false)
      end
  | VNull => (old, true)
  | _ => (old, false)
  end.

(** An untyped map: any object. *)
Definition decode_map : decoder (option (list (list ascii * value))) := fun v old =>
  match v with VObj ms => (Some ms, true) | VNull => (None, true) | _ => (old, false) end.

(** A slice: its elements, and what its backing array holds beyond them. *)
Record slice (A : Type) := mkSlice { elems : list A; spare : list A }.
#[global] Arguments mkSlice {A}.
#[global] Arguments elems {A}.
#[global] Arguments spare {A}.

Definition nil_slice {A} : slice A := mkSlice [] [].

Section Slice.
Context {A : Type} (zero : A) (dec : decoder A).

(** The elements, decoded over the backing array [base]. *)
Fixpoint decode_elements (vs : list value) (base : list A) : list A * bool :=
  match vs with
  | [] => ([], true)
  | v :: vs =>
      let '(a, ok) := dec v (match base with b :: _ => b | [] => zero end) in
      let '(out, oks) := decode_elements vs (tl base) in
      (a :: out, ok && oks)
  end.

Definition decode_slice : decoder (slice A) := fun v old =>
  match v with
  | VArr [] | VNull => (nil_slice, true)
  | VArr vs =>
      let base := elems old ++ spare old in
      let '(out, ok) := decode_elements vs base in
      (mkSlice out (drop (List.length vs) base), ok)
  | _ => (old, false)
  end.

End Slice.

(** The fields of a struct. *)
Definition fields (A : Type) : Type := list (string * decoder A).

(** A field, by its exact name or by its folded one. *)
Definition field_of {A} (fs : fields A) (key : list ascii) : option (decoder A) :=
  match List.find (fun f => bool_decide (bytes f.1 = key)) fs with
  | Some f => Some f.2
  | None => option_map snd (List.find (fun f => key_is key f.1) fs)
  end.

Fixpoint decode_fields {A} (strict : bool) (fs : fields A) (ms : list (list ascii * value)) (a : A)
    : A * bool :=
  match ms with
  | [] => (a, true)
  | (k, v) :: ms =>
      let '(a, ok) := match field_of fs k with Some dec => dec v a | None => (a, negb strict) end in
      let '(a, oks) := decode_fields strict fs ms a in
      (a, ok && oks)
  end.

Definition decode_struct {A} (strict : bool) (fs : fields A) : decoder A := fun v old =>
  match v with
  | VObj ms => decode_fields strict fs ms old
  | VNull => (old, true)
  | _ => (old, false)
  end.

(** A field that is decoded by [dec] into a part of the struct. *)
Definition field {A B} (name : string) (dec : decoder B) (get : A -> B) (set : B -> A -> A)
    : string * decoder A :=
  (name, fun v a => let '(b, ok) := dec v (get a) in (set b a, ok)).

(** Unmarshal(l, &a): a syntax error leaves [a] alone. *)
Definition Unmarshal {A} (dec : decoder A) (l : list ascii) (a : A) : A * bool :=
  match only_value l with Some v => dec v a | None => (a, false) end.

(** NewDecoder(l).Decode(&a) *)
Definition Decode {A} (dec : decoder A) (l : list ascii) (a : A) : A * bool :=
  match first_value l with Some v => dec v a | None => (a, false) end.

End JsonValue.
