(* ===== verification/JsonValueProps.v ===== *)
(** * Nested JSON is a round trip *)

From Stdlib Require Import ZifyBool.
From S2P Require Import Prelude Json JsonProps JsonValue.
Import Utf8 Json JsonValue.

(** ** Induction on values *)

Section ValueInd.
Variable P : value -> Prop.
Hypotheses (Hnull : P VNull) (Hbool : forall b, P (VBool b)) (Hnum : forall l, P (VNum l))
  (Hstr : forall s, P (VStr s)) (Harr : forall vs, Forall P vs -> P (VArr vs))
  (Hobj : forall ms, Forall (fun m => P m.2) ms -> P (VObj ms)).

Fixpoint value_ind' (v : value) : P v :=
  match v with
  | VNull => Hnull
  | VBool b => Hbool b
  | VNum l => Hnum l
  | VStr s => Hstr s
  | VArr vs =>
      Harr vs ((fix go vs : Forall P vs :=
                  match vs with
                  | [] => Forall_nil_2 _
                  | v :: vs => Forall_cons_2 _ _ _ (value_ind' v) (go vs)
                  end) vs)
  | VObj ms =>
      Hobj ms ((fix go ms : Forall (fun m => P m.2) ms :=
                  match ms with
                  | [] => Forall_nil_2 _
                  | m :: ms => Forall_cons_2 (fun m => P m.2) _ _ (value_ind' m.2) (go ms)
                  end) ms)
  end.
End ValueInd.

(** ** Values as the program makes them

    Strings are UTF-8, numbers are integers. *)
Definition is_integer (lit : list ascii) : Prop := exists z, lit = format_int z.

Fixpoint wf_value (v : value) : Prop :=
  match v with
  | VNull | VBool _ => True
  | VNum lit => is_integer lit
  | VStr s => valid s = true
  | VArr vs => foldr (fun v => and (wf_value v)) True vs
  | VObj ms => foldr (fun m => and (valid m.1 = true /\ wf_value m.2)) True ms
  end.

Fixpoint depth (v : value) : nat :=
  match v with
  | VArr vs => S (foldr (fun v => max (depth v)) 0 vs)
  | VObj ms => S (foldr (fun m => max (depth m.2)) 0 ms)
  | _ => 0
  end.

(** What may follow a value. *)
Definition closes (rest : list ascii) : Prop :=
  match rest with
  | [] => True
  | c :: _ => In c [","; "]"; "}"]%char \/ c = NL
  end.

(** ** Atoms *)

Lemma closes_plain rest :
  closes rest ->
  no_digit rest /\ scan_fraction rest = Some ([], rest) /\ scan_exponent rest = Some ([], rest).
Proof.
  destruct rest as [|c rest]; [done|]. cbn [closes].
  intros [[<-|[<-|[<-|[]]]]| ->]; by vm_compute.
Qed.

Lemma digits_chars u rest : no_digit rest -> digits (uint_chars u ++ rest) = (uint_chars u, rest).
Proof.
  intros Hr. induction u as [|u IH|u IH|u IH|u IH|u IH|u IH|u IH|u IH|u IH|u IH];
    cbn [uint_chars app]; [destruct rest as [|c rest]; cbn; [done|]; cbn in Hr; by rewrite Hr|..];
    cbn [digits]; by rewrite IH.
Qed.

Lemma scan_int_part_nat n rest :
  no_digit rest -> scan_int_part (format_nat n ++ rest) = Some (format_nat n, rest).
Proof.
  intros Hr. pose proof (scan_format_nat n rest Hr) as Hs. unfold format_nat in *.
  unfold scan_nat in Hs. rewrite scan_digits_chars in Hs by done.
  pose proof (digits_chars (N.to_uint n) rest Hr) as Hd.
  destruct (N.to_uint n) as [|u|u|u|u|u|u|u|u|u|u]; [done| |cbn [uint_chars app] in *..];
    try (unfold scan_int_part, digits1; cbn -[digits]; by rewrite Hd).
  by destruct u.
Qed.

Lemma scan_number_int z rest :
  closes rest -> scan_number (format_int z ++ rest) = Some (format_int z, rest).
Proof.
  intros (Hr & Hf & He)%closes_plain.
  assert (forall n, scan_unsigned (format_nat n ++ rest) = Some (format_nat n, rest)) as Hu.
  { intros n. unfold scan_unsigned. by rewrite scan_int_part_nat, Hf, He, !app_nil_r. }
  unfold format_int. destruct (z <? 0)%Z.
  - cbn [app scan_number]. change ("-" =c "-")%char with true. cbn iota. by rewrite Hu.
  - destruct (format_nat_head (Z.to_N z)) as (c & l & Hh & Hc). specialize (Hu (Z.to_N z)).
    rewrite Hh in *. cbn [app scan_number] in *. by rewrite Hc.
Qed.

Lemma closes_end rest (c : ascii) : In c [","; "]"; "}"]%char -> closes (c :: rest).
Proof. by left. Qed.

(** No value begins with a space. *)
Lemma skip_ws_value v rest : wf_value v -> skip_ws (write_value v ++ rest) = write_value v ++ rest.
Proof.
  destruct v as [|[]|lit|s|vs|ms]; try done. intros [z ->]. cbn [write_value].
  destruct (format_int_head z) as (c & l & -> & Hc). apply skip_ws_id, (number_head c Hc).
Qed.

Lemma write_value_ne v : wf_value v -> 1 <= List.length (write_value v).
Proof.
  destruct v as [|[]|lit|s|vs|ms]; cbn; try lia. intros [z ->].
  destruct (format_int_head z) as (c & l & -> & _). cbn. lia.
Qed.

Lemma scan_key_write k rest :
  valid k = true -> scan_key (quote k ++ ":"%char :: rest) = Some (k, rest).
Proof.
  intros Hk. destruct (scan_quote k (":"%char :: rest)) as (q & -> & Hq).
  unfold scan_key. apply Ascii.eqb_eq in Hq as ->.
  rewrite skip_ws_id by done. rewrite Ascii.eqb_refl, scan_quote_body.
  rewrite skip_ws_id by done. by rewrite Ascii.eqb_refl, unquote_quote_body, clean_id.
Qed.

(** ** Values *)

Definition reads_back (v : value) : Prop :=
  forall fuel d rest, 2 * List.length (write_value v) <= fuel -> depth v <= d -> closes rest ->
    scan_value fuel d (write_value v ++ rest) = Some (v, rest).

Lemma atom_reads_back v rest :
  wf_value v -> depth v = 0 -> closes rest -> scan_atom (write_value v ++ rest) = Some (v, rest).
Proof.
  intros Hw Hd Hr. destruct v as [|[]|lit|s|vs|ms]; try done.
  - destruct Hw as [z ->]. cbn [write_value]. pose proof (scan_number_int z rest Hr) as Hs.
    destruct (format_int_head z) as (c & l & Hf & Hc). rewrite Hf in *. cbn [app] in *.
    destruct (number_head c Hc) as (H1 & H2 & H3 & H4 & _). unfold scan_atom.
    by rewrite H1, H2, H3, H4, Hs.
  - cbn [write_value]. destruct (scan_quote s rest) as (q & -> & Hq). cbn [scan_atom].
    rewrite Hq, scan_quote_body. unfold option_map. cbn [fst snd].
    by rewrite unquote_quote_body, clean_id.
Qed.

Lemma number_not_bracket c :
  GoStr.is_digit c = true \/ c = "-"%char -> (c =c "{")%char = false /\ (c =c "[")%char = false.
Proof.
  intros [H| ->]; [|by vm_compute].
  destruct c as [[] [] [] [] [] [] [] []]; vm_compute in H; discriminate H || (by vm_compute).
Qed.

Lemma atom_value v : wf_value v -> depth v = 0 -> reads_back v.
Proof.
  intros Hw Hd fuel d rest Hf _ Hr. pose proof (write_value_ne v Hw) as Hne.
  destruct fuel as [|fuel]; [lia|]. cbn [scan_value]. rewrite skip_ws_value by done.
  pose proof (atom_reads_back v rest Hw Hd Hr) as Ha.
  destruct v as [|[]|lit|s|vs|ms]; try exact Ha; try done.
  destruct Hw as [z ->]. cbn [write_value] in *. destruct (format_int_head z) as (c & l & Hh & Hc).
  rewrite Hh in *. cbn [app] in *. by destruct (number_not_bracket c Hc) as [-> ->].
Qed.

Lemma join_cons {A} (f : A -> list ascii) x l :
  l <> [] -> join (map f (x :: l)) = f x ++ ","%char :: join (map f l).
Proof. by destruct l. Qed.

Lemma skip_comma rest : skip_ws (","%char :: rest) = ","%char :: rest.
Proof. done. Qed.

Lemma elements_read_back vs : forall fuel d rest,
  vs <> [] -> Forall reads_back vs -> Forall wf_value vs -> Forall (fun v => depth v <= d) vs ->
  2 * List.length (join (map write_value vs)) + 1 <= fuel ->
  scan_elements fuel d (join (map write_value vs) ++ "]"%char :: rest) = Some (vs, rest).
Proof.
  induction vs as [|v vs IH]; [done|]. intros fuel d rest _ Hv Hw Hd Hf.
  apply Forall_cons in Hv as [Hv Hvs]. apply Forall_cons in Hw as [Hw Hws].
  apply Forall_cons in Hd as [Hd Hds]. destruct fuel as [|fuel]; [lia|]. cbn [scan_elements].
  destruct (decide (vs = [])) as [->|Hne].
  - cbn [map join] in *. rewrite Hv by (try done; try lia; by apply closes_end; right; left). done.
  - rewrite join_cons in * by done. rewrite length_app in Hf. cbn [List.length] in Hf.
    rewrite <- app_assoc. cbn [app]. rewrite Hv by (try done; try lia; by apply closes_end; left).
    rewrite skip_comma. change ("," =c ",")%char with true. cbv iota.
    by rewrite (IH fuel d rest) by (done || lia).
Qed.

Lemma fields_read_back ms : forall fuel d rest,
  ms <> [] -> Forall (fun m => reads_back m.2) ms ->
  Forall (fun m => valid m.1 = true /\ wf_value m.2) ms -> Forall (fun m => depth m.2 <= d) ms ->
  2 * List.length (join (map (fun m => quote m.1 ++ ":"%char :: write_value m.2) ms)) + 1 <= fuel ->
  scan_fields fuel d (join (map (fun m => quote m.1 ++ ":"%char :: write_value m.2) ms)
                      ++ "}"%char :: rest) = Some (ms, rest).
Proof.
  induction ms as [|[k v] ms IH]; [done|]. intros fuel d rest _ Hv Hw Hd Hf.
  apply Forall_cons in Hv as [Hv Hvs]. apply Forall_cons in Hw as [[Hk Hw] Hws].
  apply Forall_cons in Hd as [Hd Hds]. cbn [fst snd] in *.
  destruct fuel as [|fuel]; [lia|]. cbn [scan_fields].
  destruct (decide (ms = [])) as [->|Hne].
  - cbn [map join fst snd] in *. rewrite length_app in Hf. cbn [List.length] in Hf.
    rewrite <- app_assoc. cbn [app]. rewrite scan_key_write by done.
    rewrite Hv by (try done; try lia; apply closes_end; right; right; by left). done.
  - rewrite join_cons in * by done. cbn [fst snd] in *.
    rewrite !length_app in Hf. cbn [List.length] in Hf.
    rewrite <- ?app_assoc. cbn [app]. rewrite <- ?app_assoc. cbn [app]. rewrite scan_key_write by done.
    rewrite Hv by (try done; try lia; by apply closes_end; left).
    rewrite skip_comma. change ("," =c ",")%char with true. cbv iota.
    by rewrite (IH fuel d rest) by (done || lia).
Qed.

Lemma foldr_and {A} (P : A -> Prop) l : foldr (fun x => and (P x)) True l <-> Forall P l.
Proof.
  induction l as [|x l IH]; cbn; [by split|]. rewrite IH. symmetry. apply Forall_cons.
Qed.

Lemma foldr_max {A} (f : A -> nat) l d : foldr (fun x => max (f x)) 0 l <= d -> Forall (fun x => f x <= d) l.
Proof. induction l as [|x l IH]; cbn; [done|]. intros H. constructor; [lia|]. apply IH. lia. Qed.

Lemma join_head {A} (f : A -> list ascii) x l rest :
  exists tl, join (map f (x :: l)) ++ rest = f x ++ tl.
Proof.
  destruct (decide (l = [])) as [->|Hne]; [by exists rest|].
  rewrite join_cons, <- app_assoc by done. by eexists.
Qed.

(** The first byte of a value is no space and closes nothing. *)
Lemma value_head v rest :
  wf_value v -> exists c tl, write_value v ++ rest = c :: tl /\ skip_ws (c :: tl) = c :: tl
                  /\ (c =c "]")%char = false.
Proof.
  intros Hw. pose proof (skip_ws_value v rest Hw) as Hs. destruct v as [|[]|lit|s|vs|ms];
    try (by eexists _, _; split; [reflexivity|]; split).
  destruct Hw as [z ->]. cbn [write_value] in *. destruct (format_int_head z) as (c & l & Hf & Hc).
  rewrite Hf in *. exists c, (l ++ rest). split; [done|]. split; [done|].
  destruct Hc as [Hc| ->]; [|done].
  destruct c as [[] [] [] [] [] [] [] []]; vm_compute in Hc; discriminate Hc || done.
Qed.

Lemma value_reads_back v : wf_value v -> reads_back v.
Proof.
  induction v as [|b|l|s|vs IH|ms IH] using value_ind'; intros Hw; try (by apply atom_value);
    apply foldr_and in Hw as Hws; intros fuel [|d] rest Hf Hd Hr; [by inversion Hd| |by inversion Hd|];
    cbn [write_value] in *; cbn [List.length app] in *; rewrite length_app in Hf; cbn [List.length] in Hf;
    (destruct fuel as [|fuel]; [lia|]); cbn [scan_value].
  - rewrite (skip_ws_id "[") by done. change ("[" =c "{")%char with false. change ("[" =c "[")%char with true.
    destruct vs as [|v vs]; [done|]. rewrite <- app_assoc. cbn [app].
    pose proof (elements_read_back (v :: vs) fuel d rest) as He.
    destruct (join_head write_value v vs ("]"%char :: rest)) as [tl Htl].
    apply Forall_cons in Hws as Hw1. destruct (value_head v tl (proj1 Hw1)) as (c & tl' & Hc & Hs & Hb).
    rewrite Htl, Hc in *. cbv iota. rewrite Hs. cbv iota. rewrite Hb.
    rewrite He; [done|done| |done|by apply foldr_max, le_S_n|lia].
    rewrite Forall_forall in *. intros v' Hv'. apply (IH v' Hv'), (Hws v' Hv').
  - rewrite (skip_ws_id "{") by done. change ("{" =c "{")%char with true.
    destruct ms as [|m ms]; [done|]. rewrite <- app_assoc. cbn [app].
    pose proof (fields_read_back (m :: ms) fuel d rest) as He.
    destruct (join_head (fun m => quote m.1 ++ ":"%char :: write_value m.2) m ms ("}"%char :: rest)) as [tl Htl].
    rewrite Htl in *. cbv iota. unfold quote. cbn [app]. rewrite (skip_ws_id DQUOTE) by done. cbv iota.
    change (DQUOTE =c "}")%char with false. cbv iota.
    unfold quote in He, Hf. cbn [app] in He, Hf.
    rewrite He; [done|done| |done|by apply (foldr_max (fun m => depth m.2)), le_S_n|lia].
    rewrite Forall_forall in *. intros m' Hm'. apply (IH m' Hm'), (Hws m' Hm').
Qed.

Lemma first_value_write v rest :
  wf_value v -> depth v <= maxNestingDepth -> closes rest -> first_value (write_value v ++ rest) = Some v.
Proof.
  intros Hw Hd Hr. unfold first_value. rewrite value_reads_back; [done|done| |done|done].
  unfold fuel_for. rewrite length_app. lia.
Qed.

Lemma only_value_write v : wf_value v -> depth v <= maxNestingDepth -> only_value (write_value v) = Some v.
Proof.
  intros Hw Hd. unfold only_value. rewrite <- (app_nil_r (write_value v)) at 2.
  rewrite value_reads_back; [done|done| |done|done]. unfold fuel_for. lia.
Qed.

(** ** The fuel is enough

    Whatever the input, more fuel than its length asks for changes nothing. *)

Lemma digits_length l ds tail : digits l = (ds, tail) -> List.length ds + List.length tail = List.length l.
Proof.
  revert ds tail. induction l as [|c l IH]; intros ds tail; cbn; [by intros [= <- <-]|].
  destruct (GoStr.is_digit c); [|by intros [= <- <-]].
  destruct (digits l) as [ds' t] eqn:E. intros [= <- <-]. cbn. by rewrite (IH ds' t).
Qed.

Lemma digits1_length l ds tail : digits1 l = Some (ds, tail) -> List.length tail < List.length l.
Proof.
  unfold digits1. destruct (digits l) as [[|d ds'] t] eqn:E; [done|]. intros [= _ <-].
  apply digits_length in E. cbn in E. lia.
Qed.

Lemma scan_number_length l lit tail : scan_number l = Some (lit, tail) -> List.length tail < List.length l.
Proof.
  assert (forall l lit tail, scan_unsigned l = Some (lit, tail) -> List.length tail < List.length l) as Hu.
  { clear. intros l lit tail. unfold scan_unsigned.
    destruct (scan_int_part l) as [[i l1]|] eqn:Ei; [|done].
    assert (List.length l1 < List.length l).
    { destruct l as [|c l]; [done|]. unfold scan_int_part in Ei. destruct (c =c "0")%char.
      - injection Ei as _ <-. cbn. lia.
      - by apply digits1_length in Ei. }
    destruct (scan_fraction l1) as [[f l2]|] eqn:Ef; [|done].
    assert (List.length l2 <= List.length l1).
    { destruct l1 as [|c l1]; [by injection Ef as _ <-|]. cbn in Ef. destruct (c =c ".")%char;
        [|by injection Ef as _ <-]. destruct (digits1 l1) as [[ds t]|] eqn:Ed; [|done].
      injection Ef as _ <-. apply digits1_length in Ed. cbn. lia. }
    destruct (scan_exponent l2) as [[e l3]|] eqn:Ee; [|done]. intros [= _ <-].
    enough (List.length l3 <= List.length l2) by lia.
    destruct l2 as [|c l2]; [by injection Ee as _ <-|]. cbn in Ee. destruct (_ || _);
      [|by injection Ee as _ <-]. destruct l2 as [|s l2]; [done|]. destruct (_ || _).
    - destruct (digits1 l2) as [[ds t]|] eqn:Ed; [|done].
      injection Ee as _ <-. apply digits1_length in Ed. cbn. lia.
    - destruct (digits1 (s :: l2)) as [[ds t]|] eqn:Ed; [|done].
      injection Ee as _ <-. apply digits1_length in Ed. cbn in *. lia. }
  unfold scan_number. destruct l as [|c l]; [done|]. destruct (c =c "-")%char; [|apply Hu].
  destruct (scan_unsigned l) as [[r t]|] eqn:E; [|done]. intros [= _ <-]. apply Hu in E. cbn. lia.
Qed.

Lemma scan_atom_length l v tail : scan_atom l = Some (v, tail) -> List.length tail < List.length l.
Proof.
  destruct l as [|c l]; [done|]. unfold scan_atom.
  destruct (c =c DQUOTE).
  { destruct (scan_string l) as [[r t]|] eqn:E; [|done]. intros [= _ <-].
    apply scan_string_length in E. cbn. lia. }
  assert (forall (w : string) x, option_map (fun tail => (x, tail)) (after_word (word w) (c :: l)) = Some (v, tail) ->
            w <> "" -> List.length tail < List.length (c :: l)) as Hw.
  { intros w x Ho Hne. destruct w as [|a w]; [done|]. cbn in Ho. destruct (a =c c); [|done].
    destruct (after_word (list_ascii_of_string w) l) as [t|] eqn:E; [|done].
    injection Ho as _ <-. apply after_word_length in E. cbn. lia. }
  destruct (c =c "t")%char; [intros H; by eapply Hw|].
  destruct (c =c "f")%char; [intros H; by eapply Hw|].
  destruct (c =c "n")%char; [intros H; by eapply Hw|].
  destruct (scan_number (c :: l)) as [[r t]|] eqn:E; [|done]. intros [= _ <-].
  by apply scan_number_length in E.
Qed.

Lemma scan_key_length l k tail : scan_key l = Some (k, tail) -> List.length tail < List.length l.
Proof.
  unfold scan_key. pose proof (skip_ws_length l) as Hl. destruct (skip_ws l) as [|q l1]; [done|].
  destruct (q =c DQUOTE); [|done]. destruct (scan_string l1) as [[raw l2]|] eqn:E; [|done].
  apply scan_string_length in E. pose proof (skip_ws_length l2) as Hl2.
  destruct (skip_ws l2) as [|c l3]; [done|]. destruct (c =c ":")%char; [|done].
  intros [= _ <-]. cbn in *. lia.
Qed.

Lemma option_map_some {A B} (f : A -> B) o b : option_map f o = Some b -> exists a, o = Some a /\ f a = b.
Proof. destruct o as [a|]; [|done]. intros [= <-]. by exists a. Qed.

Lemma scan_lengths fuel : forall d l,
  (forall v t, scan_value fuel d l = Some (v, t) -> List.length t < List.length l)
  /\ (forall ms t, scan_fields fuel d l = Some (ms, t) -> List.length t < List.length l)
  /\ (forall vs t, scan_elements fuel d l = Some (vs, t) -> List.length t < List.length l).
Proof.
  induction fuel as [|fuel IH]; intros d l; [done|]. pose proof (skip_ws_length l) as Hl.
  split_and!; cbn [scan_value scan_fields scan_elements].
  - intros v t. destruct (skip_ws l) as [|c rest]; [done|]. cbn in Hl.
    pose proof (skip_ws_length rest) as Hr. destruct (c =c "{")%char; [|destruct (c =c "[")%char].
    1,2: destruct d as [|d]; [done|]; destruct (skip_ws rest) as [|e tail]; [done|]; cbn in Hr;
      destruct (_ =c _); [intros [= _ <-]; lia|];
      intros ([ms t'] & Hf & [= _ <-])%option_map_some; apply IH in Hf; lia.
    intros H%scan_atom_length. cbn in H. lia.
  - intros ms t. destruct (scan_key l) as [[k l1]|] eqn:Ek; [|done]. apply scan_key_length in Ek.
    destruct (scan_value fuel d l1) as [[v l2]|] eqn:Ev; [|done]. apply IH in Ev.
    pose proof (skip_ws_length l2) as Hl2. destruct (skip_ws l2) as [|c l3]; [done|]. cbn in Hl2.
    destruct (c =c ",")%char; [intros ([ms' t'] & Hf & [= _ <-])%option_map_some; apply IH in Hf; lia|].
    destruct (c =c "}")%char; [|done]. intros [= _ <-]. lia.
  - intros vs t. destruct (scan_value fuel d l) as [[v l1]|] eqn:Ev; [|done]. apply IH in Ev.
    pose proof (skip_ws_length l1) as Hl1. destruct (skip_ws l1) as [|c l2]; [done|]. cbn in Hl1.
    destruct (c =c ",")%char; [intros ([ms' t'] & Hf & [= _ <-])%option_map_some; apply IH in Hf; lia|].
    destruct (c =c "]")%char; [|done]. intros [= _ <-]. lia.
Qed.

Lemma scan_fuel f1 : forall f2 d l,
  (2 * List.length l + 2 <= f1 -> 2 * List.length l + 2 <= f2 -> scan_value f1 d l = scan_value f2 d l)
  /\ (2 * List.length l + 3 <= f1 -> 2 * List.length l + 3 <= f2 -> scan_fields f1 d l = scan_fields f2 d l)
  /\ (2 * List.length l + 3 <= f1 -> 2 * List.length l + 3 <= f2 -> scan_elements f1 d l = scan_elements f2 d l).
Proof.
  induction f1 as [|f1 IH]; intros [|f2] d l; [split_and!; intros; lia..|].
  pose proof (skip_ws_length l) as Hl.
  split_and!; intros H1 H2; cbn [scan_value scan_fields scan_elements].
  - destruct (skip_ws l) as [|c rest]; [done|]. cbn in Hl.
    destruct d as [|d]; [done|].
    by rewrite (proj1 (proj2 (IH f2 d rest))), (proj2 (proj2 (IH f2 d rest))) by lia.
  - destruct (scan_key l) as [[k l1]|] eqn:Ek; [|done]. apply scan_key_length in Ek.
    rewrite (proj1 (IH f2 d l1)) by lia. destruct (scan_value f2 d l1) as [[v l2]|] eqn:Ev; [|done].
    apply scan_lengths in Ev. pose proof (skip_ws_length l2) as Hl2.
    destruct (skip_ws l2) as [|c l3]; [done|]. cbn in Hl2.
    by rewrite (proj1 (proj2 (IH f2 d l3))) by lia.
  - rewrite (proj1 (IH f2 d l)) by lia. destruct (scan_value f2 d l) as [[v l1]|] eqn:Ev; [|done].
    apply scan_lengths in Ev. pose proof (skip_ws_length l1) as Hl1.
    destruct (skip_ws l1) as [|c l2]; [done|]. cbn in Hl1.
    by rewrite (proj2 (proj2 (IH f2 d l2))) by lia.
Qed.

(** ** A written value stays on one line *)

Lemma join_no_newline parts : Forall no_newline parts -> no_newline (join parts).
Proof.
  induction 1 as [|p parts Hp Hps IH]; [constructor|]. destruct parts as [|q parts]; [done|].
  cbn [join]. apply no_newline_app; [done|]. by constructor.
Qed.

(** Every number is an integer as it is written. *)
Fixpoint integral (v : value) : Prop :=
  match v with
  | VNum l => is_integer l
  | VArr vs => foldr (fun v => and (integral v)) True vs
  | VObj ms => foldr (fun m => and (integral m.2)) True ms
  | _ => True
  end.

(** Constant text without a newline. *)
Ltac by_eval_newline := repeat (constructor; [discriminate|]); constructor.

Lemma write_value_no_newline v : integral v -> no_newline (write_value v).
Proof.
  induction v as [|b|l|s|vs IH|ms IH] using value_ind'; intros Hw; cbn [write_value].
  - by_eval_newline.
  - destruct b; by_eval_newline.
  - destruct Hw as [z ->]. apply format_int_no_newline.
  - apply quote_no_newline.
  - apply foldr_and in Hw. constructor; [discriminate|]. apply no_newline_app; [|by_eval_newline].
    apply join_no_newline, Forall_map. rewrite !Forall_forall in *. intros x Hx. cbn beta. apply (IH x Hx), (Hw x Hx).
  - apply (foldr_and (fun m => integral m.2)) in Hw. constructor; [discriminate|].
    apply no_newline_app; [|by_eval_newline].
    apply join_no_newline, Forall_map. rewrite !Forall_forall in *. intros m Hm.
    apply no_newline_app; [apply quote_no_newline|]. constructor; [discriminate|]. by apply IH; [|apply Hw].
Qed.
