(* ===== verification/Sigwire.v ===== *)
(** * The SSHGATE_SIG envelope (src/sigwire/payload.go, protocol.go, timeouts.go)

    The signed payload, its JSON form, and the text form of a signed command:
    [SSHGATE_SIG:<sig>:<payload> <trailer>].  The fields of the payload are Go
    strings, int64 values (kept in their range by [wf_payload]) and a flag. *)

From S2P Require Import Prelude Base64 Json.

Module Sigwire.
Import Utf8 Json.

(** int64 *)
Definition int64 (z : Z) : Prop := (- 2 ^ 63 <= z < 2 ^ 63)%Z.
Definition is_int64 (z : Z) : bool := ((- 2 ^ 63 <=? z) && (z <? 2 ^ 63))%Z.

Definition sigPrefix : string := "SSHGATE_SIG:".

(** time.Duration, in nanoseconds. *)
Definition Second : Z := 1000000000.
Definition Minute : Z := 60 * Second.

Definition MaxSigValidity : Z := 5 * Minute.
Definition ProtoVersion : Z := 1.

(** timeouts.go *)
Definition ApprovalWindow : Z := 5 * Minute.
Definition ResponseWriteGrace : Z := 5 * Second.
Definition SignerHandlerTimeout : Z := ApprovalWindow + 30 * Second.
Definition ClientSignTimeout : Z := SignerHandlerTimeout + 30 * Second.

(** SigPayload *)
Record SigPayload := mkPayload {
  Cmd : string;
  TS : Z;
  Exp : Z;
  Nonce : string;
  Host : string;
  Reveal : bool
}.

#[export] Instance SigPayload_eq_dec : EqDecision SigPayload.
Proof. solve_decision. Defined.

Definition bytes (s : string) : list ascii := list_ascii_of_string s.
Definition str (l : list ascii) : string := string_of_list_ascii l.

(** The struct's members in field order; [host] and [reveal] are omitempty. *)
Definition payload_members (p : SigPayload) : list (list ascii * scalar) :=
  [(bytes "cmd", JStr (bytes (Cmd p))); (bytes "ts", JInt (TS p));
   (bytes "exp", JInt (Exp p)); (bytes "nonce", JStr (bytes (Nonce p)))]
  ++ (if Host p =s "" then [] else [(bytes "host", JStr (bytes (Host p)))])
  ++ (if Reveal p then [(bytes "reveal", JBool true)] else []).

(** json.Marshal of a payload: the bytes that are signed.  It never fails on
    this struct. *)
Definition marshal (p : SigPayload) : list ascii := write_object (payload_members p).

(** Decoding one member into the payload: DisallowUnknownFields, the type of
    the field, [null] as no value. *)
Definition set_member (p : SigPayload) (m : list ascii * scalar) : option SigPayload :=
  let '(k, v) := m in
  if key_is k "cmd" then
    match v with
    | JStr s => Some (mkPayload (str s) (TS p) (Exp p) (Nonce p) (Host p) (Reveal p))
    | JNull => Some p
    | _ => None
    end
  else if key_is k "ts" then
    match v with
    | JInt z => if is_int64 z
                then Some (mkPayload (Cmd p) z (Exp p) (Nonce p) (Host p) (Reveal p))
                else None
    | JNull => Some p
    | _ => None
    end
  else if key_is k "exp" then
    match v with
    | JInt z => if is_int64 z
                then Some (mkPayload (Cmd p) (TS p) z (Nonce p) (Host p) (Reveal p))
                else None
    | JNull => Some p
    | _ => None
    end
  else if key_is k "nonce" then
    match v with
    | JStr s => Some (mkPayload (Cmd p) (TS p) (Exp p) (str s) (Host p) (Reveal p))
    | JNull => Some p
    | _ => None
    end
  else if key_is k "host" then
    match v with
    | JStr s => Some (mkPayload (Cmd p) (TS p) (Exp p) (Nonce p) (str s) (Reveal p))
    | JNull => Some p
    | _ => None
    end
  else if key_is k "reveal" then
    match v with
    | JBool b => Some (mkPayload (Cmd p) (TS p) (Exp p) (Nonce p) (Host p) b)
    | JNull => Some p
    | _ => None
    end
  else None.

Fixpoint set_members (p : SigPayload) (ms : list (list ascii * scalar)) : option SigPayload :=
  match ms with
  | [] => Some p
  | m :: ms => match set_member p m with
               | Some p' => set_members p' ms
               | None => None
               end
  end.

Definition zero_payload : SigPayload := mkPayload "" 0 0 "" "" false.

(** [dec.Decode(&p)] with DisallowUnknownFields. *)
Definition unmarshal (l : list ascii) : option SigPayload :=
  match decode_object l with
  | Some ms => set_members zero_payload ms
  | None => None
  end.

(** EncodeSigned *)
Definition EncodeSigned (sig : list ascii) (payload : SigPayload) : string :=
  sigPrefix +:+ str (Base64.encode sig)
  +:+ String ":" (str (Base64.encode (marshal payload))).

(** The errors of DecodeSigned. *)
Inductive DecodeError :=
  | MissingPrefix
  | MissingSeparator
  | EmptySignature
  | EmptyPayload
  | BadSignatureBase64
  | BadPayloadBase64
  | BadPayloadJSON
  | MissingCmd.

(** [payloadB64[:i]] at the first space. *)
Definition cut_trailer (payloadB64 : string) : string :=
  match GoStr.IndexByte payloadB64 " " with
  | Some i => GoStr.take i payloadB64
  | None => payloadB64
  end.

(** DecodeSigned *)
Definition DecodeSigned (s : string) : (list ascii * SigPayload) + DecodeError :=
  if negb (GoStr.HasPrefix s sigPrefix) then inr MissingPrefix
  else
    let rest := GoStr.drop (String.length sigPrefix) s in
    match GoStr.IndexByte rest ":" with
    | None => inr MissingSeparator
    | Some sep =>
        let sigB64 := GoStr.take sep rest in
        let payloadB64 := cut_trailer (GoStr.drop (S sep) rest) in
        if sigB64 =s "" then inr EmptySignature
        else if payloadB64 =s "" then inr EmptyPayload
        else match Base64.decode (bytes sigB64) with
             | None => inr BadSignatureBase64
             | Some sig =>
                 match Base64.decode (bytes payloadB64) with
                 | None => inr BadPayloadBase64
                 | Some pb =>
                     match unmarshal pb with
                     | None => inr BadPayloadJSON
                     | Some p => if Cmd p =s "" then inr MissingCmd else inl (sig, p)
                     end
                 end
             end
    end.

(** IsSigned *)
Definition IsSigned (s : string) : bool := GoStr.HasPrefix s sigPrefix.

End Sigwire.
