(* ===== verification/SigwireProps.v ===== *)
(** * What the envelope guarantees

    The text form of a signed command is a round trip, its payload is
    canonical, and the timeouts of the approval path are ordered. *)

From S2P Require Import Prelude Base64 Json JsonProps Sigwire.
Import Utf8 Json Sigwire.

(** A payload Go can hold and JSON can carry unchanged: int64 times, strings
    that are UTF-8. *)
Definition wf_payload (p : SigPayload) : Prop :=
  int64 (TS p) /\ int64 (Exp p)
  /\ valid (bytes (Cmd p)) = true /\ valid (bytes (Nonce p)) = true
  /\ valid (bytes (Host p)) = true.

(** The payload with every byte that is not UTF-8 replaced. *)
Definition repair (s : string) : string := str (clean (bytes s)).
Definition repaired (p : SigPayload) : SigPayload :=
  mkPayload (repair (Cmd p)) (TS p) (Exp p) (repair (Nonce p)) (repair (Host p)) (Reveal p).

Lemma is_int64_true z : is_int64 z = true <-> int64 z.
Proof. unfold is_int64, int64. rewrite andb_true_iff, Z.leb_le, Z.ltb_lt. done. Qed.

Lemma repair_id s : valid (bytes s) = true -> repair s = s.
Proof. intros H. unfold repair, bytes, str. rewrite clean_id by done. apply string_of_list_ascii_of_string. Qed.

Lemma repaired_wf p : wf_payload p -> repaired p = p.
Proof. intros (_ & _ & H1 & H2 & H3). unfold repaired. rewrite !repair_id by done. by destruct p. Qed.

Lemma repair_empty s : (repair s =s "") = (s =s "").
Proof.
  destruct s as [|c s]; [done|]. cbn [String.eqb]. apply String.eqb_neq. intros H.
  assert (clean (bytes (String c s)) = []) as Hc.
  { apply (f_equal bytes) in H. unfold repair, bytes, str in *.
    by rewrite list_ascii_of_string_of_list_ascii in H. }
  unfold clean, bytes in Hc. cbn [list_ascii_of_string] in Hc.
  destruct (runes_step c (list_ascii_of_string s)) as (r & rest & Hr & Hb & Hs & _).
  rewrite Hr in Hc. cbn [map] in Hc. unfold bytes_of in Hc. cbn [flat_map] in Hc.
  apply app_eq_nil in Hc as [Hc _]. destruct r as [a|bs|a]; cbn in Hc; try done.
  subst bs. destruct Hs as [Hs|(? & ? & _)]; done.
Qed.

Lemma str_bytes s : str (bytes s) = s.
Proof. apply string_of_list_ascii_of_string. Qed.

Lemma bytes_str l : bytes (str l) = l.
Proof. apply list_ascii_of_string_of_list_ascii. Qed.

(** Each known member sets its field. *)
Lemma set_cmd p s : set_member p (bytes "cmd", JStr s)
  = Some (mkPayload (str s) (TS p) (Exp p) (Nonce p) (Host p) (Reveal p)).
Proof. reflexivity. Qed.

Lemma set_ts p z : int64 z -> set_member p (bytes "ts", JInt z)
  = Some (mkPayload (Cmd p) z (Exp p) (Nonce p) (Host p) (Reveal p)).
Proof.
  intros H%is_int64_true. change (set_member p (bytes "ts", JInt z))
    with (if is_int64 z then Some (mkPayload (Cmd p) z (Exp p) (Nonce p) (Host p) (Reveal p))
          else None). by rewrite H.
Qed.

Lemma set_exp p z : int64 z -> set_member p (bytes "exp", JInt z)
  = Some (mkPayload (Cmd p) (TS p) z (Nonce p) (Host p) (Reveal p)).
Proof.
  intros H%is_int64_true. change (set_member p (bytes "exp", JInt z))
    with (if is_int64 z then Some (mkPayload (Cmd p) (TS p) z (Nonce p) (Host p) (Reveal p))
          else None). by rewrite H.
Qed.

Lemma set_nonce p s : set_member p (bytes "nonce", JStr s)
  = Some (mkPayload (Cmd p) (TS p) (Exp p) (str s) (Host p) (Reveal p)).
Proof. reflexivity. Qed.

Lemma set_host p s : set_member p (bytes "host", JStr s)
  = Some (mkPayload (Cmd p) (TS p) (Exp p) (Nonce p) (str s) (Reveal p)).
Proof. reflexivity. Qed.

Lemma set_reveal p b : set_member p (bytes "reveal", JBool b)
  = Some (mkPayload (Cmd p) (TS p) (Exp p) (Nonce p) (Host p) b).
Proof. reflexivity. Qed.

Lemma clean_named name v :
  forallb is_ascii (bytes name) = true ->
  clean_member (bytes name, v) = (bytes name, clean_scalar v).
Proof.
  intros H. unfold clean_member. cbn [fst snd]. rewrite clean_id; [done|].
  by apply valid_ascii, List.Forall_forall, forallb_forall.
Qed.

#[local] Arguments set_member : simpl never.
#[local] Arguments clean : simpl never.
#[local] Arguments bytes : simpl never.

(** A payload's JSON decodes to the payload, made UTF-8, whatever follows. *)
Lemma unmarshal_marshal p rest :
  int64 (TS p) -> int64 (Exp p) -> unmarshal (marshal p ++ rest) = Some (repaired p).
Proof.
  intros Hts Hexp. unfold unmarshal, marshal. rewrite decode_write_object.
  unfold payload_members. rewrite !map_app. cbn [map].
  rewrite !clean_named by done. cbn [app set_members clean_scalar].
  rewrite set_cmd, set_ts, set_exp, set_nonce by done. cbn [Cmd TS Exp Nonce Host Reveal].
  unfold repaired, repair. destruct p as [cmd ts exp nonce host reveal].
  cbn [Cmd TS Exp Nonce Host Reveal] in *.
  assert (forall q, set_members q (map clean_member (if reveal then [(bytes "reveal", JBool true)] else []))
            = Some (mkPayload (Cmd q) (TS q) (Exp q) (Nonce q) (Host q) (reveal || Reveal q))) as Hr.
  { intros [? ? ? ? ? ?]. destruct reveal; [|done]. cbn [map]. rewrite clean_named by done.
    cbn [set_members clean_scalar]. by rewrite set_reveal. }
  destruct (host =s "") eqn:Eh.
  - apply String.eqb_eq in Eh as ->. cbn [map app]. by rewrite Hr, orb_false_r.
  - cbn [map app]. rewrite clean_named by done. cbn [set_members clean_scalar].
    by rewrite set_host, Hr, orb_false_r.
Qed.

(** ** The envelope *)

Definition code_string (s : string) : Prop :=
  Forall (fun c => Base64.is_code c = true) (bytes s).

Lemma code_str_encode l : code_string (str (Base64.encode l)).
Proof. unfold code_string. rewrite bytes_str. apply Base64.encode_code. Qed.

Lemma IndexByte_code s c t :
  code_string s -> Base64.is_code c = false ->
  GoStr.IndexByte (s +:+ String c t) c = Some (String.length s)
  /\ GoStr.take (String.length s) (s +:+ String c t) = s
  /\ GoStr.drop (S (String.length s)) (s +:+ String c t) = t.
Proof.
  intros Hs Hc. assert (GoStr.IndexByte s c = None) as Hn.
  { unfold code_string, bytes in Hs. induction s as [|d s IH]; [done|]. cbn in *.
    apply Forall_cons in Hs as [Hd Hs]. destruct (d =c c) eqn:E.
    - apply Ascii.eqb_eq in E. congruence.
    - by rewrite IH. }
  split; [by apply IndexByte_app|]. split; [apply take_app|].
  change (String c t) with (String c "" +:+ t). rewrite str_app_assoc.
  assert (S (String.length s) = String.length (s +:+ String c "")) as ->
    by (rewrite str_length_app; cbn; lia).
  apply drop_app.
Qed.

Lemma IndexByte_code_none s c :
  code_string s -> Base64.is_code c = false -> GoStr.IndexByte s c = None.
Proof.
  unfold code_string, bytes. induction s as [|d s IH]; [done|]. cbn.
  intros [Hd Hs]%Forall_cons Hc. destruct (d =c c) eqn:E.
  - apply Ascii.eqb_eq in E. congruence.
  - by rewrite IH.
Qed.

(** What may follow the envelope: nothing, or a space and anything. *)
Definition trailer (t : string) : Prop := t = "" \/ exists inner, t = String " " inner.

Lemma encode_nonempty l : l <> [] -> (str (Base64.encode l) =s "") = false.
Proof.
  intros H. apply String.eqb_neq. intros He. apply (f_equal bytes) in He.
  rewrite bytes_str in He. by destruct l as [|a [|b [|c l]]].
Qed.

(** Decoding an envelope assembled from its two fields. *)
Lemma decode_fields (sig pb : list ascii) (p : SigPayload) (t : string) :
  sig <> [] -> pb <> [] -> unmarshal pb = Some p -> Cmd p <> "" -> trailer t ->
  DecodeSigned (sigPrefix +:+ str (Base64.encode sig)
                +:+ (String ":" (str (Base64.encode pb)) +:+ t))
  = inl (sig, p).
Proof.
  intros Hsig Hpb Hun Hcmd Ht. unfold DecodeSigned.
  rewrite (proj2 (prefix_spec sigPrefix _)) by eauto. cbn [negb]. rewrite drop_app.
  set (s := str (Base64.encode sig)). set (b := str (Base64.encode pb)).
  change (String ":" b +:+ t) with (String ":" (b +:+ t)).
  destruct (IndexByte_code s ":" (b +:+ t)) as (-> & -> & ->);
    [apply code_str_encode|done|].
  assert (cut_trailer (b +:+ t) = b) as ->.
  { unfold cut_trailer. destruct Ht as [->|[inner ->]].
    - rewrite str_app_nil_r. by rewrite IndexByte_code_none by (done || apply code_str_encode).
    - by destruct (IndexByte_code b " " inner) as (-> & -> & _);
        [apply code_str_encode|done|]. }
  unfold s, b. rewrite !encode_nonempty by done. rewrite !bytes_str, !Base64.decode_encode, Hun.
  by apply String.eqb_neq in Hcmd as ->.
Qed.

Lemma decode_envelope (sig : list ascii) (p : SigPayload) (t : string) :
  sig <> [] -> int64 (TS p) -> int64 (Exp p) -> Cmd p <> "" -> trailer t ->
  DecodeSigned (EncodeSigned sig p +:+ t) = inl (sig, repaired p).
Proof.
  intros Hsig Hts Hexp Hcmd Ht. unfold EncodeSigned. rewrite <- !str_app_assoc.
  apply decode_fields; try done.
  - rewrite <- (app_nil_r (marshal p)). by apply unmarshal_marshal.
  - cbn [Cmd repaired]. apply String.eqb_neq. rewrite repair_empty. by apply String.eqb_neq.
Qed.

(** Decoding an encoded command gives back the signature and the payload,
    whatever command line is appended for the logs; a payload that is not
    UTF-8 comes back repaired, not as it was. *)
Theorem decode_encode_signed (sig : list ascii) (p : SigPayload) (t : string)
    (Hsig : sig <> []) (Hts : int64 (TS p)) (Hexp : int64 (Exp p)) (Hcmd : Cmd p <> "")
    (Ht : trailer t) :
  DecodeSigned (EncodeSigned sig p +:+ t) = inl (sig, repaired p)
  /\ (wf_payload p -> repaired p = p).
Proof. split; [by apply decode_envelope|apply repaired_wf]. Qed.

Lemma decode_encode_signed_witness :
  DecodeSigned (EncodeSigned (bytes "sig") (mkPayload "rm -f '<x>'" 1 60 "n" "SHA256:k" true)
                +:+ " rm -f x")
  = inl (bytes "sig", mkPayload "rm -f '<x>'" 1 60 "n" "SHA256:k" true).
Proof.
  destruct (decode_encode_signed (bytes "sig")
              (mkPayload "rm -f '<x>'" 1 60 "n" "SHA256:k" true) " rm -f x") as [H Hw].
  - vm_compute. discriminate.
  - vm_compute. split; [discriminate|reflexivity].
  - vm_compute. split; [discriminate|reflexivity].
  - vm_compute. discriminate.
  - right. exists "rm -f x". reflexivity.
  - rewrite H, Hw; [reflexivity|]. repeat split; vm_compute; done.
Defined.

(** ** What is decoded *)

(** The invariant of the fields while members are decoded into them. *)
Lemma set_member_wf p m p' :
  wf_payload p -> utf8_scalar m.2 -> set_member p m = Some p' -> wf_payload p'.
Proof.
  destruct m as [k v]. cbn [snd]. intros (H1 & H2 & H3 & H4 & H5) Hv H.
  unfold set_member in H. repeat case_match; try discriminate H; injection H as <-;
    try match goal with E : is_int64 _ = true |- _ => apply is_int64_true in E end;
    repeat split; cbn [Cmd TS Exp Nonce Host Reveal]; rewrite ?bytes_str; try done;
    try apply H1; try apply H2; try (match goal with E : int64 _ |- _ => apply E end).
Qed.

Lemma set_members_wf ms : forall p p',
  wf_payload p -> Forall (fun m => utf8_scalar m.2) ms ->
  set_members p ms = Some p' -> wf_payload p'.
Proof.
  induction ms as [|m ms IH]; intros p p' Hp Hms; cbn; [by intros [= <-]|].
  apply Forall_cons in Hms as [Hm Hms]. destruct (set_member p m) eqn:E; [|done].
  apply IH; [by eapply set_member_wf|done].
Qed.

Lemma unmarshal_wf l p : unmarshal l = Some p -> wf_payload p.
Proof.
  unfold unmarshal. destruct (decode_object l) as [ms|] eqn:E; [|done].
  apply decode_object_utf8 in E. apply set_members_wf; [|done].
  repeat split; vm_compute; done.
Qed.

Lemma decode_signed_inv s sig p :
  DecodeSigned s = inl (sig, p) -> IsSigned s = true /\ wf_payload p /\ Cmd p <> "".
Proof.
  unfold DecodeSigned, IsSigned. destruct (GoStr.HasPrefix s sigPrefix); [|done]. cbn [negb].
  intros H. repeat case_match; try discriminate H. injection H as <- <-.
  split; [done|]. split; [by eapply unmarshal_wf|by apply String.eqb_neq].
Qed.

(** Whatever line is decoded, the payload has int64 times, UTF-8 strings
    and a command; encoding it again yields a line that decodes to the very
    same payload: one decoding reaches the canonical form. *)
Theorem decoded_payload_canonical (s : string) (sig : list ascii) (p : SigPayload)
    (Hdec : DecodeSigned s = inl (sig, p)) (Hsig : sig <> []) :
  IsSigned s = true /\ wf_payload p /\ Cmd p <> ""
  /\ DecodeSigned (EncodeSigned sig p) = inl (sig, p).
Proof.
  destruct (decode_signed_inv _ _ _ Hdec) as (H1 & H2 & H3). repeat split; try done; try apply H2.
  rewrite <- (str_app_nil_r (EncodeSigned sig p)).
  rewrite decode_envelope by (try done; try apply H2; by left). by rewrite repaired_wf.
Qed.

Lemma decoded_payload_canonical_witness :
  exists p, DecodeSigned "SSHGATE_SIG:AA:eyJDTUQiOiJscyJ9 ls" = inl ([NUL], p)
    /\ DecodeSigned (EncodeSigned [NUL] p) = inl ([NUL], p).
Proof.
  exists (mkPayload "ls" 0 0 "" "" false). split; [vm_compute; reflexivity|].
  apply (decoded_payload_canonical "SSHGATE_SIG:AA:eyJDTUQiOiJscyJ9 ls" [NUL]);
    [vm_compute; reflexivity|discriminate].
Defined.

(** The signed bytes determine the payload: two payloads with int64 times
    and UTF-8 strings that marshal to the same bytes are equal, so a signature
    covers the command, the times, the nonce, the host and the reveal flag. *)
Theorem marshal_injective (p q : SigPayload)
    (Hp : wf_payload p) (Hq : wf_payload q) (Heq : marshal p = marshal q) : p = q.
Proof.
  pose proof (unmarshal_marshal p [] ltac:(apply Hp) ltac:(apply Hp)) as H1.
  pose proof (unmarshal_marshal q [] ltac:(apply Hq) ltac:(apply Hq)) as H2.
  rewrite Heq, H2 in H1. rewrite !repaired_wf in H1 by done. congruence.
Qed.

Lemma marshal_injective_witness :
  marshal (mkPayload "ls" 1 2 "n" "" false) = marshal (mkPayload "ls" 1 2 "n" "" false)
  /\ mkPayload "ls" 1 2 "n" "" false = mkPayload "ls" 1 2 "n" "" false.
Proof.
  split; [reflexivity|].
  apply (marshal_injective (mkPayload "ls" 1 2 "n" "" false) (mkPayload "ls" 1 2 "n" "" false));
    [repeat split; vm_compute; done|repeat split; vm_compute; done|reflexivity].
Defined.

(** The envelope is malleable outside the payload: bytes after the JSON
    object inside the payload field are ignored, so many lines carry one
    signed payload. *)
Theorem trailing_json_ignored (sig garbage : list ascii) (p : SigPayload)
    (Hsig : sig <> []) (Hp : wf_payload p) (Hcmd : Cmd p <> "") :
  DecodeSigned (sigPrefix +:+ str (Base64.encode sig)
                +:+ String ":" (str (Base64.encode (marshal p ++ garbage))))
  = inl (sig, p).
Proof.
  rewrite <- (repaired_wf p Hp) at 2. rewrite <- (str_app_nil_r (String ":" _)).
  apply decode_fields; try done; [apply unmarshal_marshal; apply Hp|by rewrite repaired_wf|by left].
Qed.

Lemma trailing_json_ignored_witness :
  DecodeSigned (sigPrefix +:+ str (Base64.encode (bytes "s"))
                +:+ String ":" (str (Base64.encode
                      (marshal (mkPayload "ls" 1 2 "n" "" false) ++ bytes "}{junk"))))
  = inl (bytes "s", mkPayload "ls" 1 2 "n" "" false).
Proof.
  apply (trailing_json_ignored (bytes "s") (bytes "}{junk") (mkPayload "ls" 1 2 "n" "" false));
    [discriminate|repeat split; vm_compute; done|discriminate].
Defined.
