(* ===== verification/RedactScanner.v ===== *)
(** * Rules, matches and markers of the redactor
    (src/redact/rules.go, scanner.go, markers.go)

    A rule's compiled regular expression is modelled by what it answers:
    [FindAllSubmatchIndex], a function from the buffer to the index lists of
    its matches.  [regex_ok] is the documented shape of that answer.  The HMAC
    behind the marker keys is the parameter [mac]. *)

From S2P Require Import Prelude.

(** hmac.New(sha256.New, salt), Write(secret), Sum(nil). *)
Class Hmac := { mac : list ascii -> list ascii -> list ascii }.

Module Bytes.

Definition lit (s : string) : list ascii := list_ascii_of_string s.

(** [buf[i:j]] *)
Definition slice (l : list ascii) (i j : nat) : list ascii := take (j - i) (drop i l).

Fixpoint is_prefix (p l : list ascii) : bool :=
  match p, l with
  | [], _ => true
  | a :: p, b :: l => (a =c b) && is_prefix p l
  | _ :: _, [] => false
  end.

(** bytes.Index; [None] is -1. *)
Fixpoint index (l sub : list ascii) : option nat :=
  if is_prefix sub l then Some 0
  else match l with
       | [] => None
       | _ :: t => option_map S (index t sub)
       end.

Definition contains (l sub : list ascii) : bool :=
  match index l sub with Some _ => true | None => false end.

Definition has_suffix (l suf : list ascii) : bool := is_prefix (reverse suf) (reverse l).

(** bytes.TrimRight with a cutset. *)
Fixpoint trim_front (cut : ascii -> bool) (l : list ascii) : list ascii :=
  match l with
  | c :: t => if cut c then trim_front cut t else l
  | [] => []
  end.

Definition trim_right (cut : ascii -> bool) (l : list ascii) : list ascii :=
  reverse (trim_front cut (reverse l)).

(** The offset of the newline that ends the first line, or the length. *)
Fixpoint line_end (l : list ascii) : nat :=
  match l with
  | [] => 0
  | c :: t => if c =c NL then 0 else S (line_end t)
  end.

End Bytes.

Module Scanner.
Import Bytes.

(** Rule *)
Record Rule := mkRule {
  ID : string;
  Regex : list ascii -> list (list Z);
  Keywords : list (list ascii);
  SecretGroup : nat;
  MinLen : nat;
  MaxLen : nat;
  HighConfidence : bool
}.

(** indexFoldASCII, the position; the needle is lower case. *)
Fixpoint fold_prefix (needle l : list ascii) : bool :=
  match needle, l with
  | [], _ => true
  | a :: needle, c :: l => (GoStr.lower_byte c =c a) && fold_prefix needle l
  | _ :: _, [] => false
  end.

Fixpoint indexFoldASCII (l needle : list ascii) : option nat :=
  if fold_prefix needle l then Some 0
  else match l with
       | [] => None
       | _ :: t => option_map S (indexFoldASCII t needle)
       end.

(** matchesKeyword *)
Definition matchesKeyword (r : Rule) (buf : list ascii) : bool :=
  match Keywords r with
  | [] => true
  | kws => existsb (fun kw => match indexFoldASCII buf kw with Some _ => true | None => false end) kws
  end.

(** CompileRule, given the compiled regular expression: lower-cased keywords. *)
Definition CompileRule (id : string) (re : list ascii -> list (list Z))
    (keywords : list string) (secretGroup minLen maxLen : nat) : Rule :=
  mkRule id re (map (fun k => lit (GoStr.ToLower k)) keywords) secretGroup minLen maxLen false.

(** WithHighConfidence *)
Definition WithHighConfidence (r : Rule) : Rule :=
  mkRule (ID r) (Regex r) (Keywords r) (SecretGroup r) (MinLen r) (MaxLen r) true.

(** match *)
Record match_ := mkMatch {
  Start : nat;
  End_ : nat;
  MatchStart : nat;
  RuleID : string;
  Secret : list ascii
}.

(** The span of one hit: the secret group when it took part in the match. *)
Definition hit_span (group : nat) (ix : list Z) : nat * nat :=
  let i k := Z.to_nat (nth k ix 0%Z) in
  let gi := 2 * group in
  if (0 <? group) && (gi + 1 <? List.length ix) && (0 <=? nth gi ix 0%Z)%Z
  then (i gi, i (gi + 1)) else (i 0, i 1).

(** One hit of one rule: the length filters, then the match. *)
Definition hit (r : Rule) (buf : list ascii) (ix : list Z) : option match_ :=
  let '(start, stop) := hit_span (SecretGroup r) ix in
  let n := stop - start in
  if (0 <? MinLen r) && (n <? MinLen r) then None
  else if (0 <? MaxLen r) && (MaxLen r <? n) && negb (HighConfidence r) then None
  else Some (mkMatch start stop (Z.to_nat (nth 0 ix 0%Z)) (ID r) (slice buf start stop)).

Definition rule_hits (buf : list ascii) (r : Rule) : list match_ :=
  if matchesKeyword r buf then omap (hit r buf) (Regex r buf) else [].

Definition raw_matches (rules : list Rule) (buf : list ascii) : list match_ :=
  flat_map (rule_hits buf) rules.

(** The order of dedupMatches: by start, the longer first. *)
Definition match_before (a b : match_) : bool :=
  if Start a =? Start b then End_ b - Start b <=? End_ a - Start a
  else Start a <? Start b.

(** sort.Slice; ties keep their order, as its insertion sort on short slices. *)
Fixpoint insert_match (m : match_) (l : list match_) : list match_ :=
  match l with
  | [] => [m]
  | x :: l' => if match_before m x then m :: l else x :: insert_match m l'
  end.

Fixpoint sort_matches (l : list match_) : list match_ :=
  match l with
  | [] => []
  | m :: l => insert_match m (sort_matches l)
  end.

(** The sweep of dedupMatches; [lastEnd] is -1 before the first match. *)
Fixpoint sweep (lastEnd : nat) (l : list match_) : list match_ :=
  match l with
  | [] => []
  | m :: l => if Start m <? lastEnd then sweep lastEnd l else m :: sweep (End_ m) l
  end.

Definition dedupMatches (l : list match_) : list match_ := sweep 0 (sort_matches l).

(** findMatches *)
Definition findMatches (rules : list Rule) (buf : list ascii) : list match_ :=
  match buf, rules with
  | [], _ | _, [] => []
  | _, _ => dedupMatches (raw_matches rules buf)
  end.

(** ** Markers *)

Definition MarkerPrefix : string := "[SSHGATE_REDACTED key=".
Definition MarkerSuffix : string := "]".
Definition NeutralizedMarkerPrefix : string := "(SSHGATE_REDACTED~key=".
Definition markerForgeryRuleID : string := "sshgate-marker-forgery".
Definition markerKeyInputLimit : nat := 8 * 1024.

(** hex.EncodeToString *)
Definition hex_byte (c : ascii) : list ascii :=
  let digit n := if (n <? 10)%Z then byte_of (48 + n) else byte_of (87 + n) in
  [digit (byte_val c / 16)%Z; digit (byte_val c mod 16)%Z].

(** MarkerKey *)
Definition MarkerKey `{Hmac} (salt secret : list ascii) : list ascii :=
  let sum := mac salt (if markerKeyInputLimit <? List.length secret
                       then take markerKeyInputLimit secret else secret) in
  flat_map hex_byte (take 4 sum).

(** FormatMarker *)
Definition FormatMarker `{Hmac} (salt secret : list ascii) : list ascii :=
  lit MarkerPrefix ++ MarkerKey salt secret ++ lit MarkerSuffix.

(** What one match is replaced by. *)
Definition marker_for `{Hmac} (salt : list ascii) (m : match_) : list ascii :=
  if RuleID m =s markerForgeryRuleID then lit NeutralizedMarkerPrefix
  else FormatMarker salt (Secret m).

(** redact, from offset [prev]. *)
Fixpoint redact_from `{Hmac} (salt : list ascii) (prev : nat) (buf : list ascii)
    (ms : list match_) : list ascii :=
  match ms with
  | [] => drop prev buf
  | m :: ms => slice buf prev (Start m) ++ marker_for salt m ++ redact_from salt (End_ m) buf ms
  end.

Definition redact `{Hmac} (salt buf : list ascii) (ms : list match_) : list ascii :=
  redact_from salt 0 buf ms.

(** The literal finder behind markerForgeryRule: every occurrence, left to
    right, without overlap. *)
Fixpoint find_literal (skip off : nat) (pat l : list ascii) : list (list Z) :=
  match l with
  | [] => []
  | _ :: t =>
      match skip with
      | S skip => find_literal skip (S off) pat t
      | 0 => if is_prefix pat l
             then [Z.of_nat off; Z.of_nat (off + List.length pat)]
                    :: find_literal (pred (List.length pat)) (S off) pat t
             else find_literal 0 (S off) pat t
      end
  end.

(** markerForgeryRule *)
Definition markerForgeryRule : Rule :=
  CompileRule markerForgeryRuleID (find_literal 0 0 (lit MarkerPrefix)) [MarkerPrefix] 0 0 0.

End Scanner.
