(* ===== verification/Regexp.v ===== *)
(** * Go's regular expressions, as far as the redaction rules use them

    The syntax of the rules' patterns (literals, classes, the escapes \s, \b, \n and
    escaped punctuation, groups, alternation, greedy repetition, the anchor ^ and a
    leading (?i)) and Go's leftmost-first matching with its captures, as a
    backtracking search.  A buffer is read as runes, the way the regexp package
    reads bytes; offsets are bytes.  [Matches] is the reference: which spans an
    expression matches at all. *)

From S2P Require Import Prelude Json RedactScanner.

Module Regexp.
Import Bytes Utf8.
#[local] Open Scope Z_scope.

(** ** Expressions *)

(** [Rep lo hi a] is a{lo,hi}; no [hi] is no bound. *)
Inductive re :=
  | Empty
  | Class (fold neg : bool) (ranges : list (Z * Z))
  | Bol
  | WordB
  | Cat (a b : re)
  | Alt (a b : re)
  | Rep (lo : nat) (hi : option nat) (a : re)
  | Group (n : nat) (a : re).

(** The code point of a rune; what is not UTF-8 reads as U+FFFD. *)
Definition code_point (r : rune) : Z :=
  let tail c := Z.land (byte_val c) 63 in
  match r with
  | Asc c => byte_val c
  | Multi [a; b] => Z.land (byte_val a) 31 * 64 + tail b
  | Multi [a; b; c] => Z.land (byte_val a) 15 * 4096 + tail b * 64 + tail c
  | Multi [a; b; c; d] => Z.land (byte_val a) 7 * 262144 + tail b * 4096 + tail c * 64 + tail d
  | _ => 65533
  end.

Definition between (x : Z) (r : Z * Z) : bool := (r.1 <=? x) && (x <=? r.2).

(** The runes that fold to the same letter, where one of them is ASCII: both
    cases, U+017F for s and U+212A for k. *)
Definition folds (x : Z) : list Z :=
  if between x (65, 90) then [x + 32] else if between x (97, 122) then [x - 32]
  else if x =? 383 then [83; 115] else if x =? 8490 then [75; 107] else [].

Definition in_class (fold neg : bool) (ranges : list (Z * Z)) (r : rune) : bool :=
  let has x := existsb (between x) ranges in
  let x := code_point r in
  xorb neg (has x || (fold && existsb has (folds x))).

(** ** Positions *)

Record pos := mkPos { off : Z; prev : option rune; rest : list rune }.

Definition step (p : pos) : option (rune * pos) :=
  match rest p with
  | [] => None
  | r :: rs => Some (r, mkPos (off p + Z.of_nat (List.length (rune_bytes r))) (Some r) rs)
  end.

Definition start_of (buf : list ascii) : pos := mkPos 0 None (runes buf).

(** syntax.IsWordChar *)
Definition is_word (r : rune) : bool :=
  existsb (between (code_point r)) [(48, 57); (65, 90); (95, 95); (97, 122)].

Definition word_at (o : option rune) : bool := match o with Some r => is_word r | None => false end.

Definition boundary (p : pos) : bool := xorb (word_at (prev p)) (word_at (head (rest p))).

(** ** Matching *)

(** The span of each group, the last one first. *)
Definition caps := list (nat * (Z * Z)).

Section Matcher.
Variable R : Type.
Definition cont := pos -> caps -> option R.

(** Greedy repetition of [a]: at most [fuel] times, and at least [lo]. *)
Fixpoint loop (a : cont -> cont) (fuel lo : nat) (k : cont) (p : pos) (c : caps) : option R :=
  match fuel with
  | O => match lo with O => k p c | S _ => None end
  | S fuel =>
      match a (fun q c => if off p <? off q then loop a fuel (pred lo) k q c else None) p c with
      | Some x => Some x
      | None => match lo with O => k p c | S _ => None end
      end
  end.

(** The first way to match, by Perl's priorities, after which [k] succeeds. *)
Fixpoint search (r : re) (k : cont) (p : pos) (c : caps) : option R :=
  match r with
  | Empty => k p c
  | Class fold neg ranges =>
      match step p with
      | Some (x, q) => if in_class fold neg ranges x then k q c else None
      | None => None
      end
  | Bol => if off p =? 0 then k p c else None
  | WordB => if boundary p then k p c else None
  | Cat a b => search a (search b k) p c
  | Alt a b => match search a k p c with Some x => Some x | None => search b k p c end
  | Rep lo hi a =>
      let fuel := match hi with Some h => h | None => List.length (rest p) end in
      loop (search a) fuel lo k p c
  | Group n a => search a (fun q c => k q ((n, (off p, off q)) :: c)) p c
  end.

End Matcher.

(** A match that begins at [p]: where it ends, and its groups. *)
Definition match_at (r : re) (p : pos) : option (pos * caps) :=
  search (pos * caps) r (fun q c => Some (q, c)) p [].

(** The leftmost match from [p] on. *)
Fixpoint find_in (r : re) (p : pos) (todo : list rune) : option (pos * pos * caps) :=
  match match_at r p with
  | Some (q, c) => Some (p, q, c)
  | None =>
      match todo with
      | [] => None
      | x :: todo => find_in r (mkPos (off p + Z.of_nat (List.length (rune_bytes x))) (Some x) todo) todo
      end
  end.

Definition find (r : re) (p : pos) : option (pos * pos * caps) := find_in r p (rest p).

Definition group_span (c : caps) (n : nat) : list Z :=
  match List.find (fun g => (g.1 =? n)%nat) c with Some (_, (i, j)) => [i; j] | None => [-1; -1] end.

(** The index list of a match with [n] groups. *)
Definition index_list (n : nat) (m : pos * pos * caps) : list Z :=
  let '(s, e, c) := m in off s :: off e :: flat_map (group_span c) (seq 1 n).

(** Regexp.allMatches *)
Fixpoint all_matches (fuel : nat) (r : re) (n : nat) (p : pos) (prevEnd : Z) : list (list Z) :=
  match fuel with
  | O => []
  | S fuel =>
      match find r p with
      | None => []
      | Some (s, e, c) =>
          if off e =? off p then
            let more := match step p with
                        | Some (_, q) => all_matches fuel r n q (off e)
                        | None => []
                        end in
            if off s =? prevEnd then more else index_list n (s, e, c) :: more
          else index_list n (s, e, c) :: all_matches fuel r n e (off e)
      end
  end.

(** Regexp.FindAllSubmatchIndex(buf, -1) *)
Definition FindAllSubmatchIndex (r : re) (n : nat) (buf : list ascii) : list (list Z) :=
  all_matches (S (List.length (runes buf))) r n (start_of buf) (-1).

(** ** The parser *)

Definition singleton (c : ascii) : list (Z * Z) := [(byte_val c, byte_val c)].

(** \s *)
Definition perl_space : list (Z * Z) := [(9, 10); (12, 13); (32, 32)].

(** An escaped character inside or outside a class. *)
Definition escape (c : ascii) : option (list (Z * Z)) :=
  if (c =c "s")%char then Some perl_space
  else if (c =c "n")%char then Some (singleton NL)
  else if GoStr.is_lower c || GoStr.is_upper c || GoStr.is_digit c then None
  else Some (singleton c).

(** The items of a class, up to its bracket. *)
Fixpoint class_items (l : list ascii) : option (list (Z * Z) * list ascii) :=
  let cons rs o := option_map (fun '(rs', l) => (rs ++ rs', l)) o in
  match l with
  | [] => None
  | c :: l1 =>
      if (c =c "]")%char then Some ([], l1)
      else if (c =c "\")%char then
        match l1 with
        | e :: l2 => match escape e with Some rs => cons rs (class_items l2) | None => None end
        | [] => None
        end
      else match l1 with
           | d :: ((h :: l3) as l2) =>
               if (d =c "-")%char && negb (h =c "]")%char && negb (h =c "\")%char
               then cons [(byte_val c, byte_val h)] (class_items l3)
               else cons (singleton c) (class_items l1)
           | _ => cons (singleton c) (class_items l1)
           end
  end.

(** A decimal number. *)
Fixpoint number (acc : nat) (l : list ascii) : nat * list ascii :=
  match l with
  | c :: l1 => if GoStr.is_digit c then number (10 * acc + Z.to_nat (byte_val c - 48)) l1 else (acc, l)
  | [] => (acc, [])
  end.

(** The quantifier after an atom, if there is one; lazy ones are not read. *)
Definition quantified (a : re) (l : list ascii) : option (re * list ascii) :=
  let greedy r l := match l with c :: _ => if (c =c "?")%char then None else Some (r, l) | [] => Some (r, l) end in
  match l with
  | [] => Some (a, l)
  | c :: l1 =>
      if (c =c "*")%char then greedy (Rep 0 None a) l1
      else if (c =c "+")%char then greedy (Rep 1 None a) l1
      else if (c =c "?")%char then greedy (Rep 0 (Some 1%nat) a) l1
      else if (c =c "{")%char then
        let '(lo, l2) := number 0 l1 in
        match l2 with
        | c :: l3 =>
            if (c =c "}")%char then greedy (Rep lo (Some lo) a) l3
            else if (c =c ",")%char then
              let '(hi, l4) := number 0 l3 in
              match l4 with
              | c :: l5 => if (c =c "}")%char then greedy (Rep lo (Some hi) a) l5 else None
              | [] => None
              end
            else None
        | [] => None
        end
      else Some (a, l)
  end.

Definition special (c : ascii) : bool := existsb (fun d => (c =c d)%char) (lit "\.+*?()|[]{}^$").

(** An alternation up to a closing parenthesis or the end, with (?i) or without,
    and the number of the next group. *)
Fixpoint alternation (fuel : nat) (fold : bool) (n : nat) (l : list ascii)
    : option (re * nat * list ascii) :=
  match fuel with
  | O => None
  | S fuel =>
      match sequence fuel fold n l with
      | Some (a, n, c :: l) =>
          if (c =c "|")%char then
            match alternation fuel fold n l with
            | Some (b, n, l) => Some (Alt a b, n, l)
            | None => None
            end
          else Some (a, n, c :: l)
      | o => o
      end
  end
(** Atoms in a row. *)
with sequence (fuel : nat) (fold : bool) (n : nat) (l : list ascii) : option (re * nat * list ascii) :=
  match fuel with
  | O => None
  | S fuel =>
      match l with
      | [] => Some (Empty, n, l)
      | c :: _ =>
          if (c =c "|")%char || (c =c ")")%char then Some (Empty, n, l)
          else match atom fuel fold n l with
               | Some (a, n, l) =>
                   match quantified a l with
                   | Some (a, l) =>
                       match sequence fuel fold n l with
                       | Some (b, n, l) => Some (match b with Empty => a | _ => Cat a b end, n, l)
                       | None => None
                       end
                   | None => None
                   end
               | None => None
               end
      end
  end
(** One atom. *)
with atom (fuel : nat) (fold : bool) (n : nat) (l : list ascii) : option (re * nat * list ascii) :=
  match fuel with
  | O => None
  | S fuel =>
      let closed o := match o with
                      | Some (a, n, c :: l) => if (c =c ")")%char then Some (a, n, l) else None
                      | _ => None
                      end in
      let class neg l := match class_items l with
                         | Some (rs, l) => Some (Class fold neg rs, n, l)
                         | None => None
                         end in
      match l with
      | [] => None
      | c :: l1 =>
          if (c =c "(")%char then
            if is_prefix (lit "?:") l1 then closed (alternation fuel fold n (drop 2 l1))
            else match closed (alternation fuel fold (S n) l1) with
                 | Some (a, n', l) => Some (Group n a, n', l)
                 | None => None
                 end
          else if (c =c "[")%char then
            match l1 with
            | d :: l2 => if (d =c "^")%char then class true l2 else class false l1
            | [] => None
            end
          else if (c =c "^")%char then Some (Bol, n, l1)
          else if (c =c "\")%char then
            match l1 with
            | e :: l2 =>
                if (e =c "b")%char then Some (WordB, n, l2)
                else option_map (fun rs => (Class fold false rs, n, l2)) (escape e)
            | [] => None
            end
          else if special c then None
          else Some (Class fold false (singleton c), n, l1)
      end
  end.

(** What matches the empty string. *)
Fixpoint nullable (r : re) : bool :=
  match r with
  | Empty | Bol | WordB => true
  | Class _ _ _ => false
  | Cat a b => nullable a && nullable b
  | Alt a b => nullable a || nullable b
  | Rep lo _ a => (lo =? 0)%nat || nullable a
  | Group _ a => nullable a
  end.

(** No repetition of something that matches the empty string; those are where Go
    and this search could differ. *)
Fixpoint plain (r : re) : bool :=
  match r with
  | Empty | Bol | WordB | Class _ _ _ => true
  | Cat a b | Alt a b => plain a && plain b
  | Rep _ _ a => plain a && negb (nullable a)
  | Group _ a => plain a
  end.

(** regexp.Compile, on the patterns described above: the expression and the number
    of its groups. *)
Definition Compile (pattern : list ascii) : option (re * nat) :=
  let fold := is_prefix (lit "(?i)") pattern in
  let l := if fold then drop 4 pattern else pattern in
  match alternation (S (3 * List.length l)) fold 1 l with
  | Some (r, n, []) => if plain r then Some (r, pred n) else None
  | _ => None
  end.

(** regexp.MustCompile; [None] is its panic. *)
Definition MustCompile (pattern : list ascii) : option (list ascii -> list (list Z)) :=
  option_map (fun '(r, n) => FindAllSubmatchIndex r n) (Compile pattern).

End Regexp.
