(* ===== verification/RedactPem.v ===== *)
(** * The PEM accumulator (src/redact/pem.go) *)

From S2P Require Import Prelude RedactScanner.

Module Pem.
Import Bytes.

Definition pemBegin : list ascii := lit "-----BEGIN ".
Definition pemEndPrefix : list ascii := lit "-----END ".
Definition pemEndSuffix : list ascii := lit "-----".
Definition pemMaxBuffer : nat := 8 * 1024.

(** The cutset of the TrimRight calls. *)
Definition line_blank (c : ascii) : bool := (c =c SPACE) || (c =c TAB) || (c =c CR).

(** The closing dashes of an armour line. *)
Definition armoured (line : list ascii) : bool := has_suffix (trim_right line_blank line) pemEndSuffix.

(** findPEMEnd, from offset [off]; [l] is [buf[off:]].  Each round moves past a
    line, so the length of the buffer bounds the rounds. *)
Fixpoint findPEMEnd_from (fuel off : nat) (l : list ascii) : option nat :=
  match fuel with
  | 0 => None
  | S fuel =>
      match index l pemEndPrefix with
      | None => None
      | Some idx =>
          let at_end := drop idx l in
          let n := line_end at_end in
          if armoured (take n at_end) then Some (off + idx)
          else if List.length at_end <=? n then None
          else findPEMEnd_from fuel (off + idx + n) (drop n at_end)
      end
  end.

Definition findPEMEnd (buf : list ascii) : option nat :=
  findPEMEnd_from (S (List.length buf)) 0 buf.

(** findPEMBegin *)
Definition findPEMBegin (buf : list ascii) : option nat := index buf pemBegin.

(** isPrivateKeyBegin *)
Definition isPrivateKeyBegin (buf : list ascii) : bool :=
  match index buf pemBegin with
  | None => false
  | Some idx =>
      let rest := drop idx buf in
      let line := take (line_end rest) rest in
      if negb (armoured line) then false
      else contains line (lit "PRIVATE KEY")
  end.

(** pemFeedResult *)
Inductive feed_result :=
  | Complete (buffered tail : list ascii)
  | Aborted (buffered : list ascii)
  | InProgress.

(** The offset after the END line found at [idx], its newline included. *)
Definition end_of_block (buf : list ascii) (idx : nat) : nat :=
  let n := idx + line_end (drop idx buf) in
  if n <? List.length buf then S n else n.

(** feed: the accumulator's new content, and the result. *)
Definition feed (acc chunk : list ascii) : list ascii * feed_result :=
  let buf := acc ++ chunk in
  match findPEMEnd buf with
  | Some idx =>
      let lineEnd := end_of_block buf idx in
      (buf, Complete (take lineEnd buf) (drop lineEnd buf))
  | None =>
      if pemMaxBuffer <=? List.length buf then (buf, Aborted buf) else (buf, InProgress)
  end.

End Pem.
