(* ===== verification/RedactMatchProps.v ===== *)
(** * What one scan of the redactor guarantees

    Matches lie in the buffer, in order and disjoint; every hit a rule reports
    lies in a kept match's span, or loses its front to one that begins before it;
    and [redact] replaces exactly the kept spans. *)

From Stdlib Require Import Sorted.
From S2P Require Import Prelude RedactScanner.
Import Bytes Scanner.

(** ** Slices *)

Lemma slice_length l i j : i <= j -> j <= List.length l -> List.length (slice l i j) = j - i.
Proof. intros. unfold slice. rewrite length_take, length_drop. lia. Qed.

Lemma slice_full l i : slice l i (List.length l) = drop i l.
Proof. unfold slice. rewrite take_ge; [done|]. rewrite length_drop. lia. Qed.

Lemma drop_slice l i j : i <= j -> j <= List.length l -> drop i l = slice l i j ++ drop j l.
Proof.
  intros. unfold slice. rewrite <- (take_drop (j - i) (drop i l)) at 1.
  rewrite drop_drop. do 2 f_equal. lia.
Qed.

Lemma slice_take l e i j : j <= e -> slice (take e l) i j = slice l i j.
Proof.
  intros H. unfold slice. rewrite skipn_firstn_comm, take_take. f_equal. lia.
Qed.

(** ** The answer of a regular expression *)

(** FindAllSubmatchIndex: every match is a pair of offsets in the buffer, and a
    group that took part lies inside the match. *)
Definition index_ok (len : nat) (ix : list Z) : Prop :=
  (0 <= nth 0 ix 0 <= nth 1 ix 0)%Z /\ (nth 1 ix 0 <= Z.of_nat len)%Z
  /\ forall g, 2 * g + 1 < List.length ix -> (0 <= nth (2 * g) ix 0)%Z ->
       (nth 0 ix 0 <= nth (2 * g) ix 0 <= nth (2 * g + 1) ix 0)%Z
       /\ (nth (2 * g + 1) ix 0 <= nth 1 ix 0)%Z.

Definition regex_ok (r : Rule) : Prop :=
  forall buf ix, In ix (Regex r buf) -> index_ok (List.length buf) ix.

(** A match of [buf]. *)
Record span_ok (buf : list ascii) (m : match_) : Prop := {
  span_anchor : MatchStart m <= Start m;
  span_order : Start m <= End_ m;
  span_end : End_ m <= List.length buf;
  span_secret : Secret m = slice buf (Start m) (End_ m)
}.

Lemma hit_ok r buf ix m :
  index_ok (List.length buf) ix -> hit r buf ix = Some m -> span_ok buf m.
Proof.
  intros (H1 & H2 & Hg) Hh. unfold hit in Hh.
  assert (forall p, hit_span (SecretGroup r) ix = p ->
    Z.to_nat (nth 0 ix 0%Z) <= p.1 <= p.2 /\ p.2 <= List.length buf) as Hspan.
  { intros p <-. unfold hit_span. destruct (_ && _) eqn:E; cbn [fst snd]; [|lia]. bool_hyps.
    destruct (Hg (SecretGroup r)) as [Ha Hb]; [lia|lia|].
    split; lia. }
  destruct (hit_span _ _) as [s e]. specialize (Hspan _ eq_refl). cbn [fst snd] in Hspan.
  destruct (_ && _); [done|]. destruct (_ && _); [done|]. injection Hh as <-.
  split; cbn; lia || done.
Qed.

Lemma raw_matches_ok rules buf :
  Forall regex_ok rules -> Forall (span_ok buf) (raw_matches rules buf).
Proof.
  intros Hr. unfold raw_matches. induction Hr as [|r rules Hok _ IH]; [constructor|].
  cbn [flat_map]. apply Forall_app_2; [|exact IH]. unfold rule_hits.
  destruct (matchesKeyword r buf); [|constructor].
  apply Forall_forall. intros m Hm%list_elem_of_omap. destruct Hm as (ix & Hix & Hh).
  eapply hit_ok; [|exact Hh]. apply Hok. by apply list_elem_of_In.
Qed.

(** ** Sorting and sweeping *)

Lemma insert_match_perm m l : Permutation (insert_match m l) (m :: l).
Proof.
  induction l as [|x l IH]; cbn; [done|]. destruct (match_before m x); [done|].
  rewrite IH. apply Permutation_swap.
Qed.

Lemma sort_matches_perm l : Permutation (sort_matches l) l.
Proof. induction l as [|m l IH]; cbn; [done|]. by rewrite insert_match_perm, IH. Qed.

(** The order of the sort is total and transitive. *)
Lemma match_before_iff a b :
  match_before a b = true
  <-> Start a < Start b \/ (Start a = Start b /\ End_ b - Start b <= End_ a - Start a).
Proof.
  unfold match_before. destruct (Start a =? Start b) eqn:E.
  - apply Nat.eqb_eq in E. rewrite Nat.leb_le. lia.
  - apply Nat.eqb_neq in E. rewrite Nat.ltb_lt. lia.
Qed.

Lemma match_before_total a b : match_before a b = false -> match_before b a = true.
Proof.
  intros H%not_true_iff_false. rewrite match_before_iff in *. lia.
Qed.

Lemma match_before_trans a b c :
  match_before a b = true -> match_before b c = true -> match_before a c = true.
Proof. rewrite !match_before_iff. lia. Qed.

#[local] Abbreviation sorted := (StronglySorted (fun a b => match_before a b = true)).

Lemma insert_sorted m l : sorted l -> sorted (insert_match m l).
Proof.
  induction 1 as [|x l Hl IH Hx]; cbn; [repeat constructor|].
  destruct (match_before m x) eqn:E.
  - constructor; [by constructor|]. constructor; [done|].
    eapply List.Forall_impl; [|exact Hx]. intros y Hy. by apply (match_before_trans m x y).
  - constructor; [done|]. apply match_before_total in E. apply List.Forall_forall. intros y Hy.
    eapply Permutation_in in Hy; [|apply insert_match_perm].
    destruct Hy as [<-|Hy]; [done|]. rewrite List.Forall_forall in Hx. by apply Hx.
Qed.

Lemma sort_sorted l : sorted (sort_matches l).
Proof. induction l as [|m l IH]; cbn; [constructor|]. by apply insert_sorted. Qed.

(** Disjoint and in order, from offset [n]. *)
Fixpoint spans_from (n : nat) (l : list match_) : Prop :=
  match l with
  | [] => True
  | m :: l => n <= Start m /\ spans_from (End_ m) l
  end.

Lemma sweep_spans n l : spans_from n (sweep n l).
Proof.
  revert n. induction l as [|m l IH]; intros n; cbn [sweep]; [done|].
  destruct (Start m <? n) eqn:E; [apply IH|]. bool_hyps. split; [done|apply IH].
Qed.

Lemma sweep_incl n l m : In m (sweep n l) -> In m l.
Proof.
  revert n. induction l as [|x l IH]; intros n; cbn [sweep]; [done|].
  destruct (Start x <? n).
  - intros H. right. by eapply IH.
  - intros [->|H]; [by left|right; by eapply IH].
Qed.

(** A kept match [k] hides the hit [m]: it spans all of it, or begins before it and
    ends inside it. *)
Definition hides (k m : match_) : Prop :=
  (Start k <= Start m /\ End_ m <= End_ k)
  \/ (Start k < Start m /\ Start m < End_ k /\ End_ k < End_ m).

Lemma before_hides k m :
  Start m <= End_ m -> match_before k m = true -> Start m < End_ k -> hides k m.
Proof. rewrite match_before_iff. unfold hides. lia. Qed.

(** What the sweep drops begins inside something it keeps and sorts after it. *)
Lemma sweep_covers l : sorted l -> forall n m, In m l -> Start m <= End_ m ->
  Start m < n \/ exists k, In k (sweep n l) /\ hides k m.
Proof.
  induction 1 as [|x l Hl IH Hx]; intros n m Hm Ho; [done|]. cbn [sweep].
  rewrite List.Forall_forall in Hx.
  destruct (Start x <? n) eqn:E; bool_hyps; destruct Hm as [->|Hm]; [by left|by apply IH| |].
  - right. exists m. split; [by left|left; lia].
  - right. destruct (IH (End_ x) m Hm Ho) as [Hlt|(k & Hk & Hh)].
    + exists x. split; [by left|]. by apply before_hides, Hlt; [|apply Hx].
    + exists k. split; [by right|done].
Qed.

Lemma findMatches_raw rules buf :
  findMatches rules buf = dedupMatches (raw_matches rules buf)
  \/ (findMatches rules buf = [] /\ (buf = [] \/ rules = [])).
Proof. destruct buf, rules; cbn; auto. Qed.

Lemma findMatches_spans rules buf : spans_from 0 (findMatches rules buf).
Proof. destruct (findMatches_raw rules buf) as [->|[-> _]]; [apply sweep_spans|done]. Qed.

Lemma findMatches_ok rules buf :
  Forall regex_ok rules -> Forall (span_ok buf) (findMatches rules buf).
Proof.
  intros Hr. destruct (findMatches_raw rules buf) as [->|[-> _]]; [|constructor].
  apply List.Forall_forall. intros m Hm%sweep_incl.
  pose proof (raw_matches_ok rules buf Hr) as Hf. rewrite List.Forall_forall in Hf. apply Hf.
  eapply Permutation_in; [apply sort_matches_perm|exact Hm].
Qed.

(** A scan keeps a set of disjoint spans, in order and inside the buffer,
    each with the bytes it covers; and every hit of a rule that passed its
    length filters is kept, or lies in a kept span, or loses its front to a kept
    span that begins before it. *)
Theorem findMatches_sound (rules : list Rule) (buf : list ascii)
    (Hrules : Forall regex_ok rules) :
  spans_from 0 (findMatches rules buf)
  /\ Forall (span_ok buf) (findMatches rules buf)
  /\ (buf <> [] -> forall m, In m (raw_matches rules buf) ->
        exists k, In k (findMatches rules buf) /\ hides k m).
Proof.
  split; [apply findMatches_spans|]. split; [by apply findMatches_ok|].
  intros Hb m Hm. destruct (findMatches_raw rules buf) as [->|[_ [?|Hr]]]; [|done|by subst].
  destruct (sweep_covers _ (sort_sorted (raw_matches rules buf)) 0 m) as [Hlt|Hk];
    [| |lia|exact Hk].
  - eapply Permutation_in; [symmetry; apply sort_matches_perm|exact Hm].
  - pose proof (raw_matches_ok rules buf Hrules) as Hf. rewrite List.Forall_forall in Hf.
    by destruct (Hf _ Hm).
Qed.

(** ** What is printed in place of a kept span *)

#[local] Abbreviation ordered := (Forall (fun m => Start m <= End_ m)).

Lemma spans_after n ks1 k ks2 :
  spans_from n (ks1 ++ k :: ks2) -> ordered (ks1 ++ k :: ks2) -> n <= Start k /\ spans_from (End_ k) ks2.
Proof.
  revert n. induction ks1 as [|x ks1 IH]; intros n [Hn Hs] Ho; [done|].
  apply Forall_cons in Ho as [Hx Ho]. destruct (IH _ Hs Ho). split; [lia|done].
Qed.

(** Redaction from [prev] on does not look at what comes before. *)
Lemma redact_from_drop `{Hmac} salt ms : forall prev buf buf',
  spans_from prev ms -> ordered ms -> drop prev buf = drop prev buf' ->
  redact_from salt prev buf ms = redact_from salt prev buf' ms.
Proof.
  induction ms as [|m ms IH]; intros prev buf buf' Hs Ho Hb; [done|].
  destruct Hs as [Hp Hs]. apply Forall_cons in Ho as [Hm Ho]. cbn [redact_from].
  unfold slice. rewrite Hb, (IH (End_ m) buf buf'); [done..|].
  replace (End_ m) with (prev + (End_ m - prev)) by lia. by rewrite <- !drop_drop, Hb.
Qed.

(** What precedes a kept span is redacted without looking at it. *)
Lemma redact_from_app `{Hmac} salt ks1 k ks2 pre tl : forall prev,
  spans_from prev (ks1 ++ k :: ks2) -> ordered (ks1 ++ k :: ks2) -> List.length pre = Start k ->
  redact_from salt prev (pre ++ tl) (ks1 ++ k :: ks2)
  = redact_from salt prev pre ks1 ++ marker_for salt k ++ redact_from salt (End_ k) (pre ++ tl) ks2.
Proof.
  induction ks1 as [|m ks1 IH]; intros prev Hs Ho Hpre; cbn [app redact_from].
  - f_equal. destruct Hs as [Hp _]. rewrite <- Hpre, <- (slice_take _ (List.length pre)) by done.
    rewrite take_app_length. apply slice_full.
  - destruct Hs as [Hp Hs]. apply Forall_cons in Ho as [Hm Ho].
    destruct (spans_after _ _ _ _ Hs Ho) as [Hk _]. rewrite IH by done. rewrite <- !app_assoc.
    f_equal. rewrite <- (slice_take (pre ++ tl) (List.length pre)) by lia. by rewrite take_app_length.
Qed.

(** The span of [k] is printed as its marker: between what precedes and what
    follows it, neither of which depends on the bytes in the span. *)
Definition masked `{Hmac} (salt buf : list ascii) (ms : list match_) (k : match_) : Prop :=
  exists before after, forall inside, List.length inside = End_ k - Start k ->
    redact salt (take (Start k) buf ++ inside ++ drop (End_ k) buf) ms
    = before ++ marker_for salt k ++ after.

Lemma kept_masked `{Hmac} salt buf ms k :
  spans_from 0 ms -> Forall (span_ok buf) ms -> In k ms -> masked salt buf ms k.
Proof.
  intros Hs Hok (ks1 & ks2 & ->)%in_split.
  assert (ordered (ks1 ++ k :: ks2)) as Ho by (eapply Forall_impl; [exact Hok|by intros m []]).
  exists (redact_from salt 0 (take (Start k) buf) ks1), (redact_from salt (End_ k) buf ks2).
  intros inside Hin. apply Forall_app in Hok as [_ Hok]. apply Forall_cons in Hok as [[_ H1 H2 _] _].
  assert (List.length (take (Start k) buf) = Start k) as Hpre by (rewrite length_take; lia).
  unfold redact. rewrite redact_from_app by done. do 2 f_equal.
  destruct (spans_after _ _ _ _ Hs Ho) as [_ Hs2].
  apply Forall_app in Ho as [_ Ho]. apply Forall_cons in Ho as [_ Ho].
  apply redact_from_drop; [done..|]. rewrite app_assoc, drop_app_length'; [done|].
  rewrite length_app. lia.
Qed.

(** ** Redaction of a buffer

    What happened to the bytes of a stream, piece by piece: passed through,
    replaced by a marker keyed on them, neutralised (a forged marker prefix), or
    dropped as the continuation of a suppressed secret. *)

Inductive piece :=
  | PRaw (s : list ascii)
  | PMark (s : list ascii)
  | PNeutral (s : list ascii)
  | PDrop (s : list ascii).

Definition piece_src (p : piece) : list ascii :=
  match p with PRaw s | PMark s | PNeutral s | PDrop s => s end.

Definition src (ps : list piece) : list ascii := flat_map piece_src ps.

(** The replacements, and the bytes dropped. *)
Definition marks (ps : list piece) : nat :=
  List.length (List.filter (fun p => match p with PMark _ | PNeutral _ => true | _ => false end) ps).

Definition dropped (ps : list piece) : nat :=
  List.length (flat_map (fun p => match p with PDrop s => s | _ => [] end) ps).

Section Redact.
Context `{Hmac} (salt : list ascii).

Definition piece_dst (p : piece) : list ascii :=
  match p with
  | PRaw s => s
  | PMark s => FormatMarker salt s
  | PNeutral _ => lit NeutralizedMarkerPrefix
  | PDrop _ => []
  end.

Definition dst (ps : list piece) : list ascii := flat_map piece_dst ps.

Definition cut (m : match_) : piece :=
  if RuleID m =s markerForgeryRuleID then PNeutral (Secret m) else PMark (Secret m).

Lemma cut_dst m : piece_dst (cut m) = marker_for salt m.
Proof. unfold cut, marker_for. by destruct (_ =s _). Qed.

Lemma redact_pieces ms : forall prev buf,
  spans_from prev ms -> Forall (span_ok buf) ms ->
  exists ps, src ps = drop prev buf /\ dst ps = redact_from salt prev buf ms
    /\ marks ps = List.length ms /\ dropped ps = 0.
Proof.
  induction ms as [|m ms IH]; intros prev buf Hs Hok.
  - exists [PRaw (drop prev buf)]. unfold src, dst. cbn. by rewrite !app_nil_r.
  - destruct Hs as [Hp Hs]. apply Forall_cons in Hok as [[Ha Ho He Hsec] Hok].
    destruct (IH (End_ m) buf Hs Hok) as (ps & Hsrc & Hdst & Hm & Hd).
    exists (PRaw (slice buf prev (Start m)) :: cut m :: ps).
    assert (piece_src (cut m) = slice buf (Start m) (End_ m)) as Hcs
      by (unfold cut; destruct (_ =s _); exact Hsec).
    unfold src, dst in *. cbn [flat_map piece_src]. rewrite Hcs, cut_dst, Hsrc, Hdst.
    split; [by rewrite <- drop_slice, <- drop_slice by lia|]. split; [done|].
    unfold marks, dropped, cut in *. split; destruct (_ =s _); cbn; by rewrite ?Hm, ?Hd.
Qed.

(** The kept matches that end before [e], or are cut there, still are disjoint
    spans of the flushed prefix. *)
Lemma spans_from_le n n' ms : n' <= n -> spans_from n ms -> spans_from n' ms.
Proof. destruct ms; [done|]. cbn. intros Hn [? ?]. split; [lia|done]. Qed.

Lemma spans_from_filter buf (p : match_ -> bool) ms : forall n,
  spans_from n ms -> Forall (span_ok buf) ms -> spans_from n (List.filter p ms).
Proof.
  induction ms as [|m ms IH]; intros n Hs Hok; [done|]. destruct Hs as [Hn Hs].
  apply Forall_cons in Hok as [[_ Ho _ _] Hok]. cbn [List.filter]. destruct (p m).
  - split; [done|]. by apply IH.
  - eapply spans_from_le; [|by apply (IH (End_ m))]. lia.
Qed.

Lemma span_ok_take buf e m : span_ok buf m -> End_ m <= e -> span_ok (take e buf) m.
Proof.
  intros [Ha Ho He Hs] Hm. split; try done.
  - rewrite length_take. lia.
  - by rewrite slice_take.
Qed.

Lemma Forall_filter_ok buf e ms :
  Forall (span_ok buf) ms ->
  Forall (span_ok (take e buf)) (List.filter (fun m => End_ m <=? e) ms).
Proof.
  induction 1 as [|m ms Hm _ IH]; [constructor|]. cbn [List.filter].
  destruct (End_ m <=? e) eqn:E; [|done]. bool_hyps. constructor; [|done]. by apply span_ok_take.
Qed.

End Redact.

(** ** The built-in rule *)

Lemma is_prefix_app p l y : is_prefix p l = true -> is_prefix p (l ++ y) = true.
Proof.
  revert l. induction p as [|a p IH]; intros [|d l]; cbn; try done.
  intros H. apply andb_true_iff in H as [-> H]. by rewrite IH.
Qed.

Lemma is_prefix_length p l : is_prefix p l = true -> List.length p <= List.length l.
Proof.
  revert l. induction p as [|a p IH]; intros [|b l]; cbn; try done; [lia|].
  intros H. bool_hyps. specialize (IH l). lia || (apply le_n_S, IH; done).
Qed.

Lemma find_literal_ok pat l : forall skip off ix,
  In ix (find_literal skip off pat l) ->
  exists i, ix = [Z.of_nat i; Z.of_nat (i + List.length pat)]
            /\ i + List.length pat <= off + List.length l.
Proof.
  induction l as [|c l IH]; intros skip off ix; [done|]. cbn [find_literal List.length].
  destruct skip as [|skip].
  - destruct (is_prefix pat (c :: l)) eqn:E.
    + intros [<-|Hin].
      * exists off. split; [done|]. apply is_prefix_length in E. cbn in E. lia.
      * destruct (IH _ _ _ Hin) as (i & -> & Hi). exists i. split; [done|lia].
    + intros Hin. destruct (IH _ _ _ Hin) as (i & -> & Hi). exists i. split; [done|lia].
  - intros Hin. destruct (IH _ _ _ Hin) as (i & -> & Hi). exists i. split; [done|lia].
Qed.

Lemma is_prefix_split p : forall l, is_prefix p l = true -> exists y, l = p ++ y.
Proof.
  induction p as [|c p IH]; intros l Hp; [by exists l|]. destruct l as [|d l]; [done|]. cbn in Hp. bool_hyps.
  apply IH in H0 as [y ->]. subst. by exists y.
Qed.

Lemma index_app l : forall sub i, index l sub = Some i -> exists x y, l = x ++ sub ++ y.
Proof.
  induction l as [|c l IH]; intros sub i; cbn [index].
  - destruct (is_prefix sub []) eqn:E; [|done]. apply is_prefix_split in E as [y ->]. by exists [], y.
  - destruct (is_prefix sub (c :: l)) eqn:E.
    + apply is_prefix_split in E as [y ->]. by exists [], y.
    + destruct (index l sub) as [j|] eqn:Ei; [|done]. apply IH in Ei as (x & y & ->). by exists (c :: x), y.
Qed.

Lemma markerForgeryRule_ok : regex_ok markerForgeryRule.
Proof.
  intros buf ix Hin. cbn [markerForgeryRule CompileRule Regex] in Hin.
  destruct (find_literal_ok _ _ _ _ _ Hin) as (i & -> & Hi).
  split; [cbn [nth]; lia|]. split; [cbn [nth]; lia|].
  intros [|g] Hg; cbn [List.length] in Hg; [|lia]. cbn [nth Nat.mul Nat.add]. lia.
Qed.

Lemma findMatches_sound_witness :
  spans_from 0 (findMatches [markerForgeryRule] (lit "a[SSHGATE_REDACTED key=00]"))
  /\ List.length (findMatches [markerForgeryRule] (lit "a[SSHGATE_REDACTED key=00]")) = 1.
Proof.
  destruct (findMatches_sound [markerForgeryRule] (lit "a[SSHGATE_REDACTED key=00]"))
    as [H _]; [apply Forall_cons_2; [exact markerForgeryRule_ok|apply Forall_nil_2]|].
  split; [exact H|vm_compute; reflexivity].
Defined.
