(* ===== verification/RegexpProps.v ===== *)
(** * What the matcher finds

    [Matches] is the reference semantics: the spans an expression matches, without
    priorities.  The search finds a match exactly where there is one, the leftmost
    first, and all of them together miss none. *)

From S2P Require Import Prelude Json RedactScanner RedactMatchProps Regexp.
Import Bytes Utf8 Scanner Regexp.
#[local] Open Scope Z_scope.

(** ** The reference semantics *)

Inductive Matches : re -> pos -> caps -> pos -> caps -> Prop :=
  | M_empty p c : Matches Empty p c p c
  | M_class fold neg rs p c x q :
      step p = Some (x, q) -> in_class fold neg rs x = true -> Matches (Class fold neg rs) p c q c
  | M_bol p c : off p = 0 -> Matches Bol p c p c
  | M_word p c : boundary p = true -> Matches WordB p c p c
  | M_cat a b p c q c1 r c2 : Matches a p c q c1 -> Matches b q c1 r c2 -> Matches (Cat a b) p c r c2
  | M_alt_l a b p c q c1 : Matches a p c q c1 -> Matches (Alt a b) p c q c1
  | M_alt_r a b p c q c1 : Matches b p c q c1 -> Matches (Alt a b) p c q c1
  | M_done hi a p c : Matches (Rep 0 hi a) p c p c
  | M_more lo hi a p c q c1 r c2 :
      hi <> Some 0%nat -> Matches a p c q c1 ->
      Matches (Rep (pred lo) (option_map pred hi) a) q c1 r c2 -> Matches (Rep lo hi a) p c r c2
  | M_group n a p c q c1 : Matches a p c q c1 -> Matches (Group n a) p c q ((n, (off p, off q)) :: c1).

#[export] Hint Constructors Matches : go.

(** ** Positions *)

Definition width (x : rune) : Z := Z.of_nat (List.length (rune_bytes x)).

Definition skip1 (p : pos) (x : rune) : pos := mkPos (off p + width x) (Some x) (drop 1 (rest p)).

Definition advance (p : pos) (ws : list rune) : pos := fold_left skip1 ws p.

(** [q] is [p] after the runes [ws]. *)
Definition moves (p : pos) (ws : list rune) (q : pos) : Prop := rest p = ws ++ rest q /\ q = advance p ws.

Lemma moves_nil p : moves p [] p.
Proof. done. Qed.

Lemma advance_app p ws vs : advance p (ws ++ vs) = advance (advance p ws) vs.
Proof. apply fold_left_app. Qed.

Lemma moves_trans p ws q vs r : moves p ws q -> moves q vs r -> moves p (ws ++ vs) r.
Proof.
  intros [H1 ->] [H2 ->]. split; [|by rewrite advance_app]. by rewrite H1, H2, app_assoc.
Qed.

Lemma advance_rest ws : forall p tl, rest p = ws ++ tl -> rest (advance p ws) = tl.
Proof.
  induction ws as [|x ws IH]; intros p tl Hp; [done|]. cbn. apply IH. cbn. by rewrite Hp.
Qed.

Lemma moves_advance p ws tl : rest p = ws ++ tl -> moves p ws (advance p ws).
Proof. intros Hp. split; [|done]. by rewrite (advance_rest ws p tl). Qed.

Lemma step_moves p x q : step p = Some (x, q) -> moves p [x] q.
Proof.
  destruct p as [o pr [|y rs]]; [done|]. cbn. intros [= -> <-]. by split.
Qed.

Lemma bytes_of_app ws vs : bytes_of (ws ++ vs) = bytes_of ws ++ bytes_of vs.
Proof. apply flat_map_app. Qed.

Lemma moves_off p ws q : moves p ws q -> off q = off p + Z.of_nat (List.length (bytes_of ws)).
Proof.
  intros [_ ->]. revert p. induction ws as [|x ws IH]; intros p; [cbn; lia|].
  change (advance p (x :: ws)) with (advance (skip1 p x) ws). rewrite IH.
  cbn [skip1 off bytes_of flat_map]. unfold width. rewrite length_app. fold (bytes_of ws). lia.
Qed.

(** Every rune has a byte. *)
Definition wf_pos (p : pos) : Prop := Forall (fun x => rune_bytes x <> []) (rest p).

Lemma wf_moves p ws q : wf_pos p -> moves p ws q -> wf_pos q.
Proof. unfold wf_pos. intros Hw [Hp _]. rewrite Hp in Hw. by apply Forall_app in Hw as [_ ?]. Qed.

Lemma moves_progress p ws q : wf_pos p -> moves p ws q -> ws <> [] -> off p < off q.
Proof.
  intros Hw Hm Hne. rewrite (moves_off _ _ _ Hm). destruct Hm as [Hp _]. unfold wf_pos in Hw. rewrite Hp in Hw.
  destruct ws as [|x ws]; [done|]. cbn [app] in Hw. apply Forall_cons_1 in Hw as [Hx _].
  cbn. rewrite length_app. destruct (rune_bytes x); [done|]. cbn. lia.
Qed.

Lemma wf_start buf : wf_pos (start_of buf).
Proof.
  unfold wf_pos. cbn. apply (runes_ind (fun _ rs => Forall (fun x => rune_bytes x <> []) rs)); [constructor|].
  intros r rest Hr Hrest. constructor; [|done].
  destruct Hr as [Hv|(c & -> & _)]; [|done]. by destruct r as [|[|]|].
Qed.

(** Two positions after the same one are in order. *)
Lemma moves_total p ws s us t :
  moves p ws s -> moves p us t ->
  (exists k, us = ws ++ k /\ moves s k t) \/ (exists k, ws = us ++ k /\ moves t k s).
Proof.
  intros [Hs ->] [Ht ->]. rewrite Ht in Hs. destruct (app_eq_inv _ _ _ _ Hs) as [(k & -> & E)|(k & -> & E)].
  - left. exists k. split; [done|]. split; [exact E|]. by rewrite advance_app.
  - right. exists k. split; [done|]. split; [exact E|]. by rewrite advance_app.
Qed.

(** What a match consumes. *)
Lemma Matches_moves r p c q c' :
  Matches r p c q c' -> exists ws, moves p ws q /\ (nullable r = false -> ws <> []).
Proof.
  induction 1; cbn [nullable].
  - exists []. by split; [apply moves_nil|].
  - exists [x]. split; [by apply step_moves|done].
  - exists []. by split; [apply moves_nil|].
  - exists []. by split; [apply moves_nil|].
  - destruct IHMatches1 as (ws & H1 & N1), IHMatches2 as (vs & H2 & N2). exists (ws ++ vs).
    split; [by eapply moves_trans|]. intros [Hn|Hn]%andb_false_iff E; apply app_eq_nil in E as [-> ->]; [by apply N1|by apply N2].
  - destruct IHMatches as (ws & H1 & N1). exists ws. split; [done|]. intros [? _]%orb_false_iff. by apply N1.
  - destruct IHMatches as (ws & H1 & N1). exists ws. split; [done|]. intros [_ ?]%orb_false_iff. by apply N1.
  - exists []. by split; [apply moves_nil|].
  - destruct IHMatches1 as (ws & H1' & N1), IHMatches2 as (vs & H2 & N2). exists (ws ++ vs).
    split; [by eapply moves_trans|]. intros [_ Hn]%orb_false_iff E; apply app_eq_nil in E as [-> _]. by apply N1.
  - done.
Qed.

(** ** The search is sound *)

Definition allows (hi : option nat) (fuel : nat) : Prop := match hi with Some h => h = fuel | None => True end.

Lemma loop_sound R (a : re)
    (IH : forall k p c x, search R a k p c = Some x -> exists q c', Matches a p c q c' /\ k q c' = Some x) :
  forall fuel lo hi k p c x, allows hi fuel -> loop R (search R a) fuel lo k p c = Some x ->
    exists q c', Matches (Rep lo hi a) p c q c' /\ k q c' = Some x.
Proof.
  induction fuel as [|fuel IHf]; intros lo hi k p c x Hhi.
  - cbn. destruct lo; [|done]. intros Hk. exists p, c. by split; [constructor|].
  - cbn [loop]. destruct (search R a _ p c) as [y|] eqn:E.
    + intros [= ->]. apply IH in E as (q & c1 & Ha & Hk). destruct (off p <? off q); [|done].
      apply (IHf _ (option_map pred hi)) in Hk as (r & c2 & Hr & Hk); [|by destruct hi as [h|]; [cbn in *; subst h|]].
      exists r, c2. split; [|done]. eapply M_more; [|done|done]. by destruct hi as [h|]; [cbn in Hhi; subst h|].
    + destruct lo; [|done]. intros Hk. exists p, c. by split; [constructor|].
Qed.

Lemma search_sound R r : forall k p c x,
  search R r k p c = Some x -> exists q c', Matches r p c q c' /\ k q c' = Some x.
Proof.
  induction r as [|f n rs| | |a IHa b IHb|a IHa b IHb|lo hi a IHa|n a IHa]; intros k p c x; cbn [search].
  - eauto with go.
  - destruct (step p) as [[y q]|] eqn:E; [|done]. destruct (in_class f n rs y) eqn:Ec; [|done]. eauto with go.
  - destruct (off p =? 0) eqn:E; [|done]. bool_hyps. eauto with go.
  - destruct (boundary p) eqn:E; [|done]. eauto with go.
  - intros (q & c1 & Ha & (r & c2 & Hb & Hk)%IHb)%IHa. eauto with go.
  - destruct (search R a k p c) as [y|] eqn:E.
    + intros [= ->]. apply IHa in E as (q & c1 & ? & ?). eauto with go.
    + intros (q & c1 & ? & ?)%IHb. eauto with go.
  - intros Hl. eapply loop_sound; [exact IHa| |exact Hl]. by destruct hi.
  - intros (q & c1 & Ha & Hk)%IHa. eauto with go.
Qed.

(** ** The search is complete *)

Definition enough (hi : option nat) (p : pos) (fuel : nat) : Prop :=
  match hi with Some h => h = fuel | None => (List.length (rest p) <= fuel)%nat end.

Lemma Rep_inv lo hi a p c r c2 :
  Matches (Rep lo hi a) p c r c2 ->
  (lo = 0%nat /\ r = p /\ c2 = c)
  \/ exists q c1, hi <> Some 0%nat /\ Matches a p c q c1 /\ Matches (Rep (pred lo) (option_map pred hi) a) q c1 r c2.
Proof. inversion 1; subst; [by left|right; eauto]. Qed.

Lemma loop_complete R (a : re) (Hn : nullable a = false)
    (IH : forall p c q c', wf_pos p -> Matches a p c q c' ->
            forall k, k q c' <> None -> search R a k p c <> None) :
  forall fuel lo hi p c q c', enough hi p fuel -> wf_pos p -> Matches (Rep lo hi a) p c q c' ->
    forall k, k q c' <> None -> loop R (search R a) fuel lo k p c <> None.
Proof.
  induction fuel as [|fuel IHf]; intros lo hi p c r c2 He Hw Hm k Hk.
  - apply Rep_inv in Hm as [(-> & -> & ->)|(q & c1 & Hhi & Ha & _)]; [done|]. exfalso.
    destruct hi as [h|]; cbn in He; [congruence|].
    apply Matches_moves in Ha as (ws & [Hr _] & Hne). rewrite Hr, length_app in He.
    destruct ws; [by apply Hne|cbn in He; lia].
  - cbn [loop]. destruct (search R a _ p c) eqn:E; [done|].
    apply Rep_inv in Hm as [(-> & -> & ->)|(q & c1 & Hhi & Ha & Hm)]; [done|]. exfalso. revert E.
    destruct (Matches_moves _ _ _ _ _ Ha) as (ws & Hmv & Hne). specialize (Hne Hn).
    eapply IH; [done|exact Ha|]. pose proof (moves_progress _ _ _ Hw Hmv Hne) as Hlt.
    destruct (off p <? off q) eqn:E; [|lia]. eapply IHf; [|by eapply wf_moves|exact Hm|done].
    destruct hi as [h|]; cbn in *; [by subst h|]. destruct Hmv as [Hr _]. rewrite Hr, length_app in He.
    destruct ws; [done|]. cbn in He. lia.
Qed.

Lemma search_complete R r : forall p c q c', plain r = true -> wf_pos p -> Matches r p c q c' ->
  forall k, k q c' <> None -> search R r k p c <> None.
Proof.
  induction r as [|f n rs| | |a IHa b IHb|a IHa b IHb|lo hi a IHa|n a IHa]; intros p c q c' Hp Hw Hm k Hk;
    cbn [search]; cbn [plain] in Hp.
  - by inversion Hm; subst.
  - inversion Hm as [|? ? ? ? ? x ? Hs Hc| | | | | | | |]; subst. by rewrite Hs, Hc.
  - inversion Hm as [| |? ? Ho| | | | | | |]; subst. by rewrite Ho.
  - inversion Hm as [| | |? ? Ho| | | | | |]; subst. by rewrite Ho.
  - bool_hyps. inversion Hm as [| | | |? ? ? ? q1 c1 ? ? Ha Hb| | | | |]; subst.
    eapply IHa; [done|done|exact Ha|].
    destruct (Matches_moves _ _ _ _ _ Ha) as (ws & Hmv & _). eapply IHb; [done|by eapply wf_moves|exact Hb|done].
  - bool_hyps. destruct (search R a k p c) eqn:E; [done|].
    inversion Hm as [| | | | |? ? ? ? ? ? Ha|? ? ? ? ? ? Hb| | |]; subst; [|by eapply IHb].
    exfalso. by eapply IHa in E.
  - bool_hyps. eapply loop_complete; [done| | |exact Hw|exact Hm|exact Hk].
    + intros p' c1 q' c2 Hw' Ha. by apply IHa.
    + destruct hi; [done|cbn; lia].
  - inversion Hm; subst. by eapply IHa.
Qed.

(** ** The leftmost match *)

Lemma match_at_sound r p q c : match_at r p = Some (q, c) -> Matches r p [] q c.
Proof. intros (q' & c' & Hm & [= -> ->])%search_sound. exact Hm. Qed.

Lemma match_at_none r p q c :
  plain r = true -> wf_pos p -> match_at r p = None -> ~ Matches r p [] q c.
Proof. intros Hp Hw Hn Hm. by eapply search_complete in Hm. Qed.

(** No match begins at any of the runes [ws] after [p]. *)
Definition none_before (r : re) (p : pos) (ws : list rune) : Prop :=
  forall us v vs q c, ws = us ++ v :: vs -> ~ Matches r (advance p us) [] q c.

Lemma none_before_cons r p x ws :
  (forall q c, ~ Matches r p [] q c) -> none_before r (skip1 p x) ws -> none_before r p (x :: ws).
Proof.
  intros H0 Hws [|u us] v vs q c; cbn; [intros _; apply H0|]. intros [= <- ->]. by eapply (Hws us v vs).
Qed.

Lemma find_in_spec r : plain r = true -> forall todo p, wf_pos p -> rest p = todo ->
  match find_in r p todo with
  | Some (s, e, c) => exists ws, moves p ws s /\ Matches r s [] e c /\ none_before r p ws
  | None => forall ws s q c, moves p ws s -> ~ Matches r s [] q c
  end.
Proof.
  intros Hp. induction todo as [|x todo IH]; intros p Hw Hr; cbn [find_in];
    (destruct (match_at r p) as [[q c]|] eqn:E;
       [exists []; split; [apply moves_nil|]; split; [by apply match_at_sound|by intros [|? ?] ? ? ? ?]|]).
  - intros ws s q c [Hs ->]. rewrite Hr in Hs. symmetry in Hs. apply app_eq_nil in Hs as [-> _].
    by apply match_at_none.
  - set (p1 := mkPos _ _ _). assert (moves p [x] p1) as Hm1
      by (split; [by rewrite Hr|unfold p1, advance, skip1; cbn [fold_left]; by rewrite Hr]).
    specialize (IH p1 (wf_moves _ _ _ Hw Hm1) eq_refl).
    assert (p1 = skip1 p x) as Hp1 by apply Hm1.
    destruct (find_in r p1 todo) as [[[s e] c]|].
    + destruct IH as (ws & Hs & Hmt & Hb). exists (x :: ws). split; [by apply (moves_trans p [x] p1)|].
      split; [done|]. apply none_before_cons; [|by rewrite <- Hp1]. intros q c'. by apply match_at_none.
    + intros [|y ws] s q c [Hs ->]; [by apply match_at_none|]. rewrite Hr in Hs.
      cbn [app] in Hs. injection Hs as <- Hs. apply (IH ws). split; [exact Hs|]. by rewrite Hp1.
Qed.

(** The search finds the leftmost match, and none only where there is none. *)
Theorem find_leftmost (r : re) (p : pos) (Hr : plain r = true) (Hp : wf_pos p) :
  match find r p with
  | Some (s, e, c) => exists ws, moves p ws s /\ Matches r s [] e c /\ none_before r p ws
  | None => forall ws s q c, moves p ws s -> ~ Matches r s [] q c
  end.
Proof. by apply find_in_spec. Qed.

(** ** All matches *)

Section All.
Variables (r : re) (n : nat).
Hypotheses (Hplain : plain r = true) (Hnull : nullable r = false).

Lemma Matches_later s q c : wf_pos s -> Matches r s [] q c -> off s < off q.
Proof.
  intros Hw (ws & Hm & Hne)%Matches_moves. eapply moves_progress; [done|exact Hm|]. by apply Hne.
Qed.

Lemma all_matches_step fuel p prevEnd : wf_pos p ->
  all_matches (S fuel) r n p prevEnd
  = match find r p with
    | None => []
    | Some (s, e, c) => index_list n (s, e, c) :: all_matches fuel r n e (off e)
    end.
Proof.
  intros Hw. cbn [all_matches]. pose proof (find_in_spec r Hplain (rest p) p Hw eq_refl) as Hf. fold (find r p) in Hf.
  destruct (find r p) as [[[s e] c]|]; [|done]. destruct Hf as (ws & Hs & Hm & _).
  pose proof (Matches_later _ _ _ (wf_moves _ _ _ Hw Hs) Hm). pose proof (moves_off _ _ _ Hs).
  destruct (off e =? off p) eqn:E; [lia|done].
Qed.

(** What the answers are. *)
Lemma all_matches_sound fuel : forall p prevEnd ix, wf_pos p ->
  In ix (all_matches fuel r n p prevEnd) ->
  exists ws s e c, moves p ws s /\ Matches r s [] e c /\ ix = index_list n (s, e, c).
Proof.
  induction fuel as [|fuel IH]; intros p prevEnd ix Hw; [done|]. rewrite all_matches_step by done.
  pose proof (find_in_spec r Hplain (rest p) p Hw eq_refl) as Hf. fold (find r p) in Hf.
  destruct (find r p) as [[[s e] c]|]; [|done]. destruct Hf as (ws & Hs & Hm & _).
  intros [<-|Hin]; [by exists ws, s, e, c|].
  destruct (Matches_moves _ _ _ _ _ Hm) as (vs & He & _).
  apply IH in Hin as (us & s' & e' & c' & Hs' & Hm' & ->); [|by eapply wf_moves; [eapply wf_moves|]].
  exists ((ws ++ vs) ++ us), s', e', c'. split_and!; [|done|done].
  eapply moves_trans; [by eapply moves_trans|done].
Qed.

(** Nothing that matches is missed: it begins inside an answer. *)
Lemma all_matches_complete fuel : forall p prevEnd ws s q c, wf_pos p -> (List.length (rest p) < fuel)%nat ->
  moves p ws s -> Matches r s [] q c ->
  exists s' e' c', In (index_list n (s', e', c')) (all_matches fuel r n p prevEnd)
    /\ Matches r s' [] e' c' /\ off s' <= off s < off e'.
Proof.
  induction fuel as [|fuel IH]; intros p prevEnd ws s q c Hw Hf Hs Hm; [lia|]. rewrite all_matches_step by done.
  pose proof (find_in_spec r Hplain (rest p) p Hw eq_refl) as Hfind. fold (find r p) in Hfind.
  destruct (find r p) as [[[s' e'] c']|]; [|exfalso; by eapply Hfind].
  destruct Hfind as (us & Hs' & Hm' & Hnone).
  destruct (Matches_moves _ _ _ _ _ Hm') as (vs & He' & Hne). specialize (Hne Hnull).
  pose proof (wf_moves _ _ _ Hw Hs') as Hw'. pose proof (moves_progress _ _ _ Hw' He' Hne).
  destruct (moves_total _ _ _ _ _ Hs' Hs) as [(k & -> & Hk)|([|v k] & -> & Hk)].
  - destruct (moves_total _ _ _ _ _ He' Hk) as [(k' & -> & Hk')|([|x k'] & -> & Hk')].
    + edestruct (IH e' (off e') k' s q c) as (s2 & e2 & c2 & Hi & Hm2 & Ho); [by eapply wf_moves| |done|done|].
      * destruct Hs' as [Hr _], He' as [Hr' _]. rewrite Hr, Hr', !length_app in Hf. destruct vs; [done|cbn in Hf; lia].
      * exists s2, e2, c2. split; [by right|done].
    + destruct Hk' as [_ Hk']. cbn in Hk'. subst e'. rewrite app_nil_r in *.
      edestruct (IH s (off s) [] s q c) as (s2 & e2 & c2 & Hi & Hm2 & Ho); [by eapply wf_moves| |apply moves_nil|done|].
      * destruct Hs' as [Hr _], He' as [Hr' _]. rewrite Hr, Hr', !length_app in Hf. destruct k; [done|cbn in Hf; lia].
      * exists s2, e2, c2. split; [by right|]. by split.
    + exists s', e', c'. split; [by left|]. split; [done|]. pose proof (moves_off _ _ _ Hk).
      enough (off s < off e') by lia. eapply moves_progress; [|exact Hk'|done]. by eapply wf_moves.
  - rewrite app_nil_r in *. destruct Hk as [_ Hk]. cbn in Hk. subst s'. exists s, e', c'. split; [by left|]. split; [done|lia].
  - exfalso. destruct Hs as [_ Hs]. eapply (Hnone ws v k q c eq_refl). by rewrite <- Hs.
Qed.

End All.

(** ** The index lists *)

(** The groups of a match lie in it. *)
Definition inside (i j : Z) (g : nat * (Z * Z)) : Prop := i <= g.2.1 <= g.2.2 /\ g.2.2 <= j.

Lemma Matches_order r p c q c' : Matches r p c q c' -> off p <= off q.
Proof. intros (ws & Hm & _)%Matches_moves. rewrite (moves_off _ _ _ Hm). lia. Qed.

Lemma inside_wider i j i' j' cs : i' <= i -> j <= j' -> Forall (inside i j) cs -> Forall (inside i' j') cs.
Proof. intros Hi Hj Hcs. eapply Forall_impl; [exact Hcs|]. unfold inside. cbn. lia. Qed.

Lemma Matches_caps r p c q c' :
  Matches r p c q c' -> exists cs, c' = cs ++ c /\ Forall (inside (off p) (off q)) cs.
Proof.
  induction 1; try (by exists []).
  - destruct IHMatches1 as (cs & -> & H1), IHMatches2 as (ds & -> & H2). exists (ds ++ cs).
    apply Matches_order in H, H0. split; [by rewrite app_assoc|]. apply Forall_app_2.
    + eapply inside_wider; [| |exact H2]; lia.
    + eapply inside_wider; [| |exact H1]; lia.
  - done.
  - done.
  - destruct IHMatches1 as (cs & -> & H2'), IHMatches2 as (ds & -> & H3). exists (ds ++ cs).
    apply Matches_order in H0, H1. split; [by rewrite app_assoc|]. apply Forall_app_2.
    + eapply inside_wider; [| |exact H3]; lia.
    + eapply inside_wider; [| |exact H2']; lia.
  - destruct IHMatches as (cs & -> & H1). exists ((n, (off p, off q)) :: cs). split; [done|].
    constructor; [|done]. apply Matches_order in H. unfold inside. cbn. lia.
Qed.

Lemma group_span_inside i j cs n :
  0 <= i -> Forall (inside i j) cs ->
  exists a b, group_span cs n = [a; b] /\ (0 <= a -> i <= a <= b /\ b <= j).
Proof.
  intros Hi Hcs. unfold group_span. destruct (List.find _ cs) as [[m [a b]]|] eqn:E.
  - apply List.find_some in E as [Hin _]. rewrite List.Forall_forall in Hcs. apply Hcs in Hin.
    exists a, b. split; [done|]. intros _. exact Hin.
  - exists (-1), (-1). split; [done|lia].
Qed.

Lemma nth_groups c : forall n k g x, (k <= g < k + n)%nat ->
  nth (2 * (g - k)) (flat_map (group_span c) (seq k n)) x = nth 0 (group_span c g) x
  /\ nth (S (2 * (g - k))) (flat_map (group_span c) (seq k n)) x = nth 1 (group_span c g) x.
Proof.
  induction n as [|n IH]; intros k g x Hg; [lia|]. cbn [seq flat_map].
  assert (List.length (group_span c k) = 2)%nat as Hl
    by (unfold group_span; destruct (List.find _ c) as [[? [? ?]]|]; done).
  destruct (decide (g = k)) as [->|Hne].
  - rewrite Nat.sub_diag, !app_nth1 by lia. done.
  - rewrite !app_nth2 by lia. rewrite Hl.
    replace (2 * (g - k) - 2)%nat with (2 * (g - S k))%nat by lia.
    replace (S (2 * (g - k)) - 2)%nat with (S (2 * (g - S k)))%nat by lia. apply IH. lia.
Qed.

Lemma groups_length c ns : List.length (flat_map (group_span c) ns) = (2 * List.length ns)%nat.
Proof.
  induction ns as [|n ns IH]; [done|]. cbn [flat_map]. rewrite length_app, IH.
  unfold group_span. destruct (List.find _ c) as [[? [? ?]]|]; cbn; lia.
Qed.

Lemma start_rest buf : rest (start_of buf) = runes buf.
Proof. done. Qed.

Lemma FindAll_ok r n buf ix :
  plain r = true -> nullable r = false -> In ix (FindAllSubmatchIndex r n buf) ->
  index_ok (List.length buf) ix.
Proof.
  intros Hp Hn Hin. apply all_matches_sound in Hin as (ws & s & e & c & Hs & Hm & ->); [|done|done|apply wf_start].
  pose proof (Matches_order _ _ _ _ _ Hm) as Hse. pose proof (moves_off _ _ _ Hs) as Hso. cbn [off start_of] in Hso.
  destruct (Matches_moves _ _ _ _ _ Hm) as (vs & He & _).
  pose proof (moves_trans _ _ _ _ _ Hs He) as Ht. pose proof (moves_off _ _ _ Ht) as Heo. cbn [off start_of] in Heo.
  apply Matches_caps in Hm as (cs & -> & Hcs). rewrite app_nil_r.
  assert (off e <= Z.of_nat (List.length buf)) as Hlen.
  { rewrite Heo. apply proj1 in Ht. rewrite start_rest in Ht. rewrite <- (bytes_of_runes buf), Ht.
    rewrite (bytes_of_app (ws ++ vs)), length_app. lia. }
  unfold index_ok, index_list. split_and!; [cbn; lia|cbn; lia|cbn; lia|].
  intros g Hg H0. cbn [List.length] in Hg. rewrite groups_length, length_seq in Hg.
  change (nth 0 _ 0) with (off s). change (nth 1 _ 0) with (off e).
  destruct g as [|g]; [cbn; lia|].
  replace (2 * S g)%nat with (S (S (2 * (S g - 1))))%nat in * by lia.
  replace (S (S (2 * (S g - 1))) + 1)%nat with (S (S (S (2 * (S g - 1)))))%nat by lia.
  cbn [nth] in *. destruct (nth_groups cs n 1 (S g) 0) as [H1 H2]; [lia|]. rewrite H1 in *. rewrite H2.
  destruct (group_span_inside (off s) (off e) cs (S g)) as (a & b & Hab & Hle); [lia|done|].
  rewrite Hab in *. cbn [nth] in *. lia.
Qed.
