(* ===== verification/RedactFilterProps.v ===== *)
(** * The patterns of the rules and the keyword filter in front of them

    Every pattern compiles and answers inside the buffer, and sorting keeps the rules.
    [matchesKeyword] skips an expression when none of the rule's keywords is in the
    buffer.  A static analysis of an expression finds strings one of which every
    match contains; checked against the keywords, it shows that the filter loses
    nothing, except on the two letters outside ASCII that fold to k and s.  With
    that, no occurrence of any pattern is missed by a scan. *)

From stdpp Require Import sorting.
From S2P Require Import Prelude Json RedactScanner RedactMatchProps Regexp RegexpProps RedactRules.
Import Bytes Utf8 Scanner Regexp Rules.

(** ** The patterns compile *)

Definition compiles (a : CompileArgs) : bool :=
  match Compile (raw (aPattern a)) with
  | Some (r, n) => plain r && negb (nullable r) && (aSecretGroup a <=? n)
  | None => false
  end.

Lemma all_compile : forallb compiles all_args = true.
Proof. by vm_compute. Qed.

Lemma compiled a : In a all_args ->
  exists r n, Compile (raw (aPattern a)) = Some (r, n) /\ plain r = true /\ nullable r = false
    /\ aSecretGroup a <= n /\ Regex (rule_of a) = FindAllSubmatchIndex r n.
Proof.
  intros Ha. pose proof all_compile as Hc. rewrite forallb_forall in Hc. apply Hc in Ha. unfold compiles in Ha.
  destruct (Compile _) as [[r n]|] eqn:E; [|done]. bool_hyps. exists r, n. split_and!; try done; try lia.
  unfold rule_of, MustCompile. rewrite E. by destruct (aHigh a).
Qed.

Lemma rule_of_ok a : In a all_args -> regex_ok (rule_of a).
Proof.
  intros (r & n & _ & Hp & Hn & _ & Hr)%compiled buf ix. rewrite Hr. by apply FindAll_ok.
Qed.

(** ** The combined set *)

Lemma fold_byID rules : forall (m : gmap string Rule) id r,
  fold_left (fun m r => <[ID r := r]> m) rules m !! id = Some r ->
  (In r rules /\ ID r = id) \/ m !! id = Some r.
Proof.
  induction rules as [|x rules IH]; intros m id r; cbn [fold_left]; [by right|].
  intros [[Hin Hid]|Hm]%IH; [left; split; [by right|done]|].
  apply lookup_insert_Some in Hm as [[<- <-]|[_ Hm]]; [left; by split; [left|]|by right].
Qed.

Lemma SortRules_incl rules r : In r (SortRules rules) -> In r rules.
Proof.
  unfold SortRules. intros Hin. apply list_elem_of_In in Hin. rewrite merge_sort_Permutation in Hin.
  apply list_elem_of_fmap in Hin as ([id r'] & -> & Hin). apply elem_of_map_to_list in Hin.
  apply fold_byID in Hin as [[? _]|Hm]; [done|by rewrite lookup_empty in Hm].
Qed.

Lemma byID_unique rules : forall (m : gmap string Rule) r, NoDup (map ID rules) -> In r rules ->
  fold_left (fun m r => <[ID r := r]> m) rules m !! ID r = Some r.
Proof.
  induction rules as [|x rules IH]; intros m r; [done|]. cbn [map fold_left]. intros Hnd Hin.
  apply NoDup_cons in Hnd as [Hx Hnd]. destruct Hin as [<-|Hin]; [|by apply IH].
  clear IH Hnd. assert (forall m : gmap string Rule, m !! ID x = Some x ->
    fold_left (fun m r => <[ID r := r]> m) rules m !! ID x = Some x) as Hk.
  { induction rules as [|y rules IH]; intros m' Hm; [done|]. cbn [fold_left map] in *.
    rewrite elem_of_cons in Hx. apply IH; [naive_solver|]. rewrite lookup_insert_ne; [done|naive_solver]. }
  apply Hk. apply lookup_insert_eq.
Qed.

Lemma SortRules_complete rules r : NoDup (map ID rules) -> In r rules -> In r (SortRules rules).
Proof.
  intros Hnd Hin. apply list_elem_of_In. unfold SortRules. rewrite merge_sort_Permutation.
  apply list_elem_of_fmap. exists (ID r, r). split; [done|]. apply elem_of_map_to_list. by apply byID_unique.
Qed.

Fixpoint distinct (l : list string) : bool :=
  match l with [] => true | s :: l => negb (existsb (String.eqb s) l) && distinct l end.

Lemma distinct_NoDup l : distinct l = true -> NoDup l.
Proof.
  induction l as [|s l IH]; cbn; intros Hd; [constructor|]. bool_hyps. constructor; [|by apply IH].
  intros Hin%list_elem_of_In. apply not_true_iff_false in H. apply H, existsb_exists. exists s.
  by rewrite String.eqb_refl.
Qed.

Lemma all_ids : NoDup (map ID (map rule_of all_args)).
Proof.
  rewrite map_map, (map_ext _ aID) by (intros a; unfold rule_of; by destruct (aHigh a)).
  apply distinct_NoDup. by vm_compute.
Qed.

Lemma Combined_elem r : In r Combined <-> exists a, In a all_args /\ r = rule_of a.
Proof.
  split.
  - intros (a & <- & Ha)%SortRules_incl%in_map_iff. by exists a.
  - intros (a & Ha & ->). apply SortRules_complete; [exact all_ids|]. by apply in_map.
Qed.

Lemma Combined_ok : Forall regex_ok Combined.
Proof.
  apply List.Forall_forall. intros r Hr.
  apply (proj1 (Combined_elem r)) in Hr as (a & Ha & ->). by apply rule_of_ok.
Qed.

(** ** Runes and bytes *)

(** No U+017F and no U+212A. *)
Definition common (x : rune) : Prop := code_point x <> 383%Z /\ code_point x <> 8490%Z.

Definition lower (l : list ascii) : list ascii := map GoStr.lower_byte l.

Lemma lower_app l k : lower (l ++ k) = lower l ++ lower k.
Proof. apply map_app. Qed.

Lemma land_low x k : (0 <= k)%Z -> Z.land x (2 ^ k - 1) = (x mod 2 ^ k)%Z.
Proof. intros Hk. rewrite <- Z.land_ones by done. by rewrite Z.ones_equiv, <- Z.sub_1_r. Qed.

Lemma in_range_val lo hi c :
  GoStr.in_range lo hi c = (byte_val lo <=? byte_val c)%Z && (byte_val c <=? byte_val hi)%Z.
Proof.
  unfold GoStr.in_range, byte_val.
  apply eq_true_iff_eq. rewrite !andb_true_iff, !N.leb_le, !Z.leb_le. lia.
Qed.

Lemma eqb_byte c d : (c =c d) = (byte_val c =? byte_val d)%Z.
Proof. rewrite eqb_val. unfold byte_val. apply eq_true_iff_eq. rewrite N.eqb_eq, Z.eqb_eq. lia. Qed.

(** The byte tests of UTF-8 as arithmetic. *)
Ltac utf8_arith H :=
  unfold is_rune2, is_rune3, is_rune4, cont in H; rewrite ?in_range_val, ?eqb_byte in H;
  repeat match type of H with
  | context [byte_val (Ascii ?a ?b ?c ?d ?e ?f ?g ?h)] =>
      let v := eval vm_compute in (byte_val (Ascii a b c d e f g h)) in
      change (byte_val (Ascii a b c d e f g h)) with v in H
  end;
  repeat match type of H with context [if ?b then _ else _] => destruct b eqn:? end;
  bool_hyps.

(** Only single bytes have code points below 128. *)
Lemma scanned_ascii x : scanned x -> (code_point x < 128)%Z -> exists c, x = Asc c.
Proof.
  intros [Hv|(c & -> & _)] Hc; [|cbn in Hc; lia].
  destruct x as [c|bs|c]; [by exists c| |done]. exfalso.
  assert (forall x, Z.land x 63 = x mod 64)%Z as L6 by (intros; apply (land_low _ 6); lia).
  assert (forall x, Z.land x 31 = x mod 32)%Z as L5 by (intros; apply (land_low _ 5); lia).
  assert (forall x, Z.land x 15 = x mod 16)%Z as L4 by (intros; apply (land_low _ 4); lia).
  assert (forall x, Z.land x 7 = x mod 8)%Z as L3 by (intros; apply (land_low _ 3); lia).
  destruct bs as [|a [|b [|c [|d [|? ?]]]]]; try done; cbn [valid_rune code_point] in *;
    rewrite ?L6, ?L5, ?L4, ?L3 in Hc; utf8_arith Hv; lia.
Qed.

Definition good (x : rune) : Prop := scanned x /\ common x.

Lemma runes_of_scan buf : Forall scanned (runes buf).
Proof. apply (runes_ind (fun _ rs => Forall scanned rs)); [constructor|]. by constructor. Qed.

Lemma moves_good p ws q : Forall good (rest p) -> moves p ws q -> Forall good ws /\ Forall good (rest q).
Proof. intros Hg [Hr _]. rewrite Hr in Hg. by apply Forall_app in Hg. Qed.

(** ** The analysis *)

(** The bytes of a small class of ASCII characters, lower-cased. *)
Definition expand (rs : list (Z * Z)) : option (list ascii) :=
  if (List.length rs <=? 8) && forallb (fun r => (0 <=? r.1) && (r.2 <? 128) && (r.2 - r.1 <? 8))%Z rs
  then Some (flat_map (fun r => map (fun i => GoStr.lower_byte (byte_of (r.1 + Z.of_nat i)))
                                   (seq 0 (Z.to_nat (r.2 - r.1 + 1)))) rs)
  else None.

Definition prods (x y : list (list ascii)) : list (list ascii) := flat_map (fun s => map (app s) y) x.

(** All that the expression matches, when that is finite and small; lower-cased. *)
Fixpoint exact (r : re) : option (list (list ascii)) :=
  match r with
  | Empty | Bol | WordB => Some [[]]
  | Class _ neg rs => if neg then None else option_map (map (fun c => [c])) (expand rs)
  | Cat a b => match exact a, exact b with Some x, Some y => Some (prods x y) | _, _ => None end
  | Alt a b => match exact a, exact b with Some x, Some y => Some (x ++ y) | _, _ => None end
  | Rep lo (Some 1) a =>
      match exact a with Some x => Some (match lo with 0 => [] :: x | _ => x end) | None => None end
  | Rep _ _ _ => None
  | Group _ a => exact a
  end.

(** Strings one of which begins every match. *)
Fixpoint prefixes (r : re) : list (list ascii) :=
  match exact r with
  | Some ss => ss
  | None =>
      match r with
      | Cat a b => match exact a with Some x => prods x (prefixes b) | None => prefixes a end
      | Alt a b => prefixes a ++ prefixes b
      | Group _ a => prefixes a
      | _ => [[]]
      end
  end.

(** Every match contains one of the keywords. *)
Fixpoint covered (kws : list (list ascii)) (r : re) : bool :=
  forallb (fun s => existsb (contains s) kws) (prefixes r)
  || match r with
     | Cat a b => covered kws a || covered kws b
     | Alt a b => covered kws a && covered kws b
     | Group _ a => covered kws a
     | _ => false
     end.

Lemma lower_flip : forall c, GoStr.is_upper c = true ->
  GoStr.lower_byte (byte_of (byte_val c + 32)) = GoStr.lower_byte c.
Proof. intros [[] [] [] [] [] [] [] []]; vm_compute; done. Qed.

Lemma lower_flop : forall c, GoStr.is_lower c = true ->
  GoStr.lower_byte (byte_of (byte_val c - 32)) = GoStr.lower_byte c.
Proof. intros [[] [] [] [] [] [] [] []]; vm_compute; done. Qed.

Lemma expand_spec rs cs v :
  expand rs = Some cs -> existsb (between v) rs = true ->
  (0 <= v < 128)%Z /\ In (GoStr.lower_byte (byte_of v)) cs.
Proof.
  unfold expand. destruct (_ && _) eqn:E; [|done]. intros [= <-] (r & Hr & Hv)%existsb_exists.
  apply andb_true_iff in E as [_ E]. rewrite forallb_forall in E. apply E in Hr as Hb.
  unfold between in Hv. bool_hyps. split; [lia|]. apply in_flat_map. exists r. split; [done|].
  apply in_map_iff. exists (Z.to_nat (v - r.1)). split; [by do 2 f_equal; lia|]. apply in_seq. lia.
Qed.

Lemma class_expand fold rs cs x :
  expand rs = Some cs -> good x -> in_class fold false rs x = true ->
  exists c, x = Asc c /\ In (GoStr.lower_byte c) cs.
Proof.
  intros He [Hs [Hc1 Hc2]] Hc. unfold in_class in Hc. rewrite xorb_false_l in Hc.
  apply orb_true_iff in Hc as [Hc|[_ (v & Hv & Hin)%existsb_exists]%andb_true_iff].
  - destruct (expand_spec _ _ _ He Hc) as [Hr Hin]. destruct (scanned_ascii x Hs) as [c ->]; [lia|].
    exists c. split; [done|]. cbn in Hin. by rewrite byte_of_val in Hin.
  - destruct (expand_spec _ _ _ He Hin) as [Hr Hl]. unfold folds, between in Hv. cbn [fst snd] in Hv.
    destruct ((65 <=? code_point x) && (code_point x <=? 90))%Z eqn:E1;
      [|destruct ((97 <=? code_point x) && (code_point x <=? 122))%Z eqn:E2].
    + destruct Hv as [<-|[]]. bool_hyps. destruct (scanned_ascii x Hs) as [c ->]; [lia|]. exists c.
      split; [done|]. cbn [code_point] in *. rewrite lower_flip in Hl; [done|].
      unfold GoStr.is_upper. rewrite in_range_val. apply andb_true_iff.
      change (byte_val "A") with 65%Z. change (byte_val "Z") with 90%Z. lia.
    + destruct Hv as [<-|[]]. bool_hyps. destruct (scanned_ascii x Hs) as [c ->]; [lia|]. exists c.
      split; [done|]. cbn [code_point] in *. rewrite lower_flop in Hl; [done|].
      unfold GoStr.is_lower. rewrite in_range_val. apply andb_true_iff.
      change (byte_val "a") with 97%Z. change (byte_val "z") with 122%Z. lia.
    + destruct (code_point x =? 383)%Z eqn:E3; [lia|]. by destruct (code_point x =? 8490)%Z eqn:E4; [lia|].
Qed.

Lemma in_prods x y s t : In s x -> In t y -> In (s ++ t) (prods x y).
Proof. intros Hs Ht. apply in_flat_map. exists s. split; [done|]. by apply in_map. Qed.

Lemma exact_sound r : forall ss p c q c',
  exact r = Some ss -> Forall good (rest p) -> Matches r p c q c' ->
  exists ws, moves p ws q /\ In (lower (bytes_of ws)) ss.
Proof.
  induction r as [|f n rs| | |a IHa b IHb|a IHa b IHb|lo hi a IHa|n a IHa]; intros ss p c q c' He Hg Hm;
    cbn [exact] in He.
  - injection He as <-. inversion Hm; subst. exists []. split; [done|by left].
  - destruct n; [done|]. destruct (expand rs) as [cs|] eqn:Ex; [|done]. injection He as <-.
    inversion Hm as [|? ? ? ? ? x ? Hs Hc| | | | | | | |]; subst. exists [x].
    pose proof (step_moves _ _ _ Hs) as Hmv. split; [done|]. destruct (moves_good _ _ _ Hg Hmv) as [Hx _].
    apply Forall_cons_1 in Hx as [Hx _]. destruct (class_expand _ _ _ _ Ex Hx Hc) as (d & -> & Hd).
    cbn. apply in_map_iff. by exists (GoStr.lower_byte d).
  - injection He as <-. inversion Hm; subst. exists []. split; [done|by left].
  - injection He as <-. inversion Hm; subst. exists []. split; [done|by left].
  - destruct (exact a) as [x|]; [|done]. destruct (exact b) as [y|]; [|done]. injection He as <-.
    inversion Hm as [| | | |? ? ? ? q1 c1 ? ? Ha Hb| | | | |]; subst.
    eapply IHa in Ha as (ws & Hw & Hx); [|done|done]. destruct (moves_good _ _ _ Hg Hw) as [_ Hg'].
    eapply IHb in Hb as (vs & Hv & Hy); [|done|done]. exists (ws ++ vs). split; [by eapply moves_trans|].
    rewrite bytes_of_app, lower_app. by apply in_prods.
  - destruct (exact a) as [x|]; [|done]. destruct (exact b) as [y|]; [|done]. injection He as <-.
    inversion Hm as [| | | | |? ? ? ? ? ? Ha|? ? ? ? ? ? Hb| | |]; subst.
    + eapply IHa in Ha as (ws & Hw & Hx); [|done|done]. exists ws. split; [done|]. apply in_app_iff. by left.
    + eapply IHb in Hb as (ws & Hw & Hx); [|done|done]. exists ws. split; [done|]. apply in_app_iff. by right.
  - destruct hi as [[|[|h]]|]; try done. destruct (exact a) as [x|]; [|done]. injection He as <-.
    apply Rep_inv in Hm as [(-> & -> & ->)|(q1 & c1 & _ & Ha & Hm)]; [exists []; split; [done|by left]|].
    cbn in Hm. apply Rep_inv in Hm as [(_ & -> & ->)|(? & ? & ? & _)]; [|done].
    eapply IHa in Ha as (ws & Hw & Hx); [|done|done]. exists ws. split; [done|]. destruct lo; [by right|done].
  - inversion Hm; subst. by eapply IHa.
Qed.

Lemma prefixes_sound r : forall p c q c',
  Forall good (rest p) -> Matches r p c q c' ->
  exists ws s tl, moves p ws q /\ In s (prefixes r) /\ lower (bytes_of ws) = s ++ tl.
Proof.
  induction r as [|f n rs| | |a IHa b IHb|a IHa b IHb|lo hi a IHa|n a IHa]; intros p c q c' Hg Hm;
    cbn [prefixes];
    match goal with |- context [match ?e with Some ss => ss | None => _ end] => destruct e as [ss|] eqn:Ex end;
    try (eapply exact_sound in Hm as (ws & Hw & Hs); [exists ws, (lower (bytes_of ws)), []; rewrite app_nil_r; by split_and!|done|done]);
    try (destruct (Matches_moves _ _ _ _ _ Hm) as (ws & Hw & _); exists ws, [], (lower (bytes_of ws)); split_and!; [done|by left|done]).
  - inversion Hm as [| | | |? ? ? ? q1 c1 ? ? Ha Hb| | | | |]; subst.
    destruct (exact a) as [x|] eqn:Ea.
    + eapply exact_sound in Ha as (ws & Hw & Hx); [|done|done]. destruct (moves_good _ _ _ Hg Hw) as [_ Hg'].
      apply IHb in Hb as (vs & s & tl & Hv & Hs & Htl); [|done]. exists (ws ++ vs), (lower (bytes_of ws) ++ s), tl.
      split; [by eapply moves_trans|]. split; [by apply in_prods|].
      by rewrite bytes_of_app, lower_app, Htl, app_assoc.
    + apply IHa in Ha as (ws & s & tl & Hw & Hs & Htl); [|done].
      destruct (Matches_moves _ _ _ _ _ Hb) as (vs & Hv & _).
      exists (ws ++ vs), s, (tl ++ lower (bytes_of vs)). split; [by eapply moves_trans|]. split; [done|].
      by rewrite bytes_of_app, lower_app, Htl, app_assoc.
  - inversion Hm as [| | | | |? ? ? ? ? ? Ha|? ? ? ? ? ? Hb| | |]; subst.
    + apply IHa in Ha as (ws & s & tl & Hw & Hs & Htl); [|done]. exists ws, s, tl.
      split_and!; [done|apply in_app_iff; by left|done].
    + apply IHb in Hb as (ws & s & tl & Hw & Hs & Htl); [|done]. exists ws, s, tl.
      split_and!; [done|apply in_app_iff; by right|done].
  - inversion Hm; subst. by eapply IHa.
Qed.

Lemma covered_sound kws r : forall p c q c',
  covered kws r = true -> Forall good (rest p) -> Matches r p c q c' ->
  exists ws kw x y, moves p ws q /\ In kw kws /\ lower (bytes_of ws) = x ++ kw ++ y.
Proof.
  induction r as [|f n rs| | |a IHa b IHb|a IHa b IHb|lo hi a IHa|n a IHa]; intros p c q c' Hc Hg Hm;
    cbn [covered] in Hc; apply orb_true_iff in Hc as [Hc|Hc]; try done;
    try (apply prefixes_sound in Hm as (ws & s & tl & Hw & Hs & Htl); [|done];
         rewrite forallb_forall in Hc; apply Hc in Hs; apply existsb_exists in Hs as (kw & Hkw & Hk);
         unfold contains in Hk; destruct (index s kw) eqn:Ei; [|done];
         apply index_app in Ei as (x & y & ->); exists ws, kw, x, (y ++ tl);
         split_and!; [done|done|by rewrite Htl, <- !app_assoc]).
  - inversion Hm as [| | | |? ? ? ? q1 c1 ? ? Ha Hb| | | | |]; subst.
    destruct (Matches_moves _ _ _ _ _ Ha) as (ws & Hw & _), (Matches_moves _ _ _ _ _ Hb) as (vs & Hv & _).
    destruct (moves_good _ _ _ Hg Hw) as [_ Hg']. apply orb_true_iff in Hc as [Hc|Hc].
    + eapply IHa in Ha as (us & kw & x & y & Hu & Hkw & Hxy); [|done|done].
      exists (us ++ vs), kw, x, (y ++ lower (bytes_of vs)). split_and!; [by eapply moves_trans|done|].
      by rewrite bytes_of_app, lower_app, Hxy, <- !app_assoc.
    + eapply IHb in Hb as (us & kw & x & y & Hu & Hkw & Hxy); [|done|done].
      exists (ws ++ us), kw, (lower (bytes_of ws) ++ x), y. split_and!; [by eapply moves_trans|done|].
      by rewrite bytes_of_app, lower_app, Hxy, <- !app_assoc.
  - apply andb_true_iff in Hc as [H1 H2]. inversion Hm as [| | | | |? ? ? ? ? ? Ha|? ? ? ? ? ? Hb| | |]; subst.
    + by eapply IHa.
    + by eapply IHb.
  - inversion Hm; subst. by eapply IHa.
Qed.

(** ** The filter *)

Lemma fold_prefix_lower kw : forall l y, lower l = kw ++ y -> fold_prefix kw l = true.
Proof.
  induction kw as [|c kw IH]; intros l y Hl; [done|]. destruct l as [|d l]; [done|]. cbn in *.
  injection Hl as -> Hl. rewrite Ascii.eqb_refl. by eapply IH.
Qed.

Lemma indexFold_found kw x y : forall l, lower l = x ++ kw ++ y -> indexFoldASCII l kw <> None.
Proof.
  induction x as [|c x IH]; intros l Hl.
  - cbn [app] in Hl. apply (fold_prefix_lower kw) in Hl. destruct l; cbn [indexFoldASCII]; by rewrite Hl.
  - destruct l as [|d l]; [done|]. cbn in Hl. injection Hl as _ Hl. apply IH in Hl.
    cbn [indexFoldASCII]. destruct (fold_prefix kw (d :: l)); [done|]. by destruct (indexFoldASCII l kw).
Qed.

Definition filter_checks (a : CompileArgs) : bool :=
  match Compile (raw (aPattern a)) with
  | Some (r, _) => covered (Keywords (rule_of a)) r
  | None => false
  end.

Lemma all_filter : forallb filter_checks all_args = true.
Proof. by vm_compute. Qed.

(** Text without U+017F and U+212A. *)
Definition ordinary (buf : list ascii) : Prop := Forall common (runes buf).

Lemma ordinary_good buf : ordinary buf -> Forall good (rest (start_of buf)).
Proof. intros Ho. cbn. apply Forall_and. split; [apply runes_of_scan|exact Ho]. Qed.

Lemma match_has_keyword a r n buf ws s q c :
  In a all_args -> Compile (raw (aPattern a)) = Some (r, n) -> ordinary buf ->
  moves (start_of buf) ws s -> Matches r s [] q c -> matchesKeyword (rule_of a) buf = true.
Proof.
  intros Ha Hr Ho Hs Hm. pose proof all_filter as Hf. rewrite forallb_forall in Hf. apply Hf in Ha.
  unfold filter_checks in Ha. rewrite Hr in Ha. pose proof (ordinary_good _ Ho) as Hg.
  destruct (moves_good _ _ _ Hg Hs) as [_ Hg'].
  destruct (covered_sound _ _ _ _ _ _ Ha Hg' Hm) as (vs & kw & x & y & Hv & Hkw & Hxy).
  unfold matchesKeyword. destruct (Keywords (rule_of a)) as [|k ks]; [done|]. apply existsb_exists.
  exists kw. split; [done|]. pose proof (moves_trans _ _ _ _ _ Hs Hv) as Ht. destruct Ht as [Hb _].
  cbn in Hb. destruct (indexFoldASCII buf kw) eqn:E; [done|]. exfalso. revert E.
  apply (indexFold_found _ (lower (bytes_of ws) ++ x) (y ++ lower (bytes_of (rest q)))).
  rewrite <- (bytes_of_runes buf), Hb, !bytes_of_app, !lower_app, Hxy, <- !app_assoc. done.
Qed.

(** C12: The keyword filter is exact.  On text without the letters U+017F and
    U+212A, a rule of the combined set whose keywords are all absent has no match,
    so the scan with the filter in front finds what the expressions find. *)
Theorem prefilter_exact (r : Rule) (buf : list ascii) (Hr : In r Combined) (Hbuf : ordinary buf) :
  rule_hits buf r = omap (hit r buf) (Regex r buf).
Proof.
  apply (proj1 (Combined_elem r)) in Hr as (a & Ha & ->). unfold rule_hits.
  destruct (compiled a Ha) as (e & n & He & Hp & Hn & _ & Hre). rewrite Hre.
  destruct (matchesKeyword (rule_of a) buf) eqn:Ek; [done|].
  destruct (FindAllSubmatchIndex e n buf) as [|ix ixs] eqn:E; [done|]. exfalso.
  assert (In ix (FindAllSubmatchIndex e n buf)) as Hin by (rewrite E; by left).
  apply all_matches_sound in Hin as (ws & s & q & c & Hs & Hm & _); [|done|done|apply wf_start].
  by rewrite (match_has_keyword a e n buf ws s q c) in Ek.
Qed.

(** ** No occurrence is missed *)

(** C11: A scan of a buffer with the combined set misses nothing its patterns
    describe.  In a text without the letters U+017F and U+212A, wherever a pattern
    matches in the reference semantics, whatever comes before it, an answer of its
    rule includes the place.  The secret of that answer, unless the rule's length
    limits drop it, lies in the span of a kept match, or loses its front to a kept
    match that begins before it and ends inside it; and a kept match's span is
    printed as its marker, the rest of the output not depending on the bytes in it. *)
Theorem secrets_found `{Hmac} (salt : list ascii) (a : CompileArgs) (e : re) (n : nat) (buf : list ascii)
    (ws : list rune) (s q : pos) (c : caps)
    (Ha : In a all_args) (He : Compile (raw (aPattern a)) = Some (e, n)) (Hbuf : ordinary buf)
    (Hs : moves (start_of buf) ws s) (Hm : Matches e s [] q c) :
  exists ix, In ix (Regex (rule_of a) buf) /\ (nth 0 ix 0 <= off s < nth 1 ix 0)%Z
    /\ forall m, hit (rule_of a) buf ix = Some m ->
         exists k, In k (findMatches Combined buf)
           /\ ((Start k <= Start m /\ End_ m <= End_ k)
               \/ (Start k < Start m /\ Start m < End_ k /\ End_ k < End_ m))
           /\ masked salt buf (findMatches Combined buf) k.
Proof.
  destruct (compiled a Ha) as (e' & n' & He' & Hp & Hn & _ & Hre).
  assert (e' = e /\ n' = n) as [-> ->] by (rewrite He in He'; by injection He' as -> ->).
  destruct (all_matches_complete e n Hp Hn (S (List.length (runes buf))) (start_of buf) (-1) ws s q c)
    as (s' & q' & c' & Hin & Hm' & Ho); [apply wf_start|cbn; lia|done|done|].
  exists (index_list n (s', q', c')). rewrite Hre. split; [exact Hin|]. split; [exact Ho|].
  intros m Hh. destruct (findMatches_sound Combined buf Combined_ok) as (Hsp & Hok & Hk).
  enough (buf <> [] /\ In m (raw_matches Combined buf)) as [Hb Hraw].
  { destruct (Hk Hb m Hraw) as (k & Hkin & Hhide). exists k. split; [done|].
    split; [exact Hhide|by apply kept_masked]. }
  split.
  - intros ->. destruct Hs as [Hr _]. cbn in Hr. symmetry in Hr. apply app_eq_nil in Hr as [_ Hr].
    apply Matches_moves in Hm as (vs & [Hv _] & Hne). rewrite Hr in Hv. destruct vs; [by apply Hne|done].
  - unfold raw_matches. apply in_flat_map. exists (rule_of a). split; [apply (proj2 (Combined_elem _)); by exists a|].
    unfold rule_hits. rewrite (match_has_keyword a e n buf ws s q c) by done. rewrite Hre.
    apply list_elem_of_In, list_elem_of_omap. exists (index_list n (s', q', c')). split; [|done].
    by apply list_elem_of_In.
Qed.

Definition hunter : list ascii := lit "export DB_PASSWORD=hunter2".

(** The arguments of the k-th rule, in the order of the source. *)
Definition nth_args (k : nat) : CompileArgs := nth k all_args (mkArgs "" "" [] 0 0 0 false).

Lemma nth_args_in k : (k <? List.length all_args) = true -> In (nth_args k) all_args.
Proof. intros Hk. apply nth_In. lia. Qed.

Lemma ordinary_hunter : ordinary hunter.
Proof. unfold ordinary. vm_compute runes. repeat constructor; by vm_compute. Qed.

Lemma prefilter_exact_witness :
  rule_hits hunter (rule_of (nth_args 10))
  = omap (hit (rule_of (nth_args 10)) hunter) (Regex (rule_of (nth_args 10)) hunter).
Proof.
  apply (prefilter_exact (rule_of (nth_args 10)) hunter); [|exact ordinary_hunter].
  apply (proj2 (Combined_elem _)). exists (nth_args 10). split; [by apply nth_args_in|done].
Defined.

#[local] Instance filter_hmac : Hmac := {| mac salt s := s ++ salt |}.

(** The space before the variable. *)
Lemma secrets_found_witness :
  exists ix, In ix (Regex (rule_of (nth_args 10)) hunter) /\ (nth 0 ix 0 <= 6 < nth 1 ix 0)%Z
    /\ forall m, hit (rule_of (nth_args 10)) hunter ix = Some m ->
         exists k, In k (findMatches Combined hunter)
           /\ ((Start k <= Start m /\ End_ m <= End_ k)
               \/ (Start k < Start m /\ Start m < End_ k /\ End_ k < End_ m))
           /\ masked [] hunter (findMatches Combined hunter) k.
Proof.
  destruct (Compile (raw (aPattern (nth_args 10)))) as [[e n]|] eqn:He; [|vm_compute in He; discriminate].
  set (ws := map Asc (lit "export")). set (s := advance (start_of hunter) ws).
  assert (moves (start_of hunter) ws s) as Hs
    by (apply moves_advance with (tl := map Asc (lit " DB_PASSWORD=hunter2")); reflexivity).
  assert (exists q c, match_at e s = Some (q, c)) as (q & c & Hq).
  { assert (match match_at e s with Some _ => true | None => false end = true) as Hm.
    { pose proof He as Hc. vm_compute in Hc. injection Hc as <- _. by vm_compute. }
    destruct (match_at e s) as [[q c]|]; [by exists q, c|done]. }
  exact (secrets_found [] (nth_args 10) e n hunter ws s q c (nth_args_in 10 eq_refl) He ordinary_hunter Hs
           (match_at_sound e s q c Hq)).
Defined.

(** ** What the patterns do not cover *)

Definition letters (n : nat) : list ascii := repeat "x"%char n.

(** Secrets of more than about a thousand characters are not covered.  Of a
    bearer token of 1100 characters the last 101 go out in the clear behind the
    marker, and a quoted value of 1001 characters goes out whole. *)
Theorem long_secrets_leak `{Hmac} (salt : list ascii) :
  let bearer := lit "Authorization: Bearer " in
  let quoted := lit "API_TOKEN=" ++ DQUOTE :: letters 1001 ++ [DQUOTE] in
  redact salt (bearer ++ letters 1100) (findMatches Combined (bearer ++ letters 1100))
    = bearer ++ FormatMarker salt (letters 999) ++ letters 101
  /\ redact salt quoted (findMatches Combined quoted) = quoted.
Proof.
  intros bearer quoted. split.
  - replace (findMatches Combined (bearer ++ letters 1100))
      with [mkMatch 22 1021 0 "sshgate-auth-bearer" (letters 999)] by (by vm_compute).
    by vm_compute.
  - replace (findMatches Combined quoted) with (@nil match_) by (by vm_compute). by vm_compute.
Qed.

(** Overlapping hits are not merged: the one that begins first is kept, and what
    the other has beyond its end goes out in the clear.  Here a bearer token's hit
    ends at the [!], inside the value of an assignment whose hit begins later. *)
Theorem overlap_leaks `{Hmac} (salt : list ascii) :
  let buf := lit "Authorization: Bearer xxxxxxxx-key=abcd!longsecret" in
  map (fun m => (Start m, End_ m)) (sort_matches (raw_matches Combined buf)) = [(22, 39); (35, 50)]
  /\ redact salt buf (findMatches Combined buf)
     = lit "Authorization: Bearer " ++ FormatMarker salt (lit "xxxxxxxx-key=abcd") ++ lit "!longsecret".
Proof.
  intros buf. split; [by vm_compute|].
  replace (findMatches Combined buf)
    with [mkMatch 22 39 0 "sshgate-auth-bearer" (lit "xxxxxxxx-key=abcd")] by (by vm_compute).
  by vm_compute.
Qed.

(** A quoted key, as in JSON, hides its value from every rule. *)
Lemma json_members_pass : findMatches Combined (raw "{~password~: ~hunter2~, ~api_key~: ~0123456789abcdef~}") = [].
Proof. by vm_compute. Qed.

(** The letter U+212A matches k, but the keyword filter does not see it. *)
Definition kelvin : list ascii := lit "TO" ++ ["226"; "132"; "170"]%char ++ lit "EN=abcd1234".

Lemma kelvin_filtered :
  exists r, In r Combined /\ Regex r kelvin <> [] /\ matchesKeyword r kelvin = false.
Proof.
  exists (rule_of (nth_args 10)). split.
  { apply (proj2 (Combined_elem _)). exists (nth_args 10). split; [by apply nth_args_in|done]. }
  split; by vm_compute.
Qed.
