(* ===== verification/RedactWriter.v ===== *)
(** * The streaming redactor (src/redact/writer.go, src/redact/scrub.go)

    [Writer] as a state, and [Write], [Close] and their helpers as functions of
    it.  The underlying writer is the list of chunks it has been given; it
    accepts every write.  [processBuffer] and [feedPEM] call each other on
    shorter and shorter tails: the fuel is the length of the data, and
    [processBuffer_enough] shows that it never runs out. *)

From S2P Require Import Prelude RedactScanner RedactPem.

Module Writer.
Import Bytes Scanner Pem.

Definition safePrefix : nat := 4 * 1024.
Definition ringMax : nat := 64 * 1024.

(** isSecretDelimiter *)
Definition isSecretDelimiter (b : ascii) : bool :=
  ((b =c SPACE) || (b =c TAB) || (b =c CR) || (b =c NL) || (b =c DQUOTE) || (b =c SQUOTE)
   || (b =c "`") || (b =c ";") || (b =c "&") || (b =c "|") || (b =c "<") || (b =c ">")
   || (b =c "(") || (b =c ")") || (b =c "{") || (b =c "}") || (b =c ","))%char.

(** Writer; [out] is what dst has received, oldest first. *)
Record Writer := mkWriter {
  salt : list ascii;
  rules : list Rule;
  buf : list ascii;
  closed : bool;
  pem : option (list ascii);
  suppressing : bool;
  out : list (list ascii);
  redactCount : N;
  suppressedBytes : N
}.

(** NewWriter *)
Definition NewWriter (sessionSalt : list ascii) (rs : list Rule) : Writer :=
  mkWriter sessionSalt (markerForgeryRule :: rs) [] false None false [] 0 0.

(** Field updates. *)
Definition set_buf (b : list ascii) (w : Writer) : Writer :=
  mkWriter (salt w) (rules w) b (closed w) (pem w) (suppressing w) (out w)
    (redactCount w) (suppressedBytes w).
Definition set_closed (w : Writer) : Writer :=
  mkWriter (salt w) (rules w) (buf w) true (pem w) (suppressing w) (out w)
    (redactCount w) (suppressedBytes w).
Definition set_pem (p : option (list ascii)) (w : Writer) : Writer :=
  mkWriter (salt w) (rules w) (buf w) (closed w) p (suppressing w) (out w)
    (redactCount w) (suppressedBytes w).
Definition set_suppressing (b : bool) (w : Writer) : Writer :=
  mkWriter (salt w) (rules w) (buf w) (closed w) (pem w) b (out w)
    (redactCount w) (suppressedBytes w).
Definition emit (chunk : list ascii) (w : Writer) : Writer :=
  mkWriter (salt w) (rules w) (buf w) (closed w) (pem w) (suppressing w) (out w ++ [chunk])
    (redactCount w) (suppressedBytes w).
Definition count (n : nat) (w : Writer) : Writer :=
  mkWriter (salt w) (rules w) (buf w) (closed w) (pem w) (suppressing w) (out w)
    (redactCount w + N.of_nat n) (suppressedBytes w).
Definition suppressed (n : nat) (w : Writer) : Writer :=
  mkWriter (salt w) (rules w) (buf w) (closed w) (pem w) (suppressing w) (out w)
    (redactCount w) (suppressedBytes w + N.of_nat n).

Section Writer.
Context `{Hmac}.

(** emitWithMatches *)
Definition emitWithMatches (span : list ascii) (ms : list match_) (w : Writer) : Writer :=
  let o := redact (salt w) span ms in
  let w := count (List.length ms) w in
  match o with [] => w | _ => emit o w end.

(** scanAndEmit *)
Definition scanAndEmit (span : list ascii) (w : Writer) : Writer :=
  emitWithMatches span (findMatches (rules w) span) w.

(** A whole span replaced by one marker. *)
Definition emitMarker (secret : list ascii) (w : Writer) : Writer :=
  count 1 (emit (FormatMarker (salt w) secret) w).

(** The match as emitRedactingOverlap keeps it, truncated at the boundary. *)
Definition truncate_match (b : list ascii) (emitUpTo : nat) (m : match_) : match_ :=
  if emitUpTo <? End_ m
  then mkMatch (Start m) emitUpTo (MatchStart m) (RuleID m) (slice b (Start m) emitUpTo)
  else m.

(** emitRedactingOverlap *)
Definition emitRedactingOverlap (emitUpTo : nat) (ms : list match_) (w : Writer) : Writer :=
  emitWithMatches (take emitUpTo (buf w))
    (map (truncate_match (buf w) emitUpTo) (List.filter (fun m => Start m <? emitUpTo) ms)) w.

(** The straddler loop: the retreat of [emitUpTo] to the first straddler. *)
Fixpoint retreat (emitUpTo : nat) (ms : list match_) : nat :=
  match ms with
  | [] => emitUpTo
  | m :: ms => if (Start m <=? emitUpTo) && (emitUpTo <? End_ m) then MatchStart m
               else retreat emitUpTo ms
  end.

(** The earliest anchor of a match that reaches the end of the buffer. *)
Fixpoint tail_match (len : nat) (best : option nat) (ms : list match_) : option nat :=
  match ms with
  | [] => best
  | m :: ms =>
      if negb (End_ m =? len) then tail_match len best ms
      else tail_match len
             (match best with
              | None => Some (MatchStart m)
              | Some b => if MatchStart m <? b then Some (MatchStart m) else Some b
              end) ms
  end.

(** [w.buf[:0] + w.buf[n:]] *)
Definition compact (n : nat) (w : Writer) : Writer := set_buf (drop n (buf w)) w.

(** The ringMax branch of processBuffer. *)
Definition forceFlush (emitUpTo : nat) (ms : list match_) (w : Writer) : Writer :=
  match tail_match (List.length (buf w)) None ms with
  | Some t =>
      let headMatches := List.filter (fun m => End_ m <=? t) ms in
      let w1 := emitWithMatches (take t (buf w)) headMatches w in
      let w2 := emitMarker (drop t (buf w)) w1 in
      set_suppressing true (set_buf [] w2)
  | None =>
      let forced := List.length (buf w) - safePrefix in
      let emitUpTo := if emitUpTo <? forced then forced else emitUpTo in
      compact emitUpTo (emitRedactingOverlap emitUpTo ms w)
  end.

(** processBuffer past the BEGIN test. *)
Definition flushPrefix (flush : bool) (w : Writer) : Writer :=
  let len := List.length (buf w) in
  if negb flush && (len <=? safePrefix) then w
  else
    let emitUpTo := if flush then len else len - safePrefix in
    if emitUpTo =? 0 then w
    else
      let ms := findMatches (rules w) (buf w) in
      let emitUpTo := retreat emitUpTo ms in
      if negb flush && (ringMax <? len) then forceFlush emitUpTo ms w
      else if emitUpTo =? 0 then w
      else
        let emitMatches := List.filter (fun m => End_ m <=? emitUpTo) ms in
        compact emitUpTo (emitWithMatches (take emitUpTo (buf w)) emitMatches w).

(** feedPEM on an accumulator's content; [process] is processBuffer(false). *)
Definition feedPEM (process : Writer -> Writer) (acc chunk : list ascii) (w : Writer) : Writer :=
  let resume tail w :=
    match tail with [] => w | _ => process (set_buf (buf w ++ tail) w) end in
  match feed acc chunk with
  | (_, Complete buffered tail) => resume tail (emitMarker buffered (set_pem None w))
  | (_, Aborted buffered) =>
      let w := set_pem None w in
      if isPrivateKeyBegin buffered then emitMarker buffered w
      else scanAndEmit buffered w
  | (acc', InProgress) => set_pem (Some acc') w
  end.

(** processBuffer *)
Fixpoint processBuffer_fuel (fuel : nat) (flush : bool) (w : Writer) : Writer :=
  match fuel with
  | 0 => w
  | S fuel =>
      match findPEMBegin (buf w) with
      | Some idx =>
          let head := take idx (buf w) in
          let tail := drop idx (buf w) in
          let w1 := match head with [] => w | _ => scanAndEmit head w end in
          feedPEM (processBuffer_fuel fuel false) [] tail (set_buf [] w1)
      | None => flushPrefix flush w
      end
  end.

Definition processBuffer (flush : bool) (w : Writer) : Writer :=
  processBuffer_fuel (S (List.length (buf w))) flush w.

(** The bytes of a chunk that continue a suppressed secret. *)
Fixpoint suppressed_prefix (p : list ascii) : nat :=
  match p with
  | [] => 0
  | c :: p => if isSecretDelimiter c then 0 else S (suppressed_prefix p)
  end.

(** Write past the suppression test. *)
Definition writeBytes (p : list ascii) (w : Writer) : Writer :=
  match pem w with
  | Some acc => feedPEM (processBuffer false) acc p w
  | None => processBuffer false (set_buf (buf w ++ p) w)
  end.

(** Write: [None] is ErrWriterClosed. *)
Definition Write (p : list ascii) (w : Writer) : option Writer :=
  if closed w then None
  else match p with
       | [] => Some w
       | _ =>
           if suppressing w then
             let i := suppressed_prefix p in
             let w := suppressed i w in
             if List.length p <=? i then Some w
             else Some (writeBytes (drop i p) (set_suppressing false w))
           else Some (writeBytes p w)
       end.

(** Close *)
Definition Close (w : Writer) : Writer :=
  if closed w then w
  else
    let w := set_closed w in
    let w :=
      match pem w with
      | None => w
      | Some buffered =>
          let w := set_pem None w in
          match buffered with
          | [] => w
          | _ => if isPrivateKeyBegin buffered then emitMarker buffered w
                 else scanAndEmit buffered w
          end
      end in
    processBuffer true w.

(** Buffered *)
Definition Buffered (w : Writer) : nat :=
  List.length (buf w) + match pem w with Some acc => List.length acc | None => 0 end.

(** A stream of writes. *)
Fixpoint writes (chunks : list (list ascii)) (w : Writer) : option Writer :=
  match chunks with
  | [] => Some w
  | p :: chunks => match Write p w with
                   | Some w => writes chunks w
                   | None => None
                   end
  end.

(** What dst has received. *)
Definition output (w : Writer) : list ascii := List.concat (out w).

(** RedactString; the internal errors it guards against do not occur here. *)
Definition RedactString (s : string) (sessionSalt : list ascii) (rs : list Rule) : string * bool :=
  if (s =s "") || (match rs with [] => true | _ => false end) then (s, true)
  else match Write (lit s) (NewWriter sessionSalt rs) with
       | None => (s, false)
       | Some w => (string_of_list_ascii (output (Close w)), true)
       end.

End Writer.

End Writer.
