(* ===== verification/RedactStreamProps.v ===== *)
(** * What the streaming redactor guarantees

    Whatever the chunking, the bytes that reach dst are the bytes written, in
    order, with disjoint spans replaced by markers keyed on them; the counters
    count exactly the replacements and the dropped bytes; the buffer is bounded
    by [ringMax]; and after [Close] nothing is held back. *)

From S2P Require Import Prelude RedactScanner RedactPem RedactMatchProps RedactWriter.
Import Bytes Scanner Pem Writer.

(** ** Searching *)

Lemma index_none_drop l sub n : index l sub = None -> index (drop n l) sub = None.
Proof.
  revert n. induction l as [|c l IH]; intros [|n] H; try done.
  cbn [index drop] in *. destruct (is_prefix sub (c :: l)); [done|].
  destruct (index l sub) eqn:E; [done|]. by apply IH.
Qed.

Lemma index_some l sub i :
  index l sub = Some i -> i + List.length sub <= List.length l /\ is_prefix sub (drop i l) = true.
Proof.
  revert i. induction l as [|c l IH]; intros i; cbn [index].
  - destruct (is_prefix sub []) eqn:E; [|done]. intros [= <-].
    pose proof (is_prefix_length _ _ E). split; [cbn in *; lia|done].
  - destruct (is_prefix sub (c :: l)) eqn:E.
    + intros [= <-]. pose proof (is_prefix_length _ _ E). split; [lia|done].
    + destruct (index l sub) as [j|]; [|done]. intros [= <-].
      destruct (IH j eq_refl) as [H1 H2]. cbn. split; [lia|done].
Qed.

Lemma findPEMEnd_from_range fuel : forall off l i,
  findPEMEnd_from fuel off l = Some i -> off <= i /\ i < off + List.length l.
Proof.
  induction fuel as [|fuel IH]; intros off l i; [done|]. cbn [findPEMEnd_from].
  destruct (index l pemEndPrefix) as [idx|] eqn:E; [|done].
  apply index_some in E as [E _]. change (List.length pemEndPrefix) with 9 in E.
  destruct (armoured _); [intros [= <-]; lia|].
  destruct (_ <=? _) eqn:El; [done|]. bool_hyps. rewrite length_drop in El.
  intros H%IH. rewrite !length_drop in H. lia.
Qed.

(** The PEM search ends: each round moves past the line it looked at. *)
Lemma pem_line_nonempty l : is_prefix pemEndPrefix l = true -> 0 < line_end l.
Proof.
  destruct l as [|c l]; [done|]. cbn [is_prefix pemEndPrefix lit list_ascii_of_string].
  intros Hp. apply andb_true_iff in Hp as [Hc _]. apply Ascii.eqb_eq in Hc. subst c. cbn. lia.
Qed.

Lemma findPEMEnd_from_enough n : forall m off l,
  List.length l < n -> List.length l < m -> findPEMEnd_from n off l = findPEMEnd_from m off l.
Proof.
  induction n as [|n IH]; intros [|m] off l Hn Hm; try lia. cbn [findPEMEnd_from].
  destruct (index l pemEndPrefix) as [idx|] eqn:E; [|done].
  apply index_some in E as [_ E]. apply pem_line_nonempty in E.
  destruct (armoured _); [done|]. destruct (_ <=? _) eqn:El; [done|]. bool_hyps.
  rewrite length_drop in El. apply IH; rewrite !length_drop; lia.
Qed.

Lemma end_of_block_range buf i :
  i < List.length buf -> 0 < end_of_block buf i <= List.length buf.
Proof.
  intros Hi. unfold end_of_block.
  assert (forall l, line_end l <= List.length l) as Hl.
  { induction l as [|c l IH]; cbn; [done|]. destruct (c =c NL); lia. }
  specialize (Hl (drop i buf)). rewrite length_drop in Hl.
  destruct (_ <? _) eqn:E; bool_hyps; lia.
Qed.

(** Feeding: a completed block is a non-empty prefix of what was accumulated. *)
Lemma feed_complete acc chunk acc' b t :
  feed acc chunk = (acc', Complete b t) -> b ++ t = acc ++ chunk /\ 0 < List.length b.
Proof.
  unfold feed. destruct (findPEMEnd (acc ++ chunk)) as [i|] eqn:E.
  - intros [= _ <- <-]. unfold findPEMEnd in E. apply findPEMEnd_from_range in E as [_ E].
    pose proof (end_of_block_range (acc ++ chunk) i E). rewrite take_drop. split; [done|].
    rewrite length_take. lia.
  - by destruct (_ <=? _).
Qed.

Lemma feed_aborted acc chunk acc' b : feed acc chunk = (acc', Aborted b) -> b = acc ++ chunk.
Proof.
  unfold feed. destruct (findPEMEnd _); [done|]. destruct (_ <=? _); [|done]. by intros [= _ <-].
Qed.

Lemma feed_progress acc chunk acc' :
  feed acc chunk = (acc', InProgress) ->
  acc' = acc ++ chunk /\ List.length acc' < pemMaxBuffer.
Proof.
  unfold feed. destruct (findPEMEnd _); [done|]. destruct (_ <=? _) eqn:E; [done|].
  intros [= <-]. bool_hyps. done.
Qed.

(** The held tail is far below the cap. *)
Lemma safe_ring n : n <= safePrefix -> n <= ringMax.
Proof. unfold safePrefix, ringMax. lia. Qed.

Lemma pem_ring : pemMaxBuffer <= ringMax.
Proof. unfold pemMaxBuffer, ringMax. lia. Qed.

#[local] Opaque ringMax safePrefix pemMaxBuffer.

Section Stream.
Context `{Hmac}.

(** ** The history of a stream

    [consumed] is the part of the input that has been dealt with: the output is
    its pieces' output, and the counters are theirs. *)
Definition history (consumed : list ascii) (w : Writer) : Prop :=
  exists ps, src ps = consumed /\ dst (salt w) ps = output w
    /\ redactCount w = N.of_nat (marks ps) /\ suppressedBytes w = N.of_nat (dropped ps).

Lemma history_pieces consumed w more w' :
  history consumed w ->
  salt w' = salt w ->
  output w' = output w ++ dst (salt w) more ->
  redactCount w' = (redactCount w + N.of_nat (marks more))%N ->
  suppressedBytes w' = (suppressedBytes w + N.of_nat (dropped more))%N ->
  history (consumed ++ src more) w'.
Proof.
  intros (ps & Hs & Hd & Hm & Hn) Hsalt Ho Hc Hb. exists (ps ++ more).
  unfold src, dst, marks, dropped in *. rewrite !flat_map_app, Hs, Hsalt, Ho.
  split; [done|]. split; [by rewrite <- Hd|].
  rewrite List.filter_app, !length_app, Hc, Hb, Hm, Hn. split; lia.
Qed.

(** Two writers that agree on what the history sees. *)
Lemma history_same consumed w w' :
  history consumed w -> salt w' = salt w -> out w' = out w ->
  redactCount w' = redactCount w -> suppressedBytes w' = suppressedBytes w ->
  history consumed w'.
Proof.
  intros (ps & Hs & Hd & Hm & Hn) H1 H2 H3 H4. exists ps. unfold output in *.
  by rewrite H1, H2, H3, H4.
Qed.

Lemma output_emit chunk w : output (emit chunk w) = output w ++ chunk.
Proof. unfold output. cbn. rewrite List.concat_app. cbn. by rewrite app_nil_r. Qed.

Lemma emitMarker_history consumed s w :
  history consumed w -> history (consumed ++ s) (emitMarker s w).
Proof.
  intros Hh. replace s with (src [PMark s]) at 1 by (unfold src; cbn; apply app_nil_r).
  eapply (history_pieces _ w [PMark s]); [exact Hh|done|..].
  - unfold emitMarker, dst. cbn [flat_map piece_dst]. rewrite app_nil_r. apply output_emit.
  - done.
  - cbn. lia.
Qed.

Lemma emitWithMatches_history consumed span ms w :
  spans_from 0 ms -> Forall (span_ok span) ms ->
  history consumed w -> history (consumed ++ span) (emitWithMatches span ms w).
Proof.
  intros Hs Hok Hh. destruct (redact_pieces (salt w) ms 0 span Hs Hok) as (ps & Hsrc & Hdst & Hm & Hd).
  rewrite drop_0 in Hsrc. subst span. eapply (history_pieces _ w ps); [exact Hh|..];
    unfold emitWithMatches; fold (redact (salt w) (src ps) ms) in Hdst.
  - by destruct (redact _ _ _).
  - rewrite Hdst. unfold redact. destruct (redact_from _ _ _ _) as [|c l] eqn:E.
    + by rewrite app_nil_r.
    + rewrite output_emit. done.
  - rewrite Hm. by destruct (redact _ _ _).
  - rewrite Hd. destruct (redact _ _ _); cbn; lia.
Qed.

(** The parts of the state an emission leaves alone. *)
Definition same_control (w w' : Writer) : Prop :=
  salt w' = salt w /\ rules w' = rules w /\ buf w' = buf w /\ closed w' = closed w
  /\ pem w' = pem w /\ suppressing w' = suppressing w.

Lemma emitWithMatches_control span ms w : same_control w (emitWithMatches span ms w).
Proof. unfold emitWithMatches. by destruct (redact _ _ _). Qed.

Lemma scanAndEmit_history consumed span w :
  Forall regex_ok (rules w) -> history consumed w ->
  history (consumed ++ span) (scanAndEmit span w).
Proof.
  intros Hr. apply emitWithMatches_history; [apply findMatches_spans|by apply findMatches_ok].
Qed.

(** ** Flushing *)

Lemma retreat_le e ms b :
  Forall (span_ok b) ms -> e <= List.length b -> retreat e ms <= e.
Proof.
  intros Hok He. induction Hok as [|m ms [Ha Ho Hend _] _ IH]; [done|]. cbn [retreat].
  destruct (_ && _) eqn:E; [|done]. bool_hyps. lia.
Qed.

Lemma tail_match_range b ms : forall best t,
  Forall (span_ok b) ms -> (forall t', best = Some t' -> t' <= List.length b) ->
  tail_match (List.length b) best ms = Some t -> t <= List.length b.
Proof.
  induction ms as [|m ms IH]; intros best t Hok Hb; cbn [tail_match]; [apply Hb|].
  apply Forall_cons in Hok as [[Ha Ho He _] Hok].
  destruct (negb _); [by apply IH|]. apply IH; [done|].
  intros t'. destruct best as [b0|]; [|intros [= <-]; lia].
  specialize (Hb b0 eq_refl). destruct (_ <? _); intros [= <-]; lia.
Qed.

Lemma truncated_spans b e ms : forall n,
  spans_from n ms -> Forall (span_ok b) ms -> e <= List.length b ->
  spans_from n (map (truncate_match b e) (List.filter (fun m => Start m <? e) ms))
  /\ Forall (span_ok (take e b))
       (map (truncate_match b e) (List.filter (fun m => Start m <? e) ms)).
Proof.
  induction ms as [|m ms IH]; intros n Hs Hok He; [done|]. destruct Hs as [Hn Hs].
  apply Forall_cons in Hok as [Hm Hok]. pose proof Hm as [Ha Ho Hend Hsec]. cbn [List.filter].
  destruct (Start m <? e) eqn:E; bool_hyps.
  - destruct (IH (End_ m) Hs Hok He) as [H1 H2]. cbn [map]. unfold truncate_match at 1 3.
    destruct (e <? End_ m) eqn:Et; bool_hyps.
    + split.
      * cbn. split; [done|]. eapply spans_from_le; [|exact H1]. lia.
      * constructor; [|done]. split; cbn [MatchStart Start End_ Secret]; try lia.
        { rewrite length_take. lia. }
        symmetry. by apply slice_take.
    + split; [done|]. constructor; [|done]. by apply span_ok_take.
  - destruct (IH (End_ m) Hs Hok He) as [H1 H2]. split; [|done].
    eapply spans_from_le; [|exact H1]. lia.
Qed.

(** The state between calls, before anything is buffered. *)
Record ready (w : Writer) : Prop := {
  ready_rules : Forall regex_ok (rules w);
  ready_pem : pem w = None;
  ready_supp : suppressing w = false
}.

(** What a flush leaves: the history has consumed a prefix of the buffer, the
    rest is still there and short, and holds no BEGIN. *)
Record flushed (flush : bool) (consumed b : list ascii) (w w' : Writer) : Prop := {
  fl_history : exists n, history (consumed ++ take n b) w' /\ buf w' = drop n b;
  fl_bound : List.length (buf w') <= ringMax;
  fl_all : flush = true -> buf w' = [];
  fl_rules : rules w' = rules w;
  fl_closed : closed w' = closed w;
  fl_pem : pem w' = None;
  fl_supp : suppressing w' = true -> buf w' = []
}.

Lemma compact_flushed flush consumed w w1 n :
  history (consumed ++ take n (buf w)) w1 -> same_control w w1 -> ready w ->
  List.length (buf w) - n <= ringMax -> (flush = true -> List.length (buf w) <= n) ->
  flushed flush consumed (buf w) w (compact n w1).
Proof.
  intros Hh (Hsa & Hru & Hbu & Hcl & Hpe & Hsu) [Hr Hp Hs] Hb Hf.
  assert (buf (compact n w1) = drop n (buf w)) as Hbuf by (cbn; by rewrite Hbu).
  split; rewrite ?Hbuf.
  - exists n. split; [|done]. by eapply history_same; [exact Hh|..].
  - by rewrite length_drop.
  - intros ->. apply drop_ge. auto.
  - done.
  - done.
  - cbn. congruence.
  - cbn. congruence.
Qed.

Lemma forceFlush_flushed e consumed w :
  ready w -> e <= List.length (buf w) -> history consumed w ->
  flushed false consumed (buf w) w (forceFlush e (findMatches (rules w) (buf w)) w).
Proof.
  intros Hw He Hh. pose proof Hw as [Hr Hp Hs].
  pose proof (findMatches_ok (rules w) (buf w) Hr) as Hok.
  pose proof (findMatches_spans (rules w) (buf w)) as Hsp.
  set (ms := findMatches (rules w) (buf w)) in *. unfold forceFlush.
  destruct (tail_match _ None ms) as [t|] eqn:Et.
  - apply (tail_match_range (buf w)) in Et; [|done|done].
    pose proof (emitWithMatches_control (take t (buf w)) (List.filter (fun m => End_ m <=? t) ms) w)
      as (Hsa & Hru & Hbu & Hcl & Hpe & Hsu).
    assert (history (consumed ++ take t (buf w))
      (emitWithMatches (take t (buf w)) (List.filter (fun m => End_ m <=? t) ms) w)) as H1.
    { apply emitWithMatches_history; [by eapply spans_from_filter|by apply Forall_filter_ok|done]. }
    apply (emitMarker_history _ (drop t (buf w))) in H1. rewrite <- app_assoc, take_drop in H1.
    split; cbn [buf rules pem set_suppressing set_buf emitMarker count emit];
      [|apply Nat.le_0_l|done|exact Hru|exact Hcl|by rewrite Hpe|done].
    exists (List.length (buf w)).
    rewrite (take_ge (buf w)), (drop_ge (buf w) (List.length (buf w))) by lia. split; [|done].
    by eapply history_same; [exact H1|..].
  - set (e' := if e <? _ then _ else e).
    assert (e' <= List.length (buf w) /\ List.length (buf w) - safePrefix <= e') as [H1 H2]
      by (unfold e'; destruct (_ <? _) eqn:E; bool_hyps; lia).
    destruct (truncated_spans (buf w) e' ms 0 Hsp Hok H1) as [Hs1 Hs2].
    apply compact_flushed; try done.
    + by apply emitWithMatches_history.
    + apply emitWithMatches_control.
    + apply safe_ring. lia.
Qed.

Lemma flushPrefix_flushed flush consumed w :
  ready w -> history consumed w ->
  flushed flush consumed (buf w) w (flushPrefix flush w).
Proof.
  intros Hw Hh. pose proof Hw as [Hr Hp Hs].
  assert (List.length (buf w) <= ringMax -> (flush = true -> buf w = []) ->
          flushed flush consumed (buf w) w w) as Hid.
  { intros Hlen Hf. split; try done; [|congruence]. exists 0. by rewrite app_nil_r. }
  unfold flushPrefix. destruct (negb flush && _) eqn:E1.
  { bool_hyps. apply Hid; [apply safe_ring; lia|by destruct flush]. }
  set (len := List.length (buf w)) in *.
  set (e0 := if flush then len else len - safePrefix).
  assert (e0 <= len) as He0 by (unfold e0; destruct flush; lia).
  destruct (e0 =? 0) eqn:E2.
  { bool_hyps. apply Hid.
    - unfold e0 in E2. destruct flush; [lia|]. bool_hyps. apply safe_ring. lia.
    - intros ->. unfold e0, len in E2. by destruct (buf w). }
  pose proof (findMatches_ok (rules w) (buf w) Hr) as Hok.
  pose proof (findMatches_spans (rules w) (buf w)) as Hsp.
  pose proof (retreat_le e0 _ (buf w) Hok He0) as Hret.
  destruct (negb flush && (ringMax <? len)) eqn:E3.
  { bool_hyps. destruct flush; [done|]. apply forceFlush_flushed; try done. lia. }
  assert (flush = true -> retreat e0 (findMatches (rules w) (buf w)) = len) as Hfull.
  { intros ->. unfold e0. clear -Hok. induction Hok as [|m ms [_ _ Hend _] _ IH]; [done|].
    cbn [retreat]. destruct (_ && _) eqn:E; [|done]. bool_hyps. lia. }
  assert (flush = false -> len <= ringMax) as Hmax.
  { intros ->. cbn [negb andb] in E3. bool_hyps. done. }
  destruct (retreat e0 (findMatches (rules w) (buf w)) =? 0) eqn:E4; bool_hyps.
  { apply Hid; [destruct flush; [rewrite Hfull in E4 by done; lia|auto]|].
    intros Hf. specialize (Hfull Hf). unfold len in *. destruct (buf w); [done|]. cbn in *. lia. }
  apply compact_flushed; try done.
  - apply emitWithMatches_history; [by eapply spans_from_filter|by apply Forall_filter_ok|done].
  - apply emitWithMatches_control.
  - destruct flush; [rewrite Hfull by done; lia|]. specialize (Hmax eq_refl). lia.
  - intros Hf. rewrite Hfull by done. done.
Qed.

(** ** The invariant of the writer *)

Definition held (w : Writer) : list ascii := buf w ++ default [] (pem w).

Record inv (input : list ascii) (w : Writer) : Prop := {
  inv_rules : Forall regex_ok (rules w);
  inv_history : exists consumed, history consumed w /\ consumed ++ held w = input;
  inv_bound : List.length (buf w) <= ringMax;
  inv_begin : findPEMBegin (buf w) = None;
  inv_pem : forall acc, pem w = Some acc -> buf w = [] /\ List.length acc < pemMaxBuffer;
  inv_supp : suppressing w = true -> buf w = [] /\ pem w = None
}.

Lemma flushed_inv flush consumed w w' :
  Forall regex_ok (rules w) -> findPEMBegin (buf w) = None ->
  flushed flush consumed (buf w) w w' -> inv (consumed ++ buf w) w'.
Proof.
  intros Hr Hb [(n & Hh & Hbuf) Hlen _ Hru _ Hpe Hsu]. split.
  - by rewrite Hru.
  - exists (consumed ++ take n (buf w)). split; [done|]. unfold held.
    rewrite Hpe, Hbuf, <- app_assoc. cbn [default]. by rewrite app_nil_r, take_drop.
  - done.
  - rewrite Hbuf. by apply index_none_drop.
  - rewrite Hpe. by intros.
  - auto.
Qed.

(** A state that holds nothing. *)
Lemma empty_inv input w :
  Forall regex_ok (rules w) -> history input w -> buf w = [] -> pem w = None ->
  suppressing w = false -> inv input w.
Proof.
  intros Hr Hh Hb Hp Hs. split; try done.
  - exists input. split; [done|]. unfold held. by rewrite Hb, Hp, app_nil_r.
  - rewrite Hb. apply Nat.le_0_l.
  - by rewrite Hb.
  - by rewrite Hp.
Qed.

Lemma feedPEM_inv process acc chunk consumed w :
  (forall w1 consumed, List.length (buf w1) < List.length (acc ++ chunk) -> ready w1 ->
     history consumed w1 ->
     inv (consumed ++ buf w1) (process w1) /\ closed (process w1) = closed w1) ->
  Forall regex_ok (rules w) -> suppressing w = false -> buf w = [] -> history consumed w ->
  inv (consumed ++ acc ++ chunk) (feedPEM process acc chunk w)
  /\ closed (feedPEM process acc chunk w) = closed w.
Proof.
  intros Hproc Hr Hs Hb Hh. unfold feedPEM. destruct (feed acc chunk) as [acc' [b t|b|]] eqn:Ef.
  - apply feed_complete in Ef as [E Hlen]. rewrite <- E in *.
    assert (history (consumed ++ b) (emitMarker b (set_pem None w))) as H1
      by (apply emitMarker_history; by eapply history_same).
    rewrite app_assoc. destruct t as [|c t].
    + rewrite app_nil_r. split; [by apply empty_inv|done].
    + destruct (Hproc (set_buf (buf w ++ c :: t) (emitMarker b (set_pem None w)))
                  (consumed ++ b)) as [Hi Hc].
      * change (buf (set_buf (buf w ++ c :: t) (emitMarker b (set_pem None w))))
          with (buf w ++ c :: t). rewrite Hb. cbn [app]. rewrite length_app. lia.
      * by split.
      * by eapply history_same.
      * split; [|exact Hc].
        change (buf (set_buf (buf w ++ c :: t) (emitMarker b (set_pem None w))))
          with (buf w ++ c :: t) in Hi.
        change (buf (emitMarker b (set_pem None w))) with (buf w).
        rewrite Hb in *. exact Hi.
  - apply feed_aborted in Ef as ->. destruct (isPrivateKeyBegin _).
    + split; [|done]. apply empty_inv; try done. apply emitMarker_history. by eapply history_same.
    + pose proof (emitWithMatches_control (acc ++ chunk)
        (findMatches (rules (set_pem None w)) (acc ++ chunk)) (set_pem None w))
        as (Hsa & Hru & Hbu & Hcl & Hpe & Hsu).
      split; [|exact Hcl]. apply empty_inv.
      * unfold scanAndEmit. by rewrite Hru.
      * apply scanAndEmit_history; [done|]. by eapply history_same.
      * unfold scanAndEmit. by rewrite Hbu.
      * unfold scanAndEmit. by rewrite Hpe.
      * unfold scanAndEmit. by rewrite Hsu.
  - apply feed_progress in Ef as [-> Hlen]. split; [|done]. split.
    + done.
    + exists consumed. split; [by eapply history_same|]. unfold held.
      cbn [buf pem set_pem]. by rewrite Hb.
    + cbn [buf set_pem]. rewrite Hb. apply Nat.le_0_l.
    + cbn [buf set_pem]. by rewrite Hb.
    + cbn [pem set_pem buf]. by intros ? [= <-].
    + cbn [suppressing set_pem]. by rewrite Hs.
Qed.

Lemma processBuffer_inv fuel : forall flush consumed w,
  List.length (buf w) < fuel -> ready w -> history consumed w ->
  inv (consumed ++ buf w) (processBuffer_fuel fuel flush w)
  /\ closed (processBuffer_fuel fuel flush w) = closed w.
Proof.
  induction fuel as [|fuel IH]; intros flush consumed w Hf Hw Hh; [lia|].
  pose proof Hw as [Hr Hp Hs]. cbn [processBuffer_fuel].
  destruct (findPEMBegin (buf w)) as [idx|] eqn:Eb.
  - set (w1 := match take idx (buf w) with [] => w | _ => scanAndEmit (take idx (buf w)) w end).
    assert (history (consumed ++ take idx (buf w)) w1 /\ same_control w w1)
      as [H1 (Hsa & Hru & Hbu & Hcl & Hpe & Hsu)].
    { unfold w1. destruct (take idx (buf w)) as [|c l] eqn:Et.
      - rewrite app_nil_r. done.
      - split; [by apply scanAndEmit_history|apply emitWithMatches_control]. }
    destruct (feedPEM_inv (processBuffer_fuel fuel false) [] (drop idx (buf w))
                (consumed ++ take idx (buf w)) (set_buf [] w1)) as [Hi Hc].
    + intros w2 c2 Hlen. apply IH. cbn [app] in Hlen. rewrite length_drop in Hlen. lia.
    + cbn [rules set_buf]. by rewrite Hru.
    + cbn [suppressing set_buf]. by rewrite Hsu.
    + done.
    + by eapply history_same.
    + split; [|by rewrite Hc]. revert Hi. cbn [app]. by rewrite <- app_assoc, take_drop.
  - pose proof (flushPrefix_flushed flush consumed w Hw Hh) as Hfl.
    split; [by apply flushed_inv with flush|apply Hfl].
Qed.

Lemma writeBytes_inv input p w :
  inv input w -> suppressing w = false ->
  inv (input ++ p) (writeBytes p w) /\ closed (writeBytes p w) = closed w.
Proof.
  intros [Hr (consumed & Hh & <-) Hlen Hb Hpem _] Hs. unfold writeBytes, held.
  destruct (pem w) as [acc|] eqn:Ep; cbn [default].
  - destruct (Hpem acc eq_refl) as [Hbuf _]. rewrite Hbuf. cbn [app]. rewrite <- app_assoc.
    apply feedPEM_inv; try done. intros w1 c1 _. apply processBuffer_inv. lia.
  - rewrite app_nil_r, <- app_assoc. 
    apply (processBuffer_inv (S (List.length (buf w ++ p))) false consumed (set_buf (buf w ++ p) w));
      [cbn; lia|by split|by eapply history_same].
Qed.

Lemma Write_inv input p w :
  inv input w -> closed w = false ->
  exists w', Write p w = Some w' /\ inv (input ++ p) w' /\ closed w' = false.
Proof.
  intros Hi Hc. unfold Write. rewrite Hc. destruct p as [|c p]; [rewrite app_nil_r; eauto|].
  set (q := c :: p). destruct (suppressing w) eqn:Es.
  - pose proof Hi as [Hr (consumed & Hh & <-) Hlen Hb Hpem Hsupp].
    destruct (Hsupp Es) as [Hbuf Hp]. set (i := suppressed_prefix q).
    assert (history (consumed ++ take i q) (suppressed i w)) as Hh'.
    { replace (take i q) with (src [PDrop (take i q)]) by (unfold src; cbn; apply app_nil_r).
      apply (history_pieces consumed w [PDrop (take i q)]); try done.
      - unfold output. cbn. by rewrite app_nil_r.
      - cbn. lia.
      - cbn [suppressedBytes suppressed]. unfold dropped. cbn [flat_map]. rewrite app_nil_r, length_take.
        assert (i <= List.length q) as Hle; [|lia]. unfold i. clear.
        induction q as [|x q IH]; cbn; [done|]. destruct (isSecretDelimiter x); lia. }
    unfold held. rewrite Hbuf, Hp. cbn [app default]. rewrite app_nil_r.
    destruct (_ <=? i) eqn:Ei; bool_hyps.
    + eexists. split; [done|]. split; [|done]. rewrite take_ge in Hh' by done.
      split; cbn [rules buf pem suppressing suppressed]; try done.
      exists (consumed ++ q). split; [done|]. unfold held. cbn [buf pem suppressed].
      by rewrite Hbuf, Hp, app_nil_r.
    + destruct (writeBytes_inv (consumed ++ take i q) (drop i q)
                  (set_suppressing false (suppressed i w))) as [H1 H2].
      * by apply empty_inv.
      * done.
      * rewrite <- app_assoc, take_drop in H1. eexists. split; [done|]. split; [done|]. by rewrite H2.
  - destruct (writeBytes_inv input q w Hi Es) as [H1 H2]. eexists. split; [done|].
    split; [done|]. congruence.
Qed.

Lemma writes_inv chunks : forall input w,
  inv input w -> closed w = false ->
  exists w', writes chunks w = Some w' /\ inv (input ++ List.concat chunks) w' /\ closed w' = false.
Proof.
  induction chunks as [|p chunks IH]; intros input w Hi Hc; cbn.
  - rewrite app_nil_r. eauto.
  - destruct (Write_inv input p w Hi Hc) as (w1 & -> & Hi1 & Hc1).
    rewrite app_assoc. by apply IH.
Qed.

Lemma NewWriter_inv sessionSalt rs : Forall regex_ok rs -> inv [] (NewWriter sessionSalt rs).
Proof.
  intros Hr. apply empty_inv; try done.
  - cbn [rules NewWriter]. constructor; [apply markerForgeryRule_ok|done].
  - by exists [].
Qed.

Lemma Close_flushes input w :
  inv input w -> closed w = false ->
  history input (Close w) /\ held (Close w) = [] /\ closed (Close w) = true.
Proof.
  intros [Hr (consumed & Hh & <-) Hlen Hb Hpem Hsupp] Hc. unfold Close. rewrite Hc.
  set (w1 := match pem (set_closed w) with None => _ | Some _ => _ end).
  assert (history (consumed ++ default [] (pem w)) w1 /\ rules w1 = rules w /\ buf w1 = buf w
          /\ pem w1 = None /\ suppressing w1 = suppressing w /\ closed w1 = true)
    as (H1 & Hru & Hbu & Hpe & Hsu & Hcl).
  { unfold w1. cbn [pem set_closed]. destruct (pem w) as [acc|] eqn:Ep; cbn [default].
    - destruct acc as [|c acc].
      + rewrite app_nil_r. split; [by eapply history_same|done].
      + set (b := c :: acc). destruct (isPrivateKeyBegin b).
        * split; [|done]. apply emitMarker_history. by eapply history_same.
        * pose proof (emitWithMatches_control b (findMatches (rules w) b)
                        (set_pem None (set_closed w))) as (_ & Hru & Hbu & Hcl & Hpe & Hsu).
          split; [apply scanAndEmit_history; [done|by eapply history_same]|].
          unfold scanAndEmit. cbn [rules set_pem set_closed] in *. by rewrite Hru, Hbu, Hpe, Hsu, Hcl.
    - rewrite app_nil_r. split; [by eapply history_same|done]. }
  unfold processBuffer. cbn [processBuffer_fuel]. rewrite Hbu, Hb.
  assert (buf w = [] \/ (pem w = None /\ suppressing w = false)) as Hcase.
  { destruct (pem w) as [acc|] eqn:Ep; [left; by destruct (Hpem acc eq_refl)|].
    destruct (suppressing w); [left; by destruct (Hsupp eq_refl)|by right]. }
  destruct Hcase as [Hnil|[Hpn Hsn]].
  - assert (flushPrefix true w1 = w1) as ->.
    { unfold flushPrefix. rewrite Hbu, Hnil. done. }
    unfold held. rewrite Hbu, Hpe, Hnil. cbn [app default]. done.
  - assert (ready w1) as Hw1 by (split; congruence).
    rewrite Hpn in H1. cbn [default] in H1. rewrite app_nil_r in H1.
    destruct (flushPrefix_flushed true consumed w1 Hw1 H1) as [(n & Hh' & Hbuf) _ Hall _ Hcl' Hp' _].
    specialize (Hall eq_refl). unfold held. rewrite Hpn, Hp', Hall. cbn [app default].
    split; [|split; [done|congruence]]. rewrite Hbu, Hall in *. rewrite app_nil_r.
    symmetry in Hbuf. rewrite <- (take_drop n (buf w)), Hbuf, app_nil_r. done.
Qed.

(** ** The fuel of processBuffer *)

Lemma feedPEM_ext f g acc chunk w :
  buf w = [] ->
  (forall v, List.length (buf v) < List.length (acc ++ chunk) -> f v = g v) ->
  feedPEM f acc chunk w = feedPEM g acc chunk w.
Proof.
  intros Hb Hfg. unfold feedPEM. destruct (feed acc chunk) as [acc' [b t|b|]] eqn:Ef; [|done|done].
  apply feed_complete in Ef as [E Hlen]. destruct t as [|c t]; [done|]. apply Hfg.
  change (List.length (buf w ++ c :: t) < List.length (acc ++ chunk)).
  rewrite Hb, <- E, !length_app. cbn. lia.
Qed.

(** Each call of processBuffer and feedPEM works on a shorter tail, so the length
    of the buffer is fuel enough. *)
Lemma processBuffer_enough n : forall m flush w,
  List.length (buf w) < n -> List.length (buf w) < m ->
  processBuffer_fuel n flush w = processBuffer_fuel m flush w.
Proof.
  induction n as [|n IH]; intros [|m] flush w Hn Hm; try lia. cbn [processBuffer_fuel].
  destruct (findPEMBegin (buf w)) as [idx|]; [|done].
  apply feedPEM_ext; [done|]. cbn [app]. rewrite length_drop. intros v Hv. apply IH; lia.
Qed.

(** ** The salt of a stream *)

Lemma emitWithMatches_salt span ms w : salt (emitWithMatches span ms w) = salt w.
Proof. apply emitWithMatches_control. Qed.

Lemma scanAndEmit_salt span w : salt (scanAndEmit span w) = salt w.
Proof. apply emitWithMatches_salt. Qed.

Lemma flushPrefix_salt flush w : salt (flushPrefix flush w) = salt w.
Proof.
  unfold flushPrefix. destruct (negb flush && _); [done|]. destruct (_ =? 0); [done|].
  cbv zeta. destruct (negb flush && _).
  - unfold forceFlush. destruct (tail_match _ _ _); apply emitWithMatches_salt.
  - destruct (_ =? 0); [done|]. apply emitWithMatches_salt.
Qed.

Lemma feedPEM_salt process acc chunk w :
  (forall w, salt (process w) = salt w) -> salt (feedPEM process acc chunk w) = salt w.
Proof.
  intros Hp. unfold feedPEM. destruct (feed acc chunk) as [acc' [b t|b|]]; [| |done].
  - destruct t; [done|]. by rewrite Hp.
  - destruct (isPrivateKeyBegin b); [done|]. by rewrite scanAndEmit_salt.
Qed.

Lemma processBuffer_salt fuel : forall flush w, salt (processBuffer_fuel fuel flush w) = salt w.
Proof.
  induction fuel as [|fuel IH]; intros flush w; cbn [processBuffer_fuel]; [done|].
  destruct (findPEMBegin _); [|apply flushPrefix_salt].
  rewrite feedPEM_salt by (intros; apply IH). cbn [salt set_buf].
  destruct (take _ _); [done|apply scanAndEmit_salt].
Qed.

Lemma Write_salt p w w' : Write p w = Some w' -> salt w' = salt w.
Proof.
  assert (forall p w, salt (writeBytes p w) = salt w) as Hb.
  { intros q v. unfold writeBytes, processBuffer. destruct (pem v).
    - by rewrite feedPEM_salt by (intros; apply processBuffer_salt).
    - by rewrite processBuffer_salt. }
  unfold Write. destruct (closed w); [done|]. destruct p as [|c p]; [by intros [= <-]|].
  destruct (suppressing w).
  - destruct (_ <=? _); intros [= <-]; [done|]. by rewrite Hb.
  - intros [= <-]. apply Hb.
Qed.

Lemma writes_salt chunks : forall w w', writes chunks w = Some w' -> salt w' = salt w.
Proof.
  induction chunks as [|p chunks IH]; intros w w'; cbn; [by intros [= ->]|].
  destruct (Write p w) as [w1|] eqn:E; [|done]. intros H1%IH. apply Write_salt in E. congruence.
Qed.

Lemma Close_salt w : salt (Close w) = salt w.
Proof.
  unfold Close, processBuffer. destruct (closed w); [done|]. rewrite processBuffer_salt.
  cbn [pem set_closed]. destruct (pem w) as [[|c b]|]; [done| |done].
  destruct (isPrivateKeyBegin _); [done|]. by rewrite scanAndEmit_salt.
Qed.

(** Any stream goes through: what Close leaves. *)
Lemma stream_pieces sessionSalt rs chunks :
  Forall regex_ok rs ->
  exists w ps, writes chunks (NewWriter sessionSalt rs) = Some w
    /\ List.concat chunks = src ps
    /\ output (Close w) = dst sessionSalt ps
    /\ redactCount (Close w) = N.of_nat (marks ps)
    /\ suppressedBytes (Close w) = N.of_nat (dropped ps)
    /\ held (Close w) = [].
Proof.
  intros Hrs. destruct (writes_inv chunks [] (NewWriter sessionSalt rs)) as (w & Hw & Hi & Hc);
    [by apply NewWriter_inv|done|].
  destruct (Close_flushes _ _ Hi Hc) as ((ps & Hs & Hd & Hm & Hn) & Hh & _).
  exists w, ps. rewrite Close_salt, (writes_salt _ _ _ Hw) in Hd. split; [done|]. by rewrite <- Hd.
Qed.

(** C10: The streaming redactor is a substitution: for any ruleset and however
    the stream is cut into writes, every write succeeds, and after Close the
    output is the input with disjoint spans, in order, replaced by the marker
    of exactly the bytes they cover, neutralised, or dropped: nothing is
    reordered, repeated or lost; the redaction counter is the number of
    replacements and the suppression counter the number of dropped bytes. *)
Theorem redactor_substitutes (sessionSalt : list ascii) (rs : list Rule)
    (chunks : list (list ascii)) (Hrs : Forall regex_ok rs) :
  exists w ps, writes chunks (NewWriter sessionSalt rs) = Some w
    /\ List.concat chunks = src ps
    /\ output (Close w) = dst sessionSalt ps
    /\ redactCount (Close w) = N.of_nat (marks ps)
    /\ suppressedBytes (Close w) = N.of_nat (dropped ps)
    /\ held (Close w) = [].
Proof. by apply stream_pieces. Qed.

(** ** Streams without secrets *)

Definition infix (b total : list ascii) : Prop := exists x y, total = x ++ b ++ y.

Lemma index_none_infix b total sub : infix b total -> index total sub = None -> index b sub = None.
Proof.
  intros (x & y & ->) Hn. apply (index_none_drop _ _ (List.length x)) in Hn.
  rewrite drop_app_length in Hn. clear x. induction b as [|c b IH].
  - cbn [app] in Hn. cbn [index]. destruct sub; [|done]. by destruct y.
  - cbn [app index] in *. destruct (is_prefix sub (c :: b ++ y)) eqn:E; [done|].
    destruct (is_prefix sub (c :: b)) eqn:E2.
    { by apply (is_prefix_app _ _ y) in E2; cbn [app] in E2; rewrite E2 in E. }
    destruct (index (b ++ y) sub); [done|]. by rewrite IH.
Qed.

Lemma flushPrefix_closed flush w : closed (flushPrefix flush w) = closed w.
Proof.
  unfold flushPrefix, forceFlush, emitRedactingOverlap, emitWithMatches.
  repeat case_match; done.
Qed.

(** What has been emitted and what is buffered are the input so far. *)
Record quiet (input : list ascii) (w : Writer) : Prop := {
  qt_bytes : output w ++ buf w = input;
  qt_pem : pem w = None;
  qt_supp : suppressing w = false
}.

Lemma flushPrefix_quiet flush input w :
  findMatches (rules w) (buf w) = [] -> quiet input w ->
  quiet input (flushPrefix flush w) /\ (flush = true -> buf (flushPrefix flush w) = [])
  /\ rules (flushPrefix flush w) = rules w.
Proof.
  intros Hm [Hb Hp Hs]. unfold flushPrefix. destruct (negb flush && _) eqn:E1.
  { bool_hyps. destruct flush; done. }
  assert (forall n, quiet input (compact n (emitWithMatches (take n (buf w)) [] w))
            /\ buf (compact n (emitWithMatches (take n (buf w)) [] w)) = drop n (buf w)
            /\ rules (compact n (emitWithMatches (take n (buf w)) [] w)) = rules w) as Hq.
  { intros n. unfold emitWithMatches, redact. cbn [redact_from]. rewrite drop_0.
    assert (quiet input (compact n (emit (take n (buf w)) (count 0 w)))) as Hq.
    { split; try done. unfold compact. cbn [buf set_buf emit count].
      change (output (set_buf ?b ?x)) with (output x). rewrite output_emit, <- app_assoc, take_drop.
      exact Hb. }
    destruct (take n (buf w)) as [|c l] eqn:Et; [|done].
    split; [|done]. split; try done. cbn [buf compact set_buf count].
    change (output (compact n (count 0 w))) with (output w).
    rewrite <- Hb. f_equal. rewrite <- (take_drop n (buf w)) at 2. by rewrite Et. }
  rewrite Hm. cbn [retreat]. set (len := List.length (buf w)).
  set (e := if flush then len else len - safePrefix).
  destruct (e =? 0) eqn:E2.
  { bool_hyps. split; [done|]. split; [|done]. intros ->. unfold e, len in *. by destruct (buf w). }
  destruct (negb flush && (ringMax <? len)) eqn:E3.
  - bool_hyps. destruct flush; [done|]. unfold forceFlush. cbn [tail_match].
    fold len. assert ((if e <? len - safePrefix then len - safePrefix else e) = len - safePrefix) as ->
      by (unfold e; by destruct (_ <? _)).
    unfold emitRedactingOverlap. cbn [List.filter map].
    destruct (Hq (len - safePrefix)) as (Hq1 & _ & Hq3). done.
  - cbn [List.filter]. destruct (Hq e) as (Hq1 & Hq2 & Hq3). split; [done|]. split; [|done].
    intros ->. rewrite Hq2. unfold e. by apply drop_ge.
Qed.

Lemma writes_quiet total rs :
  (forall b, infix b total -> findMatches rs b = []) -> index total pemBegin = None ->
  forall chunks past rest w,
    past ++ List.concat chunks ++ rest = total -> quiet past w -> rules w = rs -> closed w = false ->
    exists w', writes chunks w = Some w' /\ quiet (past ++ List.concat chunks) w'
               /\ rules w' = rs /\ closed w' = false.
Proof.
  intros Hq Hpem chunks. induction chunks as [|p chunks IH]; intros past rest w Ht Hw Hr Hc.
  - cbn. rewrite app_nil_r. eauto.
  - cbn [List.concat writes] in *. rewrite <- app_assoc in Ht.
    assert (exists w1, Write p w = Some w1 /\ quiet (past ++ p) w1 /\ rules w1 = rs
                       /\ closed w1 = false) as (w1 & Hw1 & Hq1 & Hr1 & Hc1).
    { unfold Write. rewrite Hc. destruct p as [|c p]; [rewrite app_nil_r; eauto|].
      destruct Hw as [Hb Hp Hs]. rewrite Hs. set (q := c :: p) in *. eexists. split; [done|].
      unfold writeBytes. rewrite Hp. unfold processBuffer. cbn [processBuffer_fuel].
      assert (infix (buf w ++ q) total) as Hinf.
      { exists (output w), (List.concat chunks ++ rest). rewrite <- Ht, <- Hb.
        by rewrite <- !app_assoc. }
      set (w0 := set_buf (buf w ++ q) w). change (buf w0) with (buf w ++ q).
      unfold findPEMBegin. rewrite (index_none_infix _ _ _ Hinf Hpem).
      destruct (flushPrefix_quiet false (past ++ q) w0) as (H1 & _ & H3).
      - change (findMatches (rules w) (buf w ++ q) = []). rewrite Hr. by apply Hq.
      - split; try done. change (output w0) with (output w).
        change (buf w0) with (buf w ++ q). by rewrite app_assoc, Hb.
      - split; [done|]. split; [by rewrite H3|]. by rewrite flushPrefix_closed. }
    rewrite Hw1, app_assoc. eapply (IH _ rest); try done. by rewrite <- app_assoc.
Qed.

(** A stream without secrets passes through unchanged: when no rule matches
    any part of it and it has no PEM header, the output is the input, however
    it is cut into writes. *)
Theorem redactor_transparent (sessionSalt : list ascii) (rs : list Rule)
    (chunks : list (list ascii))
    (Hquiet : forall b, infix b (List.concat chunks) -> findMatches (markerForgeryRule :: rs) b = [])
    (Hpem : index (List.concat chunks) pemBegin = None) :
  exists w, writes chunks (NewWriter sessionSalt rs) = Some w
    /\ output (Close w) = List.concat chunks.
Proof.
  set (total := List.concat chunks) in *.
  destruct (writes_quiet total (markerForgeryRule :: rs) Hquiet Hpem chunks [] []
              (NewWriter sessionSalt rs)) as (w & Hw & Hq & Hr & Hc); [cbn [app]; by rewrite app_nil_r|by split|done|done|].
  exists w. split; [done|]. unfold Close. rewrite Hc.
  pose proof (qt_pem _ _ Hq) as Hp. cbn [pem set_closed]. rewrite Hp.
  cbn [app] in Hq. fold total in Hq. unfold processBuffer. cbn [processBuffer_fuel buf set_closed].
  assert (infix (buf w) total) as Hinf.
  { exists (output w), []. rewrite app_nil_r. symmetry. apply Hq. }
  unfold findPEMBegin. rewrite (index_none_infix _ _ _ Hinf Hpem).
  destruct (flushPrefix_quiet true total (set_closed w)) as (H1 & H2 & _).
  - cbn [rules buf set_closed]. rewrite Hr. by apply Hquiet.
  - destruct Hq. by split.
  - rewrite <- (qt_bytes _ _ H1), H2 by done. by rewrite app_nil_r.
Qed.


(** C39: The memory of the redactor is bounded whatever is written: at most
    [ringMax] bytes in the buffer, or less than [pemMaxBuffer] in the PEM
    accumulator and none in the buffer. *)
Theorem redactor_bounded (sessionSalt : list ascii) (rs : list Rule)
    (chunks : list (list ascii)) (Hrs : Forall regex_ok rs) :
  exists w, writes chunks (NewWriter sessionSalt rs) = Some w
    /\ Buffered w <= ringMax
    /\ (forall acc, pem w = Some acc -> buf w = [] /\ List.length acc < pemMaxBuffer).
Proof.
  destruct (writes_inv chunks [] (NewWriter sessionSalt rs)) as (w & Hw & Hi & Hc);
    [by apply NewWriter_inv|done|].
  exists w. split; [done|]. destruct Hi as [_ _ Hlen _ Hpem _]. split; [|done].
  unfold Buffered. destruct (pem w) as [acc|]; [|lia]. destruct (Hpem acc eq_refl) as [-> Ha].
  cbn [List.length]. transitivity pemMaxBuffer; [lia|]. apply pem_ring.
Qed.

End Stream.
