(* ===== verification/RedactGapsProps.v ===== *)
(** * The redactor at work, and where it leaks

    Two concrete rules in the style of the shipped ruleset (a keyword followed by
    a token), on which the stream theorems are exercised, and two inputs on
    which a secret that a scan of the whole buffer finds reaches the output. *)

From S2P Require Import Prelude RedactScanner RedactPem RedactMatchProps RedactWriter RedactStreamProps.
Import Bytes Scanner Pem Writer.

(** ** Two rules *)

Definition is_space (c : ascii) : bool := (c =c SPACE) || (c =c NL) || (c =c TAB) || (c =c CR).

(** The length of the token at the front. *)
Fixpoint token_len (l : list ascii) : nat :=
  match l with
  | [] => 0
  | c :: l => if is_space c then 0 else S (token_len l)
  end.

(** [KW(\S+)]: every occurrence, left to right, with its group. *)
Fixpoint find_after (skip off : nat) (kw l : list ascii) : list (list Z) :=
  match l with
  | [] => []
  | _ :: t =>
      match skip with
      | S skip => find_after skip (S off) kw t
      | 0 =>
          let n := token_len (drop (List.length kw) l) in
          if is_prefix kw l && (0 <? n) then
            let g := off + List.length kw in
            [Z.of_nat off; Z.of_nat (g + n); Z.of_nat g; Z.of_nat (g + n)]
              :: find_after (pred (List.length kw + n)) (S off) kw t
          else find_after 0 (S off) kw t
      end
  end.

Definition token_rule (id kw : string) : Rule :=
  CompileRule id (find_after 0 0 (lit kw)) [kw] 1 0 0.

Definition password_rule : Rule := token_rule "password" "password=".
Definition bearer_rule : Rule := token_rule "bearer" "authorization: bearer ".

Lemma token_len_le l : token_len l <= List.length l.
Proof. induction l as [|c l IH]; cbn; [done|]. destruct (is_space c); lia. Qed.

Lemma find_after_shape kw l : forall skip off ix,
  In ix (find_after skip off kw l) ->
  exists i n, let g := i + List.length kw in
    ix = [Z.of_nat i; Z.of_nat (g + n); Z.of_nat g; Z.of_nat (g + n)]
    /\ g + n <= off + List.length l.
Proof.
  induction l as [|c l IH]; intros skip off ix; [done|]. cbn [find_after List.length].
  assert (forall skip off', off' = S off -> In ix (find_after skip off' kw l) ->
    exists i n, let g := i + List.length kw in
      ix = [Z.of_nat i; Z.of_nat (g + n); Z.of_nat g; Z.of_nat (g + n)]
      /\ g + n <= off + S (List.length l)) as Hrec.
  { intros sk off' -> Hin. destruct (IH _ _ _ Hin) as (i & n & -> & Hi). exists i, n. split; [done|lia]. }
  destruct skip as [|skip]; [|by apply Hrec].
  destruct (_ && _) eqn:E; [|by apply Hrec]. bool_hyps. intros [<-|Hin]; [|by eapply Hrec].
  exists off, (token_len (drop (List.length kw) (c :: l))). split; [done|].
  match goal with Hp : is_prefix _ _ = true |- _ => apply is_prefix_length in Hp end.
  pose proof (token_len_le (drop (List.length kw) (c :: l))) as Hl.
  rewrite length_drop in Hl. cbn [List.length] in *. lia.
Qed.

Lemma token_rule_ok id kw : regex_ok (token_rule id kw).
Proof.
  intros buf ix Hin. destruct (find_after_shape _ _ _ _ _ Hin) as (i & n & -> & Hi).
  split; [cbn [nth]; lia|]. split; [cbn [nth]; lia|].
  intros [|[|g]] Hg; cbn [List.length] in Hg; [cbn [nth Nat.mul Nat.add]; lia..|lia].
Qed.

(** A stand-in for the HMAC: the first bytes of the secret. *)
#[export] Instance toy_hmac : Hmac := {| mac := fun _ secret => secret |}.

Definition two_rules : list Rule := [password_rule; bearer_rule].

Lemma two_rules_ok : Forall regex_ok two_rules.
Proof. apply Forall_cons_2; [apply token_rule_ok|]. apply Forall_cons_2; [apply token_rule_ok|constructor]. Qed.

(** ** The stream theorems on a stream cut inside the secret *)

Lemma redactor_substitutes_witness :
  exists w ps, writes [lit "login password=hun"; lit "ter2 ok"] (NewWriter [] two_rules) = Some w
    /\ src ps = lit "login password=hunter2 ok"
    /\ output (Close w) = dst (salt (Close w)) ps
    /\ output (Close w) = lit "login password=[SSHGATE_REDACTED key=68756e74] ok".
Proof.
  destruct (redactor_substitutes [] two_rules [lit "login password=hun"; lit "ter2 ok"] two_rules_ok)
    as (w & ps & Hw & Hs & Hd & _).
  exists w, ps. split; [exact Hw|]. split; [exact (eq_sym Hs)|]. split; [exact Hd|].
  vm_compute in Hw. injection Hw as <-. vm_compute. reflexivity.
Defined.

Lemma redactor_bounded_witness :
  exists w, writes [lit "password=x"; lit "-----BEGIN X"] (NewWriter [] two_rules) = Some w
    /\ Buffered w <= ringMax.
Proof.
  destruct (redactor_bounded [] two_rules [lit "password=x"; lit "-----BEGIN X"] two_rules_ok)
    as (w & Hw & Hb & _). exists w. split; [exact Hw|exact Hb].
Defined.

(** With no rule at all only the marker prefix is ever rewritten. *)
Lemma no_bracket_quiet b :
  Forall (fun c => c <> "["%char) b -> findMatches [markerForgeryRule] b = [].
Proof.
  intros Hb. unfold findMatches. destruct b as [|c b]; [done|].
  assert (raw_matches [markerForgeryRule] (c :: b) = []) as ->; [|done].
  assert (forall l skip off, Forall (fun c => c <> "["%char) l ->
            find_literal skip off (lit MarkerPrefix) l = []) as Hf.
  { induction l as [|x l IH]; intros skip off Hl; [done|]. apply Forall_cons in Hl as [Hx Hl].
    cbn [find_literal]. destruct skip; [|by apply IH].
    assert (is_prefix (lit MarkerPrefix) (x :: l) = false) as ->; [|by apply IH].
    cbn [is_prefix lit MarkerPrefix list_ascii_of_string].
    assert (("[" =c x)%char = false) as ->; [|done]. apply Ascii.eqb_neq. congruence. }
  unfold raw_matches, rule_hits. cbn [flat_map]. rewrite app_nil_r.
  destruct (matchesKeyword _ _); [|done]. cbn [Regex markerForgeryRule CompileRule].
  by rewrite Hf.
Qed.

Lemma redactor_transparent_witness :
  exists w, writes [lit "total 4"; lit " -rw"] (NewWriter [] []) = Some w
    /\ output (Close w) = lit "total 4 -rw".
Proof.
  destruct (redactor_transparent [] [] [lit "total 4"; lit " -rw"]) as (w & Hw & Ho).
  - intros b (x & y & Hb). apply no_bracket_quiet.
    assert (Forall (fun c => c <> "["%char) (List.concat [lit "total 4"; lit " -rw"])) as Hf
      by (vm_compute; repeat constructor; discriminate).
    rewrite Hb in Hf. apply Forall_app in Hf as [_ Hf]. apply Forall_app in Hf as [Hf _]. exact Hf.
  - vm_compute. reflexivity.
  - exists w. split; [exact Hw|exact Ho].
Defined.

(** ** Leaks *)

(** A token of one rule that runs into the anchor of another, with the flush
    boundary inside the second secret. *)
Definition chained : list ascii :=
  lit "password=hunter2authorization: bearer " ++ List.repeat "t"%char 100
  ++ List.repeat SPACE (4000 + 40).

(** The redacted stream contains a string in the clear. *)
Definition leaks (rs : list Rule) (input secret : list ascii) : bool :=
  match Write input (NewWriter [] rs) with
  | Some w => contains (output (Close w)) secret
  | None => false
  end.

(** The retreat to a straddler's anchor is not checked against the other
    matches: a scan of the buffer finds the password, and yet the very same
    Write passes it to dst in the clear. *)
Theorem straddler_retreat_leaks :
  map Secret (findMatches (markerForgeryRule :: two_rules) chained)
  = [lit "hunter2authorization:"; List.repeat "t"%char 100]
  /\ leaks two_rules chained (lit "password=hunter2") = true.
Proof. split; vm_compute; reflexivity. Qed.

Lemma safe_below_ring : 1 < safePrefix < ringMax.
Proof. unfold safePrefix, ringMax. lia. Qed.

#[local] Opaque ringMax safePrefix.


(** A writer in normal mode, with no PEM header in its buffer. *)
Definition normal (w : Writer) : Prop :=
  closed w = false /\ pem w = None /\ suppressing w = false /\ findPEMBegin (buf w) = None.

(** A forced flush cuts a match at the boundary and keeps its second half
    at the front of the buffer, without the anchor: unless what is kept matches
    by itself, that half reaches the output in the clear. *)
Theorem forced_flush_leaks (w : Writer) (m : match_)
    (Hw : normal w) (Hm : findMatches (rules w) (buf w) = [m])
    (Hlen : ringMax < List.length (buf w))
    (Hstart : Start m < List.length (buf w) - safePrefix)
    (Hend : List.length (buf w) - safePrefix < End_ m < List.length (buf w))
    (Hanchor : MatchStart m <= Start m) :
  let boundary := List.length (buf w) - safePrefix in
  let w' := processBuffer false w in
  let half := slice (buf w) boundary (End_ m) in
  buf w' = half ++ drop (End_ m) (buf w)
  /\ (findMatches (rules w) (buf w') = [] ->
        output (Close w') = output w' ++ half ++ drop (End_ m) (buf w)).
Proof.
  intros boundary w' half. destruct Hw as (Hc & Hp & Hs & Hb). pose proof safe_below_ring.
  set (kept := [truncate_match (buf w) boundary m]).
  assert (w' = compact boundary (emitWithMatches (take boundary (buf w)) kept w)) as Hw'.
  { unfold w', processBuffer. cbn [processBuffer_fuel]. rewrite Hb. unfold flushPrefix.
    cbn [negb andb]. fold boundary.
    destruct (List.length (buf w) <=? safePrefix) eqn:E1; bool_hyps; [lia|].
    destruct (boundary =? 0) eqn:E2; bool_hyps; [lia|].
    rewrite Hm. cbn [retreat]. apply Nat.ltb_lt in Hlen as ->.
    assert ((Start m <=? boundary) && (boundary <? End_ m) = true) as ->.
    { apply andb_true_iff. split; [apply Nat.leb_le|apply Nat.ltb_lt]; unfold boundary; lia. }
    unfold forceFlush. cbn [tail_match]. destruct (End_ m =? _) eqn:E3; bool_hyps; [lia|]. cbn [negb].
    fold boundary. assert ((MatchStart m <? boundary) = true) as -> by (apply Nat.ltb_lt; lia).
    unfold emitRedactingOverlap. cbn [List.filter].
    assert ((Start m <? boundary) = true) as -> by (by apply Nat.ltb_lt). done. }
  pose proof (emitWithMatches_control (take boundary (buf w)) kept w)
    as (_ & Hru & Hbu & Hcl & Hpe & Hsu).
  assert (buf w' = half ++ drop (End_ m) (buf w)) as Hbuf.
  { rewrite Hw'. unfold compact. cbn [buf set_buf]. rewrite Hbu. apply drop_slice; lia. }
  split; [done|]. intros Hq. rewrite <- Hbuf. unfold Close.
  assert (closed w' = false /\ pem w' = None /\ rules w' = rules w) as (Hc' & Hp' & Hr')
    by (rewrite Hw'; cbn [closed pem rules compact set_buf]; by rewrite Hcl, Hpe, Hru).
  assert (suppressing w' = false) as Hs' by (rewrite Hw'; cbn; by rewrite Hsu).
  rewrite Hc'. cbn [pem set_closed]. rewrite Hp'. unfold processBuffer.
  cbn [processBuffer_fuel buf set_closed].
  assert (findPEMBegin (buf w') = None) as ->.
  { rewrite Hw'. unfold compact. cbn [buf set_buf]. rewrite Hbu. by apply index_none_drop. }
  destruct (flushPrefix_quiet true (output w' ++ buf w') (set_closed w')) as ([Hout _ _] & Hnil & _).
  - cbn [rules buf set_closed]. by rewrite Hr'.
  - by split.
  - rewrite Hnil, app_nil_r in Hout by done. exact Hout.
Qed.

(** A rule that finds one match across the boundary of an over-long buffer. *)
Definition boundary_rule : Rule :=
  CompileRule "boundary"
    (fun b => if ringMax <? List.length b
              then [[Z.of_nat (List.length b - safePrefix - 1); Z.of_nat (List.length b - safePrefix + 1)]]
              else []) [] 0 0 0.

Definition long_buffer : list ascii := List.repeat "x"%char (S ringMax).

Definition long_writer : Writer := mkWriter [] [boundary_rule] long_buffer false None false [] 0 0.

Lemma index_none_char c sub l : Forall (fun d => d <> c) l -> index l (c :: sub) = None.
Proof.
  induction 1 as [|d l Hd _ IH]; [done|]. cbn [index is_prefix].
  assert ((c =c d) = false) as -> by (apply Ascii.eqb_neq; congruence). cbn [andb]. by rewrite IH.
Qed.

Lemma forced_flush_leaks_witness :
  buf (processBuffer false long_writer)
  = slice long_buffer (S ringMax - safePrefix) (S ringMax - safePrefix + 1)
    ++ drop (S ringMax - safePrefix + 1) long_buffer.
Proof.
  pose proof safe_below_ring as Hs.
  assert (List.length long_buffer = S ringMax) as Hl by apply List.repeat_length.
  assert (findMatches [boundary_rule] long_buffer
          = [mkMatch (S ringMax - safePrefix - 1) (S ringMax - safePrefix + 1)
               (S ringMax - safePrefix - 1) "boundary"
               (slice long_buffer (S ringMax - safePrefix - 1) (S ringMax - safePrefix + 1))]) as Hm.
  { destruct (findMatches_raw [boundary_rule] long_buffer) as [->|[_ [Hn|Hn]]];
      [|rewrite Hn in Hl; discriminate Hl|discriminate Hn].
    unfold raw_matches, rule_hits. cbn [flat_map matchesKeyword Keywords boundary_rule CompileRule map].
    assert (Regex boundary_rule long_buffer
            = [[Z.of_nat (S ringMax - safePrefix - 1); Z.of_nat (S ringMax - safePrefix + 1)]]) as ->.
    { cbn [Regex boundary_rule CompileRule]. rewrite Hl.
      by assert ((ringMax <? S ringMax) = true) as -> by (apply Nat.ltb_lt; lia). }
    unfold omap, list_omap, hit, hit_span.
    cbn [SecretGroup MinLen MaxLen HighConfidence ID boundary_rule CompileRule nth Nat.ltb Nat.leb
         andb negb app].
    rewrite !Nat2Z.id. reflexivity. }
  destruct (forced_flush_leaks long_writer
    (mkMatch (S ringMax - safePrefix - 1) (S ringMax - safePrefix + 1)
       (S ringMax - safePrefix - 1) "boundary"
       (slice long_buffer (S ringMax - safePrefix - 1) (S ringMax - safePrefix + 1)))) as [H _].
  - split; [reflexivity|]. split; [reflexivity|]. split; [reflexivity|].
    apply index_none_char. apply List.Forall_forall. intros d Hd.
    apply List.repeat_spec in Hd as ->. discriminate.
  - exact Hm.
  - change (buf long_writer) with long_buffer. rewrite Hl. lia.
  - change (buf long_writer) with long_buffer. rewrite Hl. cbn [Start]. lia.
  - change (buf long_writer) with long_buffer. rewrite Hl. cbn [End_]. lia.
  - cbn [MatchStart Start]. lia.
  - change (buf long_writer) with long_buffer in H. rewrite Hl in H. exact H.
Defined.
