(* ===== verification/GateVerify.v ===== *)
(** * Verifying a signed command (src/gate/verify.go, src/gate/errors.go)

    The gate's only way from a SSHGATE_SIG line to a command.  Ed25519 is a
    parameter: the interface [Ed25519] has the verification function, and the
    law that a signature made with the private key of a pair verifies. *)

From S2P Require Import Prelude Base64 Json Sigwire.

(** What the program uses of crypto/ed25519. *)
Class Ed25519 := {
  private_key : Type;
  ed_public : private_key -> list ascii;
  ed_sign : private_key -> list ascii -> list ascii;
  ed_verify : list ascii -> list ascii -> list ascii -> bool;
  ed_verify_sign : forall sk msg, ed_verify (ed_public sk) msg (ed_sign sk msg) = true;
  ed_sign_nonempty : forall sk msg, ed_sign sk msg <> []
}.

Module Verify.
Import Sigwire.

(** The sentinels of errors.go. *)
Inductive GateError :=
  | ErrBadFormat
  | ErrBadSig
  | ErrExpired
  | ErrValidityTooLong
  | ErrEmptyCmd
  | ErrHostMismatch.

#[export] Instance GateError_eq_dec : EqDecision GateError.
Proof. solve_decision. Defined.

(** int64 subtraction. *)
Definition wrap64 (z : Z) : Z := ((z + 2 ^ 63) mod 2 ^ 64 - 2 ^ 63)%Z.
Definition sub64 (a b : Z) : Z := wrap64 (a - b).

(** containsFP *)
Fixpoint containsFP (fps : list string) (want : string) : bool :=
  match fps with
  | [] => false
  | fp :: fps => if fp =s want then true else containsFP fps want
  end.

(** VerifySigned; [now] is [now.Unix()]. *)
Definition VerifySigned `{Ed25519} (line : string) (pubkey : list ascii) (now : Z)
    (selfHostFPs : list string) : (string * bool) + GateError :=
  match DecodeSigned line with
  | inr _ => inr ErrBadFormat
  | inl (sig, payload) =>
      if Cmd payload =s "" then inr ErrEmptyCmd
      else
        let signedBytes := marshal payload in
        if negb (ed_verify pubkey signedBytes sig) then inr ErrBadSig
        else if ((TS payload <=? 0) || (Exp payload <=? 0) || (Exp payload <=? TS payload))%Z
        then inr ErrBadFormat
        else if (Exp payload <=? now)%Z then inr ErrExpired
        else if (MaxSigValidity / Second <? sub64 (Exp payload) (TS payload))%Z
        then inr ErrValidityTooLong
        else if (Host payload =s "") || negb (containsFP selfHostFPs (Host payload))
        then inr ErrHostMismatch
        else inl (Cmd payload, Reveal payload)
  end.

End Verify.
