(* ===== verification/GateVerifyProps.v ===== *)
(** * What a verified command guarantees *)

From S2P Require Import Prelude Base64 Json JsonProps Sigwire SigwireProps GateVerify.
Import Sigwire Verify.

Lemma containsFP_iff fps want : containsFP fps want = true <-> In want fps.
Proof.
  induction fps as [|fp fps IH]; cbn; [done|]. destruct (fp =s want) eqn:E.
  - apply String.eqb_eq in E. split; auto.
  - apply String.eqb_neq in E. rewrite IH. split; [auto|intros [?|?]; done].
Qed.

Lemma sub64_exact e t : int64 e -> int64 t -> (0 < t)%Z -> (t < e)%Z -> sub64 e t = (e - t)%Z.
Proof. unfold int64, sub64, wrap64. intros. rewrite Z.mod_small; lia. Qed.

(** The facts the gate checks of an authenticated payload, at a time, on a host. *)
Record acceptable (p : SigPayload) (now : Z) (fps : list string) : Prop := {
  acc_times : (0 < TS p < Exp p)%Z;
  acc_fresh : (now < Exp p)%Z;
  acc_window : (Exp p - TS p <= 300)%Z;
  acc_bound : Host p <> "";
  acc_host : In (Host p) fps
}.

Section Verify.
Context `{Ed25519}.

Lemma verify_acceptable line pubkey now fps sig p :
  DecodeSigned line = inl (sig, p) ->
  ed_verify pubkey (marshal p) sig = true ->
  acceptable p now fps ->
  VerifySigned line pubkey now fps = inl (Cmd p, Reveal p).
Proof.
  intros Hd Hv [Ht Hf Hw Hb Hh]. destruct (decode_signed_inv _ _ _ Hd) as (_ & Hwf & Hc).
  unfold VerifySigned. rewrite Hd, Hv. apply String.eqb_neq in Hc as ->. cbn [negb].
  rewrite sub64_exact by (lia || apply Hwf).
  apply String.eqb_neq in Hb as ->. apply containsFP_iff in Hh as ->.
  change (MaxSigValidity / Second)%Z with 300%Z.
  destruct (TS p <=? 0)%Z eqn:E1; bool_hyps; [lia|].
  destruct (Exp p <=? 0)%Z eqn:E2; bool_hyps; [lia|].
  destruct (Exp p <=? TS p)%Z eqn:E3; bool_hyps; [lia|]. cbn [orb].
  destruct (Exp p <=? now)%Z eqn:E4; bool_hyps; [lia|].
  destruct (300 <? _)%Z eqn:E5; bool_hyps; [lia|done].
Qed.

Lemma verify_inv line pubkey now fps cmd reveal :
  VerifySigned line pubkey now fps = inl (cmd, reveal) ->
  exists sig p, DecodeSigned line = inl (sig, p)
    /\ ed_verify pubkey (marshal p) sig = true
    /\ acceptable p now fps /\ cmd = Cmd p /\ reveal = Reveal p.
Proof.
  unfold VerifySigned. destruct (DecodeSigned line) as [[sig p]|] eqn:Hd; [|done].
  destruct (decode_signed_inv _ _ _ Hd) as (_ & Hwf & Hc).
  destruct (Cmd p =s ""); [done|]. destruct (ed_verify _ _ _) eqn:Hv; [|done]. cbn [negb].
  destruct (_ || _ || _)%Z eqn:Et; [done|]. bool_hyps.
  destruct (Exp p <=? now)%Z eqn:E4; [done|]. bool_hyps.
  rewrite sub64_exact by (lia || apply Hwf). change (MaxSigValidity / Second)%Z with 300%Z.
  destruct (300 <? _)%Z eqn:E5; [done|]. bool_hyps.
  destruct (Host p =s "") eqn:Eh; [done|]. cbn [orb].
  destruct (containsFP fps (Host p)) eqn:Ef; [|done]. cbn [negb]. intros [= <- <-].
  exists sig, p. split; [done|]. split; [done|]. split; [|done].
  split; [lia|lia|lia|by apply String.eqb_neq|by apply containsFP_iff].
Qed.

(** C3: A line is verified exactly when it decodes to a payload whose canonical
    bytes the signature covers, whose times are positive, in order, unexpired
    and at most 300 seconds apart (with no overflow), and whose host is one of
    the gate's own; the command and the reveal flag are the payload's. *)
Theorem verify_signed_iff (line : string) (pubkey : list ascii) (now : Z)
    (fps : list string) (cmd : string) (reveal : bool) :
  VerifySigned line pubkey now fps = inl (cmd, reveal) <->
  exists sig p, DecodeSigned line = inl (sig, p)
    /\ ed_verify pubkey (marshal p) sig = true
    /\ acceptable p now fps /\ cmd = Cmd p /\ reveal = Reveal p.
Proof.
  split; [apply verify_inv|]. intros (sig & p & Hd & Hv & Ha & -> & ->).
  by eapply verify_acceptable.
Qed.

(** Nothing can be probed without a signature: on a line whose signature
    does not verify the answer is a format error, an empty command or a bad
    signature, whatever the clock and the gate's host keys are. *)
Theorem unauthenticated_no_probe (line : string) (pubkey : list ascii)
    (Hbad : forall sig p, DecodeSigned line = inl (sig, p) ->
              ed_verify pubkey (marshal p) sig = false) :
  exists e, (e = ErrBadFormat \/ e = ErrBadSig)
    /\ forall now fps, VerifySigned line pubkey now fps = inr e.
Proof.
  unfold VerifySigned. destruct (DecodeSigned line) as [[sig p]|] eqn:Hd; [|eauto].
  destruct (decode_signed_inv _ _ _ Hd) as (_ & _ & Hc). apply String.eqb_neq in Hc as ->.
  rewrite (Hbad _ _ eq_refl). cbn [negb]. eauto.
Qed.

(** The signer's side: a payload signed with the gate's key. *)
Definition signed_line (sk : private_key) (p : SigPayload) : string :=
  EncodeSigned (ed_sign sk (marshal p)) p.

Lemma signed_line_decodes sk p t :
  wf_payload p -> Cmd p <> "" -> trailer t ->
  DecodeSigned (signed_line sk p +:+ t) = inl (ed_sign sk (marshal p), p).
Proof.
  intros Hp Hc Ht. unfold signed_line.
  rewrite decode_envelope, repaired_wf; try done; [apply ed_sign_nonempty|apply Hp|apply Hp].
Qed.

(** Signer to gate: a payload the signer signs and encodes is accepted by
    the gate with that key exactly while it is acceptable there, with any log
    trailer, and yields the payload's command and reveal flag. *)
Theorem signed_line_accepted (sk : private_key) (p : SigPayload) (t : string) (now : Z)
    (fps : list string) (Hp : wf_payload p) (Hc : Cmd p <> "") (Ht : trailer t) :
  (VerifySigned (signed_line sk p +:+ t) (ed_public sk) now fps = inl (Cmd p, Reveal p)
   <-> acceptable p now fps).
Proof.
  pose proof (signed_line_decodes sk p t Hp Hc Ht) as Hd. split.
  - intros (sig' & p' & Hd' & _ & Ha & _)%verify_inv. rewrite Hd in Hd'. by injection Hd' as _ <-.
  - intros Ha. eapply verify_acceptable; [exact Hd|apply ed_verify_sign|exact Ha].
Qed.

(** The 300-second cap bounds exp - ts, not the time to expiry: nothing
    compares ts with the clock, so a signer can mint a token, dated in the
    future, that the gate accepts now and for as long as one likes. *)
Theorem future_dated_token (sk : private_key) (host : string) (now n : Z)
    (Hhost : host <> "") (Hutf8 : Utf8.valid (bytes host) = true)
    (Hnow : (0 < now)%Z) (Hn : (0 <= n)%Z) (Hmax : (now + n + 301 < 2 ^ 63)%Z) :
  exists line, forall t, (now <= t <= now + n)%Z ->
    VerifySigned line (ed_public sk) t [host] = inl ("reboot", true).
Proof.
  set (p := mkPayload "reboot" (now + n + 1) (now + n + 301) "n" host true).
  exists (signed_line sk p). intros t Ht.
  assert (wf_payload p) as Hp.
  { unfold wf_payload, p, int64. cbn [TS Exp Cmd Nonce Host].
    split; [lia|]. split; [lia|]. by repeat split. }
  rewrite <- (str_app_nil_r (signed_line sk p)).
  apply (verify_acceptable _ _ _ _ (ed_sign sk (marshal p)) p).
  - apply signed_line_decodes; [done|done|by left].
  - apply ed_verify_sign.
  - split; unfold p; cbn [TS Exp Host]; try lia; [done|by left].
Qed.

End Verify.

(** ** A concrete signature scheme for the witnesses

    A one-key scheme: the signature is a byte and the message. *)
Definition toy_sign (sk msg : list ascii) : list ascii := "!"%char :: sk ++ msg.

#[export] Instance toy_ed25519 : Ed25519 := {|
  private_key := list ascii;
  ed_public := fun sk => sk;
  ed_sign := toy_sign;
  ed_verify := fun pk msg sig => bool_decide (sig = toy_sign pk msg);
  ed_verify_sign := fun sk msg => bool_decide_eq_true_2 _ eq_refl;
  ed_sign_nonempty := fun sk msg H => match nil_cons (eq_sym H) with end
|}.

Definition toy_key : private_key := bytes "k".
Definition toy_payload : SigPayload := mkPayload "reboot" 100 160 "n" "SHA256:a" false.

Lemma unauthenticated_no_probe_witness :
  exists e, (e = ErrBadFormat \/ e = ErrBadSig)
    /\ forall now fps, VerifySigned "SSHGATE_SIG:AA:eyJDTUQiOiJscyJ9" (ed_public toy_key) now fps = inr e.
Proof.
  apply (unauthenticated_no_probe "SSHGATE_SIG:AA:eyJDTUQiOiJscyJ9" (ed_public toy_key)).
  intros sig p Hd. vm_compute in Hd. injection Hd as <- <-. vm_compute. reflexivity.
Defined.

Lemma signed_line_accepted_witness :
  VerifySigned (signed_line toy_key toy_payload +:+ " reboot") (ed_public toy_key) 150 ["SHA256:a"]
  = inl ("reboot", false).
Proof.
  apply (signed_line_accepted toy_key toy_payload " reboot" 150 ["SHA256:a"]).
  - repeat split; vm_compute; done.
  - discriminate.
  - right. exists "reboot". reflexivity.
  - split; [vm_compute; split; reflexivity|vm_compute; reflexivity|vm_compute; discriminate
           |discriminate|left; reflexivity].
Defined.

Lemma future_dated_token_witness :
  exists line, forall t, (1700000000 <= t <= 1700000000 + 315360000)%Z ->
    VerifySigned line (ed_public toy_key) t ["SHA256:a"] = inl ("reboot", true).
Proof.
  apply (future_dated_token toy_key "SHA256:a" 1700000000 315360000);
    [discriminate|vm_compute; reflexivity|reflexivity|discriminate|reflexivity].
Defined.
