(* ===== verification/GateAudit.v ===== *)
(** * The gate's audit log (src/gate/audit.go)

    Levels, the level and path configuration, and the logger: which records it
    emits, what it strips from them, and the line it appends.  The log is the list
    of bytes of a file; opening it may fail, and then nothing is logged.  Then what
    the log guarantees. *)

From S2P Require Import Prelude Json JsonProps Sigwire.

Module Audit.
Import Json Sigwire.

(** AuditLevel *)
Inductive AuditLevel := AuditOff | AuditWrites | AuditAll | AuditAllMeta | AuditAllFull.

#[export] Instance AuditLevel_eq_dec : EqDecision AuditLevel.
Proof. solve_decision. Defined.

(** The iota value of a level: levels are compared as integers. *)
Definition level_val (l : AuditLevel) : nat :=
  match l with
  | AuditOff => 0 | AuditWrites => 1 | AuditAll => 2 | AuditAllMeta => 3 | AuditAllFull => 4
  end.

Definition level_lt (a b : AuditLevel) : bool := level_val a <? level_val b.

Definition DefaultAuditLevel : AuditLevel := AuditAllMeta.

(** AuditLevel.String *)
Definition LevelString (l : AuditLevel) : string :=
  match l with
  | AuditOff => "off"
  | AuditWrites => "writes"
  | AuditAll => "all"
  | AuditAllMeta => "all+meta"
  | AuditAllFull => "all+full"
  end.

(** ParseAuditLevel *)
Definition ParseAuditLevel (s : string) : AuditLevel :=
  let t := GoStr.ToLower (GoStr.TrimSpace s) in
  if t =s "off" then AuditOff
  else if t =s "writes" then AuditWrites
  else if t =s "all" then AuditAll
  else if t =s "all+meta" then AuditAllMeta
  else if t =s "all+full" then AuditAllFull
  else DefaultAuditLevel.

(** LoadAuditLevel, on the content of the file; [None] when it can not be read. *)
Definition LoadAuditLevel (file : option string) : AuditLevel :=
  match file with
  | Some b => ParseAuditLevel b
  | None => DefaultAuditLevel
  end.

(** filepath.Join of a clean directory and a file name. *)
Definition join_path (dir name : string) : string :=
  if dir =s "/" then "/" +:+ name else dir +:+ "/" +:+ name.

(** AuditPath, on the content of gateDir/audit-path. *)
Definition AuditPath (gateDir : string) (file : option string) : string :=
  match file with
  | Some b =>
      let p := GoStr.TrimSpace b in
      if negb (p =s "") then p else join_path gateDir "audit.log"
  | None => join_path gateDir "audit.log"
  end.

(** AuditMeta *)
Record AuditMeta := mkMeta {
  StdoutBytes : Z;
  StderrBytes : Z;
  Lines : Z;
  DurationMS : Z
}.

(** AuditRecord *)
Record AuditRecord := mkRecord {
  RTS : Z;
  Command : string;
  Classification : string;
  ApprovalStatus : string;
  ExitCode : Z;
  Meta : option AuditMeta;
  Revealed : bool;
  Stdout : string;
  Stderr : string
}.

(** AuditLogger *)
Record AuditLogger := NewAuditLogger {
  level : AuditLevel;
  path : string
}.

(** shouldEmit *)
Definition shouldEmit (a : AuditLogger) (r : AuditRecord) : bool :=
  match level a with
  | AuditOff => false
  | AuditWrites => (Classification r =s "write") || (ApprovalStatus r =s "denied")
  | _ => true
  end.

(** The two strips of Record. *)
Definition strip (l : AuditLevel) (r : AuditRecord) : AuditRecord :=
  let r1 :=
    if level_lt l AuditAllMeta
    then mkRecord (RTS r) (Command r) (Classification r) (ApprovalStatus r) (ExitCode r)
           None (Revealed r) (Stdout r) (Stderr r)
    else r in
  if level_lt l AuditAllFull
  then mkRecord (RTS r1) (Command r1) (Classification r1) (ApprovalStatus r1) (ExitCode r1)
         (Meta r1) (Revealed r1) "" ""
  else r1.

Definition meta_json (m : AuditMeta) : list ascii :=
  write_object [(word "stdout_bytes", JInt (StdoutBytes m));
                (word "stderr_bytes", JInt (StderrBytes m));
                (word "lines", JInt (Lines m)); (word "duration_ms", JInt (DurationMS m))].

(** json.Marshal of a record, field by field, with its omitempty tags. *)
Definition record_json (r : AuditRecord) : list ascii :=
  write_raw_object
    ([("ts", format_int (RTS r)); ("command", quote (bytes (Command r)));
      ("classification", quote (bytes (Classification r)));
      ("approval_status", quote (bytes (ApprovalStatus r)));
      ("exit_code", format_int (ExitCode r))]
     ++ (match Meta r with Some m => [("meta", meta_json m)] | None => [] end)
     ++ (if Revealed r then [("revealed", word "true")] else [])
     ++ (if Stdout r =s "" then [] else [("stdout", quote (bytes (Stdout r)))])
     ++ (if Stderr r =s "" then [] else [("stderr", quote (bytes (Stderr r)))])).

(** The line Record appends. *)
Definition record_line (a : AuditLogger) (r : AuditRecord) : list ascii :=
  record_json (strip (level a) r) ++ [NL].

(** The files a gate process can reach: their contents, and which paths can be
    opened for append. *)
Record Files := mkFiles {
  content : gmap string (list ascii);
  can_append : string -> bool
}.

Definition append_file (fs : Files) (p : string) (b : list ascii) : Files :=
  mkFiles (<[p := default [] (content fs !! p) ++ b]> (content fs)) (can_append fs).

(** Record; a nil logger is [None].  Every error is swallowed. *)
Definition RecordLine (a : option AuditLogger) (r : AuditRecord) (fs : Files) : Files :=
  match a with
  | None => fs
  | Some a =>
      if negb (shouldEmit a r) then fs
      else if can_append fs (path a) then append_file fs (path a) (record_line a r)
      else fs
  end.

End Audit.

Import Utf8 Json Sigwire Audit.

(** ** One record, one line *)

#[local] Opaque no_newline.

Lemma record_json_no_newline r : no_newline (record_json r).
Proof.
  apply raw_object_no_newline.
  repeat first [ apply Forall_app_2 | apply Forall_cons_2 | apply Forall_nil_2 | case_match ];
    cbn [snd]; auto using quote_no_newline, format_int_no_newline.
  - apply object_no_newline. by repeat constructor.
  - by repeat constructor.
Qed.

#[local] Transparent no_newline.

(** Splitting a file at its newlines after one more line. *)
Lemma split_line (ls : list (list ascii)) b l :
  split_on (fun c => c =c NL) b = ls ++ [[]] -> no_newline l ->
  split_on (fun c => c =c NL) (b ++ l ++ [NL]) = (ls ++ [l]) ++ [[]].
Proof.
  intros Hb Hl.
  assert (split_on (fun c => c =c NL) (l ++ [NL]) = [l; []]) as Hs.
  { rewrite split_on_app by done. rewrite split_on_no_sep; [done|].
    eapply Forall_impl; [exact Hl|]. intros c Hc. by apply Ascii.eqb_neq. }
  revert ls Hb. induction b as [|c b IH]; intros ls Hb; cbn [app].
  - rewrite Hs. cbn in Hb. destruct ls as [|x [|y ls]]; cbn in Hb; try done. 
  - cbn [split_on] in *. destruct (c =c NL).
    + destruct ls as [|x ls].
      * cbn in Hb. injection Hb as Hb. by apply split_on_ne in Hb.
      * cbn in Hb. injection Hb as <- Hb. by rewrite (IH ls Hb).
    + pose proof (split_on_ne (fun c => c =c NL) b) as Hne.
      destruct (split_on _ b) as [|h t] eqn:E; [done|].
      destruct ls as [|x ls]; [done|]. cbn in Hb. injection Hb as <- ->.
      rewrite (IH (h :: ls)) by done. done.
Qed.

(** The log is faithful: after any sequence of records, the lines of a fresh
    log file are exactly the JSON of the records the level emits, in order,
    whatever bytes the commands and outputs hold - no command can forge, split
    or remove a line. *)
Theorem audit_log_faithful (a : AuditLogger) (fs : Files) (rs : list AuditRecord)
    (Hopen : can_append fs (path a) = true) (Hfresh : content fs !! path a = None) :
  split_on (fun c => c =c NL)
    (default [] (content (fold_left (fun fs r => RecordLine (Some a) r fs) rs fs) !! path a))
  = map (fun r => record_json (strip (level a) r)) (List.filter (shouldEmit a) rs) ++ [[]].
Proof.
  enough (forall rs fs ls, can_append fs (path a) = true ->
    split_on (fun c => c =c NL) (default [] (content fs !! path a)) = ls ++ [[]] ->
    split_on (fun c => c =c NL)
      (default [] (content (fold_left (fun fs r => RecordLine (Some a) r fs) rs fs) !! path a))
    = (ls ++ map (fun r => record_json (strip (level a) r)) (List.filter (shouldEmit a) rs)) ++ [[]])
    as H by (apply (H rs fs []); [done|by rewrite Hfresh]).
  clear. intros rs. induction rs as [|r rs IH]; intros fs ls Hopen Hls; cbn [fold_left List.filter map].
  - by rewrite app_nil_r.
  - destruct (shouldEmit a r) eqn:Ee.
    + cbn [map]. rewrite (cons_middle _ ls), app_assoc. unfold RecordLine at 2. rewrite Ee, Hopen. cbn [negb].
      apply IH; [done|]. unfold append_file. cbn [content].
      rewrite lookup_insert_eq. cbn [default]. unfold record_line.
      apply split_line; [done|apply record_json_no_newline].
    + unfold RecordLine at 2. rewrite Ee. by apply IH.
Qed.

Definition sample_record (cmd out : string) : AuditRecord :=
  mkRecord 1 cmd "read" "unsigned" 0 None false out "".

Lemma audit_log_faithful_witness :
  split_on (fun c => c =c NL)
    (default [] (content (fold_left
       (fun fs r => RecordLine (Some (NewAuditLogger AuditAllMeta "/l")) r fs)
       [sample_record (String NL "{}") "x"] (mkFiles ∅ (fun _ => true))) !! "/l"))
  = [record_json (sample_record (String NL "{}") ""); []].
Proof.
  apply (audit_log_faithful (NewAuditLogger AuditAllMeta "/l") (mkFiles ∅ (fun _ => true))
           [sample_record (String NL "{}") "x"]); reflexivity.
Defined.

(** ** Levels *)

(** Two records that differ in their raw output only, or in their output
    metadata and raw output. *)
Definition same_but_output (r r' : AuditRecord) : Prop :=
  mkRecord (RTS r) (Command r) (Classification r) (ApprovalStatus r) (ExitCode r) (Meta r) (Revealed r) "" ""
  = mkRecord (RTS r') (Command r') (Classification r') (ApprovalStatus r') (ExitCode r') (Meta r') (Revealed r') "" "".

Definition same_but_meta (r r' : AuditRecord) : Prop :=
  mkRecord (RTS r) (Command r) (Classification r) (ApprovalStatus r) (ExitCode r) None (Revealed r) "" ""
  = mkRecord (RTS r') (Command r') (Classification r') (ApprovalStatus r') (ExitCode r') None (Revealed r') "" "".

(** The levels do what they say: a higher level logs at least what a lower
    one does; a refusal is logged at every level but off; below all+full the
    file does not depend on the raw output, and below all+meta not on the
    metadata; and only a configuration that reads "off" turns the log off. *)
Theorem audit_levels :
  (forall l l' p r, level_val l <= level_val l' ->
     shouldEmit (NewAuditLogger l p) r = true -> shouldEmit (NewAuditLogger l' p) r = true)
  /\ (forall l p r, l <> AuditOff -> ApprovalStatus r = "denied" ->
        shouldEmit (NewAuditLogger l p) r = true)
  /\ (forall a r r' fs, level_val (level a) < level_val AuditAllFull -> same_but_output r r' ->
        RecordLine (Some a) r fs = RecordLine (Some a) r' fs)
  /\ (forall a r r' fs, level_val (level a) < level_val AuditAllMeta -> same_but_meta r r' ->
        RecordLine (Some a) r fs = RecordLine (Some a) r' fs)
  /\ (forall file, LoadAuditLevel file = AuditOff <->
        exists b, file = Some b /\ GoStr.ToLower (GoStr.TrimSpace b) = "off")
  /\ (forall l, ParseAuditLevel (LevelString l) = l).
Proof.
  split; [|split; [|split; [|split; [|split]]]].
  - intros [] [] p r Hl; cbn in *; done || lia.
  - intros [] p r Hl Hd; try done. cbn. by rewrite Hd, orb_true_r.
  - intros [l p] [? ? ? ? ? ? ? ? ?] [? ? ? ? ? ? ? ? ?] fs Hl [= -> -> -> -> -> -> ->].
    cbn in Hl. destruct l; done || (cbn in Hl; lia).
  - intros [l p] [? ? ? ? ? ? ? ? ?] [? ? ? ? ? ? ? ? ?] fs Hl [= -> -> -> -> -> ->].
    cbn in Hl. destruct l; done || (cbn in Hl; lia).
  - intros [b|]; [|split; [done|by intros (? & ? & _)]]. cbn. unfold ParseAuditLevel. split.
    + destruct (_ =s "off") eqn:E; [|by repeat case_match]. apply String.eqb_eq in E. eauto.
    + intros (b' & [= <-] & ->). done.
  - by intros [].
Qed.
