(* ===== verification/GateRevoke.v ===== *)
(** * The on-host half of a revoke (src/gate/revoke.go)

    [stripGateLines] with the line scanner it runs on, the candidates it looks
    for, and [Revoke] over the files of the host.  Each file operation may fail:
    [Faults] says which of them do. *)

From S2P Require Import Prelude RedactScanner Json Sigwire GateAudit.

Module Revoke.
Import Bytes Audit.

Definition AuthorizedKeysRevokeBackup : string := ".sshgate-revoke-backup".

(** RevokeResult *)
Record RevokeResult := mkResult {
  AuthorizedKeysPath : string;
  LinesRemoved : nat;
  BackupPath : string;
  GateDirRemoved : bool
}.

(** ** Lines *)

(** The buffer limit given to the scanner: a line, up to its newline or the end
    of the input, must be shorter. *)
Definition maxLine : nat := 1024 * 1024.

(** dropCR *)
Fixpoint dropCR (line : list ascii) : list ascii :=
  match line with
  | [] => []
  | [c] => if c =c CR then [] else [c]
  | c :: line => c :: dropCR line
  end.

(** The tokens of a bufio.Scanner over lines: it stops for good at a line that
    does not fit its buffer, and the empty rest after a last newline is no line. *)
Fixpoint scan_tokens (limit : nat) (lines : list (list ascii)) : list (list ascii) :=
  match lines with
  | [] => []
  | [[]] => []
  | line :: lines =>
      if limit <=? List.length line then []
      else dropCR line :: scan_tokens limit lines
  end.

Definition Scan (body : list ascii) : list (list ascii) :=
  scan_tokens maxLine (split_on (fun c => c =c NL) body).

(** The needles of the candidates: [command="<c>"]. *)
Definition needle (c : string) : list ascii :=
  lit "command=" ++ DQUOTE :: lit c ++ [DQUOTE].

Definition needles (candidates : list string) : list (list ascii) :=
  map needle (List.filter (fun c => negb (c =s "")) candidates).

Definition matched (ns : list (list ascii)) (line : list ascii) : bool :=
  existsb (fun n => contains line n) ns.

(** The loop of stripGateLines. *)
Fixpoint strip_loop (ns : list (list ascii)) (lines : list (list ascii)) : list ascii * nat :=
  match lines with
  | [] => ([], 0)
  | line :: lines =>
      let '(out, removed) := strip_loop ns lines in
      if matched ns line then (out, S removed) else (line ++ NL :: out, removed)
  end.

(** stripGateLines *)
Definition stripGateLines (body : list ascii) (candidates : list string) : list ascii * nat :=
  strip_loop (needles candidates) (Scan body).

(** ** Candidates

    Paths as filepath.Clean sees them: rooted or not, and their components. *)

Definition components (p : string) : list string :=
  map string_of_list_ascii (split_on (fun c => c =c "/")%char (list_ascii_of_string p)).

Definition rooted (p : string) : bool := GoStr.HasPrefix p "/".

(** Clean: the components kept, nearest first. *)
Fixpoint clean_components (is_rooted : bool) (acc : list string) (cs : list string) : list string :=
  match cs with
  | [] => acc
  | c :: cs =>
      if (c =s "") || (c =s ".") then clean_components is_rooted acc cs
      else if c =s ".." then
        match acc with
        | [] => clean_components is_rooted (if is_rooted then [] else [".."]) cs
        | a :: acc' =>
            if a =s ".." then clean_components is_rooted (".." :: acc) cs
            else clean_components is_rooted acc' cs
        end
      else clean_components is_rooted (c :: acc) cs
  end.

Definition Clean (p : string) : list string :=
  reverse (clean_components (rooted p) [] (components p)).

Fixpoint join_slash (cs : list string) : string :=
  match cs with
  | [] => ""
  | [c] => c
  | c :: cs => c +:+ "/" +:+ join_slash cs
  end.

(** Past the common prefix. *)
Fixpoint strip_common (a b : list string) : list string * list string :=
  match a, b with
  | x :: a', y :: b' => if x =s y then strip_common a' b' else (a, b)
  | _, _ => (a, b)
  end.

(** filepath.Rel; [None] is its error. *)
Definition Rel (base targ : string) : option string :=
  if negb (Bool.eqb (rooted base) (rooted targ)) then None
  else
    let '(b, t) := strip_common (Clean base) (Clean targ) in
    match b, t with
    | [], [] => Some "."
    | [], _ => Some (join_slash t)
    | b0 :: _, _ =>
        if b0 =s ".." then None
        else Some (join_slash (List.repeat ".." (List.length b) ++ t))
    end.

(** startsWithDotDot *)
Definition startsWithDotDot (p : string) : bool :=
  (p =s "..") || GoStr.HasPrefix p "../".

(** gateBinaryCandidates *)
Definition gateBinaryCandidates (homeDir gateBinaryPath : string) : list string :=
  if (homeDir =s "") || (gateBinaryPath =s "") then [gateBinaryPath]
  else match Rel homeDir gateBinaryPath with
       | Some rel =>
           if negb (startsWithDotDot rel) then [gateBinaryPath; "~/" +:+ rel]
           else [gateBinaryPath]
       | None => [gateBinaryPath]
       end.

(** ** Revoke *)

(** The file operations that fail.  A backup that fails may have written the
    first bytes, a removal that fails may have removed some paths already; the
    rewrite goes through a temporary file and a rename. *)
Record Faults := mkFaults {
  read_fails : bool;
  backup_fails : option (option nat);
  rewrite_fails : bool;
  stat_fails : bool;
  remove_fails : option (string -> bool)
}.

(** The host: its files, and the directories that exist. *)
Record Host := mkHost {
  files : Files;
  dirs : list string
}.

Definition set_file (h : Host) (p : string) (b : list ascii) : Host :=
  mkHost (mkFiles (<[p := b]> (content (files h))) (can_append (files h))) (dirs h).

(** [p] lies in directory [dir]. *)
Definition under (dir p : string) : bool := GoStr.HasPrefix p (dir +:+ "/").

(** os.RemoveAll: the directory, what is below it, and with it the chance to
    open a file there. *)
Definition remove_all (h : Host) (dir : string) : Host :=
  mkHost
    (mkFiles (filter (fun kv => under dir kv.1 = false) (content (files h)))
             (fun p => can_append (files h) p && negb (under dir p)))
    (List.filter (fun d => negb ((d =s dir) || under dir d)) (dirs h)).

(** os.RemoveAll that fails: some of what is below the directory is gone. *)
Definition remove_some (h : Host) (dir : string) (gone : string -> bool) : Host :=
  mkHost
    (mkFiles (filter (fun kv => under dir kv.1 && gone kv.1 = false) (content (files h)))
             (can_append (files h)))
    (List.filter (fun d => negb (under dir d && gone d)) (dirs h)).

(** The errors of Revoke. *)
Inductive RevokeError :=
  | EmptyHomeDir | EmptyGateDir | EmptyBinaryPath
  | ReadFailed | BackupFailed | RewriteFailed | RemoveFailed | StatFailed.

(** The strip half: what is removed and written, or the failure.  The rewrite is
    atomic: it happens whole or not at all. *)
Definition stripAuthorizedKeys (f : Faults) (authPath : string) (candidates : list string)
    (h : Host) : Host * RevokeResult * option RevokeError :=
  let res := mkResult authPath 0 "" false in
  match content (files h) !! authPath with
  | None => (h, res, None)
  | Some body =>
      if read_fails f then (h, res, Some ReadFailed)
      else
        let '(rewritten, removed) := stripGateLines body candidates in
        let res := mkResult authPath removed "" false in
        if removed =? 0 then (h, res, None)
        else
          let backupPath := authPath +:+ AuthorizedKeysRevokeBackup in
          match backup_fails f with
          | Some None => (h, res, Some BackupFailed)
          | Some (Some n) => (set_file h backupPath (firstn n body), res, Some BackupFailed)
          | None =>
              let h := set_file h backupPath body in
              let res := mkResult authPath removed backupPath false in
              if rewrite_fails f then (h, res, Some RewriteFailed)
              else (set_file h authPath rewritten, res, None)
          end
  end.

(** Revoke *)
Definition RevokeGate (f : Faults) (homeDir gateDir gateBinaryPath : string) (h : Host)
    : Host * RevokeResult * option RevokeError :=
  let none := mkResult "" 0 "" false in
  if homeDir =s "" then (h, none, Some EmptyHomeDir)
  else if gateDir =s "" then (h, none, Some EmptyGateDir)
  else if gateBinaryPath =s "" then (h, none, Some EmptyBinaryPath)
  else
    let authPath := join_path homeDir ".ssh/authorized_keys" in
    let candidates := gateBinaryCandidates homeDir gateBinaryPath in
    let '(h, res, err) := stripAuthorizedKeys f authPath candidates h in
    match err with
    | Some e => (h, res, Some e)
    | None =>
        if stat_fails f then (h, res, Some StatFailed)
        else if existsb (String.eqb gateDir) (dirs h) then
          match remove_fails f with
          | Some gone => (remove_some h gateDir gone, res, Some RemoveFailed)
          | None =>
              (remove_all h gateDir,
               mkResult (AuthorizedKeysPath res) (LinesRemoved res) (BackupPath res) true, None)
          end
        else (h, res, None)
    end.

(** FormatRevokeStdout *)
Definition FormatRevokeStdout (res : RevokeResult) : string :=
  "SSHGATE_REVOKED"
  +:+ (if 0 <? LinesRemoved res
       then " lines=" +:+ string_of_list_ascii (Json.format_int (Z.of_nat (LinesRemoved res)))
       else "")
  +:+ (if GateDirRemoved res then " dir=removed" else " dir=absent").

End Revoke.
