(* ===== verification/GateRevokeProps.v ===== *)
(** * What a revoke guarantees *)

From S2P Require Import Prelude RedactScanner RedactMatchProps Json Sigwire GateAudit GateRevoke.
Import Bytes Audit Revoke.

Lemma maxLine_pos : 0 < maxLine.
Proof. unfold maxLine. lia. Qed.

Lemma maxLine_big : 1000 < maxLine.
Proof. unfold maxLine. lia. Qed.

#[local] Opaque maxLine.

(** ** Lines *)

Definition file_lines (body : list ascii) : list (list ascii) := split_on (fun c => c =c NL) body.

(** The lines of a file as a text tool counts them: no empty line after the last
    newline. *)
Fixpoint text_lines (lines : list (list ascii)) : list (list ascii) :=
  match lines with
  | [] => []
  | [[]] => []
  | l :: lines => l :: text_lines lines
  end.

Definition unlines (ls : list (list ascii)) : list ascii := List.concat (map (fun l => l ++ [NL]) ls).

Definition short (line : list ascii) : Prop := List.length line < maxLine.

Lemma scan_tokens_short lines :
  Forall short lines -> scan_tokens maxLine lines = map dropCR (text_lines lines).
Proof.
  induction 1 as [|l lines Hl _ IH]; [done|]. unfold short in Hl.
  cbn [scan_tokens text_lines]. destruct l as [|c l]; destruct lines as [|l' lines];
    try done; destruct (maxLine <=? _) eqn:E; bool_hyps; try lia; cbn [map]; by rewrite IH.
Qed.

Lemma scan_cons l ls :
  l <> [] ->
  scan_tokens maxLine (l :: ls)
  = if maxLine <=? List.length l then [] else dropCR l :: scan_tokens maxLine ls.
Proof. by destruct l. Qed.

Lemma strip_loop_spec ns lines :
  strip_loop ns lines
  = (unlines (List.filter (fun l => negb (matched ns l)) lines),
     List.length (List.filter (matched ns) lines)).
Proof.
  unfold unlines. induction lines as [|l lines IH]; [done|]. cbn [strip_loop List.filter].
  rewrite IH. destruct (matched ns l); cbn [negb]; [done|].
  cbn [map List.concat]. by rewrite <- app_assoc.
Qed.

Definition newline_free (l : list ascii) : Prop := Forall (fun c => (c =c NL) = false) l.

Lemma split_unlines ls :
  Forall newline_free ls -> file_lines (unlines ls) = ls ++ [[]].
Proof.
  unfold file_lines, unlines. induction 1 as [|l ls Hl _ IH]; [done|]. cbn [map List.concat].
  rewrite <- app_assoc. cbn [app]. rewrite split_on_app by done.
  rewrite split_on_no_sep by done. by rewrite IH.
Qed.

Lemma split_newline_free b : Forall newline_free (file_lines b).
Proof.
  unfold file_lines. induction b as [|c b IH]; cbn [split_on]; [by repeat constructor|].
  destruct (c =c NL) eqn:E; [constructor; [constructor|done]|].
  destruct (split_on _ b) as [|h t]; [by repeat constructor|].
  apply Forall_cons in IH as [Hh Ht]. by repeat constructor.
Qed.

Lemma dropCR_incl l : exists suf, l = dropCR l ++ suf.
Proof.
  induction l as [|c [|d l] IH]; [by exists []|..].
  - cbn [dropCR]. destruct (c =c CR); [by exists [c]|by exists []].
  - destruct IH as [suf IH]. exists suf. change (dropCR (c :: d :: l)) with (c :: dropCR (d :: l)).
    cbn [app]. by rewrite <- IH.
Qed.

Lemma text_lines_app ls : Forall (fun l => True) ls -> text_lines (ls ++ [[]]) = ls.
Proof.
  intros _. induction ls as [|l ls IH]; [done|]. cbn [app text_lines].
  destruct l, ls; cbn [app] in *; by rewrite ?IH.
Qed.

Lemma text_lines_incl ls l : In l (text_lines ls) -> In l ls.
Proof.
  induction ls as [|x ls IH]; [done|]. cbn [text_lines]. destruct x as [|c x].
  - destruct ls; [done|]. intros [<-|H]; [by left|right; by apply IH].
  - intros [<-|H]; [by left|right; by apply IH].
Qed.

(** A needle found in a shortened line is in the line. *)
Lemma contains_app l y n : contains l n = true -> contains (l ++ y) n = true.
Proof.
  unfold contains. induction l as [|c l IH].
  - cbn [index app]. destruct (is_prefix n []) eqn:E; [|done]. intros _.
    apply (is_prefix_app _ _ y) in E. cbn [app] in E. destruct y; cbn [index]; by rewrite E.
  - cbn [index app]. destruct (is_prefix n (c :: l)) eqn:E.
    + intros _. apply (is_prefix_app _ _ y) in E. cbn [app] in E. by rewrite E.
    + destruct (index l n) eqn:E2; [|done]. intros _. specialize (IH eq_refl).
      destruct (is_prefix n (c :: l ++ y)); [done|]. by destruct (index (l ++ y) n).
Qed.

Lemma matched_dropCR ns l : matched ns l = false -> matched ns (dropCR l) = false.
Proof.
  intros H. apply not_true_is_false. intros (n & Hn & Hc)%existsb_exists.
  destruct (dropCR_incl l) as [suf Hs].
  assert (matched ns l = true) as Hm; [|congruence].
  apply existsb_exists. exists n. split; [done|]. rewrite Hs. by apply contains_app.
Qed.

Lemma dropCR_short l : short l -> short (dropCR l).
Proof.
  unfold short. destruct (dropCR_incl l) as [suf Hs]. rewrite Hs at 1. rewrite length_app. lia.
Qed.

Lemma dropCR_newline_free l : newline_free l -> newline_free (dropCR l).
Proof.
  unfold newline_free. destruct (dropCR_incl l) as [suf Hs]. rewrite Hs at 1.
  by intros [H _]%Forall_app.
Qed.

(** On a file whose lines fit the scanner, the strip removes exactly the
    lines with a gate directive and keeps the others in order (without a final
    carriage return), and counts what it removed; run again on its result it
    removes nothing. *)
Theorem strip_exact (body : list ascii) (candidates : list string)
    (Hshort : Forall short (file_lines body)) :
  let lines := map dropCR (text_lines (file_lines body)) in
  let ns := needles candidates in
  stripGateLines body candidates
  = (unlines (List.filter (fun l => negb (matched ns l)) lines),
     List.length (List.filter (matched ns) lines))
  /\ (stripGateLines (fst (stripGateLines body candidates)) candidates).2 = 0.
Proof.
  intros lines ns. assert (Scan body = lines) as Hscan by (by apply scan_tokens_short).
  assert (stripGateLines body candidates
          = (unlines (List.filter (fun l => negb (matched ns l)) lines),
             List.length (List.filter (matched ns) lines))) as Hs.
  { unfold stripGateLines. rewrite Hscan. apply strip_loop_spec. }
  split; [done|]. rewrite Hs. cbn [fst]. set (kept := List.filter _ lines).
  assert (Forall (fun l => newline_free l /\ short l /\ matched ns l = false) kept) as Hkept.
  { apply List.Forall_forall. intros l Hl. apply filter_In in Hl as [Hl Hm].
    apply negb_true_iff in Hm. unfold lines in Hl. apply in_map_iff in Hl as (l0 & <- & Hl0).
    apply text_lines_incl in Hl0. pose proof (split_newline_free body) as Hnf.
    rewrite List.Forall_forall in Hnf, Hshort.
    split; [by apply dropCR_newline_free, Hnf|]. split; [by apply dropCR_short, Hshort|done]. }
  unfold stripGateLines. rewrite strip_loop_spec. cbn [snd]. unfold Scan.
  change (split_on (fun c => c =c NL) (unlines kept)) with (file_lines (unlines kept)).
  rewrite split_unlines by (eapply Forall_impl; [exact Hkept|]; cbn; by intros ? [? _]).
  rewrite scan_tokens_short.
  - rewrite text_lines_app by (by apply Forall_true). fold ns.
    induction Hkept as [|l kept' (_ & _ & Hm) _ IH]; [done|]. cbn [map List.filter].
    by rewrite matched_dropCR.
  - apply Forall_app. split.
    + eapply Forall_impl; [exact Hkept|]. cbn. by intros ? (_ & ? & _).
    + constructor; [|done]. unfold short. cbn [List.length].
      apply maxLine_pos.
Qed.

(** A line that does not fit the scanner ends the scan: it and every line
    after it are lost from the rewritten file, keys of other people included. *)
Theorem strip_loses_lines (g long rest : list ascii) (candidates : list string)
    (Hg : matched (needles candidates) (dropCR g) = true) (Hgn : newline_free g)
    (Hgs : short g) (Hgne : g <> []) (Hln : newline_free long) (Hlong : ~ short long) :
  stripGateLines (g ++ NL :: long ++ NL :: rest) candidates = ([], 1).
Proof.
  unfold stripGateLines, Scan. rewrite split_on_app, split_on_no_sep by done.
  rewrite split_on_app, split_on_no_sep by done. cbn [app].
  unfold short in *. rewrite (scan_cons g) by done.
  destruct (maxLine <=? List.length g) eqn:E; bool_hyps; [lia|].
  rewrite scan_cons by (intros ->; cbn in Hlong; pose proof maxLine_pos; lia).
  destruct (maxLine <=? List.length long) eqn:E2; bool_hyps; [|lia].
  cbn [strip_loop]. by rewrite Hg.
Qed.

(** ** Witnesses *)

Definition sample_keys : list ascii :=
  lit "command=" ++ DQUOTE :: lit "/g/gate" ++ DQUOTE :: lit " ssh-ed25519 A me" ++ NL
    :: lit "ssh-rsa B other" ++ [NL].

Lemma small_short body :
  List.length body < 1000 -> Forall short (file_lines body).
Proof.
  intros Hb. assert (Forall (fun l => List.length l <= List.length body) (file_lines body)) as H.
  { clear Hb. unfold file_lines. induction body as [|c b IH]; cbn [split_on]; [by repeat constructor|].
    assert (Forall (fun l => List.length l <= S (List.length b)) (split_on (fun c => c =c NL) b)) as IH'
      by (eapply Forall_impl; [exact IH|]; cbn; lia).
    destruct (c =c NL); [constructor; [apply Nat.le_0_l|exact IH']|].
    destruct (split_on _ b) as [|h t]; [constructor; [cbn; lia|constructor]|].
    apply Forall_cons in IH as [Hh _]. apply Forall_cons in IH' as [_ Ht].
    constructor; [cbn; lia|exact Ht]. }
  eapply Forall_impl; [exact H|]. cbn. intros l Hl. unfold short.
  pose proof maxLine_big. lia.
Qed.

Lemma strip_exact_witness :
  stripGateLines sample_keys ["/g/gate"] = (lit "ssh-rsa B other" ++ [NL], 1).
Proof.
  destruct (strip_exact sample_keys ["/g/gate"]) as [H _].
  - apply small_short. vm_compute. repeat constructor.
  - rewrite H. vm_compute. reflexivity.
Defined.

Definition gate_line : list ascii :=
  lit "command=" ++ DQUOTE :: lit "/g/gate" ++ DQUOTE :: lit " ssh-ed25519 A me".

Lemma strip_loses_lines_witness :
  stripGateLines (gate_line ++ NL :: List.repeat "x"%char maxLine ++ NL :: lit "ssh-rsa B other")
    ["/g/gate"] = ([], 1).
Proof.
  apply (strip_loses_lines gate_line (List.repeat "x"%char maxLine) (lit "ssh-rsa B other")
           ["/g/gate"]).
  - vm_compute. reflexivity.
  - repeat constructor.
  - unfold short. pose proof maxLine_big. vm_compute List.length. lia.
  - discriminate.
  - apply List.Forall_forall. intros c Hc. apply List.repeat_spec in Hc as ->. reflexivity.
  - unfold short. rewrite List.repeat_length. lia.
Defined.

(** ** The whole revoke *)

Definition auth_path (home : string) : string := join_path home ".ssh/authorized_keys".
Definition backup_path (home : string) : string := auth_path home +:+ AuthorizedKeysRevokeBackup.

(** The keys file is as it was, or it is the stripped one and the backup holds
    what it was. *)
Definition keys_recoverable (h h' : Host) (home : string) (candidates : list string) : Prop :=
  content (files h') !! auth_path home = content (files h) !! auth_path home
  \/ exists body, content (files h) !! auth_path home = Some body
       /\ content (files h') !! auth_path home = Some (stripGateLines body candidates).1
       /\ content (files h') !! backup_path home = Some body.

Lemma app_neq (s t : string) : t <> "" -> s +:+ t <> s.
Proof.
  intros Ht H. apply (f_equal String.length) in H. rewrite str_length_app in H.
  destruct t; [done|]. cbn in H. lia.
Qed.

Lemma backup_neq home : backup_path home <> auth_path home.
Proof. by apply app_neq. Qed.

Lemma strip_half f home candidates h h1 res err :
  stripAuthorizedKeys f (auth_path home) candidates h = (h1, res, err) ->
  keys_recoverable h h1 home candidates
  /\ (forall p, p <> auth_path home -> p <> backup_path home ->
        content (files h1) !! p = content (files h) !! p)
  /\ dirs h1 = dirs h /\ GateDirRemoved res = false
  /\ (err = None -> forall body, content (files h) !! auth_path home = Some body ->
        LinesRemoved res = (stripGateLines body candidates).2
        /\ (content (files h1) !! auth_path home = Some (stripGateLines body candidates).1
            \/ LinesRemoved res = 0)).
Proof.
  unfold stripAuthorizedKeys. intros H.
  destruct (content (files h) !! auth_path home) as [body|] eqn:Eb.
  2:{ injection H as <- <- <-. repeat split; [by left|done..]. }
  destruct (read_fails f); [injection H as <- <- <-; repeat split; [by left|done..]|].
  destruct (stripGateLines body candidates) as [rew removed] eqn:Es.
  destruct (removed =? 0) eqn:E0.
  { bool_hyps. injection H as <- <- <-. split; [by left|]. do 3 (split; [done|]).
    intros _ b [= <-]. rewrite Es. cbn. auto. }
  fold (backup_path home) in H. pose proof (backup_neq home) as Hne.
  destruct (backup_fails f) as [[n|]|].
  { injection H as <- <- <-. cbn. split; [left; cbn; by rewrite lookup_insert_ne|].
    split; [intros p _ Hp; by rewrite lookup_insert_ne|]. done. }
  { injection H as <- <- <-. split; [by left|]. done. }
  destruct (rewrite_fails f); injection H as <- <- <-; cbn [set_file files content dirs].
  - split; [left; cbn; by rewrite lookup_insert_ne|].
    split; [intros p _ Hp; by rewrite lookup_insert_ne|]. done.
  - split; [right; exists body; rewrite Es; cbn; rewrite lookup_insert_eq,
      lookup_insert_ne, lookup_insert_eq by done; done|].
    split; [intros p Hp Hq; by rewrite !lookup_insert_ne|]. do 2 (split; [done|]).
    intros _ b [= <-]. rewrite Es. cbn. rewrite lookup_insert_eq. auto.
Qed.

Lemma remove_all_lookup h dir p :
  under dir p = false -> content (files (remove_all h dir)) !! p = content (files h) !! p.
Proof.
  intros Hu. cbn. destruct (content (files h) !! p) as [b|] eqn:E.
  - by apply map_lookup_filter_Some.
  - apply map_lookup_filter_None. by left.
Qed.

Lemma remove_some_lookup h dir gone p :
  under dir p = false ->
  content (files (remove_some h dir gone)) !! p = content (files h) !! p.
Proof.
  intros Hu. cbn. destruct (content (files h) !! p) as [b|] eqn:E.
  - apply map_lookup_filter_Some. split; [done|]. change (under dir p && gone p = false). by rewrite Hu.
  - apply map_lookup_filter_None. by left.
Qed.

Lemma under_self dir : under dir dir = false.
Proof.
  unfold under. destruct (GoStr.HasPrefix dir (dir +:+ "/")) eqn:E; [|done].
  apply prefix_spec in E as [r Hr].
  apply (f_equal String.length) in Hr. rewrite !str_length_app in Hr. cbn in Hr. lia.
Qed.

(** C38: Whatever fails on the way, a revoke leaves the keys file as it was or
    stripped with the original in the backup, touches no other file outside the
    gate directory, removes that directory only after the strip succeeded, and
    on an error leaves it in place, so that the revoke can be repeated. *)
Theorem revoke_safe (f : Faults) (home gateDir bin : string) (h : Host)
    (Hauth : under gateDir (auth_path home) = false)
    (Hback : under gateDir (backup_path home) = false) :
  let candidates := gateBinaryCandidates home bin in
  let '(h', res, err) := RevokeGate f home gateDir bin h in
  keys_recoverable h h' home candidates
  /\ (forall p, p <> auth_path home -> p <> backup_path home -> under gateDir p = false ->
        content (files h') !! p = content (files h) !! p)
  /\ (err <> None -> GateDirRemoved res = false /\ (In gateDir (dirs h) -> In gateDir (dirs h')))
  /\ (GateDirRemoved res = true ->
        forall body, content (files h) !! auth_path home = Some body ->
          LinesRemoved res = (stripGateLines body candidates).2
          /\ (content (files h') !! auth_path home = Some (stripGateLines body candidates).1
              \/ LinesRemoved res = 0)).
Proof.
  intros candidates. unfold RevokeGate.
  destruct (home =s ""); [by repeat split; try left|].
  destruct (gateDir =s ""); [by repeat split; try left|].
  destruct (bin =s ""); [by repeat split; try left|].
  fold (auth_path home). fold candidates.
  destruct (stripAuthorizedKeys f (auth_path home) candidates h) as [[h1 res1] err1] eqn:Es.
  apply strip_half in Es as (Hk & Ho & Hd & Hg & Hn).
  destruct err1 as [e|]; [repeat split; rewrite ?Hd; auto; congruence|].
  destruct (stat_fails f); [repeat split; rewrite ?Hd; auto; congruence|].
  destruct (existsb _ _); [|repeat split; auto; congruence].
  destruct (remove_fails f) as [gone|].
  { split; [unfold keys_recoverable in *; by rewrite !remove_some_lookup|].
    split; [intros p H1 H2 H3; rewrite remove_some_lookup by done; by apply Ho|].
    split; [|by rewrite Hg]. intros _. split; [done|]. intros Hin. cbn.
    apply filter_In. split; [by rewrite Hd|]. by rewrite under_self. }
  split; [|split; [|split]].
  - unfold keys_recoverable in *. by rewrite !remove_all_lookup.
  - intros p H1 H2 H3. rewrite remove_all_lookup by done. by apply Ho.
  - done.
  - intros _ body Hb. cbn [LinesRemoved]. rewrite remove_all_lookup by done. by apply Hn.
Qed.

Definition sample_host : Host :=
  mkHost (mkFiles {[ "/h/.ssh/authorized_keys" := sample_keys ]} (fun _ => true)) ["/g"].

Lemma revoke_safe_witness :
  under "/g" (auth_path "/h") = false /\ under "/g" (backup_path "/h") = false
  /\ keys_recoverable sample_host
       (RevokeGate (mkFaults false None true false None) "/h" "/g" "/g/gate" sample_host).1.1
       "/h" (gateBinaryCandidates "/h" "/g/gate").
Proof.
  split; [reflexivity|]. split; [reflexivity|].
  pose proof (revoke_safe (mkFaults false None true false None) "/h" "/g" "/g/gate" sample_host
                eq_refl eq_refl) as H. cbv zeta in H.
  destruct (RevokeGate (mkFaults false None true false None) "/h" "/g" "/g/gate" sample_host)
    as [[h' res] err]. destruct H as [H _]. exact H.
Defined.
