(* ===== verification/GateExec.v ===== *)
(** * Running a command (src/gate/executor.go)

    The child is what it writes to each of its two pipes, how it ended and how
    long it took; it runs with no input.  The SSH stream of the gate takes every
    write.  [ExecWithRedaction] puts the two streams through the counting
    writers, and through the redactor above them when it is on. *)

From S2P Require Import Prelude Sigwire GateVerify RedactScanner RedactWriter.

Module Exec.
Import Bytes Scanner Writer.

(** countingWriter; [sent] is what its dst has accepted, [cap] the captured head. *)
Record countingWriter := mkCounting {
  sent : list ascii;
  bytes : Z;
  lines : Z;
  captureLimit : Z;
  cap : list ascii
}.

Definition new_counting (limit : Z) : countingWriter := mkCounting [] 0 0 limit [].

(** The newlines among some bytes. *)
Definition count_newlines (p : list ascii) : nat := List.length (List.filter (fun b => b =c NL) p).

(** [atomic.Int64.Add] *)
Definition add64 (a b : Z) : Z := Verify.wrap64 (a + b).

(** countingWriter.Write of [p], of which dst accepts the first [n] bytes. *)
Definition CountingWrite (n : nat) (p : list ascii) (c : countingWriter) : countingWriter :=
  if n =? 0 then c
  else
    let bytes' := add64 (bytes c) (Z.of_nat n) in
    let lines' := add64 (lines c) (Z.of_nat (count_newlines (take n p))) in
    let have := Z.of_nat (List.length (cap c)) in
    let cap' :=
      if ((0 <? captureLimit c) && (have <? captureLimit c))%Z
      then
        let room := (captureLimit c - have)%Z in
        let room := if (Z.of_nat n <? room)%Z then Z.of_nat n else room in
        cap c ++ take (Z.to_nat room) p
      else cap c in
    mkCounting (sent c ++ take n p) bytes' lines' (captureLimit c) cap'.

Definition truncation_marker : list ascii := NL :: lit "[SSHGATE_AUDIT_TRUNCATED]".

(** captured *)
Definition captured (c : countingWriter) : list ascii :=
  if (captureLimit c =? 0)%Z then []
  else if (Z.of_nat (List.length (cap c)) <? bytes c)%Z then cap c ++ truncation_marker
  else cap c.

(** Writes that dst accepts in full. *)
Definition count_chunks (chunks : list (list ascii)) (c : countingWriter) : countingWriter :=
  fold_left (fun c p => CountingWrite (List.length p) p c) chunks c.

(** ** The child *)

(** syscall.WaitStatus, for a child that did not exit with 0. *)
Inductive WaitStatus :=
  | Exited (code : Z)
  | Signaled (signum : Z).

(** What [Wait] returns. *)
Inductive WaitResult :=
  | WaitOk
  | WaitExit (ws : WaitStatus)
  | WaitFailed.

(** A child that started; a child that did not is [None]. *)
Record Child := mkChild {
  stdout_chunks : list (list ascii);
  stderr_chunks : list (list ascii);
  wait : WaitResult;
  duration : Z
}.

(** ExecOpts *)
Record ExecOpts := mkOpts {
  SessionSalt : list ascii;
  Rules : list Rule;
  Reveal : bool;
  CaptureLimit : Z
}.

(** ExecResult *)
Record ExecResult := mkResult {
  ExitCode : Z;
  StdoutBytes : Z;
  StderrBytes : Z;
  Lines : Z;
  Duration : Z;
  Stdout : list ascii;
  Stderr : list ascii
}.

Definition no_result (d : Z) : ExecResult := mkResult (-1) 0 0 0 d [] [].

Inductive ExecError := EmptyCommand | StartFailed | RedactFailed | WaitError.

(** What ExecWithRedaction leaves behind: its results and the SSH stream. *)
Record Outcome := mkOutcome {
  res : ExecResult;
  err : option ExecError;
  to_stdout : list ascii;
  to_stderr : list ascii
}.

(** The exit code of a wait status. *)
Definition exit_code (w : WaitResult) : Z * option ExecError :=
  match w with
  | WaitOk => (0%Z, None)
  | WaitExit (Signaled s) => ((128 + s)%Z, None)
  | WaitExit (Exited code) => (code, None)
  | WaitFailed => ((-1)%Z, Some WaitError)
  end.

Section Exec.
Context `{Hmac}.

(** The redactor is in the path. *)
Definition redacting (o : ExecOpts) : bool :=
  negb (Reveal o) && negb (match Rules o with [] => true | _ => false end).

(** One stream: the child's chunks through the redactor, if it is on, into the
    counting writer.  [None] is a Write after Close, which does not happen. *)
Definition stream (o : ExecOpts) (chunks : list (list ascii)) : option countingWriter :=
  let c := new_counting (CaptureLimit o) in
  if redacting o then
    match writes chunks (NewWriter (SessionSalt o) (Rules o)) with
    | Some w => Some (count_chunks (out (Close w)) c)
    | None => None
    end
  else Some (count_chunks chunks c).

(** ExecWithRedaction *)
Definition ExecWithRedaction (cmd : string) (child : option Child) (start_time : Z)
    (o : ExecOpts) : Outcome :=
  if GoStr.TrimSpace cmd =s "" then mkOutcome (no_result 0) (Some EmptyCommand) [] []
  else match child with
       | None => mkOutcome (no_result start_time) (Some StartFailed) [] []
       | Some c =>
           match stream o (stdout_chunks c), stream o (stderr_chunks c) with
           | Some outCount, Some errCount =>
               let '(code, e) := exit_code (wait c) in
               mkOutcome
                 (mkResult code (bytes outCount) (bytes errCount) (lines outCount) (duration c)
                    (captured outCount) (captured errCount))
                 e (sent outCount) (sent errCount)
           | _, _ => mkOutcome (no_result (duration c)) (Some RedactFailed) [] []
           end
       end.

End Exec.

End Exec.
