(* ===== verification/GateExecProps.v ===== *)
(** * What running a command guarantees

    The counters and the capture of one stream are exact for any writes; the SSH
    stream is the child's output, through the redactor exactly when it is on;
    the result carries the child's status. *)

From S2P Require Import Prelude Sigwire GateVerify RedactScanner RedactMatchProps RedactWriter RedactStreamProps GateExec.
Import Bytes Scanner Writer Exec.

(** ** Counting *)

Lemma wrap64_small z : (0 <= z < 2 ^ 63)%Z -> Verify.wrap64 z = z.
Proof. intros. unfold Verify.wrap64. rewrite Z.mod_small; lia. Qed.

Lemma add64_wrap a b : add64 (Verify.wrap64 a) b = Verify.wrap64 (a + b).
Proof.
  unfold add64, Verify.wrap64. f_equal.
  replace ((a + 2 ^ 63) mod 2 ^ 64 - 2 ^ 63 + b + 2 ^ 63)%Z
    with ((a + 2 ^ 63) mod 2 ^ 64 + b)%Z by lia.
  rewrite Z.add_mod_idemp_l by done. f_equal. lia.
Qed.

Lemma count_newlines_app p q : count_newlines (p ++ q) = count_newlines p + count_newlines q.
Proof. unfold count_newlines. by rewrite List.filter_app, length_app. Qed.

(** The state of a counting writer that has passed [total] on. *)
Definition counted (limit : Z) (total : list ascii) : countingWriter :=
  mkCounting total (Verify.wrap64 (Z.of_nat (List.length total)))
    (Verify.wrap64 (Z.of_nat (count_newlines total))) limit (take (Z.to_nat limit) total).

Lemma new_counted limit : new_counting limit = counted limit [].
Proof. unfold new_counting, counted. cbn. by rewrite firstn_nil. Qed.

Lemma CountingWrite_counted n p limit total :
  (0 <= limit)%Z -> n <= List.length p ->
  CountingWrite n p (counted limit total) = counted limit (total ++ take n p).
Proof.
  intros Hl Hn. unfold CountingWrite, counted. cbn [sent bytes lines captureLimit cap].
  destruct (n =? 0) eqn:E0; bool_hyps; [subst; by rewrite take_0, app_nil_r|].
  assert (List.length (take n p) = n) as Hlen by (rewrite length_take; lia).
  f_equal.
  - by rewrite add64_wrap, length_app, Hlen, Nat2Z.inj_add.
  - by rewrite add64_wrap, count_newlines_app, Nat2Z.inj_add.
  - rewrite length_take, firstn_app.
    destruct ((0 <? limit) && _)%Z eqn:E; bool_hyps.
    + rewrite (take_ge total) by lia. f_equal. destruct (_ <? _)%Z eqn:Er; bool_hyps.
      * rewrite Nat2Z.id, take_take. f_equal. lia.
      * rewrite take_take. f_equal. lia.
    + assert (take (Z.to_nat limit - List.length total) (take n p) = []) as ->;
        [|by rewrite app_nil_r].
      destruct E; bool_hyps; replace (Z.to_nat limit - List.length total) with 0 by lia; done.
Qed.

Lemma count_chunks_counted limit chunks total :
  (0 <= limit)%Z ->
  count_chunks chunks (counted limit total) = counted limit (total ++ List.concat chunks).
Proof.
  intros Hl. revert total. induction chunks as [|p chunks IH]; intros total; cbn.
  - by rewrite app_nil_r.
  - rewrite CountingWrite_counted, firstn_all by lia. unfold count_chunks in IH.
    by rewrite IH, app_assoc.
Qed.

(** What is captured of a stream: all of it, or its head and the marker. *)
Definition capture (limit : Z) (total : list ascii) : list ascii :=
  if (limit =? 0)%Z then []
  else if (Z.of_nat (List.length total) <=? limit)%Z then total
  else take (Z.to_nat limit) total ++ truncation_marker.

Lemma captured_counted limit total :
  (0 <= limit)%Z -> (Z.of_nat (List.length total) < 2 ^ 63)%Z ->
  captured (counted limit total) = capture limit total.
Proof.
  intros Hl Ht. unfold captured, capture, counted. cbn [captureLimit cap bytes].
  destruct (limit =? 0)%Z eqn:E0; [done|]. rewrite length_take, wrap64_small by lia.
  destruct (_ <? _)%Z eqn:E1; destruct (_ <=? _)%Z eqn:E2; bool_hyps; lia || done
    || apply take_ge; lia.
Qed.

(** A writer's run: what dst accepted of each write. *)
Definition run_counting (limit : Z) (ws : list (nat * list ascii)) : countingWriter :=
  fold_left (fun c w => CountingWrite w.1 w.2 c) ws (new_counting limit).

(** Whatever is written and however much of each write dst accepts, the
    counting writer's byte and line counts are those of the bytes dst accepted,
    and its capture is those bytes when they fit the limit, and otherwise
    exactly their head and the truncation marker. *)
Theorem counting_exact (limit : Z) (ws : list (nat * list ascii))
    (Hlimit : (0 <= limit)%Z) (Hws : Forall (fun w => w.1 <= List.length w.2) ws)
    (Hsmall : (Z.of_nat (List.length (flat_map (fun w => take w.1 w.2) ws)) < 2 ^ 63)%Z) :
  let total := flat_map (fun w => take w.1 w.2) ws in
  let c := run_counting limit ws in
  sent c = total
  /\ bytes c = Z.of_nat (List.length total)
  /\ lines c = Z.of_nat (count_newlines total)
  /\ captured c = capture limit total
  /\ List.length (captured c) <= Z.to_nat limit + List.length truncation_marker.
Proof.
  assert (forall total, fold_left (fun c w => CountingWrite w.1 w.2 c) ws (counted limit total)
    = counted limit (total ++ flat_map (fun w => take w.1 w.2) ws)) as Hrun.
  { clear Hsmall. induction Hws as [|w ws Hw _ IH]; intros total; cbn.
    - by rewrite app_nil_r.
    - by rewrite CountingWrite_counted, IH, app_assoc. }
  intros total c. subst c. unfold run_counting. rewrite new_counted, Hrun. cbn [app].
  fold total in Hsmall |- *. rewrite captured_counted by done.
  assert (count_newlines total <= List.length total) as Hc by apply List.filter_length_le.
  split; [done|]. split; [by apply wrap64_small; lia|]. split; [apply wrap64_small; lia|].
  split; [done|]. unfold capture. destruct (limit =? 0)%Z; cbn [List.length]; [lia|].
  destruct (_ <=? _)%Z eqn:E; bool_hyps; [lia|]. rewrite length_app, length_take. lia.
Qed.

(** ** The two streams *)

Section Exec.
Context `{Hmac}.

(** What a child's stream becomes on the SSH stream: the same bytes, or their
    pieces' output when the redactor is on. *)
Definition delivered (o : ExecOpts) (input output : list ascii) : Prop :=
  if redacting o then exists ps, input = src ps /\ output = dst (SessionSalt o) ps
  else output = input.

Lemma stream_delivers o chunks :
  Forall regex_ok (Rules o) -> (0 <= CaptureLimit o)%Z ->
  exists output, stream o chunks = Some (counted (CaptureLimit o) output)
                 /\ delivered o (List.concat chunks) output.
Proof.
  intros Hr Hl. unfold stream, delivered. rewrite new_counted. destruct (redacting o).
  - destruct (stream_pieces (SessionSalt o) (Rules o) chunks Hr) as (w & ps & Hw & Hs & Hd & _).
    rewrite Hw. exists (output (Close w)). rewrite count_chunks_counted by done.
    split; [done|]. by exists ps.
  - eexists. by rewrite count_chunks_counted.
Qed.

(** A child that started always has its result: both streams are delivered,
    each through a redactor of its own exactly when rules are configured and
    the command is not a reveal; the byte and line counts and the captured text
    are those of what was delivered; and the exit code is the child's, 128+n
    for a signal n, or -1 with an error when waiting failed. *)
Theorem exec_outcome (cmd : string) (c : Child) (t : Z) (o : ExecOpts)
    (Hcmd : GoStr.TrimSpace cmd <> "") (Hrules : Forall regex_ok (Rules o))
    (Hlimit : (0 <= CaptureLimit o)%Z) :
  let r := ExecWithRedaction cmd (Some c) t o in
  delivered o (List.concat (stdout_chunks c)) (to_stdout r)
  /\ delivered o (List.concat (stderr_chunks c)) (to_stderr r)
  /\ (ExitCode (res r), err r) = exit_code (wait c)
  /\ Duration (res r) = duration c
  /\ ((Z.of_nat (List.length (to_stdout r)) < 2 ^ 63)%Z ->
       StdoutBytes (res r) = Z.of_nat (List.length (to_stdout r))
       /\ Lines (res r) = Z.of_nat (count_newlines (to_stdout r))
       /\ Stdout (res r) = capture (CaptureLimit o) (to_stdout r))
  /\ ((Z.of_nat (List.length (to_stderr r)) < 2 ^ 63)%Z ->
       StderrBytes (res r) = Z.of_nat (List.length (to_stderr r))
       /\ Stderr (res r) = capture (CaptureLimit o) (to_stderr r)).
Proof.
  apply String.eqb_neq in Hcmd.
  destruct (stream_delivers o (stdout_chunks c) Hrules Hlimit) as (o1 & H1 & D1).
  destruct (stream_delivers o (stderr_chunks c) Hrules Hlimit) as (o2 & H2 & D2).
  cbv zeta. unfold ExecWithRedaction. rewrite Hcmd, H1, H2.
  destruct (exit_code (wait c)) as [code e].
  cbn [to_stdout to_stderr res err ExitCode Duration StdoutBytes StderrBytes Lines Stdout Stderr
       sent bytes lines counted].
  split; [done|]. split; [done|]. split; [done|]. split; [done|]. split; intros Hs.
  - assert (count_newlines o1 <= List.length o1) by apply List.filter_length_le.
    rewrite captured_counted, !wrap64_small by lia. done.
  - rewrite captured_counted, wrap64_small by lia. done.
Qed.

End Exec.

(** ** Witnesses *)

Lemma counting_exact_witness :
  captured (run_counting 4 [(2, lit "abc"); (0, lit "d"); (3, NL :: lit "xyz")])
  = lit "ab" ++ NL :: lit "x" ++ truncation_marker.
Proof.
  destruct (counting_exact 4 [(2, lit "abc"); (0, lit "d"); (3, NL :: lit "xyz")])
    as (_ & _ & _ & -> & _).
  - lia.
  - repeat constructor.
  - reflexivity.
  - reflexivity.
Defined.

#[local] Instance witness_hmac : Hmac := {| mac salt s := s ++ salt |}.

Definition sample_opts : ExecOpts := mkOpts (lit "salt") [] false 3.

Lemma exec_outcome_witness :
  let r := ExecWithRedaction "ls" (Some (mkChild [lit "ab"; NL :: lit "c"] [] (WaitExit (Exited 2)) 7))
             0 sample_opts in
  to_stdout r = lit "ab" ++ NL :: lit "c" /\ ExitCode (res r) = 2%Z
  /\ Stdout (res r) = lit "ab" ++ NL :: truncation_marker.
Proof.
  intros r. pose proof (exec_outcome "ls"
    (mkChild [lit "ab"; NL :: lit "c"] [] (WaitExit (Exited 2)) 7) 0 sample_opts) as Hw.
  destruct Hw as (H1 & _ & H3 & _ & H5 & _); [discriminate|constructor|vm_compute; discriminate|].
  fold r in H1, H3, H5. unfold delivered in H1. cbn in H1. split; [exact H1|].
  split; [exact (f_equal fst H3)|]. destruct H5 as (_ & _ & ->); [rewrite H1; reflexivity|].
  rewrite H1. reflexivity.
Defined.
