(* ===== verification/GateMain.v ===== *)
(** * One gate process (src/gate/cmd/sshgate-gate/main.go, src/gate/keystore.go)

    [run] as a function of what the process finds ([Env]) and of the world it
    changes ([World]): the files of the host, what it printed on either stream,
    its own log lines included, and the commands it ran.  A child is a function of
    its command and the host, which it may change in any way.  The words of an
    operating-system or library error inside a log line are given. *)

From S2P Require Import Prelude Json ClassifyArgs Classify Sigwire GateVerify RedactScanner RedactWriter GateAudit GateRevoke GateExec.

(** encoding/pem: the bytes of the first block, if there is one. *)
Class PemDecoder := { pem_decode : list ascii -> option (list ascii) }.

Module Keystore.

(** What os.Stat and os.ReadFile answer for gate.pub. *)
Inductive PubFile :=
  | NotExist
  | StatError
  | Present (mode : Z) (data : option (list ascii)).

Inductive KeyError :=
  | StatFailed | InsecureMode (mode : Z) | ReadFailed | BadPEMBody (len : nat) | NeitherForm.

Definition PublicKeySize : nat := 32.

(** LoadPubKey *)
Definition LoadPubKey `{PemDecoder} (f : PubFile) : option (list ascii) + KeyError :=
  match f with
  | NotExist => inl None
  | StatError => inr StatFailed
  | Present mode data =>
      if negb (Z.land (Z.land mode 511) 18 =? 0)%Z then inr (InsecureMode (Z.land mode 511))
      else match data with
           | None => inr ReadFailed
           | Some data =>
               match pem_decode data with
               | Some body =>
                   if negb (List.length body =? PublicKeySize) then inr (BadPEMBody (List.length body))
                   else inl (Some body)
               | None =>
                   if negb (List.length data =? PublicKeySize) then inr NeitherForm
                   else inl (Some data)
               end
           end
  end.

End Keystore.

Module Gate.
Import Bytes Audit Revoke Keystore.

Definition exitOK : Z := 0.
Definition exitGeneric : Z := 1.
Definition exitDataErr : Z := 65.
Definition exitSoftware : Z := 70.
Definition exitNoPermVal : Z := 77.

Definition auditFullCaptureLimit : Z := 256 * 1024.

(** The places where an error of the system or of a library is printed. *)
Inductive Failure :=
  | RandFailure | ExecutableFailure | StatKeyFailure | ReadKeyFailure | GlobFailure
  | Base64Failure (payload : bool) | UnmarshalFailure | HomeFailure
  | RevokeFailure (why : RevokeError) | StartFailure | WaitFailure.

(** What the process finds: randomness, its environment variable, its own path
    and directory, the key file, its host keys, the clock at its two readings,
    the home directory, the rules, the file operations that fail in a revoke, what
    a command does, and the words of the errors it meets. *)
Record Env := mkEnv {
  random_salt : option (list ascii);
  SSH_ORIGINAL_COMMAND : string;
  gateDirFn : option (string * string);
  gate_pub : PubFile;
  hostKeyFPsFn : option (list string);
  now : Z;
  record_now : Z;
  homeDirFn : option string;
  rules : list Scanner.Rule;
  faults : Faults;
  child : string -> Host -> option Exec.Child * Host;
  error_text : Failure -> string
}.

Record World := mkWorld {
  host : Host;
  stdout : list ascii;
  stderr : list ascii;
  executed : list (string * bool)
}.

Definition set_host (h : Host) (w : World) : World :=
  mkWorld h (stdout w) (stderr w) (executed w).

(** fmt.Println *)
Definition Println (s : string) (w : World) : World :=
  mkWorld (host w) (stdout w ++ lit s ++ [NL]) (stderr w) (executed w).

(** ** Log lines *)

(** The line logf prints for a message. *)
Definition log_line (msg : string) : list ascii :=
  lit "gate: " ++ trim_right (fun c => c =c NL) (lit msg) ++ [NL].

(** logf, of the formatted message. *)
Definition logf (msg : string) (w : World) : World :=
  mkWorld (host w) (stdout w) (stderr w ++ log_line msg) (executed w).

Definition decimal (n : nat) : string := string_of_list_ascii (Json.format_int (Z.of_nat n)).

(** The verb %#o, of permission bits: a leading zero, then octal digits. *)
Fixpoint octal_digits (fuel : nat) (z : Z) (acc : string) : string :=
  match fuel with
  | 0 => acc
  | S fuel =>
      let acc := String (byte_of (48 + z mod 8)) acc in
      if (z / 8 =? 0)%Z then acc else octal_digits fuel (z / 8) acc
  end.

Definition octal (mode : Z) : string := "0" +:+ octal_digits 4 mode "".

(** The error of defaultGateDir. *)
Definition gate_dir_text (e : Env) : string := "os.Executable: " +:+ error_text e ExecutableFailure.

(** The errors of LoadPubKey. *)
Definition key_error_text (e : Env) (path : string) (why : KeyError) : string :=
  match why with
  | StatFailed => "stat pubkey: " +:+ error_text e StatKeyFailure
  | InsecureMode mode =>
      "pubkey " +:+ path +:+ " has insecure mode " +:+ octal mode
      +:+ " (group/world write must be off)"
  | ReadFailed => "read pubkey: " +:+ error_text e ReadKeyFailure
  | BadPEMBody len => "pubkey PEM body is " +:+ decimal len +:+ " bytes, want " +:+ decimal PublicKeySize
  | NeitherForm => "pubkey is neither PEM nor a 32-byte raw Ed25519 key"
  end.

(** The errors of DecodeSigned. *)
Definition decode_error_text (e : Env) (why : Sigwire.DecodeError) : string :=
  match why with
  | Sigwire.MissingPrefix => "missing SSHGATE_SIG: prefix"
  | Sigwire.MissingSeparator => "missing payload separator"
  | Sigwire.EmptySignature => "empty signature field"
  | Sigwire.EmptyPayload => "empty payload field"
  | Sigwire.BadSignatureBase64 => "decode signature: " +:+ error_text e (Base64Failure false)
  | Sigwire.BadPayloadBase64 => "decode payload: " +:+ error_text e (Base64Failure true)
  | Sigwire.BadPayloadJSON => "unmarshal payload: " +:+ error_text e UnmarshalFailure
  | Sigwire.MissingCmd => "payload missing required field: cmd"
  end.

(** The errors of VerifySigned: a sentinel, and for a line that does not decode
    why. *)
Definition verify_error_text (e : Env) (line : string) (why : Verify.GateError) : string :=
  match why with
  | Verify.ErrBadFormat =>
      "bad signed-command format"
      +:+ match Sigwire.DecodeSigned line with
          | inr why => ": " +:+ decode_error_text e why
          | inl _ => ""
          end
  | Verify.ErrBadSig => "signature verification failed"
  | Verify.ErrExpired => "signature expired"
  | Verify.ErrValidityTooLong => "signature validity window too long"
  | Verify.ErrEmptyCmd => "signed payload has empty cmd"
  | Verify.ErrHostMismatch => "signed payload host-key binding does not match this gate"
  end.

(** The errors of ExecWithRedaction. *)
Definition exec_error_text (e : Env) (why : Exec.ExecError) : string :=
  match why with
  | Exec.EmptyCommand => "exec: empty command"
  | Exec.StartFailed => "exec: start /bin/sh: " +:+ error_text e StartFailure
  | Exec.RedactFailed | Exec.WaitError => "exec: wait: " +:+ error_text e WaitFailure
  end.

(** The errors of Revoke. *)
Definition revoke_error_text (e : Env) (home gateDir : string) (why : RevokeError) : string :=
  let authPath := join_path home ".ssh/authorized_keys" in
  let text := error_text e (RevokeFailure why) in
  match why with
  | EmptyHomeDir => "revoke: homeDir is empty"
  | EmptyGateDir => "revoke: gateDir is empty"
  | EmptyBinaryPath => "revoke: gateBinaryPath is empty"
  | Revoke.ReadFailed => "revoke: read " +:+ authPath +:+ ": " +:+ text
  | BackupFailed =>
      "revoke: write backup " +:+ authPath +:+ AuthorizedKeysRevokeBackup +:+ ": " +:+ text
  | RewriteFailed => "revoke: rewrite " +:+ authPath +:+ ": " +:+ text
  | RemoveFailed => "revoke: remove " +:+ gateDir +:+ ": " +:+ text
  | Revoke.StatFailed => "revoke: stat " +:+ gateDir +:+ ": " +:+ text
  end.

(** os.ReadFile of a configuration file. *)
Definition read_text (w : World) (p : string) : option string :=
  option_map Sigwire.str (content (files (host w)) !! p).

(** newAuditLogger *)
Definition newAuditLogger (e : Env) (w : World) : option AuditLogger :=
  match gateDirFn e with
  | None => None
  | Some (dir, _) =>
      Some (NewAuditLogger (LoadAuditLevel (read_text w (join_path dir "audit-level")))
                           (AuditPath dir (read_text w (join_path dir "audit-path"))))
  end.

(** audit.Record *)
Definition log (audit : option AuditLogger) (r : AuditRecord) (w : World) : World :=
  set_host (mkHost (RecordLine audit r (files (host w))) (dirs (host w))) w.

Section Main.
Context `{Hmac} `{Ed25519} `{PemDecoder}.

(** redactAuditCommand *)
Definition redactAuditCommand (e : Env) (salt : list ascii) (cmd : string) : string :=
  let '(red, ok) := Writer.RedactString cmd salt (rules e) in
  if ok then red else cmd.

(** auditNoExec *)
Definition auditNoExec (e : Env) (salt : list ascii) (audit : option AuditLogger)
    (cmd classification approval : string) (exit : Z) (w : World) : World :=
  log audit (mkRecord (record_now e) (redactAuditCommand e salt cmd) classification approval
               exit None false "" "") w.

(** execChild *)
Definition execChild (e : Env) (salt : list ascii) (cmd : string) (reveal : bool)
    (captureLimit : Z) (w : World) : Z * Exec.ExecResult * World :=
  let '(c, h) :=
    if GoStr.TrimSpace cmd =s "" then (None, host w) else child e cmd (host w) in
  let r := Exec.ExecWithRedaction cmd c 0 (Exec.mkOpts salt (rules e) reveal captureLimit) in
  let ran := match c with Some _ => [(cmd, reveal)] | None => [] end in
  let w' := mkWorld h (stdout w ++ Exec.to_stdout r) (stderr w ++ Exec.to_stderr r)
              (executed w ++ ran) in
  let w' := match Exec.err r with Some why => logf (exec_error_text e why) w' | None => w' end in
  if (Exec.ExitCode (Exec.res r) <? 0)%Z then (exitGeneric, Exec.res r, w')
  else (Exec.ExitCode (Exec.res r), Exec.res r, w').

(** The capture limit execAndAudit asks for. *)
Definition capture_for (audit : option AuditLogger) (reveal : bool) : Z :=
  match audit with
  | Some a => if (level_val AuditAllFull <=? level_val (level a)) && negb reveal
              then auditFullCaptureLimit else 0%Z
  | None => 0%Z
  end.

(** The record of an executed command. *)
Definition exec_record (e : Env) (salt : list ascii) (cmd classification approval : string)
    (reveal : bool) (rc : Z) (res : Exec.ExecResult) : AuditRecord :=
  mkRecord (record_now e) (redactAuditCommand e salt cmd) classification approval rc
    (Some (mkMeta (Exec.StdoutBytes res) (Exec.StderrBytes res) (Exec.Lines res)
             (Z.quot (Exec.Duration res) 1000000)))
    reveal (Sigwire.str (Exec.Stdout res)) (Sigwire.str (Exec.Stderr res)).

(** execAndAudit *)
Definition execAndAudit (e : Env) (salt : list ascii) (audit : option AuditLogger)
    (cmd classification approval : string) (reveal : bool) (w : World) : Z * World :=
  let '(rc, res, w) := execChild e salt cmd reveal (capture_for audit reveal) w in
  (rc, log audit (exec_record e salt cmd classification approval reveal rc res) w).

(** doRevoke *)
Definition doRevoke (e : Env) (w : World) : Z * World :=
  match gateDirFn e with
  | None => (exitGeneric, logf ("revoke: " +:+ gate_dir_text e) w)
  | Some (gateDir, binaryPath) =>
      match homeDirFn e with
      | None => (exitGeneric, logf ("revoke: home dir: " +:+ error_text e HomeFailure) w)
      | Some home =>
          let '(h, res, err) := RevokeGate (faults e) home gateDir binaryPath (host w) in
          let w := set_host h w in
          match err with
          | Some why => (exitGeneric, logf ("revoke: " +:+ revoke_error_text e home gateDir why) w)
          | None => (exitOK, Println (FormatRevokeStdout res) w)
          end
      end
  end.

(** The messages of run's refusals. *)
Definition no_key_signed : string := "no signing key configured; signed commands cannot be verified".
Definition no_key_write : string :=
  "no signing key configured (read-only install — re-run /sshgate:setup to add a signer)".
Definition write_unsigned : string := "write commands require a SSHGATE_SIG prefix".
Definition update_missing : string := "SSHGATE_UPDATE not yet implemented".
Definition fingerprints_failed (e : Env) : string :=
  "derive host-key fingerprints: glob /etc/ssh/ssh_host_*.pub: " +:+ error_text e GlobFailure.

(** run, on a host without a signing key. *)
Definition run_read_only (e : Env) (salt : list ascii) (audit : option AuditLogger) (w : World)
    : Z * World :=
  let raw := SSH_ORIGINAL_COMMAND e in
  if Sigwire.IsSigned raw
  then (exitNoPermVal,
        auditNoExec e salt audit raw "write" "denied" exitNoPermVal (logf no_key_signed w))
  else match Classify raw with
       | KindRead => execAndAudit e salt audit raw "read" "unsigned" false w
       | _ => (exitNoPermVal,
               auditNoExec e salt audit raw "write" "denied" exitNoPermVal (logf no_key_write w))
       end.

(** run, once the inner command is settled; its default case has no Kind left. *)
Definition run_inner (e : Env) (salt : list ascii) (audit : option AuditLogger)
    (signed : bool) (innerCmd : string) (reveal : bool) (w : World) : Z * World :=
  if signed && (innerCmd =s "SSHGATE_REVOKE") then
    let '(rc, w) := doRevoke e w in
    (rc, auditNoExec e salt audit innerCmd "write" "signed" rc w)
  else if signed && GoStr.HasPrefix innerCmd "SSHGATE_UPDATE " then
    (exitGeneric,
     auditNoExec e salt audit innerCmd "write" "signed" exitGeneric (logf update_missing w))
  else match Classify innerCmd with
       | KindRead =>
           execAndAudit e salt audit innerCmd "read" (if signed then "signed" else "unsigned")
             reveal w
       | KindWrite | KindUnknown =>
           if negb signed
           then (exitNoPermVal,
                 auditNoExec e salt audit innerCmd "write" "denied" exitNoPermVal
                   (logf write_unsigned w))
           else execAndAudit e salt audit innerCmd "write" "signed" reveal w
       end.

(** run, on a host with a signing key. *)
Definition run_keyed (e : Env) (salt : list ascii) (audit : option AuditLogger)
    (pubkey : list ascii) (w : World) : Z * World :=
  let raw := SSH_ORIGINAL_COMMAND e in
  if Sigwire.IsSigned raw then
    match hostKeyFPsFn e with
    | None => (exitSoftware, logf (fingerprints_failed e) w)
    | Some selfHostFPs =>
        match Verify.VerifySigned raw pubkey (now e) selfHostFPs with
        | inr why =>
            (exitDataErr,
             auditNoExec e salt audit raw "write" "denied" exitDataErr
               (logf (verify_error_text e raw why) w))
        | inl (ic, rev) => run_inner e salt audit true ic rev w
        end
    end
  else run_inner e salt audit false raw false w.

(** run *)
Definition run (e : Env) (w : World) : Z * World :=
  match random_salt e with
  | None => (exitSoftware, logf ("crypto/rand: " +:+ error_text e RandFailure) w)
  | Some salt =>
      if SSH_ORIGINAL_COMMAND e =s "" then (exitOK, Println "SSHGATE_OK" w)
      else
        let audit := newAuditLogger e w in
        match gateDirFn e with
        | None => (exitSoftware, logf ("locate pubkey: " +:+ gate_dir_text e) w)
        | Some (dir, _) =>
            match LoadPubKey (gate_pub e) with
            | inr why =>
                (exitSoftware,
                 logf ("load pubkey: " +:+ key_error_text e (join_path dir "gate.pub") why) w)
            | inl None => run_read_only e salt audit w
            | inl (Some pubkey) => run_keyed e salt audit pubkey w
            end
        end
  end.

End Main.

End Gate.
