(* ===== verification/GateMainProps.v ===== *)
(** * What one gate process guarantees

    Which command it runs and when, what it leaves of a refused one, the single
    audit record of every decision, and what of a child's output flows back. *)

From S2P Require Import Prelude Json Sigwire SigwireProps ClassifyArgs Classify GateVerify GateVerifyProps RedactScanner RedactMatchProps RedactWriter GateAudit GateRevoke GateExec GateExecProps GateMain.
Import Sigwire Verify Bytes Audit Revoke Keystore Gate.

Section Gate.
Context `{Hmac} `{Ed25519} `{PemDecoder}.

(** ** Which command runs *)

(** The process can work: it has its salt, its directory and a usable key file. *)
Definition operational (e : Env) : Prop :=
  random_salt e <> None /\ gateDirFn e <> None
  /\ (exists k, LoadPubKey (gate_pub e) = inl k) /\ SSH_ORIGINAL_COMMAND e <> "".

(** A verified line: what the signed payload says, on this host, now. *)
Definition verified (e : Env) (cmd : string) (reveal : bool) : Prop :=
  exists pubkey fps sig p,
    LoadPubKey (gate_pub e) = inl (Some pubkey) /\ hostKeyFPsFn e = Some fps
    /\ DecodeSigned (SSH_ORIGINAL_COMMAND e) = inl (sig, p)
    /\ ed_verify pubkey (marshal p) sig = true
    /\ acceptable p (now e) fps /\ cmd = Cmd p /\ reveal = Reveal p.

Definition admin_verb (cmd : string) : bool :=
  (cmd =s "SSHGATE_REVOKE") || GoStr.HasPrefix cmd "SSHGATE_UPDATE ".

(** The policy: an unsigned line must be a read and is never a reveal; anything
    else must be signed. *)
Definition authorised (e : Env) (cmd : string) (reveal : bool) : Prop :=
  operational e /\
  ((IsSigned (SSH_ORIGINAL_COMMAND e) = false /\ cmd = SSH_ORIGINAL_COMMAND e
    /\ Classify cmd = KindRead /\ reveal = false)
   \/ (IsSigned (SSH_ORIGINAL_COMMAND e) = true /\ verified e cmd reveal
       /\ admin_verb cmd = false)).

(** /bin/sh starts for it. *)
Definition starts (e : Env) (w : World) (cmd : string) : bool :=
  negb (GoStr.TrimSpace cmd =s "")
  && match (child e cmd (host w)).1 with Some _ => true | None => false end.

(** The audit log's word for a verdict: what is not a read is a write. *)
Definition logged_class (k : Kind) : string :=
  match k with KindRead => "read" | _ => "write" end.

(** How one decision ends: a log line, with an audit record; a run; a revoke. *)
Inductive outcome (e : Env) (salt : list ascii) (w : World) : Z * World -> Prop :=
  | refused cmd code msg :
      cmd = SSH_ORIGINAL_COMMAND e -> code = exitNoPermVal \/ code = exitDataErr ->
      (forall c r, ~ authorised e c r) ->
      (forall r, ~ verified e "SSHGATE_REVOKE" r) ->
      outcome e salt w
        (code, auditNoExec e salt (newAuditLogger e w) cmd "write" "denied" code (logf msg w))
  | unidentified :
      IsSigned (SSH_ORIGINAL_COMMAND e) = true -> hostKeyFPsFn e = None ->
      outcome e salt w (exitSoftware, logf (fingerprints_failed e) w)
  | ran cmd cls reveal :
      authorised e cmd reveal ->
      (forall c r, authorised e c r -> c = cmd /\ r = reveal) ->
      cls = logged_class (Classify cmd) ->
      outcome e salt w
        (execAndAudit e salt (newAuditLogger e w) cmd cls
           (if IsSigned (SSH_ORIGINAL_COMMAND e) then "signed" else "unsigned") reveal w)
  | revoked r :
      verified e "SSHGATE_REVOKE" r -> (forall c r, ~ authorised e c r) ->
      outcome e salt w
        (let '(rc, w') := doRevoke e w in
         (rc, auditNoExec e salt (newAuditLogger e w) "SSHGATE_REVOKE" "write" "signed" rc w'))
  | update cmd r :
      verified e cmd r -> (forall c r, ~ authorised e c r) ->
      outcome e salt w
        (exitGeneric,
         auditNoExec e salt (newAuditLogger e w) cmd "write" "signed" exitGeneric
           (logf update_missing w)).

Lemma verified_iff e cmd reveal :
  verified e cmd reveal <->
  exists pubkey fps, LoadPubKey (gate_pub e) = inl (Some pubkey) /\ hostKeyFPsFn e = Some fps
    /\ VerifySigned (SSH_ORIGINAL_COMMAND e) pubkey (now e) fps = inl (cmd, reveal).
Proof.
  split.
  - intros (k & fps & sig & p & Hk & Hf & Hd & Hv & Ha & -> & ->).
    exists k, fps. do 2 (split; [done|]). by eapply verify_acceptable.
  - intros (k & fps & Hk & Hf & Hv). apply verify_inv in Hv as (sig & p & Hp).
    by exists k, fps, sig, p.
Qed.

Lemma verified_unique e c r c' r' : verified e c r -> verified e c' r' -> c = c' /\ r = r'.
Proof.
  rewrite !verified_iff. intros (k & f & Hk & Hf & Hv) (k' & f' & Hk' & Hf' & Hv').
  rewrite Hk in Hk'. rewrite Hf in Hf'. simplify_eq. rewrite Hv in Hv'. by simplify_eq.
Qed.

Lemma not_verified e :
  IsSigned (SSH_ORIGINAL_COMMAND e) = true -> (forall c r, ~ verified e c r) ->
  forall c r, ~ authorised e c r.
Proof. intros Hs Hn c r (_ & [(? & _)|(_ & Hv & _)]); [congruence|by eapply Hn]. Qed.

Lemma admin_not_authorised e c r :
  IsSigned (SSH_ORIGINAL_COMMAND e) = true -> verified e c r -> admin_verb c = true ->
  forall c' r', ~ authorised e c' r'.
Proof.
  intros Hs Hv Ha c' r' (_ & [(? & _)|(_ & Hv' & Ha')]); [congruence|].
  destruct (verified_unique _ _ _ _ _ Hv Hv') as [-> _]. congruence.
Qed.

Lemma verified_signed e c r : verified e c r -> IsSigned (SSH_ORIGINAL_COMMAND e) = true.
Proof.
  intros (k & f & sig & p & _ & _ & Hd & _). unfold DecodeSigned in Hd. unfold IsSigned.
  by destruct (GoStr.HasPrefix _ _).
Qed.

Lemma not_read_unsigned e :
  IsSigned (SSH_ORIGINAL_COMMAND e) = false -> Classify (SSH_ORIGINAL_COMMAND e) <> KindRead ->
  forall c r, ~ authorised e c r.
Proof. intros Hs Hc c r (_ & [(_ & -> & ? & _)|(? & _)]); congruence. Qed.

Lemma unsigned_not_verified e c r :
  IsSigned (SSH_ORIGINAL_COMMAND e) = false -> ~ verified e c r.
Proof. intros Hs Hv%verified_signed. congruence. Qed.

Lemma unsigned_run_outcome e salt w cls :
  operational e -> IsSigned (SSH_ORIGINAL_COMMAND e) = false ->
  Classify (SSH_ORIGINAL_COMMAND e) = KindRead -> cls = "read" ->
  outcome e salt w (execAndAudit e salt (newAuditLogger e w) (SSH_ORIGINAL_COMMAND e) cls
                      "unsigned" false w).
Proof.
  intros Ho Hs Hc ->. pose proof (ran e salt w (SSH_ORIGINAL_COMMAND e) "read" false) as Hr.
  rewrite Hs in Hr. apply Hr.
  - split; [done|]. by left.
  - intros c r (_ & [(_ & -> & _ & ->)|(? & _)]); [done|congruence].
  - by rewrite Hc.
Qed.

Lemma signed_run_outcome e salt w c r cls :
  operational e -> IsSigned (SSH_ORIGINAL_COMMAND e) = true -> verified e c r ->
  admin_verb c = false ->
  cls = logged_class (Classify c) ->
  outcome e salt w (execAndAudit e salt (newAuditLogger e w) c cls "signed" r w).
Proof.
  intros Ho Hs Hv Ha Hc. pose proof (ran e salt w c cls r) as Hr. rewrite Hs in Hr. apply Hr.
  - split; [done|]. by right.
  - intros c' r' (_ & [(? & _)|(_ & Hv' & _)]); [congruence|].
    destruct (verified_unique _ _ _ _ _ Hv Hv'). done.
  - done.
Qed.

Lemma refused_unsigned e salt w msg :
  IsSigned (SSH_ORIGINAL_COMMAND e) = false -> Classify (SSH_ORIGINAL_COMMAND e) <> KindRead ->
  outcome e salt w (exitNoPermVal,
    auditNoExec e salt (newAuditLogger e w) (SSH_ORIGINAL_COMMAND e) "write" "denied"
      exitNoPermVal (logf msg w)).
Proof.
  intros Hs Hc. apply refused; [done|by left|by apply not_read_unsigned|].
  intros r. by apply unsigned_not_verified.
Qed.

Lemma run_inner_outcome e salt w c r :
  operational e -> IsSigned (SSH_ORIGINAL_COMMAND e) = true -> verified e c r ->
  outcome e salt w (run_inner e salt (newAuditLogger e w) true c r w).
Proof.
  intros Ho Hs Hv. unfold run_inner. cbn [andb negb].
  destruct (c =s "SSHGATE_REVOKE") eqn:Er.
  { bool_hyps. subst c. apply (revoked e salt w r Hv).
    by eapply admin_not_authorised. }
  destruct (GoStr.HasPrefix c "SSHGATE_UPDATE ") eqn:Eu.
  { apply (update e salt w c r Hv). eapply admin_not_authorised; [done..|].
    unfold admin_verb. by rewrite Eu, orb_true_r. }
  assert (admin_verb c = false) as Ha by (unfold admin_verb; by rewrite Er, Eu).
  destruct (Classify c) eqn:Ec; apply signed_run_outcome; try done; by rewrite Ec.
Qed.

Lemma run_keyed_outcome e salt w k :
  operational e -> LoadPubKey (gate_pub e) = inl (Some k) ->
  outcome e salt w (run_keyed e salt (newAuditLogger e w) k w).
Proof.
  intros Ho Hk. unfold run_keyed. destruct (IsSigned _) eqn:Hs.
  - destruct (hostKeyFPsFn e) as [fps|] eqn:Hf; [|by apply unidentified].
    destruct (VerifySigned _ _ _ _) as [[c r]|err] eqn:Hv.
    + apply run_inner_outcome; try done. apply verified_iff. by exists k, fps.
    + assert (forall c r, ~ verified e c r) as Hn.
      { intros c r Hv'. apply verified_iff in Hv' as (k' & f' & Hk' & Hf' & Hv').
        rewrite Hk in Hk'. rewrite Hf in Hf'. simplify_eq. congruence. }
      apply refused; [done|by right|by apply not_verified|by intros; apply Hn].
  - unfold run_inner. cbn [andb negb]. destruct (Classify _) eqn:Ec.
    + apply refused_unsigned; congruence.
    + by apply unsigned_run_outcome.
    + apply refused_unsigned; congruence.
Qed.

Lemma run_read_only_outcome e salt w :
  operational e -> LoadPubKey (gate_pub e) = inl None ->
  outcome e salt w (run_read_only e salt (newAuditLogger e w) w).
Proof.
  intros Ho Hk. unfold run_read_only. destruct (IsSigned _) eqn:Hs.
  - assert (forall c r, ~ verified e c r) as Hn.
    { intros c r Hv'. apply verified_iff in Hv' as (k' & f' & Hk' & _). congruence. }
    apply refused; [done|by left|by apply not_verified|by intros; apply Hn].
  - destruct (Classify _) eqn:Ec.
    + apply refused_unsigned; congruence.
    + by apply unsigned_run_outcome.
    + apply refused_unsigned; congruence.
Qed.

(** Every process that can work reaches one outcome. *)
Lemma run_outcome e w :
  operational e -> exists salt, random_salt e = Some salt /\ outcome e salt w (run e w).
Proof.
  intros Ho. pose proof Ho as (Hr & Hg & (k & Hk) & Hc). unfold run.
  destruct (random_salt e) as [salt|]; [|done]. exists salt. split; [done|].
  apply String.eqb_neq in Hc. rewrite Hc, Hk. destruct (gateDirFn e) as [[dir bin]|]; [|done].
  destruct k; [by apply run_keyed_outcome|by apply run_read_only_outcome].
Qed.

(** ** What the steps do to the world *)

Lemma auditNoExec_executed e salt a cmd cls st code w :
  executed (auditNoExec e salt a cmd cls st code w) = executed w.
Proof. done. Qed.

Lemma doRevoke_executed e w : executed (doRevoke e w).2 = executed w.
Proof.
  unfold doRevoke. destruct (gateDirFn e) as [[dir bin]|]; [|done].
  destruct (homeDirFn e) as [home|]; [|done].
  destruct (RevokeGate _ _ _ _ _) as [[h res] [er|]]; done.
Qed.

(** The child's error is only logged. *)
Lemma logged_executed (err : option Exec.ExecError) text w :
  executed (match err with Some why => logf (text why) w | None => w end) = executed w.
Proof. by destruct err. Qed.

Lemma logged_host (err : option Exec.ExecError) text w :
  host (match err with Some why => logf (text why) w | None => w end) = host w.
Proof. by destruct err. Qed.

Lemma execAndAudit_executed e salt a cmd cls st reveal w :
  executed (execAndAudit e salt a cmd cls st reveal w).2
  = executed w ++ if starts e w cmd then [(cmd, reveal)] else [].
Proof.
  unfold execAndAudit, execChild, starts. destruct (_ =s ""); cbn [negb andb].
  - destruct (_ <? 0)%Z; cbn [log set_host executed snd]; by rewrite logged_executed.
  - destruct (child e cmd (host w)) as [c h].
    destruct (_ <? 0)%Z; cbn [log set_host executed snd]; rewrite logged_executed; by destruct c.
Qed.

Lemma not_operational e w : ~ operational e -> executed (run e w).2 = executed w.
Proof.
  intros Hn. unfold run, operational in *. destruct (random_salt e); [|done].
  destruct (_ =s "") eqn:E; [done|]. bool_hyps. destruct (gateDirFn e) as [[dir bin]|]; [|done].
  destruct (LoadPubKey _) as [k|]; [|done]. exfalso. apply Hn.
  split; [done|]. split; [done|]. split; [by exists k|done].
Qed.

Lemma app_self {A} (l r : list A) : l = l ++ r -> r = [].
Proof. intros E. apply (app_inv_head l). by rewrite app_nil_r. Qed.

(** What [run] adds to the commands run, in every case. *)
Lemma run_adds e w :
  (exists c r, authorised e c r /\ (forall c' r', authorised e c' r' -> c' = c /\ r' = r)
     /\ executed (run e w).2 = executed w ++ if starts e w c then [(c, r)] else [])
  \/ ((forall c r, ~ authorised e c r) /\ executed (run e w).2 = executed w).
Proof.
  destruct (random_salt e) as [s|] eqn:Hs.
  2:{ right. split; [by intros c r [[? _] _]|]. apply not_operational. by intros [? _]. }
  destruct (decide (gateDirFn e = None)) as [Hg|Hg].
  { right. split; [by intros c r [(_ & ? & _) _]|]. apply not_operational. by intros (_ & ? & _). }
  destruct (LoadPubKey (gate_pub e)) as [k|er] eqn:Hk.
  2:{ right. split; [|apply not_operational]; [intros c r [(_ & _ & (? & ?) & _) _]|intros (_ & _ & (? & ?) & _)];
      congruence. }
  destruct (decide (SSH_ORIGINAL_COMMAND e = "")) as [Hc|Hc].
  { right. split; [by intros c r [(_ & _ & _ & ?) _]|]. apply not_operational. by intros (_ & _ & _ & ?). }
  destruct (run_outcome e w) as (salt & _ & Ho).
  { split; [congruence|]. split; [done|]. split; [by exists k|done]. }
  inversion Ho as [cmd code msg Hcmd Hcode Hn Hn' Heq|Hsg Hf Heq|cmd cls r Ha Hu Hcls Heq
                  |r Hv Hn Heq|cmd r Hv Hn Heq].
  - by right.
  - right. split; [|done]. intros c r (_ & [(? & _)|(_ & (k' & f & sg & p & _ & Hf' & _) & _)]); congruence.
  - left. exists cmd, r. split; [done|]. split; [done|]. apply execAndAudit_executed.
  - right. split; [done|]. pose proof (doRevoke_executed e w) as Hr. destruct (doRevoke e w). exact Hr.
  - by right.
Qed.

(** C1: The gate hands a command to the shell exactly when the policy authorises
    it and the shell starts: an unsigned line that the classifier calls a read,
    never as a reveal, or the command of a payload that the gate's key signed,
    still fresh and bound to this host, with the reveal flag of that payload.
    Nothing else is ever run, and never more than one command. *)
Theorem runs_iff_authorised (e : Env) (w : World) (c : string) (r : bool) :
  (executed (run e w).2 = executed w ++ [(c, r)] <-> authorised e c r /\ starts e w c = true)
  /\ (executed (run e w).2 = executed w
      \/ exists c' r', executed (run e w).2 = executed w ++ [(c', r')]).
Proof.
  destruct (run_adds e w) as [(c0 & r0 & Ha & Hu & ->)|[Hn ->]].
  - destruct (starts e w c0) eqn:Es.
    + split; [|right; eauto]. split.
      * intros Heq%app_inv_head. by injection Heq as <- <-.
      * intros [Hc _]. by destruct (Hu _ _ Hc) as [-> ->].
    + rewrite app_nil_r. split; [|by left]. split.
      * intros Heq%app_self. done.
      * intros [Hc Hst]. destruct (Hu _ _ Hc) as [-> ->]. congruence.
  - split; [|by left]. split; [intros Heq%app_self; done|]. intros [Hc _]. by apply Hn in Hc.
Qed.

(** ** Refusals *)

(** Why a working gate refuses a line: the exit code and the message. *)
Inductive refusal (e : Env) : Z -> string -> Prop :=
  | refuse_unidentified k :
      LoadPubKey (gate_pub e) = inl (Some k) -> IsSigned (SSH_ORIGINAL_COMMAND e) = true ->
      hostKeyFPsFn e = None -> refusal e exitSoftware (fingerprints_failed e)
  | refuse_signature k fps why :
      LoadPubKey (gate_pub e) = inl (Some k) -> IsSigned (SSH_ORIGINAL_COMMAND e) = true ->
      hostKeyFPsFn e = Some fps -> VerifySigned (SSH_ORIGINAL_COMMAND e) k (now e) fps = inr why ->
      refusal e exitDataErr (verify_error_text e (SSH_ORIGINAL_COMMAND e) why)
  | refuse_unsigned k :
      LoadPubKey (gate_pub e) = inl (Some k) -> IsSigned (SSH_ORIGINAL_COMMAND e) = false ->
      refusal e exitNoPermVal write_unsigned
  | refuse_signed_without_key :
      LoadPubKey (gate_pub e) = inl None -> IsSigned (SSH_ORIGINAL_COMMAND e) = true ->
      refusal e exitNoPermVal no_key_signed
  | refuse_write_without_key :
      LoadPubKey (gate_pub e) = inl None -> IsSigned (SSH_ORIGINAL_COMMAND e) = false ->
      refusal e exitNoPermVal no_key_write.

(** The record of a refused line. *)
Record denial (e : Env) (code : Z) (rec : AuditRecord) : Prop := {
  denial_cmd : exists salt, random_salt e = Some salt
                 /\ Command rec = redactAuditCommand e salt (SSH_ORIGINAL_COMMAND e);
  denial_status : ApprovalStatus rec = "denied";
  denial_class : Classification rec = "write";
  denial_code : ExitCode rec = code;
  denial_meta : Meta rec = None
}.

(** C21: A line that is neither an unsigned read nor verified is refused: it runs
    nothing, prints nothing on stdout and one line on stderr, the message of the
    refusal behind "gate: ", and leaves the host as it is, but for one audit record
    of the line and the code; 65 for a signature that fails on a host with a key,
    77 otherwise.  A gate that can not tell its own identity stops with 70, and
    leaves only the line on stderr. *)
Theorem refusal_is_inert (e : Env) (w : World)
    (Hop : operational e)
    (Hnv : forall c r, ~ verified e c r)
    (Hnr : IsSigned (SSH_ORIGINAL_COMMAND e) = false -> Classify (SSH_ORIGINAL_COMMAND e) <> KindRead) :
  let '(code, w') := run e w in
  executed w' = executed w /\ stdout w' = stdout w /\ dirs (host w') = dirs (host w)
  /\ (exists msg, refusal e code msg /\ stderr w' = stderr w ++ log_line msg)
  /\ ((code = exitSoftware /\ host w' = host w)
      \/ (exists rec, denial e code rec
            /\ files (host w') = RecordLine (newAuditLogger e w) rec (files (host w))
            /\ (code = exitDataErr
                 <-> IsSigned (SSH_ORIGINAL_COMMAND e) = true /\ LoadPubKey (gate_pub e) <> inl None)
            /\ (code = exitDataErr \/ code = exitNoPermVal))).
Proof.
  pose proof Hop as (Hr & Hg & (k & Hk) & Hc). unfold run.
  destruct (random_salt e) as [salt|] eqn:Hs; [|done]. apply String.eqb_neq in Hc. rewrite Hc, Hk.
  destruct (gateDirFn e) as [[dir bin]|]; [|done]. clear Hc.
  assert (forall code msg, refusal e code msg -> code = exitDataErr \/ code = exitNoPermVal ->
    (code = exitDataErr <-> IsSigned (SSH_ORIGINAL_COMMAND e) = true /\ @inl _ KeyError k <> inl None) ->
    let '(code', w') := (code, auditNoExec e salt (newAuditLogger e w) (SSH_ORIGINAL_COMMAND e)
                                "write" "denied" code (logf msg w)) in
    executed w' = executed w /\ stdout w' = stdout w /\ dirs (host w') = dirs (host w)
    /\ (exists msg, refusal e code' msg /\ stderr w' = stderr w ++ log_line msg)
    /\ ((code' = exitSoftware /\ host w' = host w)
        \/ (exists rec, denial e code' rec
              /\ files (host w') = RecordLine (newAuditLogger e w) rec (files (host w))
              /\ (code' = exitDataErr
                   <-> IsSigned (SSH_ORIGINAL_COMMAND e) = true /\ @inl _ KeyError k <> inl None)
              /\ (code' = exitDataErr \/ code' = exitNoPermVal)))) as Hden.
  { intros code msg Hmsg Hcode Hiff. do 3 (split; [done|]). split; [by exists msg|]. right.
    eexists (mkRecord _ _ "write" "denied" code None false "" "").
    split; [split; [by exists salt|done..]|]. by split. }
  destruct k as [k|].
  - unfold run_keyed. destruct (IsSigned _) eqn:Hsig.
    + destruct (hostKeyFPsFn e) as [fps|] eqn:Hf.
      2:{ do 3 (split; [done|]). split; [|by left].
          eexists. by split; [eapply refuse_unidentified|]. }
      destruct (VerifySigned _ _ _ _) as [[c r]|er] eqn:Hv.
      * destruct (Hnv c r). apply verified_iff. by exists k, fps.
      * apply Hden; [by eapply refuse_signature|by left|]. by split.
    + unfold run_inner. cbn [andb negb]. specialize (Hnr eq_refl).
      destruct (Classify _) eqn:Ec; try done; apply Hden; (by eapply refuse_unsigned) || (by right) || (split; [done|by intros [? _]]).
  - unfold run_read_only. destruct (IsSigned _) eqn:Hsig.
    + apply Hden; [by apply refuse_signed_without_key|by right|]. split; [done|by intros [_ ?]].
    + specialize (Hnr eq_refl).
      destruct (Classify _) eqn:Ec; try done; apply Hden; (by apply refuse_write_without_key) || (by right) || (split; [done|by intros [? _]]).
Qed.

(** ** The record of a decision *)

Lemma stream_limit o chunks c :
  Exec.stream o chunks = Some c -> Exec.captureLimit c = Exec.CaptureLimit o.
Proof.
  assert (forall l c0, Exec.captureLimit (Exec.count_chunks l c0) = Exec.captureLimit c0) as Hl.
  { induction l as [|p l IH]; intros c0; [done|].
    change (Exec.count_chunks (p :: l) c0)
      with (Exec.count_chunks l (Exec.CountingWrite (List.length p) p c0)).
    rewrite IH. unfold Exec.CountingWrite. by destruct (_ =? 0). }
  unfold Exec.stream. destruct (Exec.redacting o); [|intros [= <-]; by rewrite Hl].
  destruct (Writer.writes _ _); [|done]. intros [= <-]. by rewrite Hl.
Qed.

(** Nothing is captured without a limit. *)
Lemma no_capture cmd c t o :
  Exec.CaptureLimit o = 0%Z ->
  Exec.Stdout (Exec.res (Exec.ExecWithRedaction cmd c t o)) = []
  /\ Exec.Stderr (Exec.res (Exec.ExecWithRedaction cmd c t o)) = [].
Proof.
  intros Hl. unfold Exec.ExecWithRedaction. destruct (_ =s ""); [done|].
  destruct c as [c|]; [|done].
  destruct (Exec.stream o (Exec.stdout_chunks c)) as [c1|] eqn:E1; [|done].
  destruct (Exec.stream o (Exec.stderr_chunks c)) as [c2|] eqn:E2; [|done].
  destruct (Exec.exit_code _). cbn. apply stream_limit in E1, E2.
  unfold Exec.captured. rewrite E1, E2, Hl. done.
Qed.

Lemma capture_for_zero a reveal :
  reveal = true \/ (exists l, a = Some l /\ level l <> AuditAllFull) -> capture_for a reveal = 0%Z.
Proof.
  unfold capture_for. destruct a as [[lv p]|]; [|done]. intros [->|(l & [= <-] & Hl)].
  - by rewrite andb_false_r.
  - by destruct lv.
Qed.

(** The world a decision leaves before its record: untouched but for a log line, as
    the child left it, or as the revoke left it. *)
Definition acted (e : Env) (w : World) (cmd : string) (w0 : World) : Prop :=
  (exists msg, w0 = logf msg w)
  \/ (exists r, authorised e cmd r)
     /\ (host w0 = host w \/ host w0 = (child e cmd (host w)).2)
  \/ cmd = "SSHGATE_REVOKE" /\ (exists r, verified e cmd r) /\ w0 = (doRevoke e w).2.

(** What a decision recorded: one line, after everything else. *)
Record recorded (e : Env) (salt : list ascii) (w : World) (code : Z) (w' : World)
    (cmd : string) (rec : AuditRecord) : Prop := {
  rec_last : exists w0, acted e w cmd w0 /\ w' = log (newAuditLogger e w) rec w0;
  rec_code : ExitCode rec = code;
  rec_time : RTS rec = record_now e;
  rec_cmd : Command rec = redactAuditCommand e salt cmd;
  rec_class : Classification rec = "read" \/ Classification rec = "write";
  rec_read : Classification rec = "read" -> Classify cmd = KindRead;
  rec_reveal : Revealed rec = true -> verified e cmd true /\ Stdout rec = "" /\ Stderr rec = "";
  rec_meta : Meta rec = None -> Stdout rec = "" /\ Stderr rec = "";
  rec_denied : ApprovalStatus rec = "denied" ->
    cmd = SSH_ORIGINAL_COMMAND e /\ forall c r, ~ authorised e c r;
  rec_signed : ApprovalStatus rec = "signed" -> exists r, verified e cmd r;
  rec_unsigned : ApprovalStatus rec = "unsigned" ->
    cmd = SSH_ORIGINAL_COMMAND e /\ authorised e cmd false
}.

Lemma exec_recorded e salt w cmd cls reveal code w' :
  authorised e cmd reveal ->
  cls = logged_class (Classify cmd) ->
  execAndAudit e salt (newAuditLogger e w) cmd cls
    (if IsSigned (SSH_ORIGINAL_COMMAND e) then "signed" else "unsigned") reveal w = (code, w') ->
  exists rec, recorded e salt w code w' cmd rec.
Proof.
  intros Ha Hcls. unfold execAndAudit, execChild.
  set (ch := if GoStr.TrimSpace cmd =s "" then (None, host w) else child e cmd (host w)).
  assert (ch.2 = host w \/ ch.2 = (child e cmd (host w)).2) as Hact
    by (unfold ch; destruct (_ =s ""); auto).
  clearbody ch.
  destruct ch as [c h]. cbn [snd] in Hact. set (o := Exec.mkOpts _ _ _ _). pose proof (no_capture cmd c 0 o) as Hno.
  assert (exists rc res w0, (if _ <? 0 then _ else _)%Z = (rc, res, w0)
    /\ res = Exec.res (Exec.ExecWithRedaction cmd c 0 o) /\ host w0 = h)
    as (rc & res & w0 & -> & Hres & Hh)
    by (destruct (_ <? 0)%Z; do 3 eexists; (split; [done|]); (split; [done|]); by rewrite logged_host).
  intros [= <- <-]. exists (exec_record e salt cmd cls
    (if IsSigned (SSH_ORIGINAL_COMMAND e) then "signed" else "unsigned") reveal rc res).
  split; cbn [ExitCode RTS Command Classification Revealed Meta ApprovalStatus exec_record Stdout Stderr];
    try done.
  - exists w0. split; [|done]. right. left. subst h. eauto.
  - subst cls. destruct (Classify cmd); auto.
  - subst cls. by destruct (Classify cmd).
  - intros ->. split.
    + destruct Ha as (_ & [(_ & _ & _ & ?)|(_ & ? & _)]); done.
    + destruct Hno as [Ho Hr]; [apply capture_for_zero; by left|]. by rewrite Hres, Ho, Hr.
  - by destruct (IsSigned _).
  - intros Hs. destruct (IsSigned _) eqn:E; [|done].
    destruct Ha as (_ & [(? & _)|(_ & ? & _)]); [congruence|eauto].
  - intros Hs. destruct (IsSigned _) eqn:E; [done|].
    pose proof Ha as (_ & [(_ & Hc & _ & ->)|(? & _)]); [done|congruence].
Qed.

Lemma auditNoExec_recorded e salt w cmd st code w0 :
  acted e w cmd w0 ->
  (st = "denied" /\ cmd = SSH_ORIGINAL_COMMAND e /\ forall c r, ~ authorised e c r) \/ (st = "signed" /\ exists r, verified e cmd r) ->
  exists rec, recorded e salt w code (auditNoExec e salt (newAuditLogger e w) cmd "write" st code w0) cmd rec.
Proof.
  intros Hact Hst. eexists. split; [by exists w0|..]; cbn; try done.
  - by right.
  - by destruct Hst as [[-> ?]|[-> _]].
  - by destruct Hst as [[-> ?]|[-> ?]].
  - by destruct Hst as [[-> ?]|[-> _]].
Qed.

(** C9: Every line that a working gate takes, but one it can not check for want
    of its own identity, ends in exactly one audit record, written last: of the
    command decided on, its secrets redacted, with the exit code the process
    returns, the verdict, and the authority it had; a revealed command's output
    is never in it. *)
Theorem one_record_per_line (e : Env) (w : World)
    (Hop : operational e)
    (Hid : hostKeyFPsFn e <> None \/ IsSigned (SSH_ORIGINAL_COMMAND e) = false) :
  let '(code, w') := run e w in
  exists salt cmd rec, random_salt e = Some salt /\ recorded e salt w code w' cmd rec.
Proof.
  destruct (run_outcome e w Hop) as (salt & Hs & Ho). destruct (run e w) as [code w'].
  inversion Ho as [cmd code' msg Hcmd Hcode Hn Hn' Heq|Hsg Hf Heq|cmd cls r Ha Hu Hcls Heq
                  |r Hv Hn Heq|cmd r Hv Hn Heq].
  - destruct (auditNoExec_recorded e salt w cmd "denied" code (logf msg w)) as [rec Hrec]; [left; by eexists|by left|].
    exists salt, cmd, rec. done.
  - destruct Hid; congruence.
  - destruct (exec_recorded e salt w cmd cls r code w' Ha Hcls) as [rec Hrec]; [done|].
    exists salt, cmd, rec. done.
  - assert (acted e w "SSHGATE_REVOKE" (doRevoke e w).2) as Hact by (right; right; eauto).
    destruct (doRevoke e w) as [rc w0]. simplify_eq.
    destruct (auditNoExec_recorded e salt w "SSHGATE_REVOKE" "signed" code w0) as [rec Hrec];
      [done|right; eauto|]. by exists salt, "SSHGATE_REVOKE", rec.
  - destruct (auditNoExec_recorded e salt w cmd "signed" exitGeneric (logf update_missing w)) as [rec Hrec];
      [left; by eexists|right; eauto|]. by exists salt, cmd, rec.
Qed.

(** ** The output of a run *)

(** A run delivers what its child wrote, with an independent redactor on
    each stream unless there are no rules or the verified payload is a reveal,
    behind it on stderr the gate's own line when waiting for the child failed, and
    returns the child's exit code; so an unsigned command's output, and a
    signed one's without the reveal flag, only leaves through the redactor. *)
Theorem run_delivers (e : Env) (w : World) (cmd : string) (reveal : bool) (c : Exec.Child) (h : Host)
    (Hauth : authorised e cmd reveal) (Hrules : Forall regex_ok (rules e))
    (Hcmd : GoStr.TrimSpace cmd <> "") (Hchild : child e cmd (host w) = (Some c, h)) :
  exists salt out err limit, random_salt e = Some salt
    /\ delivered (Exec.mkOpts salt (rules e) reveal limit) (List.concat (Exec.stdout_chunks c)) out
    /\ delivered (Exec.mkOpts salt (rules e) reveal limit) (List.concat (Exec.stderr_chunks c)) err
    /\ stdout (run e w).2 = stdout w ++ out
    /\ stderr (run e w).2
       = stderr w ++ err ++ match (Exec.exit_code (Exec.wait c)).2 with
                            | Some why => log_line (exec_error_text e why)
                            | None => []
                            end
    /\ (run e w).1 = (if (Exec.exit_code (Exec.wait c)).1 <? 0 then exitGeneric
                      else (Exec.exit_code (Exec.wait c)).1)%Z.
Proof.
  destruct (run_outcome e w) as (salt & Hs & Ho); [apply Hauth|].
  inversion Ho as [cmd' code' msg Hcmd' Hcode Hn Hn' Heq|Hsg Hf Heq|cmd' cls r Ha Hu Hcls Heq
                  |r Hv Hn Heq|cmd' r Hv Hn Heq]; try (by destruct (Hn cmd reveal)).
  - destruct Hauth as (_ & [(? & _)|(_ & (k' & f & sg & p & _ & Hf' & _) & _)]); congruence.
  - destruct (Hu _ _ Hauth) as [<- <-].
    set (limit := capture_for (newAuditLogger e w) reveal).
    assert (0 <= limit)%Z as Hlimit.
    { unfold limit, capture_for. destruct (newAuditLogger e w) as [a|]; [|done]. by destruct (_ && _). }
    set (o := Exec.mkOpts salt (rules e) reveal limit).
    destruct (stream_delivers o (Exec.stdout_chunks c) Hrules Hlimit) as (o1 & H1' & D1).
    destruct (stream_delivers o (Exec.stderr_chunks c) Hrules Hlimit) as (o2 & H2' & D2).
    exists salt, o1, o2, limit. do 3 (split; [done|]).
    unfold execAndAudit, execChild. apply String.eqb_neq in Hcmd. rewrite Hcmd, Hchild.
    fold limit o. unfold Exec.ExecWithRedaction. rewrite Hcmd, H1', H2'.
    destruct (Exec.exit_code (Exec.wait c)) as [code er]. cbn [Exec.res Exec.err Exec.ExitCode fst snd].
    destruct er; destruct (code <? 0)%Z; cbn; by rewrite ?app_nil_r, <- ?app_assoc.
Qed.

(** ** A revoke and its record *)

Lemma verified_runs_inner e w c r :
  operational e -> verified e c r ->
  exists salt, run e w = run_inner e salt (newAuditLogger e w) true c r w.
Proof.
  intros (Hr & Hg & _ & Hc) Hv. pose proof (verified_signed _ _ _ Hv) as Hs.
  apply verified_iff in Hv as (k & fps & Hk & Hf & Hv). unfold run.
  destruct (random_salt e) as [salt|]; [|done]. exists salt. apply String.eqb_neq in Hc.
  rewrite Hc, Hk. destruct (gateDirFn e) as [[dir bin]|]; [|done]. unfold run_keyed. by rewrite Hs, Hf, Hv.
Qed.

Lemma under_join dir name : dir <> "/" -> under dir (join_path dir name) = true.
Proof.
  intros Hd. unfold join_path, under. apply String.eqb_neq in Hd. rewrite Hd.
  apply prefix_spec. exists name. by rewrite str_app_assoc.
Qed.

Lemma remove_all_gone h dir p : under dir p = true -> content (files (remove_all h dir)) !! p = None.
Proof.
  intros Hu. cbn. apply map_lookup_filter_None. right. intros b _.
  change (under dir p <> false). by rewrite Hu.
Qed.

Definition no_faults : Faults := mkFaults false None false false None.

(** A revoke in which nothing fails ends with the gate directory removed. *)
Lemma revoke_removes home dir bin h :
  home <> "" -> dir <> "" -> bin <> "" -> In dir (dirs h) ->
  exists h1 res, RevokeGate no_faults home dir bin h = (remove_all h1 dir, res, None).
Proof.
  intros H1' H2' H3' Hin. unfold RevokeGate. apply String.eqb_neq in H1', H2', H3'.
  rewrite H1', H2', H3'. unfold stripAuthorizedKeys.
  assert (forall ds, ds = dirs h -> existsb (String.eqb dir) ds = true) as Hex.
  { intros ds ->. apply existsb_exists. exists dir. split; [done|]. apply String.eqb_refl. }
  destruct (content (files h) !! _) as [body|]; [|rewrite Hex by done; by do 2 eexists].
  cbn [read_fails no_faults]. destruct (stripGateLines _ _) as [rew n].
  destruct (n =? 0); cbn [backup_fails rewrite_fails stat_fails no_faults];
    rewrite Hex by done; by do 2 eexists.
Qed.

(** C40: A verified revoke that succeeds erases the audit log it belongs to: with
    the log in its default place, inside the gate directory, the teardown
    removes the log with all earlier records before the revoke is recorded, and
    the record then has nowhere to go. *)
Theorem revoke_erases_audit_log (e : Env) (w : World) (dir bin home : string) (r : bool)
    (Hop : operational e) (Hv : verified e "SSHGATE_REVOKE" r)
    (Hdir : gateDirFn e = Some (dir, bin)) (Hhome : homeDirFn e = Some home)
    (Hroot : dir <> "/") (Hd : dir <> "") (Hb : bin <> "") (Hh : home <> "")
    (Hf : faults e = no_faults) (Hin : In dir (dirs (host w)))
    (Hpath : content (files (host w)) !! join_path dir "audit-path" = None) :
  let '(code, w') := run e w in
  code = exitOK
  /\ option_map path (newAuditLogger e w) = Some (join_path dir "audit.log")
  /\ content (files (host w')) !! join_path dir "audit.log" = None
  /\ files (host w') = files (host (doRevoke e w).2).
Proof.
  destruct (verified_runs_inner e w _ r Hop Hv) as (salt & ->). unfold run_inner. cbn [andb].
  change ("SSHGATE_REVOKE" =s "SSHGATE_REVOKE") with true. cbv iota.
  assert (exists a, newAuditLogger e w = Some a /\ path a = join_path dir "audit.log")
    as (a & Ha & Hp).
  { unfold newAuditLogger. rewrite Hdir. eexists. split; [done|]. cbn [path].
    unfold read_text. by rewrite Hpath. }
  rewrite Ha. unfold doRevoke. rewrite Hdir, Hhome, Hf.
  destruct (revoke_removes home dir bin (host w)) as (h1 & res & ->); [done..|].
  pose proof (under_join dir "audit.log" Hroot) as Hu.
  split; [done|]. split; [cbn [option_map]; by rewrite Hp|].
  assert (forall rec, RecordLine (Some a) rec (files (remove_all h1 dir))
                      = files (remove_all h1 dir)) as Hrec.
  { intros rec. unfold RecordLine. destruct (negb _); [done|]. rewrite Hp. cbn [remove_all files can_append].
    by rewrite Hu, andb_false_r. }
  unfold auditNoExec, log, set_host, Println. cbn [host files snd].
  rewrite Hrec. split; [by apply remove_all_gone|done].
Qed.

End Gate.

(** ** Witnesses *)

#[local] Instance gate_hmac : Hmac := {| mac salt s := s ++ salt |}.
#[local] Instance gate_pem : PemDecoder := {| pem_decode _ := None |}.

Definition gate_key : private_key := lit "0123456789abcdef0123456789abcdef".

Definition signed_for (cmd : string) (reveal : bool) : string :=
  signed_line gate_key (mkPayload cmd 100 160 "n" "SHA256:a" reveal).

(** A host with a key, an audit log, and a shell that prints the command. *)
Definition gate_env (line : string) : Env :=
  mkEnv (Some (lit "salt")) line (Some ("/h/.sshgate-gate", "/h/.sshgate-gate/gate"))
    (Present 420 (Some gate_key)) (Some ["SHA256:a"]) 150 151 (Some "/h") [] no_faults
    (fun cmd h => (Some (Exec.mkChild [lit cmd] [] (Exec.WaitExit (Exec.Exited 3)) 0), h))
    (fun _ => "error").

Definition gate_world : World :=
  mkWorld (mkHost (mkFiles {[ "/h/.sshgate-gate/audit.log" := lit "old" ]} (fun _ => true))
             ["/h/.sshgate-gate"]) [] [] [].

Lemma gate_operational line : line <> "" -> operational (gate_env line).
Proof.
  intros Hl. split; [done|]. split; [done|]. split; [|done].
  exists (Some gate_key). reflexivity.
Qed.

Lemma gate_verified cmd reveal :
  VerifySigned (signed_for cmd reveal) gate_key 150 ["SHA256:a"] = inl (cmd, reveal) ->
  verified (gate_env (signed_for cmd reveal)) cmd reveal.
Proof. intros Hv. apply verified_iff. by exists gate_key, ["SHA256:a"]. Qed.

Lemma refusal_is_inert_witness :
  let '(code, w') := run (gate_env "rm -rf /") gate_world in
  executed w' = [] /\ stdout w' = []
  /\ stderr w' = lit "gate: write commands require a SSHGATE_SIG prefix" ++ [NL].
Proof.
  pose proof (refusal_is_inert (gate_env "rm -rf /") gate_world) as Hr.
  assert (stderr (run (gate_env "rm -rf /") gate_world).2
          = lit "gate: write commands require a SSHGATE_SIG prefix" ++ [NL]) as He by (by vm_compute).
  destruct (run _ _) as [code w']. destruct Hr as (H1 & H2 & _).
  - by apply gate_operational.
  - intros c r Hv. apply verified_signed in Hv. vm_compute in Hv. discriminate.
  - intros _. vm_compute. discriminate.
  - split; [exact H1|]. split; [exact H2|exact He].
Defined.

Lemma one_record_per_line_witness :
  let '(code, w') := run (gate_env "ls") gate_world in
  exists salt cmd rec, random_salt (gate_env "ls") = Some salt
    /\ recorded (gate_env "ls") salt gate_world code w' cmd rec.
Proof.
  apply (one_record_per_line (gate_env "ls") gate_world).
  - by apply gate_operational.
  - by left.
Defined.

Lemma run_delivers_witness :
  exists out, stdout (run (gate_env (signed_for "rm x" true)) gate_world).2 = [] ++ out
              /\ out = List.concat [lit "rm x"].
Proof.
  destruct (run_delivers (gate_env (signed_for "rm x" true)) gate_world "rm x" true
              (Exec.mkChild [lit "rm x"] [] (Exec.WaitExit (Exec.Exited 3)) 0) (host gate_world))
    as (salt & out & err & limit & _ & Ho & _ & Hs & _).
  - split; [apply gate_operational; vm_compute; discriminate|]. right.
    split; [reflexivity|]. split; [apply gate_verified; vm_compute; reflexivity|reflexivity].
  - constructor.
  - vm_compute. discriminate.
  - reflexivity.
  - exists out. split; [exact Hs|exact Ho].
Defined.

Lemma revoke_erases_audit_log_witness :
  let '(code, w') := run (gate_env (signed_for "SSHGATE_REVOKE" false)) gate_world in
  code = exitOK /\ content (files (host w')) !! "/h/.sshgate-gate/audit.log" = None.
Proof.
  pose proof (revoke_erases_audit_log (gate_env (signed_for "SSHGATE_REVOKE" false)) gate_world
    "/h/.sshgate-gate" "/h/.sshgate-gate/gate" "/h" false) as Hr.
  destruct (run _ _) as [code w']. destruct Hr as (H1 & _ & H3 & _).
  - apply gate_operational. vm_compute. discriminate.
  - apply gate_verified. vm_compute. reflexivity.
  - reflexivity.
  - reflexivity.
  - discriminate.
  - discriminate.
  - discriminate.
  - discriminate.
  - reflexivity.
  - left. reflexivity.
  - reflexivity.
  - split; [exact H1|exact H3].
Defined.
