(* ===== verification/SignerDaemon.v ===== *)
(** * The signer daemon (src/signer/daemon.go, audit.go, backend/backend.go)

    The daemon's state is its grant table, its audit log, the responses that
    left it and the requests that wait for a human.  A handler is cut at the one
    place where it blocks, the wait for the approval backend: [arrive] runs it up
    to there, [resolve] from there on, and between the two any other handler may
    run.  The JSON decoders of the request line are given by what they answer on
    it ([Line]); times are nanoseconds since the epoch. *)

From S2P Require Import Prelude Base64 Sigwire GateVerify RedactScanner RedactWriter.

Module Daemon.
Import Sigwire.

Definition Hour : Z := 60 * Minute.
Definition MaxGrantDuration : Z := 24 * Hour.

(** Unix *)
Definition Unix (t : Z) : Z := (t / Second)%Z.

(** grant *)
Record grant := mkGrant {
  id : string;
  alias : string;
  scope : string;
  commands : list string;
  expiry : Z
}.

#[export] Instance grant_eq_dec : EqDecision grant.
Proof. solve_decision. Defined.

(** signRequestCmd *)
Record signRequestCmd := mkCmd {
  Server : string;
  Command : string;
  TTLSec : Z;
  CmdHost : string;
  CmdReveal : bool;
  Reason : string
}.

(** signRequest *)
Record signRequest := mkSign { sKind : string; sID : string; sCommands : list signRequestCmd }.

(** grantRequest *)
Record grantRequest := mkGrantReq {
  gID : string;
  gAlias : string;
  gScope : string;
  gCommands : list string;
  gDurationSec : Z
}.

(** revokeGrantRequest and listGrantsRequest *)
Record aliasRequest := mkAliasReq { aID : string; aAlias : string }.

(** kindPeek *)
Record kindPeek := mkPeek { Kind : string; PeekVersion : Z; PeekID : string }.

(** What the decoders answer on one request line: the lenient peek, and whether
    it failed, and the strict decode of each kind. *)
Record Line := mkLine {
  peek : kindPeek;
  peek_ok : bool;
  as_sign : option signRequest;
  as_grant : option grantRequest;
  as_revoke : option aliasRequest;
  as_list : option aliasRequest
}.

(** ** The approval backend *)

(** CommandReq and ApprovalRequest: what the approver is shown. *)
Record CommandReq := mkCommandReq {
  crServer : string; crCmd : string; crTTLSec : Z; crReveal : bool; crReason : string
}.

Record ApprovalRequest := mkApproval { arID : string; arCommands : list CommandReq }.

Definition approval_request (req : signRequest) : ApprovalRequest :=
  mkApproval (sID req)
    (map (fun c => mkCommandReq (Server c) (Command c) (TTLSec c) (CmdReveal c) (Reason c))
       (sCommands req)).

(** ResultStatus *)
Inductive ResultStatus :=
  | StatusApproved | StatusDenied | StatusTimeout | StatusOther (n : Z).

Definition StatusString (s : ResultStatus) : string :=
  match s with
  | StatusApproved => "approved"
  | StatusDenied => "denied"
  | StatusTimeout => "timeout"
  | StatusOther _ => "unknown"
  end.

(** SignedCmd and signResponseSig *)
Record SignedCmd := mkSigned { scCmd : string; scSig : string }.

(** Result *)
Record Result := mkRes { Status : ResultStatus; ApprovedBy : string; Signatures : list SignedCmd }.

(** How a wait on the backend ends: a hard error of the request, a closed
    channel, a cancelled context, or one result. *)
Inductive Answer :=
  | RequestError
  | Closed
  | Cancelled
  | Resolved (r : Result).

(** The select of the handlers; [None] is the hard error. *)
Definition await (a : Answer) : option Result :=
  match a with
  | RequestError => None
  | Closed | Cancelled => Some (mkRes StatusTimeout "" [])
  | Resolved r => Some r
  end.

(** ** Responses and the audit log *)

(** The reasons of error responses. *)
Inductive Reason_ :=
  | Malformed | VersionMismatch | UnsupportedKind | MissingRequestID | NoCommands
  | EmptyCmd (i : nat) | TTLNotPositive (i : nat) | TTLTooLong (i : nat)
  | BackendError | SignatureCount | SignatureCmd (i : nat) | SignFailed
  | MissingAlias | ScopeAllWithCommands | ScopeWithoutCommands | EmptyGrantCommand (i : nat)
  | InvalidScope | DurationNotPositive | DurationTooLong | GrantIDFailed.

(** grantInfo *)
Record grantInfo := mkInfo {
  iAlias : string; iScope : string; iCommands : list string; iID : string; iExpiry : Z
}.

(** signResponse, grantResponse, revokeGrantResponse, listGrantsResponse *)
Inductive Response :=
  | SignResponse (rid status auth_mode : string) (sigs : list SignedCmd) (err : option Reason_)
  | GrantResponse (rid status grant_id : string) (expiry_unix : Z) (err : option Reason_)
  | RevokeGrantResponse (rid status : string) (err : option Reason_)
  | ListGrantsResponse (rid status : string) (grants : list grantInfo) (err : option Reason_).

(** AuditEvent; a nil slice of servers is [None], the commands are never nil. *)
Record AuditEvent := mkEvent {
  evTS : Z;
  evID : string;
  evStatus : string;
  evCommands : list string;
  evServers : option (list string);
  evApprovedBy : string;
  evAuthMode : string
}.

(** authMode *)
Definition authMode (approved : bool) (approvedBy : string) : string :=
  if negb approved then ""
  else if GoStr.HasPrefix approvedBy "grant:" then approvedBy
  else if negb (approvedBy =s "") then "human"
  else "".

(** undeliveredStatus *)
Definition undeliveredStatus (s : ResultStatus) : string :=
  match s with
  | StatusApproved => "approved-undelivered"
  | StatusDenied => "denied-undelivered"
  | StatusTimeout => "timeout-undelivered"
  | StatusOther _ => StatusString s
  end.

(** A request whose handler waits for the backend. *)
Inductive Pending :=
  | PendingSign (req : signRequest)
  | PendingGrant (req : grantRequest).

(** The daemon: rows whose write failed are kept apart in [lost]. *)
Record State := mkState {
  grants : gmap string grant;
  audit : list AuditEvent;
  lost : list AuditEvent;
  sent : list Response;
  pending : list Pending
}.

Definition initial : State := mkState ∅ [] [] [] [].

(** What one half of a handler finds: the clock at its readings, the random
    bytes it draws, and whether its response and its audit row are written. *)
Record Env := mkEnv {
  match_time : Z;
  decide_time : Z;
  audit_time : Z;
  random : nat -> option (list ascii);
  delivered : bool;
  audit_ok : bool
}.

(** The daemon's configuration. *)
Record Config `{Ed25519} := mkConfig {
  Key : private_key;
  RedactSalt : list ascii;
  RedactRules : list Scanner.Rule
}.

Definition set_pending (p : list Pending) (s : State) : State :=
  mkState (grants s) (audit s) (lost s) (sent s) p.

Definition set_grants (g : gmap string grant) (s : State) : State :=
  mkState g (audit s) (lost s) (sent s) (pending s).

(** writeJSONLine *)
Definition writeJSONLine (e : Env) (r : Response) (s : State) : State :=
  if delivered e
  then mkState (grants s) (audit s) (lost s) (sent s ++ [r]) (pending s)
  else s.

(** AuditLog.Write *)
Definition AuditWrite (e : Env) (ev : AuditEvent) (s : State) : State :=
  if audit_ok e
  then mkState (grants s) (audit s ++ [ev]) (lost s) (sent s) (pending s)
  else mkState (grants s) (audit s) (lost s ++ [ev]) (sent s) (pending s).

(** ** Grants *)

(** grantCovers *)
Definition grantCovers (g : grant) (cmd : string) : bool :=
  if scope g =s "all" then true
  else if scope g =s "commands" then existsb (fun allowed => allowed =s cmd) (commands g)
  else false.

(** The loop of matchGrant. *)
Fixpoint match_loop (tbl : gmap string grant) (now : Z) (firstID : option string)
    (cmds : list signRequestCmd) : option string :=
  match cmds with
  | [] => firstID
  | c :: cmds =>
      match tbl !! Server c with
      | None => None
      | Some g =>
          if negb (now <? expiry g)%Z then None
          else if negb (grantCovers g (Command c)) then None
          else match_loop tbl now (match firstID with None => Some (id g) | _ => firstID end) cmds
      end
  end.

(** matchGrant *)
Definition matchGrant (tbl : gmap string grant) (now : Z) (cmds : list signRequestCmd)
    : option string :=
  if existsb CmdReveal cmds then None else match_loop tbl now None cmds.

(** newNonce and newGrantID; [None] is a failing source of randomness. *)
Definition newNonce (rnd : option (list ascii)) : option string :=
  option_map (fun b => str (Base64.encode b)) rnd.

Definition newGrantID (rnd : option (list ascii)) : option string :=
  option_map (fun b => "g_" +:+ str (Base64.encode b)) rnd.

Section Daemon.
Context `{Hmac} `{Ed25519}.

(** ** Signing *)

(** The payload signAll builds for one command. *)
Definition payload_for (now : Z) (nonce : string) (c : signRequestCmd) : SigPayload :=
  mkPayload (Command c) now (Verify.wrap64 (now + TTLSec c)) nonce (CmdHost c) (CmdReveal c).

(** signAll, from index [i]. *)
Fixpoint signAll (cfg : Config) (now : Z) (rnd : nat -> option (list ascii)) (i : nat)
    (cmds : list signRequestCmd) : option (list SignedCmd) :=
  match cmds with
  | [] => Some []
  | c :: cmds =>
      match newNonce (rnd i) with
      | None => None
      | Some nonce =>
          let payload := payload_for now nonce c in
          let sig := ed_sign (Key cfg) (marshal payload) in
          match signAll cfg now rnd (S i) cmds with
          | Some out => Some (mkSigned (Command c) (EncodeSigned sig payload) :: out)
          | None => None
          end
      end
  end.

(** The check of a remote backend's signatures against the request. *)
Fixpoint remote_mismatch (i : nat) (sigs : list SignedCmd) (cmds : list signRequestCmd)
    : option nat :=
  match sigs, cmds with
  | s :: sigs, c :: cmds =>
      if negb (scCmd s =s Command c) then Some i else remote_mismatch (S i) sigs cmds
  | _, _ => None
  end.

(** ** Audit rows *)

(** The audit row of a sign request. *)
Definition redacted (cfg : Config) (cmd : string) : string :=
  let '(red, ok) := Writer.RedactString cmd (RedactSalt cfg) (RedactRules cfg) in
  if ok then red else cmd.

Definition signEvent (cfg : Config) (e : Env) (rid : string) (cmds : list signRequestCmd)
    (status approvedBy : string) : AuditEvent :=
  mkEvent (audit_time e) rid status (map (fun c => redacted cfg (Command c)) cmds)
    (Some (map Server cmds)) approvedBy (authMode (GoStr.HasPrefix status "approved") approvedBy).

(** auditGrant *)
Definition grantEvent (e : Env) (rid al sc status approvedBy : string) : AuditEvent :=
  mkEvent (audit_time e) rid status ["request_grant alias=" +:+ al +:+ " scope=" +:+ sc] (Some [al])
    approvedBy "".

(** auditRevokeGrant *)
Definition revokeEvent (e : Env) (rid al status : string) : AuditEvent :=
  mkEvent (audit_time e) rid status ["revoke_grant alias=" +:+ al] (Some [al]) "" "".

(** auditListGrants *)
Definition listEvent (e : Env) (rid al status : string) : AuditEvent :=
  mkEvent (audit_time e) rid status
    [if negb (al =s "") then "list_grants alias=" +:+ al else "list_grants"]
    (if negb (al =s "") then Some [al] else None) "" "".

(** ** Responding *)

(** respondError *)
Definition respondError (cfg : Config) (e : Env) (rid : string) (why : Reason_) (s : State) : State :=
  AuditWrite e (signEvent cfg e rid [] "error" "")
    (writeJSONLine e (SignResponse rid "error" "" [] (Some why)) s).

(** respondGrantError *)
Definition respondGrantError (e : Env) (rid : string) (why : Reason_) (s : State) : State :=
  AuditWrite e (grantEvent e rid "" "" "error" "")
    (writeJSONLine e (GrantResponse rid "error" "" 0 (Some why)) s).

(** respondRevokeGrantError *)
Definition respondRevokeGrantError (e : Env) (rid : string) (why : Reason_) (s : State) : State :=
  AuditWrite e (revokeEvent e rid "" "error")
    (writeJSONLine e (RevokeGrantResponse rid "error" (Some why)) s).

(** respondListGrantsError *)
Definition respondListGrantsError (e : Env) (rid : string) (why : Reason_) (s : State) : State :=
  AuditWrite e (listEvent e rid "" "error")
    (writeJSONLine e (ListGrantsResponse rid "error" [] (Some why)) s).

(** The signatures of an approved request, or why there are none. *)
Definition approved_signatures (cfg : Config) (e : Env) (req : signRequest) (r : Result)
    : list SignedCmd + Reason_ :=
  match Signatures r with
  | [] =>
      match signAll cfg (Unix (decide_time e)) (random e) 0 (sCommands req) with
      | Some sigs => inl sigs
      | None => inr SignFailed
      end
  | sigs =>
      if negb (List.length sigs =? List.length (sCommands req)) then inr SignatureCount
      else match remote_mismatch 0 sigs (sCommands req) with
           | Some i => inr (SignatureCmd i)
           | None => inl sigs
           end
  end.

Definition is_approved (s : ResultStatus) : bool :=
  match s with StatusApproved => true | _ => false end.

(** The end of respond: the response, then the row. *)
Definition deliver (cfg : Config) (e : Env) (req : signRequest) (r : Result)
    (sigs : list SignedCmd) (s : State) : State :=
  let resp := SignResponse (sID req) (StatusString (Status r))
                (authMode (is_approved (Status r)) (ApprovedBy r)) sigs None in
  let status := if delivered e then StatusString (Status r) else undeliveredStatus (Status r) in
  AuditWrite e (signEvent cfg e (sID req) (sCommands req) status (ApprovedBy r))
    (writeJSONLine e resp s).

(** respond *)
Definition respond (cfg : Config) (e : Env) (req : signRequest) (r : Result) (s : State) : State :=
  if is_approved (Status r) then
    match approved_signatures cfg e req r with
    | inr why => respondError cfg e (sID req) why s
    | inl sigs => deliver cfg e req r sigs s
    end
  else deliver cfg e req r [] s.

(** ** The handlers, up to the wait *)

(** The checks of each command of a sign request. *)
Fixpoint check_commands (i : nat) (cmds : list signRequestCmd) : option Reason_ :=
  match cmds with
  | [] => None
  | c :: cmds =>
      if Command c =s "" then Some (EmptyCmd i)
      else if (TTLSec c <=? 0)%Z then Some (TTLNotPositive i)
      else if (MaxSigValidity / Second <? TTLSec c)%Z then Some (TTLTooLong i)
      else check_commands (S i) cmds
  end.

Definition wait_for (p : Pending) (s : State) : State := set_pending (pending s ++ [p]) s.

(** The sign branch of HandleSignRequest. *)
Definition handleSign (cfg : Config) (e : Env) (l : Line) (s : State) : State :=
  match as_sign l with
  | None => respondError cfg e "" Malformed s
  | Some req =>
      if negb (sKind req =s "sign") then respondError cfg e (sID req) UnsupportedKind s
      else if sID req =s "" then respondError cfg e "" MissingRequestID s
      else match sCommands req with
           | [] => respondError cfg e (sID req) NoCommands s
           | _ =>
               match check_commands 0 (sCommands req) with
               | Some why => respondError cfg e (sID req) why s
               | None =>
                   match matchGrant (grants s) (match_time e) (sCommands req) with
                   | Some gid =>
                       respond cfg e req (mkRes StatusApproved ("grant:" +:+ gid) []) s
                   | None => wait_for (PendingSign req) s
                   end
               end
           end
  end.

(** The empty command of a grant, if there is one. *)
Fixpoint empty_command (i : nat) (cmds : list string) : option nat :=
  match cmds with
  | [] => None
  | c :: cmds => if c =s "" then Some i else empty_command (S i) cmds
  end.

(** The checks of a grant request. *)
Definition check_grant (req : grantRequest) : option Reason_ :=
  let bad_scope :=
    if gScope req =s "all" then
      match gCommands req with [] => None | _ => Some ScopeAllWithCommands end
    else if gScope req =s "commands" then
      match gCommands req with
      | [] => Some ScopeWithoutCommands
      | cmds => option_map EmptyGrantCommand (empty_command 0 cmds)
      end
    else Some InvalidScope in
  match bad_scope with
  | Some why => Some why
  | None =>
      if (gDurationSec req <=? 0)%Z then Some DurationNotPositive
      else if (MaxGrantDuration / Second <? gDurationSec req)%Z then Some DurationTooLong
      else None
  end.

(** handleRequestGrant, up to the wait. *)
Definition handleRequestGrant (e : Env) (l : Line) (s : State) : State :=
  match as_grant l with
  | None => respondGrantError e "" Malformed s
  | Some req =>
      if gID req =s "" then respondGrantError e "" MissingRequestID s
      else if gAlias req =s "" then respondGrantError e (gID req) MissingAlias s
      else match check_grant req with
           | Some why => respondGrantError e (gID req) why s
           | None => wait_for (PendingGrant req) s
           end
  end.

(** handleRevokeGrant *)
Definition handleRevokeGrant (e : Env) (l : Line) (s : State) : State :=
  match as_revoke l with
  | None => respondRevokeGrantError e "" Malformed s
  | Some req =>
      if aID req =s "" then respondRevokeGrantError e "" MissingRequestID s
      else if aAlias req =s "" then respondRevokeGrantError e (aID req) MissingAlias s
      else
        let s := set_grants (delete (aAlias req) (grants s)) s in
        AuditWrite e (revokeEvent e (aID req) (aAlias req) "approved")
          (writeJSONLine e (RevokeGrantResponse (aID req) "approved" None) s)
  end.

(** One grant of the table as list_grants shows it. *)
Definition info_of (g : grant) : grantInfo :=
  mkInfo (alias g) (scope g) (commands g) (id g) (Unix (expiry g)).

(** handleListGrants; the order of the answer is the map's. *)
Definition handleListGrants (e : Env) (l : Line) (s : State) : State :=
  match as_list l with
  | None => respondListGrantsError e "" Malformed s
  | Some req =>
      if aID req =s "" then respondListGrantsError e "" MissingRequestID s
      else
        let shown := List.filter
          (fun kv => negb (negb (aAlias req =s "") && negb (kv.1 =s aAlias req))
                     && (match_time e <? expiry kv.2)%Z)
          (map_to_list (grants s)) in
        AuditWrite e (listEvent e (aID req) (aAlias req) "list_grants")
          (writeJSONLine e
             (ListGrantsResponse (aID req) "ok" (map (fun kv => info_of kv.2) shown) None) s)
  end.

(** HandleSignRequest, up to the wait. *)
Definition arrive (cfg : Config) (e : Env) (l : Line) (s : State) : State :=
  let p := peek l in
  if negb (peek_ok l) then respondError cfg e (PeekID p) Malformed s
  else if negb (PeekVersion p =? 0)%Z && negb (PeekVersion p =? ProtoVersion)%Z
  then respondError cfg e (PeekID p) VersionMismatch s
  else if Kind p =s "request_grant" then handleRequestGrant e l s
  else if Kind p =s "revoke_grant" then handleRevokeGrant e l s
  else if Kind p =s "list_grants" then handleListGrants e l s
  else if (Kind p =s "sign") || (Kind p =s "") then handleSign cfg e l s
  else respondError cfg e (Kind p) UnsupportedKind s.

(** ** The handlers, after the wait *)

(** The grant an approved request mints. *)
Definition minted (e : Env) (gid : string) (req : grantRequest) : grant :=
  mkGrant gid (gAlias req) (gScope req) (gCommands req)
    (decide_time e + gDurationSec req * Second)%Z.

(** The end of handleRequestGrant. *)
Definition finishGrant (e : Env) (req : grantRequest) (a : Answer) (s : State) : State :=
  match await a with
  | None => respondGrantError e (gID req) BackendError s
  | Some r =>
      if negb (is_approved (Status r)) then
        AuditWrite e (grantEvent e (gID req) (gAlias req) (gScope req)
                        (StatusString (Status r)) (ApprovedBy r))
          (writeJSONLine e (GrantResponse (gID req) (StatusString (Status r)) "" 0 None) s)
      else match newGrantID (random e 0) with
           | None => respondGrantError e (gID req) GrantIDFailed s
           | Some gid =>
               let g := minted e gid req in
               let s := set_grants (<[gAlias req := g]> (grants s)) s in
               AuditWrite e (grantEvent e (gID req) (gAlias req) (gScope req)
                               (if delivered e then "approved" else "approved-undelivered")
                               (ApprovedBy r))
                 (writeJSONLine e
                    (GrantResponse (gID req) "approved" gid (Unix (expiry g)) None) s)
           end
  end.

(** The end of the sign branch. *)
Definition finishSign (cfg : Config) (e : Env) (req : signRequest) (a : Answer) (s : State) : State :=
  match await a with
  | None => respondError cfg e (sID req) BackendError s
  | Some r => respond cfg e req r s
  end.

(** A waiting handler goes on. *)
Definition resolve (cfg : Config) (e : Env) (p : Pending) (a : Answer) (s : State) : State :=
  match p with
  | PendingSign req => finishSign cfg e req a s
  | PendingGrant req => finishGrant e req a s
  end.

(** ** The daemon as a transition system

    A request arrives, a waiting one is resolved, or the process restarts: its
    table, its handlers and their waits are gone, its log stays. *)
Inductive event :=
  | Arrive (e : Env) (l : Line)
  | Resolve (e : Env) (p : Pending) (a : Answer)
  | RestartProcess.

Inductive step (cfg : Config) : State -> event -> State -> Prop :=
  | step_arrive e l s : step cfg s (Arrive e l) (arrive cfg e l s)
  | step_resolve e p a s p1 p2 :
      pending s = p1 ++ p :: p2 ->
      step cfg s (Resolve e p a) (resolve cfg e p a (set_pending (p1 ++ p2) s))
  | step_restart s : step cfg s RestartProcess (mkState ∅ (audit s) (lost s) (sent s) []).

Inductive reach (cfg : Config) : list event -> State -> Prop :=
  | reach_init : reach cfg [] initial
  | reach_step tr s ev s' : reach cfg tr s -> step cfg s ev s' -> reach cfg (tr ++ [ev]) s'.

End Daemon.

End Daemon.
