(* ===== verification/SignerDaemonProps.v ===== *)
(** * What the signer daemon guarantees

    Which requests sign, under which authority, and what the log keeps of it, as
    invariants of the daemon's transition system. *)

From S2P Require Import Prelude Base64 Json JsonProps Sigwire SigwireProps GateVerify GateVerifyProps RedactScanner RedactWriter SignerDaemon.
Import Sigwire Verify Daemon.

(** ** Matching a grant *)

(** The table authorises [c] at time [now]. *)
Definition covered (tbl : gmap string grant) (now : Z) (c : signRequestCmd) : Prop :=
  exists g, tbl !! Server c = Some g /\ (now < expiry g)%Z
    /\ (scope g = "all" \/ scope g = "commands" /\ In (Command c) (commands g)).

Lemma grantCovers_iff g cmd :
  grantCovers g cmd = true <-> scope g = "all" \/ scope g = "commands" /\ In cmd (commands g).
Proof.
  unfold grantCovers. destruct (scope g =s "all") eqn:E1; bool_hyps; [tauto|].
  destruct (scope g =s "commands") eqn:E2; bool_hyps.
  - rewrite existsb_exists. split.
    + intros (x & Hx & ->%String.eqb_eq). by right.
    + intros [?|[_ Hi]]; [congruence|]. exists cmd. split; [done|]. apply String.eqb_refl.
  - split; [done|]. intros [?|[? _]]; congruence.
Qed.

Lemma match_loop_some tbl now cmds : forall first gid,
  match_loop tbl now first cmds = Some gid ->
  Forall (covered tbl now) cmds
  /\ (first = Some gid
      \/ first = None /\ exists c g, head cmds = Some c /\ tbl !! Server c = Some g /\ id g = gid).
Proof.
  induction cmds as [|c cmds IH]; intros first gid; cbn [match_loop]; [by intros ->; auto|].
  destruct (tbl !! Server c) as [g|] eqn:Eg; [|done].
  destruct (now <? expiry g)%Z eqn:Ee; [|done]. bool_hyps. cbn [negb].
  destruct (grantCovers g (Command c)) eqn:Ec; [|done]. cbn [negb].
  intros [Hf Hid]%IH. split.
  - constructor; [|done]. exists g. by rewrite <- grantCovers_iff.
  - destruct first as [f|]; [destruct Hid as [?|[? _]]; auto; done|].
    right. split; [done|]. destruct Hid as [[= <-]|[? _]]; [|done]. by exists c, g.
Qed.

Lemma match_loop_covered tbl now cmds : forall first,
  Forall (covered tbl now) cmds -> (cmds <> [] \/ first <> None) ->
  exists gid, match_loop tbl now first cmds = Some gid.
Proof.
  induction cmds as [|c cmds IH]; intros first Hf Hne; cbn [match_loop].
  - destruct Hne; [done|]. by destruct first; [eexists|].
  - apply Forall_cons in Hf as [(g & -> & He & Hc) Hf]. apply grantCovers_iff in Hc as ->.
    apply Z.ltb_lt in He as ->. cbn [negb]. apply IH; [done|]. right. by destruct first.
Qed.

Lemma match_covered tbl now cmds gid :
  matchGrant tbl now cmds = Some gid ->
  Forall (fun c => CmdReveal c = false /\ covered tbl now c) cmds.
Proof.
  unfold matchGrant. destruct (existsb CmdReveal cmds) eqn:Er; [done|]. intros Hm.
  apply match_loop_some in Hm as [Hf _]. rewrite List.Forall_forall in *. intros c Hc.
  split; [|by apply Hf]. destruct (CmdReveal c) eqn:E; [|done].
  enough (existsb CmdReveal cmds = true) by congruence. apply existsb_exists. eauto.
Qed.

(** A sign request is answered without a prompt exactly when it has commands,
    none of them is a reveal, and each is covered, on its own alias, by a grant
    that has not expired and either takes every command or lists this one
    verbatim; the grant named in the log is the first command's. *)
Theorem matchGrant_iff (tbl : gmap string grant) (now : Z) (cmds : list signRequestCmd) :
  ((exists gid, matchGrant tbl now cmds = Some gid) <->
     cmds <> [] /\ Forall (fun c => CmdReveal c = false /\ covered tbl now c) cmds)
  /\ (forall gid, matchGrant tbl now cmds = Some gid ->
        exists c g, head cmds = Some c /\ tbl !! Server c = Some g /\ id g = gid).
Proof.
  pose proof (match_covered tbl now cmds) as Hcov.
  unfold matchGrant in *. destruct (existsb CmdReveal cmds) eqn:Er.
  - split; [|done]. split; [by intros [??]|]. intros [_ Hf].
    apply existsb_exists in Er as (c & Hc & Hr). rewrite List.Forall_forall in Hf.
    destruct (Hf c Hc). congruence.
  - split; [split|].
    + intros [gid Hm]. split; [|by eapply Hcov]. apply match_loop_some in Hm as [_ Hid].
      destruct Hid as [?|(_ & c & g & Hh & _)]; [done|]. by destruct cmds.
    + intros [Hne Hf]. apply match_loop_covered; [|by left].
      eapply Forall_impl; [exact Hf|]. by intros c [_ ?].
    + intros gid Hm. apply match_loop_some in Hm as [_ Hid].
      destruct Hid as [?|(_ & ?)]; [done|assumption].
Qed.

Section Daemon.
Context `{Hmac} `{Ed25519}.
Variable cfg : Config.

(** ** What one step does

    A handler that ends writes one response and one audit row, over a table it
    may have changed. *)
Definition finish (e : Env) (r : Response) (ev : AuditEvent) (tbl : gmap string grant)
    (s : State) : State :=
  AuditWrite e ev (writeJSONLine e r (set_grants tbl s)).

(** A response that carries no signature. *)
Definition unsigned (r : Response) : Prop :=
  match r with SignResponse _ _ _ sigs _ => sigs = [] | _ => True end.

(** A sign request past its checks. *)
Definition checked (req : signRequest) : Prop :=
  sKind req = "sign" /\ sID req <> "" /\ sCommands req <> []
  /\ check_commands 0 (sCommands req) = None.

Definition checked_grant (req : grantRequest) : Prop :=
  gID req <> "" /\ gAlias req <> "" /\ check_grant req = None.

Definition approved_status (e : Env) : string :=
  if delivered e then "approved" else "approved-undelivered".

(** What the end of a handler answers, by its authority. *)
Inductive answers (s : State) : event -> Response -> AuditEvent -> gmap string grant -> Prop :=
  | no_authority x r ev : unsigned r -> evAuthMode ev = "" -> answers s x r ev (grants s)
  | by_grant e l req gid sigs :
      as_sign l = Some req -> checked req ->
      matchGrant (grants s) (match_time e) (sCommands req) = Some gid ->
      signAll cfg (Unix (decide_time e)) (random e) 0 (sCommands req) = Some sigs ->
      answers s (Arrive e l)
        (SignResponse (sID req) "approved" ("grant:" +:+ gid) sigs None)
        (signEvent cfg e (sID req) (sCommands req) (approved_status e) ("grant:" +:+ gid))
        (grants s)
  | by_human e req r sigs :
      checked req -> Status r = StatusApproved ->
      approved_signatures cfg e req r = inl sigs ->
      answers s (Resolve e (PendingSign req) (Resolved r))
        (SignResponse (sID req) "approved" (authMode true (ApprovedBy r)) sigs None)
        (signEvent cfg e (sID req) (sCommands req) (approved_status e) (ApprovedBy r))
        (grants s)
  | mints e req r gid :
      checked_grant req -> Status r = StatusApproved -> newGrantID (random e 0) = Some gid ->
      answers s (Resolve e (PendingGrant req) (Resolved r))
        (GrantResponse (gID req) "approved" gid (Unix (expiry (minted e gid req))) None)
        (grantEvent e (gID req) (gAlias req) (gScope req) (approved_status e) (ApprovedBy r))
        (<[gAlias req := minted e gid req]> (grants s))
  | revokes e l req :
      as_revoke l = Some req ->
      answers s (Arrive e l) (RevokeGrantResponse (aID req) "approved" None)
        (revokeEvent e (aID req) (aAlias req) "approved") (delete (aAlias req) (grants s)).

Definition pending_ok (p : Pending) : Prop :=
  match p with PendingSign req => checked req | PendingGrant req => checked_grant req end.

Lemma set_grants_same s : set_grants (grants s) s = s.
Proof. by destruct s. Qed.

(** The end of a handler that changes no grant. *)
Lemma finish_same e r ev s : AuditWrite e ev (writeJSONLine e r s) = finish e r ev (grants s) s.
Proof. unfold finish. by rewrite set_grants_same. Qed.

Definition ends (s : State) (x : event) (e : Env) (s' : State) : Prop :=
  exists r ev tbl, s' = finish e r ev tbl s /\ answers s x r ev tbl.

Lemma ends_quiet s x e r ev :
  unsigned r -> evAuthMode ev = "" -> ends s x e (AuditWrite e ev (writeJSONLine e r s)).
Proof. intros Hr Hev. rewrite finish_same. do 3 eexists. split; [done|]. by apply no_authority. Qed.

Lemma respondError_ends s x e rid why : ends s x e (respondError cfg e rid why s).
Proof. by apply ends_quiet. Qed.

Lemma deliver_refused_ends s x e req r :
  is_approved (Status r) = false -> ends s x e (deliver cfg e req r [] s).
Proof.
  intros Hr. apply ends_quiet; [done|]. cbn. unfold authMode.
  destruct (Status r), (delivered e); done.
Qed.

Lemma approved_is r : is_approved (Status r) = true -> Status r = StatusApproved.
Proof. by destruct (Status r). Qed.

(** A sign request, on either authority. *)
Lemma respond_ends s x e req r :
  (forall sigs, Status r = StatusApproved -> approved_signatures cfg e req r = inl sigs ->
     answers s x (SignResponse (sID req) "approved" (authMode true (ApprovedBy r)) sigs None)
       (signEvent cfg e (sID req) (sCommands req) (approved_status e) (ApprovedBy r)) (grants s)) ->
  ends s x e (respond cfg e req r s).
Proof.
  intros Ha. unfold respond. destruct (is_approved (Status r)) eqn:Es.
  - destruct (approved_signatures cfg e req r) as [sigs|why] eqn:E; [|apply respondError_ends].
    apply approved_is in Es. unfold deliver. rewrite finish_same, Es.
    do 3 eexists. split; [done|]. apply Ha; done.
  - by apply deliver_refused_ends.
Qed.

Lemma handleSign_ends e l s :
  ends s (Arrive e l) e (handleSign cfg e l s)
  \/ exists req, handleSign cfg e l s = wait_for (PendingSign req) s /\ checked req
       /\ as_sign l = Some req /\ matchGrant (grants s) (match_time e) (sCommands req) = None.
Proof.
  unfold handleSign. destruct (as_sign l) as [req|] eqn:El; [|left; apply respondError_ends].
  destruct (sKind req =s "sign") eqn:Ek; [|left; apply respondError_ends]. cbn [negb].
  destruct (sID req =s "") eqn:Ei; [left; apply respondError_ends|].
  destruct (sCommands req) as [|c cmds] eqn:Ec; [left; apply respondError_ends|]. rewrite <- Ec.
  destruct (check_commands 0 _) eqn:Ek'; [left; apply respondError_ends|]. bool_hyps.
  assert (checked req) as Hreq by (split; [done|split; [done|split; [congruence|done]]]).
  destruct (matchGrant _ _ _) as [gid|] eqn:Em; [left|right; eauto 10].
  apply respond_ends. intros sigs _ Hs. cbn [ApprovedBy] in *.
  replace (authMode true _) with ("grant:" +:+ gid)
    by (unfold authMode; cbn [negb]; by rewrite (proj2 (prefix_spec "grant:" _) (ex_intro _ gid eq_refl))).
  apply by_grant with (req := req); try done.
  unfold approved_signatures in Hs. cbn [Signatures] in Hs. by destruct (signAll _ _ _ _ _); simplify_eq.
Qed.

Lemma arrive_ends e l s :
  ends s (Arrive e l) e (arrive cfg e l s)
  \/ exists p, arrive cfg e l s = wait_for p s /\ pending_ok p.
Proof.
  unfold arrive. destruct (peek_ok l); cbn [negb]; [|left; apply respondError_ends].
  destruct (_ && _); [left; apply respondError_ends|].
  destruct (Kind _ =s "request_grant").
  { unfold handleRequestGrant. destruct (as_grant l) as [req|]; [|left; by apply ends_quiet].
    destruct (gID req =s "") eqn:Ei; [left; by apply ends_quiet|].
    destruct (gAlias req =s "") eqn:Ea; [left; by apply ends_quiet|].
    destruct (check_grant req) eqn:Ec; [left; by apply ends_quiet|]. bool_hyps.
    right. exists (PendingGrant req). by repeat split. }
  destruct (Kind _ =s "revoke_grant").
  { left. unfold handleRevokeGrant. destruct (as_revoke l) as [req|] eqn:El; [|by apply ends_quiet].
    destruct (aID req =s ""); [by apply ends_quiet|].
    destruct (aAlias req =s ""); [by apply ends_quiet|].
    do 3 eexists. split; [done|]. by apply revokes. }
  destruct (Kind _ =s "list_grants").
  { left. unfold handleListGrants. destruct (as_list l) as [req|]; [|by apply ends_quiet].
    destruct (aID req =s ""); by apply ends_quiet. }
  destruct (_ || _); [|left; apply respondError_ends].
  destruct (handleSign_ends e l s) as [?|(req & Hw & Hc & _)]; [by left|]. right.
  by exists (PendingSign req).
Qed.

Lemma resolve_ends e p a s :
  pending_ok p -> ends s (Resolve e p a) e (resolve cfg e p a s).
Proof.
  intros Hp. destruct p as [req|req]; cbn [resolve pending_ok] in *.
  - unfold finishSign. destruct (await a) as [r|] eqn:Ea; [|apply respondError_ends].
    apply respond_ends. intros sigs Hr Hs. destruct a as [| | |r']; try done;
      simplify_eq/=; try by destruct r. by apply by_human.
  - unfold finishGrant. destruct (await a) as [r|] eqn:Ea; [|by apply ends_quiet].
    destruct (is_approved (Status r)) eqn:Er; cbn [negb]; [|by apply ends_quiet].
    apply approved_is in Er. destruct (newGrantID _) as [gid|] eqn:Eg; [|by apply ends_quiet].
    destruct a as [| | |r']; simplify_eq/=.
    do 3 eexists. split; [done|]. by apply mints.
Qed.

(** ** Reachable states *)

Lemma finish_grants e r ev tbl s : grants (finish e r ev tbl s) = tbl.
Proof. unfold finish, AuditWrite, writeJSONLine. by destruct (audit_ok e), (delivered e). Qed.

Lemma finish_pending e r ev tbl s : pending (finish e r ev tbl s) = pending s.
Proof. unfold finish, AuditWrite, writeJSONLine. by destruct (audit_ok e), (delivered e). Qed.

Lemma finish_sent e r ev tbl s :
  sent (finish e r ev tbl s) = sent s ++ if delivered e then [r] else [].
Proof.
  unfold finish, AuditWrite, writeJSONLine. rewrite <- (app_nil_r (sent s)) at 1.
  destruct (audit_ok e), (delivered e); cbn; by rewrite ?app_nil_r.
Qed.

(** Every row a handler wrote or tried to write. *)
Definition rows (s : State) : list AuditEvent := audit s ++ lost s.

Lemma finish_rows e r ev tbl s : Permutation (rows (finish e r ev tbl s)) (ev :: rows s).
Proof.
  unfold finish, AuditWrite, writeJSONLine, rows.
  destruct (audit_ok e), (delivered e); cbn [audit lost set_grants];
    rewrite <- ?app_assoc; cbn [app];
    (symmetry; apply Permutation_middle) ||
    (rewrite app_assoc; symmetry; apply Permutation_cons_append).
Qed.

(** A step in general: a restart, a wait, or the end of a handler. *)
Lemma step_cases s x s' :
  Forall pending_ok (pending s) -> step cfg s x s' ->
  (x = RestartProcess /\ s' = mkState ∅ (audit s) (lost s) (sent s) [])
  \/ (exists e l p, x = Arrive e l /\ s' = wait_for p s /\ pending_ok p)
  \/ (exists e l, x = Arrive e l /\ ends s x e s')
  \/ (exists e p a p1 p2, x = Resolve e p a /\ pending s = p1 ++ p :: p2
       /\ ends (set_pending (p1 ++ p2) s) x e s').
Proof.
  intros Hp Hs. inversion Hs as [e l s0|e p a s0 p1 p2 Hpd|s0]; subst.
  - destruct (arrive_ends e l s) as [?|(p & -> & Hok)]; [right; right; left; eauto|].
    right. left. by exists e, l, p.
  - do 3 right. exists e, p, a, p1, p2. split; [done|]. split; [done|].
    rewrite Hpd in Hp. apply Forall_app in Hp as [_ Hp]. apply Forall_cons in Hp as [Hp _].
    by apply resolve_ends.
  - by left.
Qed.

Lemma reach_pending tr s : reach cfg tr s -> Forall pending_ok (pending s).
Proof.
  induction 1 as [|tr s x s' _ IH Hs]; [constructor|].
  destruct (step_cases _ _ _ IH Hs) as [(_ & ->)|[(e & l & p & _ & -> & Hp)|[(e & l & _ & He)|He]]].
  - constructor.
  - cbn. apply Forall_app. auto.
  - destruct He as (r & ev & tbl & -> & _). by rewrite finish_pending.
  - destruct He as (e & p & a & p1 & p2 & _ & Hp & r & ev & tbl & -> & _).
    rewrite finish_pending. rewrite Hp in IH. apply Forall_app in IH as [H1 H2].
    apply Forall_cons in H2 as [_ H2]. by apply Forall_app.
Qed.

Lemma answers_pending pend s x r ev tbl :
  answers (set_pending pend s) x r ev tbl -> answers s x r ev tbl.
Proof.
  intros Ha. remember (set_pending pend s) as s1 eqn:E.
  assert (grants s1 = grants s) as Hg by (by subst).
  destruct Ha; rewrite Hg in *.
  - by apply no_authority.
  - by eapply by_grant.
  - by apply by_human.
  - by apply mints.
  - by apply revokes.
Qed.

(** The induction on a run: what each kind of step keeps. *)
Lemma reach_ind' (P : list event -> State -> Prop) :
  P [] initial ->
  (forall tr s, reach cfg tr s -> P tr s ->
     P (tr ++ [RestartProcess]) (mkState ∅ (audit s) (lost s) (sent s) [])) ->
  (forall tr s e l p, reach cfg tr s -> P tr s -> pending_ok p ->
     wait_for p s = arrive cfg e l s -> P (tr ++ [Arrive e l]) (wait_for p s)) ->
  (forall tr s x e r ev tbl pend, reach cfg tr s -> P tr s ->
     answers s x r ev tbl ->
     (exists l, x = Arrive e l /\ pend = pending s
                /\ finish e r ev tbl (set_pending pend s) = arrive cfg e l s)
     \/ (exists p a p1 p2, x = Resolve e p a /\ pending s = p1 ++ p :: p2 /\ pend = p1 ++ p2) ->
     P (tr ++ [x]) (finish e r ev tbl (set_pending pend s))) ->
  forall tr s, reach cfg tr s -> P tr s.
Proof.
  intros H0' Hr Hw He tr s Hre. induction Hre as [|tr s x s' Hre IH Hs]; [done|].
  pose proof (reach_pending _ _ Hre) as Hp. inversion Hs as [e l s0|e p a s0 p1 p2 Hpd|s0]; subst.
  - destruct (arrive_ends e l s) as [(r & ev & tbl & Eq & Ha)|(p & Eq & Hok)]; [|rewrite Eq; by apply Hw].
    assert (set_pending (pending s) s = s) as Hsame by (by destruct s).
    rewrite Eq. replace (finish e r ev tbl s) with (finish e r ev tbl (set_pending (pending s) s))
      by (by rewrite Hsame). apply He; [done|done|done|]. left. exists l.
    split; [done|]. split; [done|]. by rewrite Hsame.
  - rewrite Hpd in Hp. apply Forall_app in Hp as [_ Hp]. apply Forall_cons in Hp as [Hp _].
    destruct (resolve_ends e p a (set_pending (p1 ++ p2) s) Hp) as (r & ev & tbl & -> & Ha).
    apply He; [done|done| |right; by eauto 10].
    by apply (answers_pending _ _ _ _ _ _ Ha).
  - by apply Hr.
Qed.

(** ** One row per request *)

Definition is_arrival (x : event) : bool := match x with Arrive _ _ => true | _ => false end.
Definition is_restart (x : event) : bool := match x with RestartProcess => true | _ => false end.
Definition arrivals (tr : list event) : nat := List.length (List.filter is_arrival tr).

Lemma arrivals_snoc tr x : arrivals (tr ++ [x]) = arrivals tr + if is_arrival x then 1 else 0.
Proof. unfold arrivals. rewrite List.filter_app, length_app. cbn. by destruct (is_arrival x). Qed.

(** C34: Every request line that reaches the daemon gets exactly one audit row,
    written or attempted, whatever happens to it, and until then it is waiting
    for the backend; only a restart loses a waiting request without a row. *)
Theorem one_row_per_request (tr : list event) (s : State) (Hr : reach cfg tr s) :
  List.length (rows s) + List.length (pending s) <= arrivals tr
  /\ (existsb is_restart tr = false ->
      List.length (rows s) + List.length (pending s) = arrivals tr).
Proof.
  revert tr s Hr. apply reach_ind'.
  - done.
  - intros tr s _ [IH _]. rewrite arrivals_snoc, existsb_app. unfold rows in *. cbn in *.
    split; [lia|]. by rewrite orb_true_r.
  - intros tr s e l p _ [IH1 IH2] _ _. rewrite arrivals_snoc, existsb_app.
    change (rows (wait_for p s)) with (rows s).
    change (pending (wait_for p s)) with (pending s ++ [p]).
    rewrite length_app. cbn [List.length existsb is_arrival is_restart orb]. rewrite orb_false_r. split; [lia|]. intros Hn%IH2. lia.
  - intros tr s x e r ev tbl pend _ [IH1 IH2] _ Hx. rewrite arrivals_snoc, existsb_app, finish_pending.
    rewrite (Permutation_length (finish_rows _ _ _ _ _)).
    change (rows (set_pending pend s)) with (rows s).
    change (pending (set_pending pend s)) with pend. cbn [List.length].
    destruct Hx as [(l & -> & -> & _)|(p & a & p1 & p2 & -> & Hp & ->)]; cbn [is_arrival existsb is_restart].
    + rewrite orb_false_r. split; [lia|]. intros Hn%IH2. lia.
    + rewrite Hp, length_app in IH1, IH2. cbn [List.length] in *. rewrite length_app, orb_false_r.
      split; [lia|]. intros Hn%IH2. lia.
Qed.

(** ** The authority behind a signature *)

(** Who let a request sign: a live grant for all of its commands in the state
    the request arrived in, or an approval of this request by the backend. *)
Inductive justified (tr : list event) (req : signRequest) (mode : string)
    (sigs : list SignedCmd) : Prop :=
  | granted tr0 e l tr1 s0 gid :
      tr = tr0 ++ Arrive e l :: tr1 -> reach cfg tr0 s0 -> as_sign l = Some req ->
      matchGrant (grants s0) (match_time e) (sCommands req) = Some gid ->
      mode = "grant:" +:+ gid ->
      signAll cfg (Unix (decide_time e)) (random e) 0 (sCommands req) = Some sigs ->
      justified tr req mode sigs
  | approved_by tr0 e r tr1 :
      tr = tr0 ++ Resolve e (PendingSign req) (Resolved r) :: tr1 ->
      Status r = StatusApproved -> mode = authMode true (ApprovedBy r) ->
      approved_signatures cfg e req r = inl sigs ->
      justified tr req mode sigs.

Lemma justified_snoc tr x req mode sigs :
  justified tr req mode sigs -> justified (tr ++ [x]) req mode sigs.
Proof.
  destruct 1 as [tr0 e l tr1 s0 gid -> Hre Hl Hm Hmode Hs|tr0 e r tr1 -> Hst Hmode Hs].
  - apply granted with tr0 e l (tr1 ++ [x]) s0 gid; try done. by rewrite <- app_assoc.
  - apply approved_by with tr0 e r (tr1 ++ [x]); try done. by rewrite <- app_assoc.
Qed.

(** The row of a delivered signature. *)
Definition row_for (req : signRequest) (mode : string) (ev : AuditEvent) : Prop :=
  evID ev = sID req /\ evStatus ev = "approved" /\ evServers ev = Some (map Server (sCommands req))
  /\ evAuthMode ev = mode.

Definition signed_ok (tr : list event) (s : State) (resp : Response) : Prop :=
  match resp with
  | SignResponse rid st mode sigs err =>
      sigs <> [] -> exists req, rid = sID req /\ st = "approved" /\ err = None /\ checked req
        /\ justified tr req mode sigs /\ exists ev, In ev (rows s) /\ row_for req mode ev
  | _ => True
  end.

Lemma signed_ok_mono tr x s s' resp :
  incl (rows s) (rows s') -> signed_ok tr s resp -> signed_ok (tr ++ [x]) s' resp.
Proof.
  intros Hi. destruct resp as [rid st mode sigs err| | |]; try done. intros Hok Hne.
  destruct (Hok Hne) as (req & H1 & H2 & H3 & H4 & H5 & ev & Hev & Hrow).
  exists req. do 4 (split; [done|]). split; [by apply justified_snoc|].
  exists ev. split; [by apply Hi|done].
Qed.

Lemma auth_row req mode by_ e :
  delivered e = true -> mode = authMode true by_ ->
  row_for req mode (signEvent cfg e (sID req) (sCommands req) (approved_status e) by_).
Proof. intros Hd ->. unfold approved_status. rewrite Hd. by repeat split. Qed.

Lemma grant_mode gid : authMode true ("grant:" +:+ gid) = "grant:" +:+ gid.
Proof.
  unfold authMode. cbn [negb].
  by rewrite (proj2 (prefix_spec "grant:" _) (ex_intro _ gid eq_refl)).
Qed.

(** A response just sent is justified. *)
Lemma new_response_ok tr s x e r ev tbl pend :
  reach cfg tr s -> answers s x r ev tbl -> delivered e = true ->
  (exists l, x = Arrive e l) \/ (exists p a, x = Resolve e p a) ->
  signed_ok (tr ++ [x]) (finish e r ev tbl (set_pending pend s)) r.
Proof.
  intros Hre Ha Hd Hx.
  assert (In ev (rows (finish e r ev tbl (set_pending pend s)))) as Hev.
  { eapply Permutation_in; [symmetry; apply finish_rows|by left]. }
  destruct Ha as [x r ev Hu _|e' l req gid sigs Hl Hc Hm Hs|e' req r sigs Hc Hst Hs| |].
  - destruct r; try done. by intros ?.
  - assert (e' = e) as -> by (destruct Hx as [(? & ?)|(? & ? & ?)]; by simplify_eq).
    intros _. exists req. do 3 (split; [done|]). split; [done|]. split.
    + by eapply granted.
    + eexists. split; [exact Hev|]. apply auth_row; [done|]. by rewrite grant_mode.
  - assert (e' = e) as -> by (destruct Hx as [(? & ?)|(? & ? & ?)]; by simplify_eq).
    intros _. exists req. do 3 (split; [done|]). split; [done|]. split.
    + by eapply approved_by.
    + eexists. split; [exact Hev|]. by apply auth_row.
  - done.
  - done.
Qed.

Lemma sent_signed_ok tr s : reach cfg tr s -> Forall (signed_ok tr s) (sent s).
Proof.
  revert tr s. apply (reach_ind' (fun tr s => Forall (signed_ok tr s) (sent s))).
  - constructor.
  - intros tr s _ IH. eapply Forall_impl; [exact IH|]. intros resp. apply signed_ok_mono, (incl_refl (rows s)).
  - intros tr s e l p _ IH _ _. eapply Forall_impl; [exact IH|]. intros resp. apply signed_ok_mono, (incl_refl (rows s)).
  - intros tr s x e r ev tbl pend Hre IH Ha Hx. rewrite finish_sent. apply Forall_app. split.
    + eapply Forall_impl; [exact IH|]. intros resp. apply signed_ok_mono. intros ev' Hev.
      eapply Permutation_in; [symmetry; apply finish_rows|by right].
    + destruct (delivered e) eqn:Ed; [|constructor]. constructor; [|constructor].
      eapply new_response_ok; try done.
      destruct Hx as [(l & -> & _)|(p & a & p1 & p2 & -> & _)]; eauto.
Qed.

(** C4: No signature leaves the daemon without authority: a response with
    signatures says approved, answers a request that passed every check, and was
    preceded by that request's approval by the backend, or the request arrived
    while live grants covered all its commands and none was a reveal; the log
    has an approved row for it with the same authorisation mode as the wire. *)
Theorem signatures_justified (tr : list event) (s : State) (rid st mode : string)
    (sigs : list SignedCmd) (err : option Reason_)
    (Hr : reach cfg tr s) (Hin : In (SignResponse rid st mode sigs err) (sent s))
    (Hsigs : sigs <> []) :
  exists req, rid = sID req /\ st = "approved" /\ err = None /\ checked req
    /\ justified tr req mode sigs /\ exists ev, In ev (rows s) /\ row_for req mode ev.
Proof.
  pose proof (sent_signed_ok _ _ Hr) as Hall. rewrite List.Forall_forall in Hall.
  by apply (Hall _ Hin).
Qed.

(** ** The authority behind a grant *)

(** The alias a line revokes the grant of. *)
Definition revokes_alias (l : Line) : option string :=
  let p := peek l in
  if negb (peek_ok l) then None
  else if negb (PeekVersion p =? 0)%Z && negb (PeekVersion p =? ProtoVersion)%Z then None
  else if Kind p =s "revoke_grant" then
    match as_revoke l with
    | Some req => if (aID req =s "") || (aAlias req =s "") then None else Some (aAlias req)
    | None => None
    end
  else None.

Lemma arrive_revokes e l s al :
  revokes_alias l = Some al -> grants (arrive cfg e l s) = delete al (grants s).
Proof.
  unfold revokes_alias, arrive. destruct (peek_ok l); [|done]. cbn [negb].
  destruct (_ && _); [done|]. destruct (Kind (peek l) =s "revoke_grant") eqn:Ek; [|done].
  bool_hyps. rewrite Ek. change ("revoke_grant" =s "request_grant") with false.
  change ("revoke_grant" =s "revoke_grant") with true. unfold handleRevokeGrant.
  destruct (as_revoke l) as [req|]; [|done].
  destruct (aID req =s ""); [done|]. destruct (aAlias req =s ""); [done|].
  cbn [orb]. intros [= <-]. rewrite finish_same. apply finish_grants.
Qed.

(** An event that ends the grant of an alias. *)
Definition withdraws (al : string) (x : event) : Prop :=
  match x with
  | RestartProcess => True
  | Arrive _ l => revokes_alias l = Some al
  | Resolve _ _ _ => False
  end.

(** Where a grant comes from. *)
Definition grant_origin (tr : list event) (s : State) (al : string) (g : grant) : Prop :=
  exists tr0 e req r gid tr1,
    tr = tr0 ++ Resolve e (PendingGrant req) (Resolved r) :: tr1
    /\ Status r = StatusApproved /\ checked_grant req /\ gAlias req = al
    /\ g = minted e gid req /\ Forall (fun x => ~ withdraws al x) tr1
    /\ exists ev, In ev (rows s) /\ evServers ev = Some [al] /\ evApprovedBy ev = ApprovedBy r
         /\ evStatus ev = approved_status e.

Lemma grant_origin_mono tr x s s' al g :
  ~ withdraws al x -> incl (rows s) (rows s') ->
  grant_origin tr s al g -> grant_origin (tr ++ [x]) s' al g.
Proof.
  intros Hw Hi (tr0 & e & req & r & gid & tr1 & -> & H1 & H2 & H3 & H4 & H5 & ev & Hev & H6).
  exists tr0, e, req, r, gid, (tr1 ++ [x]). rewrite <- app_assoc. do 5 (split; [done|]).
  split; [apply Forall_app; split; [done|by constructor]|]. exists ev. split; [by apply Hi|done].
Qed.

Lemma checked_grant_bounds req :
  checked_grant req ->
  (0 < gDurationSec req <= 86400)%Z
  /\ (gScope req = "all" /\ gCommands req = []
      \/ gScope req = "commands" /\ gCommands req <> []).
Proof.
  intros (_ & _ & Hc). unfold check_grant in Hc.
  change (MaxGrantDuration / Second)%Z with 86400%Z in Hc.
  destruct (gScope req =s "all") eqn:E1; [|destruct (gScope req =s "commands") eqn:E2; [|done]];
    bool_hyps; destruct (gCommands req) as [|c cmds] eqn:Ec; try done;
    try destruct (option_map _ _); try done;
    (destruct (gDurationSec req <=? 0)%Z eqn:E3; [done|]);
    (destruct (_ <? gDurationSec req)%Z eqn:E4; [done|]); bool_hyps;
    (split; [lia|]); [by left|by right].
Qed.

(** What a table change does to one alias. *)
Lemma origin_step tr s x e r ev tbl pend al g :
  answers s x r ev tbl ->
  (exists l, x = Arrive e l /\ pend = pending s
     /\ finish e r ev tbl (set_pending pend s) = arrive cfg e l s)
  \/ (exists p a, x = Resolve e p a) ->
  tbl !! al = Some g ->
  (grants s !! al = Some g -> grant_origin tr s al g) ->
  grant_origin (tr ++ [x]) (finish e r ev tbl (set_pending pend s)) al g.
Proof.
  intros Ha Hx Hl IH.
  assert (incl (rows s) (rows (finish e r ev tbl (set_pending pend s)))) as Hi.
  { intros ev' Hev. eapply Permutation_in; [symmetry; apply finish_rows|by right]. }
  assert (~ withdraws al x) as Hw.
  { destruct Hx as [(l & -> & _ & Heq)|(p & a & ->)]; [|by intros []]. cbn. intros Hr.
    apply (f_equal grants) in Heq. rewrite finish_grants, (arrive_revokes _ _ _ _ Hr) in Heq.
    subst tbl. by rewrite lookup_delete_eq in Hl. }
  destruct (decide (grants s !! al = Some g)) as [Hs|Hs];
    [apply grant_origin_mono with s; [done|done|by apply IH]|].
  destruct Ha as [| | |e' req rr gid Hc Hst Hg|e' l req Hl']; try done.
  - assert (e' = e) as -> by (destruct Hx as [(? & ? & _)|(? & ? & ?)]; by simplify_eq).
    destruct (decide (gAlias req = al)) as [<-|Hne]; [|by rewrite lookup_insert_ne in Hl].
    rewrite lookup_insert_eq in Hl. injection Hl as <-.
    exists tr, e, req, rr, gid, []. do 5 (split; [done|]). split; [constructor|].
    eexists. split; [eapply Permutation_in; [symmetry; apply finish_rows|by left]|]. done.
  - by apply lookup_delete_Some in Hl as [_ Hl].
Qed.

Lemma grants_origin tr s : reach cfg tr s -> forall al g, grants s !! al = Some g -> grant_origin tr s al g.
Proof.
  revert tr s. apply (reach_ind' (fun tr s => forall al g, grants s !! al = Some g -> grant_origin tr s al g)).
  - intros al g. cbn. by rewrite lookup_empty.
  - intros tr s _ _ al g. cbn. by rewrite lookup_empty.
  - intros tr s e l p Hre IH Hp Heq al g Hg.
    apply grant_origin_mono with s; [|exact (incl_refl (rows s))|by apply IH]. cbn. intros Hw.
    apply (f_equal grants) in Heq. rewrite (arrive_revokes _ _ _ _ Hw) in Heq.
    change (grants (wait_for p s)) with (grants s) in *. by rewrite Heq, lookup_delete_eq in Hg.
  - intros tr s x e r ev tbl pend Hre IH Ha Hx al g Hg. rewrite finish_grants in Hg.
    eapply origin_step; [exact Ha| |exact Hg|by intros; apply IH].
    destruct Hx as [?|(p & a & p1 & p2 & -> & _)]; [by left|right; eauto].
Qed.

(** C18: Every grant in the table was minted by an approval of the backend for
    exactly its alias, scope and commands, since which neither a revoke of the
    alias nor a restart happened; it has a positive lifetime of at most 24 hours
    from that decision; and the log has a row for the approval, naming the
    approver. *)
Theorem grants_approved (tr : list event) (s : State) (al : string) (g : grant)
    (Hr : reach cfg tr s) (Hg : grants s !! al = Some g) :
  exists tr0 e req r gid tr1,
    tr = tr0 ++ Resolve e (PendingGrant req) (Resolved r) :: tr1
    /\ Status r = StatusApproved /\ Forall (fun x => ~ withdraws al x) tr1
    /\ g = mkGrant gid al (gScope req) (gCommands req)
              (decide_time e + gDurationSec req * Second)
    /\ (decide_time e < expiry g <= decide_time e + MaxGrantDuration)%Z
    /\ (scope g = "all" /\ commands g = [] \/ scope g = "commands" /\ commands g <> [])
    /\ exists ev, In ev (rows s) /\ evServers ev = Some [al] /\ evApprovedBy ev = ApprovedBy r
         /\ evStatus ev = approved_status e.
Proof.
  destruct (grants_origin _ _ Hr _ _ Hg)
    as (tr0 & e & req & r & gid & tr1 & -> & Hst & Hc & <- & -> & Hw & Hev).
  destruct (checked_grant_bounds req Hc) as [Hb Hsc].
  exists tr0, e, req, r, gid, tr1. do 4 (split; [done|]). split; [|done].
  unfold minted. cbn [expiry]. unfold MaxGrantDuration, Hour, Minute, Second. lia.
Qed.

(** ** From the signer to the gate *)

(** Strings as they leave a JSON decoder. *)
Definition utf8_cmd (c : signRequestCmd) : Prop :=
  Utf8.valid (bytes (Command c)) = true /\ Utf8.valid (bytes (CmdHost c)) = true.

Lemma code_ascii c : Base64.is_code c = true -> Utf8.is_ascii c = true.
Proof. by destruct c as [[] [] [] [] [] [] [] []]; vm_compute. Qed.

Lemma nonce_valid rnd nonce : newNonce rnd = Some nonce -> Utf8.valid (bytes nonce) = true.
Proof.
  destruct rnd as [b|]; [|done]. cbn. intros [= <-]. unfold bytes, str.
  rewrite list_ascii_of_string_of_list_ascii. apply Utf8.valid_ascii.
  eapply Forall_impl; [apply Base64.encode_code|]. apply code_ascii.
Qed.

(** What signAll makes of each command. *)
Lemma signAll_lines now rnd cmds : forall i sigs,
  signAll cfg now rnd i cmds = Some sigs ->
  Forall2 (fun c sg => exists nonce, scCmd sg = Command c
      /\ Utf8.valid (bytes nonce) = true
      /\ scSig sg = signed_line (Key cfg) (payload_for now nonce c)) cmds sigs.
Proof.
  induction cmds as [|c cmds IH]; intros i sigs; cbn [signAll]; [by intros [= <-]|].
  destruct (newNonce (rnd i)) as [nonce|] eqn:En; [|done].
  destruct (signAll _ _ _ (S i) cmds) as [out|] eqn:Es; [|done]. intros [= <-].
  constructor; [|by eapply IH]. exists nonce. split; [done|].
  split; [by apply nonce_valid in En|done].
Qed.

Lemma check_commands_ok cmds : forall i,
  check_commands i cmds = None ->
  Forall (fun c => Command c <> "" /\ (0 < TTLSec c <= 300)%Z) cmds.
Proof.
  induction cmds as [|c cmds IH]; intros i; cbn [check_commands]; [constructor|].
  change (MaxSigValidity / Second)%Z with 300%Z.
  destruct (Command c =s "") eqn:E1; [done|]. destruct (TTLSec c <=? 0)%Z eqn:E2; [done|].
  destruct (300 <? TTLSec c)%Z eqn:E3; [done|]. bool_hyps. intros Hc.
  constructor; [split; [done|lia]|]. by eapply IH.
Qed.

Lemma payload_accepted_before tr now nonce c t fps :
  trailer tr -> Command c <> "" -> (0 < TTLSec c <= 300)%Z -> utf8_cmd c ->
  Utf8.valid (bytes nonce) = true -> (0 < now < 2 ^ 62)%Z ->
  VerifySigned (signed_line (Key cfg) (payload_for now nonce c) +:+ tr) (ed_public (Key cfg)) t fps
  = inl (Command c, CmdReveal c)
  <-> (t < now + TTLSec c)%Z /\ CmdHost c <> "" /\ In (CmdHost c) fps.
Proof.
  intros Htr Hc Ht [Hu1 Hu2] Hn Hnow. set (p := payload_for now nonce c).
  assert (Exp p = now + TTLSec c)%Z as Hexp.
  { unfold p, payload_for, Verify.wrap64. cbn [Exp]. rewrite Z.mod_small; lia. }
  assert (wf_payload p) as Hp.
  { unfold wf_payload, int64. rewrite Hexp. unfold p. cbn [TS Cmd Nonce Host payload_for].
    split; [lia|]. split; [lia|]. done. }
  pose proof (signed_line_decodes (Key cfg) p tr Hp Hc Htr) as Hd. split.
  - intros (sig & p' & Hd' & _ & [_ Hf _ Hb Hh] & _)%verify_inv. rewrite Hd in Hd'.
    injection Hd' as <- <-. rewrite Hexp in Hf. done.
  - intros (Hf & Hb & Hh). apply (verify_acceptable _ _ _ _ _ p Hd); [apply ed_verify_sign|].
    split; rewrite ?Hexp; unfold p; cbn [TS Host payload_for]; lia || done.
Qed.

Lemma payload_accepted now nonce c t fps :
  Command c <> "" -> (0 < TTLSec c <= 300)%Z -> utf8_cmd c ->
  Utf8.valid (bytes nonce) = true -> (0 < now < 2 ^ 62)%Z ->
  VerifySigned (signed_line (Key cfg) (payload_for now nonce c)) (ed_public (Key cfg)) t fps
  = inl (Command c, CmdReveal c)
  <-> (t < now + TTLSec c)%Z /\ CmdHost c <> "" /\ In (CmdHost c) fps.
Proof.
  rewrite <- (str_app_nil_r (signed_line _ _)). apply payload_accepted_before. by left.
Qed.

(** C16: Every signature of an approved request works at the gate it is made for,
    and only there and then: with the daemon's public key the gate takes it for
    exactly the requested command and reveal flag, until the requested lifetime
    is over, on a host that owns the requested fingerprint. *)
Theorem signatures_reach_gate (now : Z) (rnd : nat -> option (list ascii))
    (cmds : list signRequestCmd) (sigs : list SignedCmd)
    (Hcheck : check_commands 0 cmds = None) (Hutf8 : Forall utf8_cmd cmds)
    (Hnow : (0 < now < 2 ^ 62)%Z) (Hs : signAll cfg now rnd 0 cmds = Some sigs) :
  Forall2 (fun c sg => scCmd sg = Command c
     /\ forall t fps,
          VerifySigned (scSig sg) (ed_public (Key cfg)) t fps = inl (Command c, CmdReveal c)
          <-> (t < now + TTLSec c)%Z /\ CmdHost c <> "" /\ In (CmdHost c) fps) cmds sigs.
Proof.
  apply signAll_lines in Hs. apply check_commands_ok in Hcheck.
  induction Hs as [|c sg cmds sigs (nonce & Hc & Hn & Hl) _ IH]; [constructor|].
  apply Forall_cons in Hcheck as [[H1 H2] Hcheck]. apply Forall_cons in Hutf8 as [Hu Hutf8].
  constructor; [|by apply IH]. split; [done|]. intros t fps. rewrite Hl.
  by apply payload_accepted.
Qed.

(** A sign request of one command, as a line. *)
Definition sign_line (req : signRequest) : Line :=
  mkLine (mkPeek "sign" 0 (sID req)) true (Some req) None None None.

(** The host a signature is bound to is the requester's word: whatever host a
    request names, the approver is shown the same request, and a grant for the
    alias it names signs it without a prompt, for that host, whose gate accepts
    it. *)
Theorem grant_ignores_host (e : Env) (s : State) (g : grant) (rid al cmd : string) (ttl : Z)
    (b : list ascii)
    (Hg : grants s !! al = Some g) (Hscope : scope g = "all") (Hlive : (match_time e < expiry g)%Z)
    (Hd : delivered e = true) (Hrnd : random e 0 = Some b) (Hrid : rid <> "") (Hcmd : cmd <> "")
    (Hu : Utf8.valid (bytes cmd) = true) (Httl : (0 < ttl <= 300)%Z)
    (Hnow : (0 < Unix (decide_time e) < 2 ^ 62)%Z) :
  let req h := mkSign "sign" rid [mkCmd al cmd ttl h false ""] in
  (forall h h', approval_request (req h) = approval_request (req h'))
  /\ forall h, h <> "" -> Utf8.valid (bytes h) = true ->
       exists sig, sent (arrive cfg e (sign_line (req h)) s)
                   = sent s ++ [SignResponse rid "approved" ("grant:" +:+ id g) [mkSigned cmd sig] None]
         /\ VerifySigned sig (ed_public (Key cfg)) (Unix (decide_time e)) [h] = inl (cmd, false).
Proof.
  intros req. split; [done|]. intros h Hh Hv. set (c := mkCmd al cmd ttl h false "").
  exists (signed_line (Key cfg) (payload_for (Unix (decide_time e)) (str (Base64.encode b)) c)).
  split.
  - change (arrive cfg e (sign_line (req h)) s) with (handleSign cfg e (sign_line (req h)) s).
    unfold handleSign. cbn [as_sign sign_line].
    change (sKind (req h)) with "sign". change (sID (req h)) with rid.
    change (sCommands (req h)) with [c]. change ("sign" =s "sign") with true. cbn [negb].
    apply String.eqb_neq in Hrid. rewrite Hrid.
    assert (check_commands 0 [c] = None) as ->.
    { cbn [check_commands Command TTLSec c]. apply String.eqb_neq in Hcmd. rewrite Hcmd.
      change (MaxSigValidity / Second)%Z with 300%Z.
      destruct (ttl <=? 0)%Z eqn:E1; bool_hyps; [lia|].
      destruct (300 <? ttl)%Z eqn:E2; bool_hyps; [lia|done]. }
    unfold matchGrant. cbn [existsb CmdReveal c orb match_loop Server Command]. rewrite Hg.
    apply Z.ltb_lt in Hlive. rewrite Hlive. unfold grantCovers. rewrite Hscope.
    change ("all" =s "all") with true. cbn [negb].
    unfold respond. cbn [is_approved Status approved_signatures Signatures].
    change (sCommands (req h)) with [c]. cbn [signAll]. rewrite Hrnd. cbn [newNonce option_map].
    unfold deliver. rewrite finish_same, finish_sent, Hd. cbn [Status ApprovedBy StatusString is_approved].
    by rewrite grant_mode.
  - refine (proj2 (payload_accepted _ _ c _ _ Hcmd Httl (conj Hu Hv) _ Hnow) _).
    + by apply (nonce_valid (Some b)).
    + split; [cbn; lia|]. split; [done|by left].
Qed.

End Daemon.

(** ** Witnesses *)

#[local] Instance daemon_hmac : Hmac := {| mac salt s := s ++ salt |}.

Definition sample_cfg : Config := mkConfig _ toy_key [] [].

Definition sample_env (t : Z) : Env :=
  mkEnv (t * Second) (t * Second) (t * Second) (fun _ => Some (bytes "0123456789abcdef")) true true.

Definition sample_grant_req : grantRequest := mkGrantReq "r1" "web" "all" [] 3600.

Definition grant_line : Line :=
  mkLine (mkPeek "request_grant" 1 "r1") true None (Some sample_grant_req) None None.

Definition yes : Result := mkRes StatusApproved "@op" [].

Definition sample_req : signRequest := mkSign "sign" "r2" [mkCmd "web" "reboot" 60 "SHA256:a" false ""].

(** A grant is asked for and approved, and a command signed under it. *)
Definition sample_run : list event :=
  [Arrive (sample_env 100) grant_line;
   Resolve (sample_env 110) (PendingGrant sample_grant_req) (Resolved yes);
   Arrive (sample_env 120) (sign_line sample_req)].

Definition state1 : State := arrive sample_cfg (sample_env 100) grant_line initial.
Definition state2 : State :=
  resolve sample_cfg (sample_env 110) (PendingGrant sample_grant_req) (Resolved yes)
    (set_pending [] state1).
Definition state3 : State := arrive sample_cfg (sample_env 120) (sign_line sample_req) state2.

Lemma sample_reach2 :
  reach sample_cfg (firstn 2 sample_run) state2.
Proof.
  apply (reach_step sample_cfg (firstn 1 sample_run) state1); [|by apply (step_resolve _ _ _ _ _ [] [])].
  apply (reach_step sample_cfg [] initial); [constructor|constructor].
Qed.

Lemma sample_reach : reach sample_cfg sample_run state3.
Proof. apply (reach_step sample_cfg (firstn 2 sample_run) state2); [apply sample_reach2|constructor]. Qed.

Lemma one_row_per_request_witness :
  List.length (rows state3) + List.length (pending state3) = 2.
Proof.
  destruct (one_row_per_request sample_cfg sample_run state3 sample_reach) as [_ Hr].
  apply (Hr eq_refl).
Defined.

Lemma signatures_justified_witness :
  exists mode sigs, In (SignResponse "r2" "approved" mode sigs None) (sent state3)
    /\ exists req, "r2" = sID req /\ justified sample_cfg sample_run req mode sigs.
Proof.
  assert (exists mode sigs, In (SignResponse "r2" "approved" mode sigs None) (sent state3)
            /\ sigs <> []) as (mode & sigs & Hin & Hne).
  { eexists _, _. split; [vm_compute; right; left; reflexivity|discriminate]. }
  exists mode, sigs. split; [exact Hin|].
  destruct (signatures_justified sample_cfg sample_run state3 "r2" "approved" mode sigs None
              sample_reach Hin Hne) as (req & H1 & _ & _ & _ & H2 & _).
  exists req. split; [exact H1|exact H2].
Defined.

Lemma grants_approved_witness :
  exists g, grants state3 !! "web" = Some g /\ (expiry g <= 110 * Second + MaxGrantDuration)%Z.
Proof.
  assert (exists g, grants state3 !! "web" = Some g) as [g Hg]
    by (eexists; vm_compute; reflexivity).
  exists g. split; [exact Hg|].
  destruct (grants_approved sample_cfg sample_run state3 "web" g sample_reach Hg)
    as (tr0 & e & req & r & gid & tr1 & _).
  assert (expiry g = 110 * Second + 3600 * Second)%Z as -> by
    (vm_compute in Hg; injection Hg as <-; vm_compute; reflexivity).
  vm_compute. discriminate.
Defined.

Lemma signatures_reach_gate_witness :
  exists sigs, signAll sample_cfg 120 (random (sample_env 120)) 0 (sCommands sample_req) = Some sigs
    /\ Forall2 (fun c sg => VerifySigned (scSig sg) toy_key 150 ["SHA256:a"] = inl (Command c, false))
         (sCommands sample_req) sigs.
Proof.
  assert (exists sigs, signAll sample_cfg 120 (random (sample_env 120)) 0 (sCommands sample_req)
            = Some sigs) as [sigs Hs] by (eexists; vm_compute; reflexivity).
  exists sigs. split; [exact Hs|].
  pose proof (signatures_reach_gate sample_cfg 120 (random (sample_env 120)) (sCommands sample_req)
    sigs eq_refl) as Hr.
  specialize (Hr ltac:(repeat constructor) ltac:(lia) Hs).
  inversion Hr as [|c sg cs ss [_ Hv] Hrest]; subst. constructor.
  - apply (Hv 150%Z ["SHA256:a"]). split; [reflexivity|]. split; [discriminate|left; reflexivity].
  - inversion Hrest. constructor.
Defined.

Lemma grant_ignores_host_witness :
  exists sig, VerifySigned sig toy_key 120 ["SHA256:other"] = inl ("reboot", false).
Proof.
  assert (exists g, grants state2 !! "web" = Some g /\ scope g = "all"
            /\ (120 * Second < expiry g)%Z) as (g & Hg & Hs & He).
  { eexists. split; [vm_compute; reflexivity|]. split; reflexivity. }
  destruct (grant_ignores_host sample_cfg (sample_env 120) state2 g "r2" "web" "reboot" 60
              (bytes "0123456789abcdef") Hg Hs He eq_refl eq_refl) as [_ Hh];
    [discriminate|discriminate|reflexivity|lia|vm_compute; split; reflexivity|].
  destruct (Hh "SHA256:other") as (sig & _ & Hv); [discriminate|reflexivity|].
  exists sig. exact Hv.
Defined.
