(* ===== verification/SignerWire.v ===== *)
(** * The signer's socket protocol (src/signer/daemon.go, src/mcp/sign)

    The JSON lines the MCP side and the daemon exchange: how the client writes a
    request and the daemon's lenient peek and strict decoders read it, how the
    daemon writes a response and the client reads it, and the client's calls, with
    the transport's failures. *)

From S2P Require Import Prelude Json JsonValue Sigwire SignerDaemon.

Module Wire.
Import JsonValue Sigwire Daemon.

Definition member (name : string) (v : value) : list (list ascii * value) := [(bytes name, v)].

(** A member with omitempty. *)
Definition omitempty (empty : bool) (name : string) (v : value) : list (list ascii * value) :=
  if empty then [] else member name v.

Definition vstr (s : string) : value := VStr (bytes s).
Definition vint (z : Z) : value := VNum (Json.format_int z).

(** A line of the protocol: the value and a newline. *)
Definition line (v : value) : list ascii := write_value v ++ [NL].

(** ** Requests, as the client writes them *)

Definition cmd_value (c : signRequestCmd) : value :=
  VObj (member "server" (vstr (Server c)) ++ member "cmd" (vstr (Command c))
        ++ member "ttl_seconds" (vint (TTLSec c))
        ++ omitempty (CmdHost c =s "") "host" (vstr (CmdHost c))
        ++ omitempty (negb (CmdReveal c)) "reveal" (VBool (CmdReveal c))
        ++ omitempty (Reason c =s "") "reason" (vstr (Reason c))).

Definition sign_value (id : string) (cmds : list signRequestCmd) : value :=
  VObj (member "kind" (vstr "sign") ++ member "request_id" (vstr id)
        ++ member "commands" (VArr (map cmd_value cmds))
        ++ member "proto_version" (vint ProtoVersion)).

Definition grant_value (req : grantRequest) : value :=
  VObj (member "kind" (vstr "request_grant") ++ member "request_id" (vstr (gID req))
        ++ member "alias" (vstr (gAlias req)) ++ member "scope" (vstr (gScope req))
        ++ omitempty (match gCommands req with [] => true | _ => false end) "commands"
             (VArr (map vstr (gCommands req)))
        ++ member "duration_seconds" (vint (gDurationSec req))
        ++ member "proto_version" (vint ProtoVersion)).

Definition revoke_value (req : aliasRequest) : value :=
  VObj (member "kind" (vstr "revoke_grant") ++ member "request_id" (vstr (aID req))
        ++ member "alias" (vstr (aAlias req)) ++ member "proto_version" (vint ProtoVersion)).

Definition list_value (req : aliasRequest) : value :=
  VObj (member "kind" (vstr "list_grants") ++ member "request_id" (vstr (aID req))
        ++ omitempty (aAlias req =s "") "alias" (vstr (aAlias req))
        ++ member "proto_version" (vint ProtoVersion)).

(** ** Requests, as the daemon reads them *)

(** kindPeek, leniently. *)
Definition peek_decoder : decoder kindPeek :=
  decode_struct false
    [field "kind" decode_string Kind (fun x p => mkPeek x (PeekVersion p) (PeekID p));
     field "proto_version" decode_int64 PeekVersion (fun x p => mkPeek (Kind p) x (PeekID p));
     field "request_id" decode_string PeekID (fun x p => mkPeek (Kind p) (PeekVersion p) x)].

(** signRequestCmd *)
Definition cmd_decoder (strict : bool) : decoder signRequestCmd :=
  decode_struct strict
    [field "server" decode_string Server
       (fun x c => mkCmd x (Command c) (TTLSec c) (CmdHost c) (CmdReveal c) (Reason c));
     field "cmd" decode_string Command
       (fun x c => mkCmd (Server c) x (TTLSec c) (CmdHost c) (CmdReveal c) (Reason c));
     field "ttl_seconds" decode_int64 TTLSec
       (fun x c => mkCmd (Server c) (Command c) x (CmdHost c) (CmdReveal c) (Reason c));
     field "host" decode_string CmdHost
       (fun x c => mkCmd (Server c) (Command c) (TTLSec c) x (CmdReveal c) (Reason c));
     field "reveal" decode_bool CmdReveal
       (fun x c => mkCmd (Server c) (Command c) (TTLSec c) (CmdHost c) x (Reason c));
     field "reason" decode_string Reason
       (fun x c => mkCmd (Server c) (Command c) (TTLSec c) (CmdHost c) (CmdReveal c) x)].

Definition zero_cmd : signRequestCmd := mkCmd "" "" 0 "" false "".

(** The destination of each strict decode. *)
Record signDest := mkSignDest {
  sdKind : string; sdID : string; sdCommands : slice signRequestCmd; sdVersion : Z
}.

Definition sign_decoder : decoder signDest :=
  decode_struct true
    [field "kind" decode_string sdKind (fun x d => mkSignDest x (sdID d) (sdCommands d) (sdVersion d));
     field "request_id" decode_string sdID
       (fun x d => mkSignDest (sdKind d) x (sdCommands d) (sdVersion d));
     field "commands" (decode_slice zero_cmd (cmd_decoder true)) sdCommands
       (fun x d => mkSignDest (sdKind d) (sdID d) x (sdVersion d));
     field "proto_version" decode_int64 sdVersion
       (fun x d => mkSignDest (sdKind d) (sdID d) (sdCommands d) x)].

Record grantDest := mkGrantDest {
  gdKind : string; gdID : string; gdAlias : string; gdScope : string;
  gdCommands : slice string; gdDuration : Z; gdVersion : Z
}.

Definition grant_decoder : decoder grantDest :=
  decode_struct true
    [field "kind" decode_string gdKind
       (fun x d => mkGrantDest x (gdID d) (gdAlias d) (gdScope d) (gdCommands d) (gdDuration d) (gdVersion d));
     field "request_id" decode_string gdID
       (fun x d => mkGrantDest (gdKind d) x (gdAlias d) (gdScope d) (gdCommands d) (gdDuration d) (gdVersion d));
     field "alias" decode_string gdAlias
       (fun x d => mkGrantDest (gdKind d) (gdID d) x (gdScope d) (gdCommands d) (gdDuration d) (gdVersion d));
     field "scope" decode_string gdScope
       (fun x d => mkGrantDest (gdKind d) (gdID d) (gdAlias d) x (gdCommands d) (gdDuration d) (gdVersion d));
     field "commands" (decode_slice "" decode_string) gdCommands
       (fun x d => mkGrantDest (gdKind d) (gdID d) (gdAlias d) (gdScope d) x (gdDuration d) (gdVersion d));
     field "duration_seconds" decode_int64 gdDuration
       (fun x d => mkGrantDest (gdKind d) (gdID d) (gdAlias d) (gdScope d) (gdCommands d) x (gdVersion d));
     field "proto_version" decode_int64 gdVersion
       (fun x d => mkGrantDest (gdKind d) (gdID d) (gdAlias d) (gdScope d) (gdCommands d) (gdDuration d) x)].

(** revokeGrantRequest and listGrantsRequest *)
Record aliasDest := mkAliasDest { adKind : string; adID : string; adAlias : string; adVersion : Z }.

Definition alias_decoder : decoder aliasDest :=
  decode_struct true
    [field "kind" decode_string adKind (fun x d => mkAliasDest x (adID d) (adAlias d) (adVersion d));
     field "request_id" decode_string adID (fun x d => mkAliasDest (adKind d) x (adAlias d) (adVersion d));
     field "alias" decode_string adAlias (fun x d => mkAliasDest (adKind d) (adID d) x (adVersion d));
     field "proto_version" decode_int64 adVersion
       (fun x d => mkAliasDest (adKind d) (adID d) (adAlias d) x)].

(** A strict decode that succeeds. *)
Definition strictly {A B} (dec : decoder A) (zero : A) (get : A -> B) (l : list ascii) : option B :=
  let '(a, ok) := Decode dec l zero in if ok then Some (get a) else None.

(** What HandleSignRequest's decoders answer on the bytes of a line. *)
Definition read_line (l : list ascii) : Line :=
  let '(p, ok) := Unmarshal peek_decoder l (mkPeek "" 0 "") in
  mkLine p ok
    (strictly sign_decoder (mkSignDest "" "" nil_slice 0)
       (fun d => mkSign (sdKind d) (sdID d) (elems (sdCommands d))) l)
    (strictly grant_decoder (mkGrantDest "" "" "" "" nil_slice 0 0)
       (fun d => mkGrantReq (gdID d) (gdAlias d) (gdScope d) (elems (gdCommands d)) (gdDuration d)) l)
    (strictly alias_decoder (mkAliasDest "" "" "" 0) (fun d => mkAliasReq (adID d) (adAlias d)) l)
    (strictly alias_decoder (mkAliasDest "" "" "" 0) (fun d => mkAliasReq (adID d) (adAlias d)) l).

(** ** Responses *)

Definition sig_value (s : SignedCmd) : value :=
  VObj (member "cmd" (vstr (scCmd s)) ++ member "sig" (vstr (scSig s))).

Definition grant_info_value (g : grantInfo) : value :=
  VObj (member "alias" (vstr (iAlias g)) ++ member "scope" (vstr (iScope g))
        ++ omitempty (match iCommands g with [] => true | _ => false end) "commands"
             (VArr (map vstr (iCommands g)))
        ++ member "grant_id" (vstr (iID g)) ++ member "expiry_unix" (vint (iExpiry g))).

Definition is_nil {A} (l : list A) : bool := match l with [] => true | _ => false end.

(** writeJSONLine's value; [text] is the wording of an error. *)
Definition response_value (text : Reason_ -> string) (r : Response) : value :=
  let err e := match e with Some why => omitempty (text why =s "") "error" (vstr (text why)) | None => [] end in
  match r with
  | SignResponse rid status auth_mode sigs e =>
      VObj (member "request_id" (vstr rid) ++ member "status" (vstr status)
            ++ omitempty (auth_mode =s "") "auth_mode" (vstr auth_mode)
            ++ omitempty (is_nil sigs) "signatures" (VArr (map sig_value sigs))
            ++ err e ++ member "proto_version" (vint ProtoVersion))
  | GrantResponse rid status gid expiry e =>
      VObj (member "request_id" (vstr rid) ++ member "status" (vstr status)
            ++ omitempty (gid =s "") "grant_id" (vstr gid)
            ++ omitempty (expiry =? 0)%Z "expiry_unix" (vint expiry)
            ++ err e ++ member "proto_version" (vint ProtoVersion))
  | RevokeGrantResponse rid status e =>
      VObj (member "request_id" (vstr rid) ++ member "status" (vstr status)
            ++ err e ++ member "proto_version" (vint ProtoVersion))
  | ListGrantsResponse rid status grants e =>
      VObj (member "request_id" (vstr rid) ++ member "status" (vstr status)
            ++ omitempty (is_nil grants) "grants" (VArr (map grant_info_value grants))
            ++ err e ++ member "proto_version" (vint ProtoVersion))
  end.

(** signResponse and the others, as the client decodes them: one destination with
    the members they share and those of each. *)
Record respDest := mkResp {
  rID : string; rStatus : string; rAuthMode : string; rSignatures : slice SignedCmd;
  rGrantID : string; rExpiry : Z; rGrants : slice grantInfo; rError : string; rVersion : Z
}.

Definition zero_resp : respDest := mkResp "" "" "" nil_slice "" 0 nil_slice "" 0.

Definition sig_decoder : decoder SignedCmd :=
  decode_struct false
    [field "cmd" decode_string scCmd (fun x s => mkSigned x (scSig s));
     field "sig" decode_string scSig (fun x s => mkSigned (scCmd s) x)].

(** A grantInfo with its slice. *)
Definition info_decoder : decoder grantInfo := fun v old =>
  let '((i, cmds), ok) :=
    decode_struct (A := grantInfo * slice string) false
      [field "alias" decode_string (fun d => iAlias d.1)
         (fun x d => (mkInfo x (iScope d.1) (iCommands d.1) (iID d.1) (iExpiry d.1), d.2));
       field "scope" decode_string (fun d => iScope d.1)
         (fun x d => (mkInfo (iAlias d.1) x (iCommands d.1) (iID d.1) (iExpiry d.1), d.2));
       field "commands" (decode_slice "" decode_string) snd (fun x d => (d.1, x));
       field "grant_id" decode_string (fun d => iID d.1)
         (fun x d => (mkInfo (iAlias d.1) (iScope d.1) (iCommands d.1) x (iExpiry d.1), d.2));
       field "expiry_unix" decode_int64 (fun d => iExpiry d.1)
         (fun x d => (mkInfo (iAlias d.1) (iScope d.1) (iCommands d.1) (iID d.1) x, d.2))]
      v (old, mkSlice (iCommands old) []) in
  (mkInfo (iAlias i) (iScope i) (elems cmds) (iID i) (iExpiry i), ok).

Definition f_request_id := field "request_id" decode_string rID
  (fun x d => mkResp x (rStatus d) (rAuthMode d) (rSignatures d) (rGrantID d) (rExpiry d) (rGrants d)
                (rError d) (rVersion d)).
Definition f_status := field "status" decode_string rStatus
  (fun x d => mkResp (rID d) x (rAuthMode d) (rSignatures d) (rGrantID d) (rExpiry d) (rGrants d)
                (rError d) (rVersion d)).
Definition f_auth_mode := field "auth_mode" decode_string rAuthMode
  (fun x d => mkResp (rID d) (rStatus d) x (rSignatures d) (rGrantID d) (rExpiry d) (rGrants d)
                (rError d) (rVersion d)).
Definition f_signatures :=
  field "signatures" (decode_slice (mkSigned "" "") sig_decoder) rSignatures
  (fun x d => mkResp (rID d) (rStatus d) (rAuthMode d) x (rGrantID d) (rExpiry d) (rGrants d)
                (rError d) (rVersion d)).
Definition f_grant_id := field "grant_id" decode_string rGrantID
  (fun x d => mkResp (rID d) (rStatus d) (rAuthMode d) (rSignatures d) x (rExpiry d) (rGrants d)
                (rError d) (rVersion d)).
Definition f_expiry := field "expiry_unix" decode_int64 rExpiry
  (fun x d => mkResp (rID d) (rStatus d) (rAuthMode d) (rSignatures d) (rGrantID d) x (rGrants d)
                (rError d) (rVersion d)).
Definition f_grants := field "grants" (decode_slice (mkInfo "" "" [] "" 0) info_decoder) rGrants
  (fun x d => mkResp (rID d) (rStatus d) (rAuthMode d) (rSignatures d) (rGrantID d) (rExpiry d) x
                (rError d) (rVersion d)).
Definition f_error := field "error" decode_string rError
  (fun x d => mkResp (rID d) (rStatus d) (rAuthMode d) (rSignatures d) (rGrantID d) (rExpiry d) (rGrants d)
                x (rVersion d)).
Definition f_version := field "proto_version" decode_int64 rVersion
  (fun x d => mkResp (rID d) (rStatus d) (rAuthMode d) (rSignatures d) (rGrantID d) (rExpiry d) (rGrants d)
                (rError d) x).

Definition sign_response_decoder : decoder respDest :=
  decode_struct false [f_request_id; f_status; f_auth_mode; f_signatures; f_error; f_version].
Definition grant_response_decoder : decoder respDest :=
  decode_struct false [f_request_id; f_status; f_grant_id; f_expiry; f_error; f_version].
Definition revoke_response_decoder : decoder respDest :=
  decode_struct false [f_request_id; f_status; f_error; f_version].
Definition list_response_decoder : decoder respDest :=
  decode_struct false [f_request_id; f_status; f_grants; f_error; f_version].

(** ** The client (src/mcp/sign) *)

(** Why a call failed, beyond the sentinels. *)
Inductive Failure :=
  | NoSocketPath | NoRequestID | NoCommandsGiven
  | DialFailed | WriteFailed | ContextDone | ReadFailed
  | MalformedResponse | DaemonError (detail : string) | WrongRequestID (got : string)
  | UnknownStatus (got : string) | EmptyGrantID | DaemonTooOld (detail : string).

(** The errors of a call: the sentinels, and the others. *)
Inductive SignErr :=
  | ErrDenied | ErrTimeout | ErrUnreachable | ErrSignerPermission | ErrVerdictUnknown
  | Other (why : Failure).

(** What a dial error is, or wraps. *)
Record DialError := mkDial { not_exist : bool; permission : bool; op_error : bool }.

(** classifyDialError *)
Definition classifyDialError (e : DialError) : SignErr :=
  if not_exist e then ErrUnreachable
  else if permission e then ErrSignerPermission
  else if op_error e then ErrUnreachable
  else Other DialFailed.

(** What an error of the read is, how much was read before it, and whether the
    caller's context is done. *)
Record ReadError := mkRead {
  is_eof : bool; deadline_exceeded : bool; net_timeout : bool; n_read : nat; ctx_err : bool
}.

(** isVerdictLost *)
Definition isVerdictLost (e : ReadError) : bool :=
  if is_eof e then n_read e =? 0
  else deadline_exceeded e || net_timeout e.

(** The connection: how the dial ends, whether the write succeeds, and what is
    read back up to a newline, given what was written. *)
Record Conn := mkConn {
  dial : option DialError;
  write_ok : bool;
  reply : list ascii -> list ascii + ReadError
}.

(** roundtrip, and the same steps in Sign: what was written, and the line read. *)
Definition roundtrip (conn : Conn) (body : value) : list (list ascii) * (list ascii + SignErr) :=
  match dial conn with
  | Some e => ([], inr (classifyDialError e))
  | None =>
      let wire := line body in
      if negb (write_ok conn) then ([wire], inr (Other WriteFailed))
      else
        ([wire],
         match reply conn wire with
         | inl l => inl l
         | inr e =>
             if ctx_err e then inr (Other ContextDone)
             else if isVerdictLost e then inr ErrVerdictUnknown
             else inr (Other ReadFailed)
         end)
  end.

(** The checks every call makes of a response before its status. *)
Definition check_response (requestID : string) (d : respDest) : option SignErr :=
  if (rID d =s "") && (rStatus d =s "error") then Some (Other (DaemonError (rError d)))
  else if negb (rID d =s requestID) then Some (Other (WrongRequestID (rID d)))
  else None.

(** SignResult; [Signed] has the shape of [SignedCmd]. *)
Record SignResult := mkSignResult { Signed : list SignedCmd; AuthMode : string }.

(** Sign, on the response. *)
Definition sign_outcome (requestID : string) (l : list ascii) : SignResult + SignErr :=
  let '(d, ok) := Unmarshal sign_response_decoder l zero_resp in
  if negb ok then inr (Other MalformedResponse)
  else match check_response requestID d with
       | Some e => inr e
       | None =>
           if rStatus d =s "approved" then inl (mkSignResult (elems (rSignatures d)) (rAuthMode d))
           else if rStatus d =s "denied" then inr ErrDenied
           else if rStatus d =s "timeout" then inr ErrTimeout
           else if rStatus d =s "error" then inr (Other (DaemonError (rError d)))
           else inr (Other (UnknownStatus (rStatus d)))
       end.

Definition bind {A B} (r : list (list ascii) * (A + SignErr)) (f : A -> B + SignErr)
    : list (list ascii) * (B + SignErr) :=
  (r.1, match r.2 with inl a => f a | inr e => inr e end).

(** Client.Sign *)
Definition Sign (socketPath : string) (conn : Conn) (requestID : string) (cmds : list signRequestCmd)
    : list (list ascii) * (SignResult + SignErr) :=
  if socketPath =s "" then ([], inr (Other NoSocketPath))
  else if requestID =s "" then ([], inr (Other NoRequestID))
  else if is_nil cmds then ([], inr (Other NoCommandsGiven))
  else bind (roundtrip conn (sign_value requestID cmds)) (sign_outcome requestID).

(** RequestGrant, on the response. *)
Definition grant_outcome (requestID : string) (l : list ascii) : (string * Z) + SignErr :=
  let '(d, ok) := Unmarshal grant_response_decoder l zero_resp in
  if negb ok then inr (Other MalformedResponse)
  else match check_response requestID d with
       | Some e => inr e
       | None =>
           if rStatus d =s "approved" then
             if rGrantID d =s "" then inr (Other EmptyGrantID) else inl (rGrantID d, rExpiry d)
           else if rStatus d =s "denied" then inr ErrDenied
           else if rStatus d =s "timeout" then inr ErrTimeout
           else if rStatus d =s "error" then inr (Other (DaemonError (rError d)))
           else inr (Other (UnknownStatus (rStatus d)))
       end.

(** Client.RequestGrant *)
Definition RequestGrant (socketPath : string) (conn : Conn) (req : grantRequest)
    : list (list ascii) * ((string * Z) + SignErr) :=
  if socketPath =s "" then ([], inr (Other NoSocketPath))
  else if gID req =s "" then ([], inr (Other NoRequestID))
  else bind (roundtrip conn (grant_value req)) (grant_outcome (gID req)).

(** RevokeGrant, on the response. *)
Definition revoke_outcome (requestID : string) (l : list ascii) : unit + SignErr :=
  let '(d, ok) := Unmarshal revoke_response_decoder l zero_resp in
  if negb ok then inr (Other MalformedResponse)
  else match check_response requestID d with
       | Some e => inr e
       | None =>
           if rStatus d =s "approved" then inl tt
           else if rStatus d =s "error" then inr (Other (DaemonError (rError d)))
           else inr (Other (UnknownStatus (rStatus d)))
       end.

(** Client.RevokeGrant *)
Definition RevokeGrant (socketPath : string) (conn : Conn) (req : aliasRequest)
    : list (list ascii) * (unit + SignErr) :=
  if socketPath =s "" then ([], inr (Other NoSocketPath))
  else if aID req =s "" then ([], inr (Other NoRequestID))
  else bind (roundtrip conn (revoke_value req)) (revoke_outcome (aID req)).

(** ListGrants, on the response. *)
Definition list_outcome (requestID : string) (l : list ascii) : list grantInfo + SignErr :=
  let '(d, ok) := Unmarshal list_response_decoder l zero_resp in
  if negb ok then inr (Other MalformedResponse)
  else if (rStatus d =s "error") && GoStr.Contains (rError d) "unsupported kind"
  then inr (Other (DaemonTooOld (rError d)))
  else match check_response requestID d with
       | Some e => inr e
       | None =>
           if rStatus d =s "ok" then inl (elems (rGrants d))
           else if rStatus d =s "error" then inr (Other (DaemonError (rError d)))
           else inr (Other (UnknownStatus (rStatus d)))
       end.

(** Client.ListGrants *)
Definition ListGrants (socketPath : string) (conn : Conn) (req : aliasRequest)
    : list (list ascii) * (list grantInfo + SignErr) :=
  if socketPath =s "" then ([], inr (Other NoSocketPath))
  else if aID req =s "" then ([], inr (Other NoRequestID))
  else bind (roundtrip conn (list_value req)) (list_outcome (aID req)).

End Wire.
