(* ===== verification/SignerWireProps.v ===== *)
(** * The two ends of the signer's protocol agree *)

From S2P Require Import Prelude Json JsonProps JsonValue JsonValueProps Base64 Sigwire SigwireProps GateVerify GateVerifyProps RedactScanner RedactWriter SignerDaemon SignerDaemonProps SignerWire.
Import Utf8 Json JsonValue Sigwire Verify Daemon Wire.

(** ** Decoding the members of a struct *)

Lemma decode_vstr s old : decode_string (vstr s) old = (s, true).
Proof. unfold decode_string, vstr. unfold str, bytes. by rewrite string_of_list_ascii_of_string. Qed.

Lemma decode_vint z old : JsonValue.is_int64 z = true -> decode_int64 (vint z) old = (z, true).
Proof.
  intros Hz. unfold decode_int64, vint. pose proof (scan_format_int z [] I) as Hs.
  rewrite app_nil_r in Hs. by rewrite Hs, Hz.
Qed.

Section Members.
Context {A B : Type} (strict : bool) (fs : fields A) (name : string) (dec : decoder B)
  (get : A -> B) (set : B -> A -> A).
Hypothesis (Hfield : field_of fs (bytes name) = Some (field name dec get set).2).

Lemma decode_member v x ms a :
  dec v (get a) = (x, true) ->
  decode_fields strict fs (member name v ++ ms) a = decode_fields strict fs ms (set x a).
Proof.
  intros Hd. cbn [member app decode_fields]. rewrite Hfield. cbn [field snd]. rewrite Hd.
  by destruct (decode_fields strict fs ms (set x a)).
Qed.

(** A member left out, when what is there already is what was left out. *)
Lemma decode_optional empty v x ms a :
  (empty = true -> set x a = a) -> (empty = false -> dec v (get a) = (x, true)) ->
  decode_fields strict fs (omitempty empty name v ++ ms) a = decode_fields strict fs ms (set x a).
Proof. intros He Hd. destruct empty; cbn [omitempty app]; [by rewrite He|by apply decode_member, Hd]. Qed.
End Members.

Lemma decode_unknown {A} (fs : fields A) name v ms a :
  field_of fs (bytes name) = None ->
  decode_fields false fs (member name v ++ ms) a = decode_fields false fs ms a.
Proof.
  intros Hf. cbn [member app decode_fields]. rewrite Hf. cbn [negb].
  by destruct (decode_fields false fs ms a).
Qed.

Lemma decode_unknown_optional {A} (fs : fields A) empty name v ms a :
  field_of fs (bytes name) = None ->
  decode_fields false fs (omitempty empty name v ++ ms) a = decode_fields false fs ms a.
Proof. intros Hf. destruct empty; [done|]. by apply decode_unknown. Qed.

Lemma first_line v : wf_value v -> depth v <= maxNestingDepth -> first_value (line v) = Some v.
Proof. intros. apply first_value_write; [done|done|by right]. Qed.

Lemma only_line v : wf_value v -> depth v <= maxNestingDepth -> only_value (line v) = Some v.
Proof.
  intros Hw Hd. unfold only_value, line. rewrite value_reads_back; [done|done| |done|by right].
  unfold fuel_for. rewrite length_app. lia.
Qed.

Lemma eqb_empty s : (s =s "") = true -> s = "".
Proof. by destruct s. Qed.

(** ** Requests *)

(** What the client may send: strings in UTF-8, integers of 64 bits. *)
Definition utf8 (s : string) : Prop := valid (bytes s) = true.

Definition wire_cmd (c : signRequestCmd) : Prop :=
  utf8 (Server c) /\ utf8 (Command c) /\ JsonValue.is_int64 (TTLSec c) = true /\ utf8 (CmdHost c)
  /\ utf8 (Reason c).



(** One member of an object, by the decoder of its field. *)
Ltac decode_value :=
  lazymatch goal with
  | |- decode_string _ _ = _ => apply decode_vstr
  | |- decode_int64 _ _ = _ => apply decode_vint; first [assumption | reflexivity]
  | _ => first [reflexivity | eassumption]
  end.

Ltac step_member :=
  lazymatch goal with
  | |- decode_fields _ _ (member _ _ ++ _) _ = _ =>
      first [erewrite decode_member; [|reflexivity|decode_value] | rewrite decode_unknown by reflexivity]
  | |- decode_fields _ _ (omitempty _ _ _ ++ _) _ = _ =>
      first [rewrite decode_unknown_optional by reflexivity
            |erewrite decode_optional; [|reflexivity| |intros _; decode_value]]
  end.


Ltac step_members :=
  repeat step_member;
  try (let H := fresh in intros H; first [apply eqb_empty in H | apply Z.eqb_eq in H]; subst; reflexivity).

Lemma decode_cmd c : wire_cmd c -> cmd_decoder true (cmd_value c) zero_cmd = (c, true).
Proof.
  intros (_ & _ & Ht & _ & _). destruct c as [sv cmd ttl host rev why].
  unfold cmd_decoder, cmd_value, decode_struct.
  cbn [Server Command TTLSec CmdHost CmdReveal Reason] in *.
  rewrite <- (app_nil_r (omitempty (why =s "") _ _)).
  destruct rev; cbn [omitempty negb app]; [change [(bytes "reveal", VBool true)] with (member "reveal" (VBool true))|];
    by step_members.
Qed.

Lemma decode_list {A} (zero : A) dec f (l : list A) :
  Forall (fun x => dec (f x) zero = (x, true)) l ->
  decode_slice zero dec (VArr (map f l)) nil_slice = (mkSlice l [], true).
Proof.
  intros Hl. assert (decode_elements zero dec (map f l) [] = (l, true)) as He.
  { induction Hl as [|x l Hx _ IH]; cbn; [done|]. by rewrite Hx, IH. }
  destruct l as [|x l]; [done|]. unfold decode_slice. cbn [map]. cbn [map] in He.
  change (elems nil_slice ++ spare nil_slice) with (@nil A).
  by rewrite He, drop_nil.
Qed.

Lemma decode_strings l :
  decode_slice "" decode_string (VArr (map vstr l)) nil_slice = (mkSlice l [], true).
Proof. apply decode_list, Forall_forall. intros x _. apply decode_vstr. Qed.

Lemma decode_sign id cmds :
  Forall wire_cmd cmds ->
  sign_decoder (sign_value id cmds) (mkSignDest "" "" nil_slice 0)
  = (mkSignDest "sign" id (mkSlice cmds []) ProtoVersion, true).
Proof.
  intros Hc. unfold sign_decoder, sign_value, decode_struct.
  rewrite <- (app_nil_r (member "proto_version" _)).
  assert (decode_slice zero_cmd (cmd_decoder true) (VArr (map cmd_value cmds)) nil_slice
          = (mkSlice cmds [], true)) as Hs.
  { apply decode_list. eapply Forall_impl; [exact Hc|]. apply decode_cmd. }
  by step_members.
Qed.

Lemma decode_peek_sign id cmds :
  peek_decoder (sign_value id cmds) (mkPeek "" 0 "") = (mkPeek "sign" ProtoVersion id, true).
Proof.
  unfold peek_decoder, sign_value, decode_struct. rewrite <- (app_nil_r (member "proto_version" _)).
  by step_members.
Qed.

(** ** Values that fit on a line *)

Definition fits (d : nat) (v : value) : Prop := wf_value v /\ depth v <= d.

Definition fit_members (d : nat) (ms : list (list ascii * value)) : Prop :=
  Forall (fun m => valid m.1 = true /\ fits d m.2) ms.

Lemma fits_obj d ms : fit_members d ms -> fits (S d) (VObj ms).
Proof.
  intros Hm. split; cbn [wf_value depth].
  - induction Hm as [|m ms [Hk [Hw _]] _ IH]; cbn; [done|]. by split.
  - apply le_n_S. induction Hm as [|m ms [_ [_ Hd]] _ IH]; cbn; lia.
Qed.

Lemma fits_arr {A} d (f : A -> value) l : Forall (fun x => fits d (f x)) l -> fits (S d) (VArr (map f l)).
Proof.
  intros Hm. split; cbn [wf_value depth].
  - induction Hm as [|x l [Hw _] _ IH]; cbn; [done|]. by split.
  - apply le_n_S. induction Hm as [|x l [_ Hd] _ IH]; cbn; lia.
Qed.

Lemma fits_str d s : utf8 s -> fits d (vstr s).
Proof. intros Hs. split; [done|cbn; lia]. Qed.

Lemma fits_int d z : fits d (vint z).
Proof. split; [by exists z|cbn; lia]. Qed.

Lemma fits_bool d b : fits d (VBool b).
Proof. split; [done|cbn; lia]. Qed.

Lemma fits_strs d l : Forall utf8 l -> fits (S d) (VArr (map vstr l)).
Proof. intros Hl. apply fits_arr. eapply Forall_impl; [exact Hl|]. intros s. apply fits_str. Qed.

Lemma fit_member d name v : utf8 name -> fits d v -> fit_members d (member name v).
Proof. intros Hn Hv. apply Forall_singleton. by split. Qed.

Lemma fit_omitempty d empty name v : utf8 name -> fits d v -> fit_members d (omitempty empty name v).
Proof. intros Hn Hv. destruct empty; [constructor|by apply fit_member]. Qed.

Lemma fit_app d ms ms' : fit_members d ms -> fit_members d ms' -> fit_members d (ms ++ ms').
Proof. intros. by apply Forall_app. Qed.

Create HintDb fits.
#[export] Hint Resolve fits_obj fits_str fits_int fits_bool fits_strs fit_member fit_omitempty fit_app : fits.
#[export] Hint Extern 1 (utf8 _) => reflexivity : fits.

Lemma fits_written v : fits 4 v -> only_value (write_value v) = Some v.
Proof. intros [Hw Hd]. apply only_value_write; [done|]. by apply (Nat.le_trans _ 4), Nat.leb_le. Qed.

Lemma fits_only v : fits 4 v -> only_value (line v) = Some v /\ first_value (line v) = Some v.
Proof.
  intros [Hw Hd]. assert (depth v <= maxNestingDepth) by (by apply (Nat.le_trans _ 4), Nat.leb_le).
  split; [by apply only_line|by apply first_line].
Qed.

Lemma fits_cmd d c : wire_cmd c -> fits (S d) (cmd_value c).
Proof. intros (H1 & H2 & H3 & H4 & H5). unfold cmd_value. auto 20 with fits. Qed.

Lemma fits_sign id cmds : utf8 id -> Forall wire_cmd cmds -> fits 4 (sign_value id cmds).
Proof.
  intros Hid Hc. assert (fits 3 (VArr (map cmd_value cmds))).
  { apply fits_arr. eapply Forall_impl; [exact Hc|]. intros c. apply fits_cmd. }
  unfold sign_value. auto 20 with fits.
Qed.

Lemma read_line_eq v p :
  fits 4 v -> peek_decoder v (mkPeek "" 0 "") = (p, true) ->
  let l := read_line (line v) in
  peek l = p /\ peek_ok l = true
  /\ (forall d, sign_decoder v (mkSignDest "" "" nil_slice 0) = (d, true) ->
        as_sign l = Some (mkSign (sdKind d) (sdID d) (elems (sdCommands d))))
  /\ (forall d, grant_decoder v (mkGrantDest "" "" "" "" nil_slice 0 0) = (d, true) ->
        as_grant l = Some (mkGrantReq (gdID d) (gdAlias d) (gdScope d) (elems (gdCommands d)) (gdDuration d)))
  /\ (forall d, alias_decoder v (mkAliasDest "" "" "" 0) = (d, true) ->
        as_revoke l = Some (mkAliasReq (adID d) (adAlias d))
        /\ as_list l = Some (mkAliasReq (adID d) (adAlias d))).
Proof.
  intros [Ho Hf]%fits_only Hp. unfold read_line, Unmarshal, strictly, Decode. rewrite Ho, Hf, Hp. cbn.
  do 2 (split; [done|]). split_and!.
  - intros d Hd. by rewrite Hd.
  - intros d Hd. by rewrite Hd.
  - intros d Hd. by rewrite Hd.
Qed.

Lemma sign_read_back id cmds :
  utf8 id -> Forall wire_cmd cmds ->
  let l := read_line (line (sign_value id cmds)) in
  peek l = mkPeek "sign" ProtoVersion id /\ peek_ok l = true /\ as_sign l = Some (mkSign "sign" id cmds).
Proof.
  intros Hid Hc l.
  destruct (read_line_eq _ _ (fits_sign id cmds Hid Hc) (decode_peek_sign id cmds)) as (H1 & H2 & H3 & _).
  do 2 (split; [done|]). unfold l. by rewrite (H3 _ (decode_sign id cmds Hc)).
Qed.

(** What a client may ask of grants. *)
Definition wire_grant (r : grantRequest) : Prop :=
  utf8 (gID r) /\ utf8 (gAlias r) /\ utf8 (gScope r) /\ Forall utf8 (gCommands r)
  /\ JsonValue.is_int64 (gDurationSec r) = true.

Definition wire_alias (r : aliasRequest) : Prop := utf8 (aID r) /\ utf8 (aAlias r).

Lemma grant_read_back r :
  wire_grant r ->
  let l := read_line (line (grant_value r)) in
  peek l = mkPeek "request_grant" ProtoVersion (gID r) /\ peek_ok l = true /\ as_grant l = Some r.
Proof.
  intros (H1 & H2 & H3 & H4 & H5) l. destruct r as [rid al sc cmds dur].
  cbn [gID gAlias gScope gCommands gDurationSec] in *.
  assert (fits 4 (grant_value (mkGrantReq rid al sc cmds dur))) as Hfit.
  { unfold grant_value. auto 20 with fits. }
  destruct (read_line_eq _ (mkPeek "request_grant" ProtoVersion rid) Hfit) as (Hp & Hk & _ & Hg & _).
  { unfold peek_decoder, grant_value, decode_struct. rewrite <- (app_nil_r (member "proto_version" _)).
    by step_members. }
  do 2 (split; [done|]). unfold l.
  rewrite (Hg (mkGrantDest "request_grant" rid al sc (mkSlice cmds []) dur ProtoVersion)); [done|].
  unfold grant_decoder, grant_value, decode_struct. rewrite <- (app_nil_r (member "proto_version" _)).
  cbn [gID gAlias gScope gCommands gDurationSec]. do 4 step_member.
  cbn [gdKind gdID gdAlias gdScope gdCommands gdDuration gdVersion].
  erewrite decode_optional with (x := mkSlice cmds []); [|reflexivity| |intros _; apply decode_strings].
  2: by destruct cmds.
  cbn [gdKind gdID gdAlias gdScope gdCommands gdDuration gdVersion]. by step_members.
Qed.

Lemma decode_alias kind rid al empty v :
  fits 4 v -> v = VObj (member "kind" (vstr kind) ++ member "request_id" (vstr rid)
                        ++ omitempty empty "alias" (vstr al) ++ member "proto_version" (vint ProtoVersion)) ->
  (empty = true -> al = "") ->
  let l := read_line (line v) in
  peek l = mkPeek kind ProtoVersion rid /\ peek_ok l = true
  /\ as_revoke l = Some (mkAliasReq rid al) /\ as_list l = Some (mkAliasReq rid al).
Proof.
  intros Hfit -> He l.
  destruct (read_line_eq _ (mkPeek kind ProtoVersion rid) Hfit) as (Hp & Hk & _ & _ & Ha).
  { unfold peek_decoder, decode_struct. rewrite <- (app_nil_r (member "proto_version" _)).
    by step_members. }
  do 2 (split; [done|]). unfold l.
  apply (Ha (mkAliasDest kind rid al ProtoVersion)).
  unfold alias_decoder, decode_struct. rewrite <- (app_nil_r (member "proto_version" _)).
  step_members; [done|]. by intros ->%He.
Qed.

(** ** Responses *)

Definition wire_sig (s : SignedCmd) : Prop := utf8 (scCmd s) /\ utf8 (scSig s).

Lemma decode_sig sg : sig_decoder (sig_value sg) (mkSigned "" "") = (sg, true).
Proof.
  destruct sg as [cmd sig]. unfold sig_decoder, sig_value, decode_struct. cbn [scCmd scSig].
  rewrite <- (app_nil_r (member "sig" _)). by step_members.
Qed.

Lemma fits_sigs d sigs : Forall wire_sig sigs -> fits (S (S d)) (VArr (map sig_value sigs)).
Proof.
  intros Hs. apply fits_arr. eapply Forall_impl; [exact Hs|]. intros sg [H1 H2].
  unfold sig_value. auto 20 with fits.
Qed.
#[export] Hint Resolve fits_sigs : fits.

(** The wording of an error, if there is one. *)
Definition wording (text : Reason_ -> string) (e : option Reason_) : string :=
  match e with Some why => text why | None => "" end.

(** The error member of a response is left out when there is no error. *)
Lemma error_member text e :
  match e with Some why => omitempty (text why =s "") "error" (vstr (text why)) | None => [] end
  = omitempty (wording text e =s "") "error" (vstr (wording text e)).
Proof. by destruct e. Qed.

Lemma sign_reply text rid st mode sigs e :
  utf8 rid -> utf8 st -> utf8 mode -> Forall wire_sig sigs -> utf8 (wording text e) ->
  Unmarshal sign_response_decoder (line (response_value text (SignResponse rid st mode sigs e))) zero_resp
  = (mkResp rid st mode (mkSlice sigs []) "" 0 nil_slice (wording text e) ProtoVersion, true).
Proof.
  intros H1 H2 H3 H4 H5. unfold Unmarshal.
  assert (fits 4 (response_value text (SignResponse rid st mode sigs e))) as [Ho _]%fits_only.
  { unfold response_value. rewrite error_member. auto 20 with fits. }
  rewrite Ho. unfold response_value, sign_response_decoder, decode_struct. rewrite error_member.
  rewrite <- (app_nil_r (member "proto_version" _)).
  do 3 step_member.
  2: { intros ->%eqb_empty. done. }
  erewrite decode_optional with (x := mkSlice sigs []); [|reflexivity|by destruct sigs|].
  2: { intros _. apply decode_list, Forall_forall. intros sg _. apply decode_sig. }
  step_members; [done|]. intros ->%eqb_empty. done.
Qed.

Lemma grant_reply text rid st gid expiry e :
  utf8 rid -> utf8 st -> utf8 gid -> JsonValue.is_int64 expiry = true -> utf8 (wording text e) ->
  Unmarshal grant_response_decoder (line (response_value text (GrantResponse rid st gid expiry e))) zero_resp
  = (mkResp rid st "" nil_slice gid expiry nil_slice (wording text e) ProtoVersion, true).
Proof.
  intros H1 H2 H3 H4 H5. unfold Unmarshal.
  assert (fits 4 (response_value text (GrantResponse rid st gid expiry e))) as [Ho _]%fits_only.
  { unfold response_value. rewrite error_member. auto 20 with fits. }
  rewrite Ho. unfold response_value, grant_response_decoder, decode_struct. rewrite error_member.
  rewrite <- (app_nil_r (member "proto_version" _)).
  repeat step_member; [done|..].
  - intros ->%eqb_empty. done.
  - intros ->%Z.eqb_eq. done.
  - intros ->%eqb_empty. done.
Qed.

Lemma revoke_reply text rid st e :
  utf8 rid -> utf8 st -> utf8 (wording text e) ->
  Unmarshal revoke_response_decoder (line (response_value text (RevokeGrantResponse rid st e))) zero_resp
  = (mkResp rid st "" nil_slice "" 0 nil_slice (wording text e) ProtoVersion, true).
Proof.
  intros H1 H2 H3. unfold Unmarshal.
  assert (fits 4 (response_value text (RevokeGrantResponse rid st e))) as [Ho _]%fits_only.
  { unfold response_value. rewrite error_member. auto 20 with fits. }
  rewrite Ho. unfold response_value, revoke_response_decoder, decode_struct. rewrite error_member.
  rewrite <- (app_nil_r (member "proto_version" _)).
  repeat step_member; [done|]. intros ->%eqb_empty. done.
Qed.

(** A grant that fits on a line. *)
Definition wire_info (g : grantInfo) : Prop :=
  utf8 (iAlias g) /\ utf8 (iScope g) /\ Forall utf8 (iCommands g) /\ utf8 (iID g)
  /\ JsonValue.is_int64 (iExpiry g) = true.

Lemma decode_info g : wire_info g -> info_decoder (grant_info_value g) (mkInfo "" "" [] "" 0) = (g, true).
Proof.
  intros (_ & _ & _ & _ & He). destruct g as [al sc cmds gid expiry]. cbn [iExpiry] in He.
  unfold info_decoder. set (g0 := (mkInfo "" "" [] "" 0, mkSlice (iCommands (mkInfo "" "" [] "" 0)) [])).
  lazymatch goal with |- context [decode_struct false ?fs] =>
    assert (decode_struct false fs (grant_info_value (mkInfo al sc cmds gid expiry)) g0
            = ((mkInfo al sc [] gid expiry, mkSlice cmds []), true)) as Hd end.
  { unfold grant_info_value, decode_struct. cbn [iAlias iScope iCommands iID iExpiry].
    rewrite <- (app_nil_r (member "expiry_unix" _)). do 2 step_member.
    erewrite decode_optional with (x := mkSlice cmds []); [|reflexivity|by destruct cmds|].
    2: { intros _. apply decode_strings. }
    by do 2 step_member. }
  by rewrite Hd.
Qed.

Lemma list_reply text rid st gs e :
  utf8 rid -> utf8 st -> Forall wire_info gs -> utf8 (wording text e) ->
  Unmarshal list_response_decoder (line (response_value text (ListGrantsResponse rid st gs e))) zero_resp
  = (mkResp rid st "" nil_slice "" 0 (mkSlice gs []) (wording text e) ProtoVersion, true).
Proof.
  intros H1 H2 H3 H4. unfold Unmarshal.
  assert (fits 3 (VArr (map grant_info_value gs))) as Hg.
  { apply fits_arr. eapply Forall_impl; [exact H3|]. intros g (G1 & G2 & G3 & G4 & G5).
    unfold grant_info_value. auto 20 with fits. }
  assert (fits 4 (response_value text (ListGrantsResponse rid st gs e))) as [Ho _]%fits_only.
  { unfold response_value. rewrite error_member. auto 20 with fits. }
  rewrite Ho. unfold response_value, list_response_decoder, decode_struct. rewrite error_member.
  rewrite <- (app_nil_r (member "proto_version" _)).
  do 2 step_member.
  erewrite decode_optional with (x := mkSlice gs []); [|reflexivity|by destruct gs|].
  2: { intros _. apply decode_list. eapply Forall_impl; [exact H3|]. apply decode_info. }
  repeat step_member; [done|]. intros ->%eqb_empty. done.
Qed.

(** ** The calls *)

(** A connection that works and brings [r] back. *)
Definition served (text : Reason_ -> string) (r : Response) : Conn :=
  mkConn None true (fun _ => inl (line (response_value text r))).

(** What the client makes of a sign response for its own request. *)
Definition sign_result (st mode : string) (sigs : list SignedCmd) (err : string) : SignResult + SignErr :=
  if st =s "approved" then inl (mkSignResult sigs mode)
  else if st =s "denied" then inr ErrDenied
  else if st =s "timeout" then inr ErrTimeout
  else if st =s "error" then inr (Other (DaemonError err))
  else inr (Other (UnknownStatus st)).

Lemma check_same id st d :
  id <> "" -> rID d = id -> rStatus d = st -> check_response id d = None.
Proof.
  intros Hne <- <-. unfold check_response.
  by rewrite (proj2 (String.eqb_neq (rID d) "")), String.eqb_refl by done.
Qed.

Lemma Sign_served path text id cmds st mode sigs e :
  path <> "" -> id <> "" -> cmds <> [] ->
  utf8 id -> utf8 st -> utf8 mode -> Forall wire_sig sigs -> utf8 (wording text e) ->
  Sign path (served text (SignResponse id st mode sigs e)) id cmds
  = ([line (sign_value id cmds)], sign_result st mode sigs (wording text e)).
Proof.
  intros Hp Hid Hc H1 H2 H3 H4 H5. unfold Sign.
  rewrite (proj2 (String.eqb_neq path "")), (proj2 (String.eqb_neq id "")) by done.
  destruct cmds as [|c cmds]; [done|]. cbn [is_nil]. unfold bind, roundtrip, served.
  cbn [dial write_ok reply negb fst snd]. unfold sign_outcome. rewrite sign_reply by done.
  by rewrite (check_same _ st).
Qed.


(** A grant call reads the grant back, or the error for the response's status. *)
Lemma RequestGrant_served path text r st gid expiry e :
  path <> "" -> gID r <> "" -> utf8 (gID r) -> utf8 st -> utf8 gid ->
  JsonValue.is_int64 expiry = true -> utf8 (wording text e) ->
  RequestGrant path (served text (GrantResponse (gID r) st gid expiry e)) r
  = ([line (grant_value r)],
     if st =s "approved" then if gid =s "" then inr (Other EmptyGrantID) else inl (gid, expiry)
     else if st =s "denied" then inr ErrDenied
     else if st =s "timeout" then inr ErrTimeout
     else if st =s "error" then inr (Other (DaemonError (wording text e)))
     else inr (Other (UnknownStatus st))).
Proof.
  intros Hp Hid H1 H2 H3 H4 H5. unfold RequestGrant.
  rewrite (proj2 (String.eqb_neq path "")), (proj2 (String.eqb_neq (gID r) "")) by done.
  unfold bind, roundtrip, served. cbn [dial write_ok reply negb fst snd].
  unfold grant_outcome. rewrite grant_reply by done. by rewrite (check_same _ st).
Qed.

Lemma RevokeGrant_served path text r st e :
  path <> "" -> aID r <> "" -> utf8 (aID r) -> utf8 st -> utf8 (wording text e) ->
  RevokeGrant path (served text (RevokeGrantResponse (aID r) st e)) r
  = ([line (revoke_value r)],
     if st =s "approved" then inl tt
     else if st =s "error" then inr (Other (DaemonError (wording text e)))
     else inr (Other (UnknownStatus st))).
Proof.
  intros Hp Hid H1 H2 H3. unfold RevokeGrant.
  rewrite (proj2 (String.eqb_neq path "")), (proj2 (String.eqb_neq (aID r) "")) by done.
  unfold bind, roundtrip, served. cbn [dial write_ok reply negb fst snd].
  unfold revoke_outcome. rewrite revoke_reply by done. by rewrite (check_same _ st).
Qed.

Lemma ListGrants_served path text r gs :
  path <> "" -> aID r <> "" -> utf8 (aID r) -> Forall wire_info gs ->
  ListGrants path (served text (ListGrantsResponse (aID r) "ok" gs None)) r
  = ([line (list_value r)], inl gs).
Proof.
  intros Hp Hid H1 H2. unfold ListGrants.
  rewrite (proj2 (String.eqb_neq path "")), (proj2 (String.eqb_neq (aID r) "")) by done.
  unfold bind, roundtrip, served. cbn [dial write_ok reply negb fst snd].
  unfold list_outcome. rewrite list_reply by done. by rewrite (check_same _ "ok").
Qed.

(** What an error says of the request: unreachable, it was not sent; lost, it was. *)
Lemma unreachable_unsent conn body :
  match (roundtrip conn body).2 with
  | inr (ErrUnreachable | ErrSignerPermission) => (roundtrip conn body).1 = []
  | inr ErrVerdictUnknown => (roundtrip conn body).1 = [line body]
  | _ => True
  end.
Proof.
  unfold roundtrip. destruct (dial conn) as [e|]; cbn [fst snd].
  - unfold classifyDialError. by destruct (not_exist e), (permission e), (op_error e).
  - destruct (write_ok conn); cbn [negb fst snd]; [|done].
    destruct (reply conn (line body)) as [l|e]; [done|].
    destruct (ctx_err e); [done|]. by destruct (isVerdictLost e).
Qed.

(** ** Signatures are ASCII *)

Lemma bytes_app a b : bytes (a +:+ b) = bytes a ++ bytes b.
Proof. induction a as [|c a IH]; [done|]. change (String c a +:+ b) with (String c (a +:+ b)).
  unfold bytes in *. cbn [list_ascii_of_string app]. by rewrite IH. Qed.

Lemma bytes_cons c s : bytes (String c s) = c :: bytes s.
Proof. done. Qed.

Lemma encode_ascii b : Forall (fun c => is_ascii c = true) (bytes (str (Base64.encode b))).
Proof.
  unfold bytes, str. rewrite list_ascii_of_string_of_list_ascii.
  eapply Forall_impl; [apply Base64.encode_code|]. apply code_ascii.
Qed.

Lemma EncodeSigned_utf8 sig p : utf8 (EncodeSigned sig p).
Proof.
  unfold utf8, EncodeSigned. apply valid_ascii. rewrite !bytes_app. apply Forall_app. split.
  { repeat (apply Forall_cons; split; [reflexivity|]). constructor. }
  apply Forall_app. split; [apply encode_ascii|]. rewrite bytes_cons. constructor; [done|]. apply encode_ascii.
Qed.

Section Rpc.
Context `{Hmac} `{Ed25519}.
Variable cfg : Config.
Variable text : Reason_ -> string.
Hypothesis Htext : forall why, utf8 (text why).

(** An answer whose strings fit on a line. *)
Definition wire_answer (a : Answer) : Prop :=
  match a with
  | Resolved r => utf8 (ApprovedBy r) /\ Forall wire_sig (Signatures r)
  | _ => True
  end.

Lemma signAll_wire now rnd cmds : forall i sigs,
  Forall wire_cmd cmds -> signAll cfg now rnd i cmds = Some sigs -> Forall wire_sig sigs.
Proof.
  intros i sigs Hc Hs. apply signAll_lines in Hs.
  induction Hs as [|c sg cmds sigs (nonce & H1 & _ & H2) _ IH]; [constructor|].
  apply Forall_cons in Hc as [(_ & Hc & _) Hcs]. constructor; [|by apply IH].
  split; [by rewrite H1|]. rewrite H2. apply EncodeSigned_utf8.
Qed.

(** What the caller gets for the answer to its request. *)
Definition rpc_result (e : Env) (req : signRequest) (a : Answer) : SignResult + SignErr :=
  match await a with
  | None => inr (Other (DaemonError (text BackendError)))
  | Some r =>
      match Status r with
      | StatusApproved =>
          match approved_signatures cfg e req r with
          | inl sigs => inl (mkSignResult sigs (authMode true (ApprovedBy r)))
          | inr why => inr (Other (DaemonError (text why)))
          end
      | StatusDenied => inr ErrDenied
      | StatusTimeout => inr ErrTimeout
      | StatusOther _ => inr (Other (UnknownStatus "unknown"))
      end
  end.

Lemma sent_written e r ev s :
  sent (AuditWrite e ev (writeJSONLine e r s)) = sent s ++ if delivered e then [r] else [].
Proof. rewrite finish_same. apply finish_sent. Qed.

Lemma authMode_utf8 b by_ : utf8 by_ -> utf8 (authMode b by_).
Proof. intros Hb. unfold authMode. destruct b; [|done]. cbn [negb]. by repeat case_match. Qed.

Lemma approved_wire e req r sigs :
  Forall wire_cmd (sCommands req) -> Forall wire_sig (Signatures r) ->
  approved_signatures cfg e req r = inl sigs -> Forall wire_sig sigs.
Proof.
  intros Hc Hr. unfold approved_signatures. destruct (Signatures r) as [|sg sgs].
  - destruct (signAll _ _ _ _ _) as [out|] eqn:Es; [|done]. intros [= <-]. by eapply signAll_wire.
  - destruct (negb _); [done|]. destruct (remote_mismatch _ _ _); [done|]. by intros [= <-].
Qed.

(** C20: A signing call end to end: the daemon reads the client's line as exactly
    the request the client was given, and waits for that; and whatever the wait's
    answer, the one response the daemon then writes is what the client reads
    it as: the signatures and their authorisation when it was approved, and
    otherwise the error for its reason. *)
Theorem sign_rpc_agrees (e e' : Env) (s s' : State) (a : Answer) (path id : string)
    (cmds : list signRequestCmd)
    (Hpath : path <> "") (Hid : id <> "") (Hu : utf8 id) (Hne : cmds <> [])
    (Hc : Forall wire_cmd cmds) (Hok : check_commands 0 cmds = None)
    (Hm : matchGrant (grants s) (match_time e) cmds = None) (Ha : wire_answer a) :
  let req := mkSign "sign" id cmds in
  let wire := line (sign_value id cmds) in
  arrive cfg e (read_line wire) s = wait_for (PendingSign req) s
  /\ exists resp,
       sent (resolve cfg e' (PendingSign req) a s')
       = sent s' ++ (if delivered e' then [resp] else [])
       /\ Sign path (served text resp) id cmds = ([wire], rpc_result e' req a).
Proof.
  intros req wire. split.
  - destruct (sign_read_back id cmds Hu Hc) as (Hp & Hk & Hs). unfold arrive.
    unfold wire. rewrite Hp, Hk. cbn [negb PeekVersion Kind]. change (_ && _) with false. cbv iota.
    unfold handleSign. rewrite Hs. cbn [sKind sID sCommands].
    rewrite (proj2 (String.eqb_neq id "")) by done. cbn [negb].
    destruct cmds as [|c cmds']; [done|]. by rewrite Hok, Hm.
  - assert (forall st mode sigs err, utf8 st -> utf8 mode -> Forall wire_sig sigs ->
      sent (resolve cfg e' (PendingSign req) a s')
        = sent s' ++ (if delivered e' then [SignResponse id st mode sigs err] else []) ->
      sign_result st mode sigs (wording text err) = rpc_result e' req a ->
      exists resp, sent (resolve cfg e' (PendingSign req) a s')
          = sent s' ++ (if delivered e' then [resp] else [])
        /\ Sign path (served text resp) id cmds = ([wire], rpc_result e' req a)) as Hserve.
    { intros st mode sigs err H1 H2 H3 H4 H5. eexists. split; [exact H4|].
      rewrite Sign_served; [by rewrite H5|try done..]. destruct err; [apply Htext|done]. }
    cbn [resolve] in *. unfold finishSign, rpc_result in *.
    destruct (await a) as [r|] eqn:Ea.
    2: { apply (Hserve "error" "" [] (Some BackendError)); try done. apply sent_written. }
    assert (utf8 (ApprovedBy r) /\ Forall wire_sig (Signatures r)) as [Hby Hsg].
    { destruct a; cbn in Ea, Ha; simplify_eq; try done; by split. }
    unfold respond in *. destruct (Status r) eqn:Est; cbn [is_approved] in *.
    1: destruct (approved_signatures cfg e' req r) as [sigs|why] eqn:Es.
    + apply (Hserve "approved" (authMode true (ApprovedBy r)) sigs None); try done.
      * by apply authMode_utf8.
      * by apply approved_wire with e' req r.
      * unfold deliver. rewrite Est. apply sent_written.
    + apply (Hserve "error" "" [] (Some why)); try done. apply sent_written.
    + apply (Hserve "denied" "" [] None); try done. unfold deliver. rewrite Est. apply sent_written.
    + apply (Hserve "timeout" "" [] None); try done. unfold deliver. rewrite Est. apply sent_written.
    + apply (Hserve "unknown" "" [] None); try done. unfold deliver. rewrite Est. apply sent_written.
Qed.
End Rpc.

(** ** A witness *)

#[local] Instance wire_hmac : Hmac := {| mac salt s := s ++ salt |}.

Definition sample_commands : list signRequestCmd := [mkCmd "web" "reboot" 60 "SHA256:a" false ""].

(** An approved request for one command. *)
Lemma sign_rpc_agrees_witness :
  exists resp sig,
    sent (resolve sample_cfg (sample_env 110) (PendingSign (mkSign "sign" "r2" sample_commands))
            (Resolved yes) initial) = [resp]
    /\ Sign "/run/s" (served (fun _ => "no") resp) "r2" sample_commands
       = ([line (sign_value "r2" sample_commands)], inl (mkSignResult [mkSigned "reboot" sig] "human")).
Proof.
  destruct (sign_rpc_agrees sample_cfg (fun _ => "no") (fun _ => eq_refl) (sample_env 100) (sample_env 110)
              initial initial (Resolved yes) "/run/s" "r2" sample_commands) as [_ (resp & Hs & Hr)];
    try done.
  - repeat constructor.
  - exists resp. eexists. split; [exact Hs|]. rewrite Hr. reflexivity.
Defined.
