(* ===== verification/GoTime.v ===== *)
(** * Go's time package, as the program's messages and deadlines use it

    A [time.Time] is the number of nanoseconds since the epoch, a
    [time.Duration] a number of nanoseconds, both [Z]. *)

From S2P Require Import Prelude Json Sigwire.

Module GoTime.

Definition Microsecond : Z := 1000.
Definition Millisecond : Z := 1000 * Microsecond.

Definition itoa (n : Z) : string := Sigwire.str (Json.format_int n).

(** fmtFrac: the fraction of [v] over [10^prec], trailing zeros omitted, and the
    integer part. *)
Fixpoint fmtFrac (print : bool) (v : Z) (prec : nat) (acc : string) : string * Z :=
  match prec with
  | O => (if print then "." +:+ acc else acc, v)
  | S prec =>
      let digit := (v mod 10)%Z in
      let print := print || negb (digit =? 0)%Z in
      fmtFrac print (v / 10)%Z prec (if print then itoa digit +:+ acc else acc)
  end.

(** Duration.String *)
Definition DurationString (d : Z) : string :=
  let u := Z.abs d in
  let body :=
    if (u <? Sigwire.Second)%Z then
      if (u =? 0)%Z then "0s"
      else
        let '(prec, unit) :=
          if (u <? Microsecond)%Z then (0, "ns")
          else if (u <? Millisecond)%Z then (3, "µs")
          else (6, "ms") in
        let '(frac, v) := fmtFrac false u prec "" in
        itoa v +:+ frac +:+ unit
    else
      let '(frac, v) := fmtFrac false u 9 "" in
      let secs := itoa (v mod 60)%Z +:+ frac +:+ "s" in
      let m := (v / 60)%Z in
      if (m =? 0)%Z then secs
      else
        let mins := itoa (m mod 60)%Z +:+ "m" +:+ secs in
        let h := (m / 60)%Z in
        if (h =? 0)%Z then mins else itoa h +:+ "h" +:+ mins in
  if (d <? 0)%Z then "-" +:+ body else body.

(** Year, month and day of a day number counted from 1970-01-01. *)
Definition civil (days : Z) : Z * Z * Z :=
  (let z := days + 719468 in
   let era := z / 146097 in
   let doe := z mod 146097 in
   let yoe := (doe - doe / 1460 + doe / 36524 - doe / 146096) / 365 in
   let doy := doe - (365 * yoe + yoe / 4 - yoe / 100) in
   let mp := (5 * doy + 2) / 153 in
   let day := doy - (153 * mp + 2) / 5 + 1 in
   let month := if mp <? 10 then mp + 3 else mp - 9 in
   let year := yoe + era * 400 in
   (if month <=? 2 then year + 1 else year, month, day))%Z.

(** [n] with at least [w] digits. *)
Definition pad (w : nat) (n : Z) : string :=
  let s := itoa n in
  String.concat "" (repeat "0" (w - String.length s)) +:+ s.

(** t.UTC().Format(time.RFC3339) *)
Definition RFC3339 (t : Z) : string :=
  let secs := (t / Sigwire.Second)%Z in
  let '(y, m, d) := civil (secs / 86400)%Z in
  let s := (secs mod 86400)%Z in
  pad 4 y +:+ "-" +:+ pad 2 m +:+ "-" +:+ pad 2 d +:+ "T"
  +:+ pad 2 (s / 3600)%Z +:+ ":" +:+ pad 2 (s / 60 mod 60)%Z +:+ ":" +:+ pad 2 (s mod 60)%Z
  +:+ "Z".

(** t.UTC().Format(time.RFC3339Nano), as Time.MarshalJSON writes it. *)
Definition RFC3339Nano (t : Z) : string :=
  let '(frac, _) := fmtFrac false (t mod Sigwire.Second)%Z 9 "" in
  let s := RFC3339 t in
  GoStr.take (String.length s - 1) s +:+ frac +:+ "Z".

(** ** Parsing

    Time.UnmarshalJSON of an unescaped string: time.Parse with the layout RFC3339,
    which takes an hour of one digit, a fraction of any length after a period or
    a comma, and any offset up to 24:60. *)

Definition digit_val (c : ascii) : Z := (byte_val c - 48)%Z.

(** getnum *)
Definition getnum (fixed : bool) (l : list ascii) : option (Z * list ascii) :=
  match l with
  | a :: rest =>
      if negb (GoStr.is_digit a) then None
      else match rest with
           | b :: rest' =>
               if GoStr.is_digit b then Some ((digit_val a * 10 + digit_val b)%Z, rest')
               else if fixed then None else Some (digit_val a, rest)
           | [] => if fixed then None else Some (digit_val a, [])
           end
  | [] => None
  end.

Definition expect (c : ascii) (l : list ascii) : option (list ascii) :=
  match l with d :: rest => if c =c d then Some rest else None | [] => None end.

Fixpoint span_digits (l : list ascii) : list ascii * list ascii :=
  match l with
  | c :: rest => if GoStr.is_digit c then let '(d, tail) := span_digits rest in (c :: d, tail) else ([], l)
  | [] => ([], [])
  end.

(** The first nine digits of a fraction, as nanoseconds. *)
Fixpoint nanos (n : nat) (ds : list ascii) : Z :=
  match n, ds with
  | S n, d :: ds => (digit_val d * 10 ^ Z.of_nat n + nanos n ds)%Z
  | _, _ => 0%Z
  end.

Definition parse_fraction (l : list ascii) : Z * list ascii :=
  match l with
  | s :: d :: rest =>
      if ((s =c ".")%char || (s =c ",")%char) && GoStr.is_digit d
      then let '(ds, tail) := span_digits (d :: rest) in (nanos 9 ds, tail)
      else (0%Z, l)
  | _ => (0%Z, l)
  end.

(** The offset in seconds, and nothing after it. *)
Definition parse_zone (l : list ascii) : option Z :=
  match l with
  | [z] => if (z =c "Z")%char then Some 0%Z else None
  | [s; h1; h2; c; m1; m2] =>
      match getnum true [h1; h2], getnum true [m1; m2] with
      | Some (h, _), Some (m, _) =>
          if negb (c =c ":")%char || (24 <? h)%Z || (60 <? m)%Z then None
          else if (s =c "+")%char then Some (h * 3600 + m * 60)%Z
          else if (s =c "-")%char then Some (- (h * 3600 + m * 60))%Z
          else None
      | _, _ => None
      end
  | _ => None
  end.

Definition is_leap (y : Z) : bool :=
  ((y mod 4 =? 0) && (negb (y mod 100 =? 0) || (y mod 400 =? 0)))%Z.

Definition days_in (y m : Z) : Z :=
  (if m =? 2 then if is_leap y then 29 else 28
   else if (m =? 4) || (m =? 6) || (m =? 9) || (m =? 11) then 30 else 31)%Z.

(** The day number of a date, counted from 1970-01-01. *)
Definition day_number (y m d : Z) : Z :=
  (let y' := if m <=? 2 then y - 1 else y in
   let era := y' / 400 in
   let yoe := y' mod 400 in
   let mp := if 2 <? m then m - 3 else m + 9 in
   let doy := (153 * mp + 2) / 5 + d - 1 in
   era * 146097 + (yoe * 365 + yoe / 4 - yoe / 100 + doy) - 719468)%Z.

Definition in_bounds (lo hi : Z) (r : option (Z * list ascii)) : option (Z * list ascii) :=
  match r with Some (n, l) => if (lo <=? n)%Z && (n <=? hi)%Z then r else None | None => None end.

Definition obind {A B} (o : option A) (f : A -> option B) : option B :=
  match o with Some a => f a | None => None end.

Definition parse_date (l : list ascii) : option (Z * list ascii) :=
  obind (getnum true l) (fun '(y1, l) =>
  obind (getnum true l) (fun '(y2, l) =>
  obind (expect "-" l) (fun l =>
  obind (in_bounds 1 12 (getnum true l)) (fun '(m, l) =>
  obind (expect "-" l) (fun l =>
  obind (in_bounds 1 (days_in (y1 * 100 + y2) m) (getnum true l)) (fun '(d, l) =>
  Some (day_number (y1 * 100 + y2) m d, l))))))).

Definition parse_clock (l : list ascii) : option (Z * list ascii) :=
  obind (in_bounds 0 23 (getnum false l)) (fun '(h, l) =>
  obind (expect ":" l) (fun l =>
  obind (in_bounds 0 59 (getnum true l)) (fun '(m, l) =>
  obind (expect ":" l) (fun l =>
  obind (in_bounds 0 59 (getnum true l)) (fun '(s, l) =>
  Some ((h * 3600 + m * 60 + s)%Z, l)))))).

Definition ParseRFC3339 (l : list ascii) : option Z :=
  obind (parse_date l) (fun '(days, l) =>
  obind (expect "T" l) (fun l =>
  obind (parse_clock l) (fun '(secs, l) =>
  let '(ns, l) := parse_fraction l in
  obind (parse_zone l) (fun off =>
  Some ((days * 86400 + secs - off) * Sigwire.Second + ns)%Z)))).

#[global] Arguments RFC3339Nano : simpl never.
#[global] Arguments ParseRFC3339 : simpl never.
#[global] Arguments DurationString : simpl never.
#[global] Arguments RFC3339 : simpl never.

Example duration_5m : DurationString Sigwire.ApprovalWindow = "5m0s".
Proof. reflexivity. Qed.
Example duration_ms : DurationString 1500000 = "1.5ms" /\ DurationString 90500000000 = "1m30.5s".
Proof. by split. Qed.
Example rfc3339_2026 : RFC3339 1767225599000000000 = "2025-12-31T23:59:59Z".
Proof. reflexivity. Qed.
Example rfc3339_leap : RFC3339 1709164800000000000 = "2024-02-29T00:00:00Z".
Proof. reflexivity. Qed.
Example nano_written : RFC3339Nano 1709164800120000000 = "2024-02-29T00:00:00.12Z".
Proof. reflexivity. Qed.
Example nano_read : ParseRFC3339 (Sigwire.bytes "2024-02-29T00:00:00.12Z") = Some 1709164800120000000%Z.
Proof. reflexivity. Qed.
Example zone_read : ParseRFC3339 (Sigwire.bytes "2024-02-29T5:30:00,12+05:30") = Some 1709164800120000000%Z.
Proof. reflexivity. Qed.
Example bad_day : ParseRFC3339 (Sigwire.bytes "2023-02-29T00:00:00Z") = None.
Proof. reflexivity. Qed.

End GoTime.
