(* ===== verification/SignerAudit.v ===== *)
(** * The signer's audit log (src/signer/audit.go)

    The JSON line of an event and the log file as a step relation: concurrent
    calls of Write, each a marshal, a wait for the mutex, a write that may land in
    pieces and stop half-way, and an fsync that may fail; Close; and crashes that
    keep what an fsync covered and any part of the rest.  An event the log
    acknowledged is whole in the file ever after.

    Two things are asked of the file system.  The directory entry of a file that
    OpenAuditLog has just created outlasts a crash, although the code never syncs
    the directory; and an fsync that succeeds covers every byte written before it,
    those of a write whose own fsync failed included. *)

From S2P Require Import Prelude Json JsonProps JsonValue JsonValueProps Sigwire GateAudit SignerDaemon SignerWire SignerWireProps GoTime.

Module AuditFile.
Import JsonValue Sigwire Daemon Wire.

(** ** The line of an event *)

(** Time.MarshalJSON refuses a year of more than four digits. *)
Definition time_value (t : Z) : option value :=
  let '(year, _, _) := GoTime.civil (t / Second / 86400)%Z in
  if ((0 <=? year) && (year <=? 9999))%Z then Some (vstr (GoTime.RFC3339Nano t)) else None.

(** A nil slice is written as null. *)
Definition slice_value (l : option (list string)) : value :=
  match l with Some l => VArr (map vstr l) | None => VNull end.

Definition event_value (ts : value) (e : AuditEvent) : value :=
  VObj (member "ts" ts ++ member "request_id" (vstr (evID e)) ++ member "status" (vstr (evStatus e))
        ++ member "commands" (VArr (map vstr (evCommands e)))
        ++ member "servers" (slice_value (evServers e))
        ++ omitempty (evApprovedBy e =s "") "approved_by" (vstr (evApprovedBy e))
        ++ omitempty (evAuthMode e =s "") "auth_mode" (vstr (evAuthMode e))).

(** json.Marshal of an event. *)
Definition Marshal (e : AuditEvent) : option (list ascii) :=
  match time_value (evTS e) with
  | Some ts => Some (write_value (event_value ts e))
  | None => None
  end.

(** The bytes Write hands to the file. *)
Definition event_line (e : AuditEvent) : list ascii := default [] (Marshal e) ++ [NL].

(** ** The log *)

Inductive WriteErr := MarshalFailed | WriteFailed | SyncFailed.

(** A call of Write: it waits for the mutex, it holds it with bytes left to write,
    or it has returned. *)
Inductive Call :=
  | Waiting
  | Writing (rest : list ascii)
  | Returned (err : option WriteErr).

(** The file's bytes and how many of them are on disk for good; whether the handle
    is open; the mutex; the calls.  [acked] lists the events whose Write returned
    nil, in the order it did. *)
Record AuditLog := mkLog {
  data : list ascii;
  durable : nat;
  opened : bool;
  skipSync : bool;
  holder : option nat;
  calls : gmap nat (AuditEvent * Call);
  acked : list AuditEvent
}.

(** OpenAuditLog, on a file that holds [old], and NewMemAuditLog. *)
Definition OpenAuditLog (old : list ascii) : AuditLog :=
  mkLog old (List.length old) true false None ∅ [].

Definition NewMemAuditLog : AuditLog := mkLog [] 0 true true None ∅ [].

(** What happens to the log.  A crash keeps the first [k] bytes. *)
Inductive event :=
  | Begin (n : nat) (e : AuditEvent)
  | Acquire (n : nat)
  | Chunk (n k : nat)
  | WriteError (n : nat)
  | Sync (n : nat) (ok : bool)
  | Close
  | Crash (k : nat).

Definition set_call (n : nat) (c : AuditEvent * Call) (s : AuditLog) : AuditLog :=
  mkLog (data s) (durable s) (opened s) (skipSync s) (holder s) (<[n := c]> (calls s)) (acked s).

(** The end of a call that holds the mutex. *)
Definition return_call (n : nat) (e : AuditEvent) (err : option WriteErr) (s : AuditLog) : AuditLog :=
  mkLog (data s) (durable s) (opened s) (skipSync s) None (<[n := (e, Returned err)]> (calls s))
    (match err with None => acked s ++ [e] | Some _ => acked s end).

(** The call that holds the mutex, if it is [n]. *)
Definition held_by (n : nat) (s : AuditLog) : option (AuditEvent * list ascii) :=
  match holder s, calls s !! n with
  | Some m, Some (e, Writing rest) => if m =? n then Some (e, rest) else None
  | _, _ => None
  end.

(** One step; [None] when it can not happen. *)
Definition step (s : AuditLog) (ev : event) : option AuditLog :=
  match ev with
  | Begin n e =>
      match calls s !! n with
      | Some _ => None
      | None =>
          Some (set_call n (e, match Marshal e with
                               | Some _ => Waiting
                               | None => Returned (Some MarshalFailed)
                               end) s)
      end
  | Acquire n =>
      match holder s, calls s !! n with
      | None, Some (e, Waiting) =>
          Some (mkLog (data s) (durable s) (opened s) (skipSync s) (Some n)
                  (<[n := (e, Writing (event_line e))]> (calls s)) (acked s))
      | _, _ => None
      end
  | Chunk n k =>
      match held_by n s with
      | Some (e, rest) =>
          if opened s && (0 <? k) && (k <=? List.length rest)
          then Some (set_call n (e, Writing (drop k rest))
                       (mkLog (data s ++ take k rest) (durable s) (opened s) (skipSync s)
                          (holder s) (calls s) (acked s)))
          else None
      | None => None
      end
  | WriteError n =>
      match held_by n s with
      | Some (e, _ :: _) => Some (return_call n e (Some WriteFailed) s)
      | _ => None
      end
  | Sync n ok =>
      match held_by n s with
      | Some (e, []) =>
          if skipSync s then Some (return_call n e None s)
          else if ok
          then Some (return_call n e None
                       (mkLog (data s) (List.length (data s)) (opened s) (skipSync s)
                          (holder s) (calls s) (acked s)))
          else Some (return_call n e (Some SyncFailed) s)
      | _ => None
      end
  | Close =>
      match holder s with
      | None => Some (mkLog (data s) (durable s) false (skipSync s) None (calls s) (acked s))
      | Some _ => None
      end
  | Crash k =>
      if (durable s <=? k) && (k <=? List.length (data s))
      then Some (mkLog (take k (data s)) (durable s) true (skipSync s) None ∅ (acked s))
      else None
  end.

Fixpoint run (s : AuditLog) (tr : list event) : option AuditLog :=
  match tr with
  | [] => Some s
  | ev :: tr => match step s ev with Some s' => run s' tr | None => None end
  end.

(** The events whose Write was called. *)
Definition begun (tr : list event) : list AuditEvent :=
  flat_map (fun ev => match ev with Begin _ e => [e] | _ => [] end) tr.

Definition is_fault (ev : event) : bool :=
  match ev with WriteError _ | Sync _ false | Crash _ => true | _ => false end.

End AuditFile.

Import JsonValue Sigwire Daemon Wire AuditFile.

(** ** The invariant of the log *)

(** The bytes a call has left in the file, with the event it wrote. *)
#[local] Abbreviation piece := (AuditEvent * list ascii)%type.

Definition piece_ok (p : piece) : Prop := p.2 `prefix_of` event_line p.1.

Definition piece_bytes (ps : list piece) : list ascii := concat (map snd ps).

Definition whole (e : AuditEvent) : piece := (e, event_line e).

Lemma piece_bytes_app ps qs : piece_bytes (ps ++ qs) = piece_bytes ps ++ piece_bytes qs.
Proof. unfold piece_bytes. by rewrite map_app, concat_app. Qed.

Lemma piece_bytes_snoc ps e p : piece_bytes (ps ++ [(e, p)]) = piece_bytes ps ++ p.
Proof. rewrite piece_bytes_app. unfold piece_bytes at 2. cbn. by rewrite app_nil_r. Qed.

(** Cutting the file cuts its last pieces. *)
Lemma cut_pieces n ps :
  Forall piece_ok ps ->
  exists ps', take n (piece_bytes ps) = piece_bytes ps' /\ Forall piece_ok ps'
    /\ map fst ps' `sublist_of` map fst ps.
Proof.
  intros Hps. revert n. induction Hps as [|[e p] ps Hp Hps IH]; intros n.
  { exists []. split; [by destruct n|]. by split. }
  unfold piece_bytes. cbn [map concat snd fst]. rewrite firstn_app.
  destruct (IH (n - List.length p)) as (ps' & Hcut & Hok & Hsub). exists ((e, take n p) :: ps').
  split; [cbn [map concat snd]; f_equal; exact Hcut|]. split; [|by constructor].
  constructor; [|done]. unfold piece_ok in *. cbn in *. etrans; [apply prefix_take|exact Hp].
Qed.

(** The events whose calls still wait. *)
Definition wait1 (c : AuditEvent * Call) : list AuditEvent :=
  match c with (e, Waiting) => [e] | _ => [] end.

Definition waiting (m : gmap nat (AuditEvent * Call)) : list AuditEvent :=
  flat_map wait1 (map snd (map_to_list m)).

Lemma waiting_split n c m : m !! n = Some c -> waiting m ≡ₚ wait1 c ++ waiting (delete n m).
Proof.
  intros Hn. unfold waiting. rewrite <- (insert_delete_id m n c Hn) at 1.
  rewrite map_to_list_insert by apply lookup_delete_eq. done.
Qed.

Lemma waiting_insert n c m : waiting (<[n := c]> m) ≡ₚ wait1 c ++ waiting (delete n m).
Proof. rewrite (waiting_split n c) by apply lookup_insert_eq. by rewrite delete_insert_eq. Qed.

(** A call that goes on without waiting changes nothing for those that wait. *)
Lemma waiting_same n c c' m : m !! n = Some c -> wait1 c = wait1 c' -> waiting (<[n := c']> m) ≡ₚ waiting m.
Proof. intros Hn Hw. by rewrite waiting_insert, (waiting_split n c m) by done; rewrite Hw. Qed.

Section Invariant.
Variable old : list ascii.

(** What the mutex says of the pieces [ps2] that no fsync covers yet; [clean] when
    nothing failed so far. *)
Definition lock_inv (clean : bool) (s : AuditLog) (ps1 ps2 : list piece) : Prop :=
  match holder s with
  | None => clean = true -> ps1 ++ ps2 = map whole (acked s)
  | Some n =>
      exists e rest p ps2',
        calls s !! n = Some (e, Writing rest) /\ ps2 = ps2' ++ [(e, p)] /\ event_line e = p ++ rest
        /\ (clean = true -> ps1 ++ ps2' = map whole (acked s))
  end.

Record inv (clean : bool) (seen : list AuditEvent) (s : AuditLog) (ps1 ps2 : list piece) : Prop := {
  inv_data : data s = old ++ piece_bytes (ps1 ++ ps2);
  inv_durable : List.length (old ++ piece_bytes ps1) <= durable s <= List.length (data s);
  inv_acked : map whole (acked s) `sublist_of` ps1;
  inv_pieces : Forall piece_ok (ps1 ++ ps2);
  inv_sync : skipSync s = false;
  inv_lock : lock_inv clean s ps1 ps2;
  inv_seen : waiting (calls s) ++ map fst (ps1 ++ ps2) ⊆+ seen
}.

Definition Inv (clean : bool) (seen : list AuditEvent) (s : AuditLog) : Prop :=
  exists ps1 ps2, inv clean seen s ps1 ps2.

Lemma Inv_open : Inv true [] (OpenAuditLog old).
Proof. exists [], []. split; cbn; rewrite ?app_nil_r; done || lia. Qed.

Lemma held_by_spec n s e rest :
  held_by n s = Some (e, rest) -> holder s = Some n /\ calls s !! n = Some (e, Writing rest).
Proof.
  unfold held_by. intros H. destruct (holder s) as [m|]; [|done].
  destruct (calls s !! n) as [[e' [|r|]]|] eqn:E; try done.
  destruct (Nat.eqb_spec m n) as [->|]; [|done]. by injection H as -> ->.
Qed.

(** The holder's piece is the last one. *)
Lemma inv_held clean seen s ps1 ps2 n e rest :
  inv clean seen s ps1 ps2 -> held_by n s = Some (e, rest) ->
  holder s = Some n /\ calls s !! n = Some (e, Writing rest)
  /\ exists p ps2', ps2 = ps2' ++ [(e, p)] /\ event_line e = p ++ rest
     /\ (clean = true -> ps1 ++ ps2' = map whole (acked s)).
Proof.
  intros Hi Hh. apply held_by_spec in Hh as [Hn Hc]. pose proof (inv_lock _ _ _ _ _ Hi) as Hl.
  unfold lock_inv in Hl. rewrite Hn in Hl. destruct Hl as (e' & r' & p & ps2' & Hc' & H).
  rewrite Hc in Hc'. injection Hc' as <- <-. eauto 10.
Qed.

Lemma inv_begin clean seen s n e s' :
  Inv clean seen s -> step s (Begin n e) = Some s' -> Inv clean (seen ++ [e]) s'.
Proof.
  intros (ps1 & ps2 & Hi) Hs. cbn in Hs. destruct (calls s !! n) eqn:Hn; [done|]. injection Hs as <-.
  exists ps1, ps2. destruct Hi as [H1 H2 H3 H4 H5 H6 H7]. split; try done.
  - unfold lock_inv in *. cbn [holder calls acked set_call]. destruct (holder s) as [m|]; [|done].
    destruct H6 as (e' & r & p & ps2' & Hm & H). exists e', r, p, ps2'. split; [|done].
    rewrite lookup_insert_ne; [done|]. intros ->. by rewrite Hn in Hm.
  - cbn [calls set_call]. rewrite waiting_insert, delete_id by done.
    rewrite <- app_assoc, (Permutation_app_comm seen). apply submseteq_app; [|done].
    destruct (Marshal e); [done|apply submseteq_nil_l].
Qed.

Lemma inv_acquire clean seen s n s' :
  Inv clean seen s -> step s (Acquire n) = Some s' -> Inv clean seen s'.
Proof.
  intros (ps1 & ps2 & Hi) Hs. cbn in Hs. destruct (holder s) eqn:Hh; [done|].
  destruct (calls s !! n) as [[e [| |]]|] eqn:Hn; try done. injection Hs as <-.
  exists ps1, (ps2 ++ [(e, [])]). destruct Hi as [H1 H2 H3 H4 H5 H6 H7]. split; cbn.
  - rewrite app_assoc, piece_bytes_snoc. by rewrite app_nil_r.
  - done.
  - done.
  - rewrite app_assoc. apply Forall_app. split; [done|]. constructor; [|done]. apply prefix_nil.
  - done.
  - exists e, (event_line e), [], ps2. split; [apply lookup_insert_eq|]. split; [done|]. split; [done|].
    unfold lock_inv in H6. by rewrite Hh in H6.
  - rewrite waiting_insert. cbn [wait1 app]. rewrite (waiting_split n (e, Waiting)) in H7 by done.
    rewrite app_assoc, map_app. cbn [map fst]. etrans; [|exact H7]. cbn [wait1 app].
    by rewrite app_assoc, Permutation_app_comm.
Qed.

Lemma inv_chunk clean seen s n k s' :
  Inv clean seen s -> step s (Chunk n k) = Some s' -> Inv clean seen s'.
Proof.
  intros (ps1 & ps2 & Hi) Hs. cbn in Hs. destruct (held_by n s) as [[e rest]|] eqn:Hh; [|done].
  destruct (inv_held _ _ _ _ _ _ _ _ Hi Hh) as (Hn & Hc & p & ps2' & -> & Hl & Hcl).
  case_match; [|done]. injection Hs as <-.
  exists ps1, (ps2' ++ [(e, p ++ take k rest)]). destruct Hi as [H1 H2 H3 H4 H5 H6 H7].
  rewrite app_assoc, piece_bytes_snoc in H1. split; cbn.
  - rewrite H1, (app_assoc ps1), piece_bytes_snoc. by rewrite <- !app_assoc.
  - rewrite !length_app in *. lia.
  - done.
  - rewrite app_assoc in *. apply Forall_app in H4 as [H4 _]. apply Forall_app. split; [done|].
    constructor; [|done]. exists (drop k rest). cbn. by rewrite <- app_assoc, take_drop.
  - done.
  - unfold lock_inv. cbn. rewrite Hn. exists e, (drop k rest), (p ++ take k rest), ps2'.
    split; [apply lookup_insert_eq|]. split; [done|]. split; [|done]. by rewrite <- app_assoc, take_drop.
  - rewrite (waiting_same n (e, Writing rest)) by done. by rewrite !map_app in *.
Qed.

Lemma inv_failed clean seen s n e rest err :
  Inv clean seen s -> held_by n s = Some (e, rest) -> Inv false seen (return_call n e (Some err) s).
Proof.
  intros (ps1 & ps2 & Hi) Hh. destruct (inv_held _ _ _ _ _ _ _ _ Hi Hh) as (Hn & Hc & _).
  exists ps1, ps2. destruct Hi as [H1 H2 H3 H4 H5 H6 H7]. split; try done.
  cbn [calls return_call]. by rewrite (waiting_same n (e, Writing rest)).
Qed.

Lemma inv_synced clean seen s n e :
  Inv clean seen s -> held_by n s = Some (e, []) ->
  Inv clean seen (return_call n e None
    (mkLog (data s) (List.length (data s)) (opened s) (skipSync s) (holder s) (calls s) (acked s))).
Proof.
  intros (ps1 & ps2 & Hi) Hh. destruct (inv_held _ _ _ _ _ _ _ _ Hi Hh) as (Hn & Hc & p & ps2' & -> & Hl & Hcl).
  rewrite app_nil_r in Hl. subst p. change (e, event_line e) with (whole e) in *.
  exists (ps1 ++ ps2' ++ [whole e]), []. destruct Hi as [H1 H2 H3 H4 H5 H6 H7].
  split; cbn; rewrite ?app_nil_r; try done.
  - rewrite H1. lia.
  - rewrite map_app. apply sublist_app; [done|]. by apply sublist_inserts_l.
  - intros H. rewrite app_assoc, Hcl, map_app by done. done.
  - by rewrite (waiting_same n (e, Writing [])).
Qed.

Lemma inv_closed clean seen s s' : Inv clean seen s -> step s Close = Some s' -> Inv clean seen s'.
Proof.
  intros (ps1 & ps2 & [H1 H2 H3 H4 H5 H6 H7]) Hs. cbn in Hs. destruct (holder s) eqn:Hh; [done|].
  injection Hs as <-. exists ps1, ps2. split; try done. unfold lock_inv in *. cbn. by rewrite Hh in H6.
Qed.

Lemma inv_crash clean seen s k s' : Inv clean seen s -> step s (Crash k) = Some s' -> Inv false seen s'.
Proof.
  intros (ps1 & ps2 & [H1 H2 H3 H4 H5 H6 H7]) Hs. cbn in Hs. case_match eqn:Hk; [|done]. injection Hs as <-.
  apply andb_true_iff in Hk as [Hk1 Hk2]. apply Nat.leb_le in Hk1, Hk2.
  apply Forall_app in H4 as [H4 H4'].
  destruct (cut_pieces (k - List.length (old ++ piece_bytes ps1)) ps2 H4') as (ps2' & Hcut & Hok & Hsub).
  exists ps1, ps2'. split; cbn; try done.
  - rewrite H1, piece_bytes_app, app_assoc, firstn_app, take_ge by lia.
    rewrite Hcut, piece_bytes_app, app_assoc. done.
  - split; [lia|]. rewrite length_take. lia.
  - by apply Forall_app.
  - etrans; [|exact H7]. unfold waiting. rewrite map_to_list_empty. cbn.
    rewrite !map_app. apply submseteq_inserts_l, submseteq_app; [done|]. by apply sublist_submseteq.
Qed.

Lemma log_step clean seen s ev s' :
  Inv clean seen s -> step s ev = Some s' -> Inv (clean && negb (is_fault ev)) (seen ++ begun [ev]) s'.
Proof.
  intros Hi Hs. destruct ev as [n e|n|n k|n|n ok| |k]; cbn [begun flat_map is_fault negb];
    rewrite ?app_nil_r, ?andb_true_r, ?andb_false_r; eauto using inv_begin, inv_acquire, inv_chunk, inv_closed, inv_crash.
  - cbn in Hs. destruct (held_by n s) as [[e [|c rest]]|] eqn:Hh; try done. injection Hs as <-.
    by eapply inv_failed.
  - cbn in Hs. destruct (held_by n s) as [[e [|c rest]]|] eqn:Hh; try done.
    assert (skipSync s = false) as Hsk by (destruct Hi as (? & ? & []); done). rewrite Hsk in Hs.
    destruct ok; injection Hs as <-; cbn [negb]; rewrite ?andb_true_r, ?andb_false_r.
    + rewrite <- Hsk. by apply inv_synced.
    + by eapply inv_failed.
Qed.

Lemma inv_run tr : forall clean seen s s',
  Inv clean seen s -> run s tr = Some s' ->
  Inv (clean && forallb (fun ev => negb (is_fault ev)) tr) (seen ++ begun tr) s'.
Proof.
  induction tr as [|ev tr IH]; intros clean seen s s' Hi Hr; cbn in Hr.
  - injection Hr as <-. cbn. by rewrite andb_true_r, app_nil_r.
  - destruct (step s ev) as [s1|] eqn:Es; [|done]. pose proof (IH _ _ _ _ (log_step _ _ _ _ _ Hi Es) Hr) as H.
    cbn [forallb]. rewrite andb_assoc.
    assert (begun (ev :: tr) = begun [ev] ++ begun tr) as -> by (unfold begun; cbn; by rewrite app_nil_r).
    by rewrite app_assoc.
Qed.

End Invariant.

(** Only events that json.Marshal takes get as far as the mutex. *)
Definition call_marshals (c : AuditEvent * Call) : Prop :=
  match c.2 with Returned _ => True | _ => is_Some (Marshal c.1) end.

Definition marshalled (s : AuditLog) : Prop :=
  map_Forall (fun _ => call_marshals) (calls s) /\ Forall (fun e => is_Some (Marshal e)) (acked s).

Lemma marshalled_step s ev s' : marshalled s -> step s ev = Some s' -> marshalled s'.
Proof.
  intros [Hc Ha] Hs.
  assert (forall n e rest, held_by n s = Some (e, rest) -> is_Some (Marshal e)) as Hh.
  { intros n e rest H. apply held_by_spec in H as [_ H]. exact (Hc _ _ H). }
  destruct ev as [n e|n|n k|n|n ok| |k]; cbn in Hs; repeat case_match; simplify_eq; split; cbn; try done;
    try (apply map_Forall_insert_2; [|done]); try (apply Forall_app; split; [done|]; constructor; [|done]);
    unfold call_marshals; cbn; eauto.
  exact (Hc n (_, Waiting) ltac:(eassumption)).
Qed.

Lemma marshalled_run tr : forall s s', marshalled s -> run s tr = Some s' -> marshalled s'.
Proof.
  induction tr as [|ev tr IH]; intros s s' Hm Hr; cbn in Hr; [by simplify_eq|].
  destruct (step s ev) eqn:Es; [|done]. eauto using marshalled_step.
Qed.

(** ** A line reads back as its event *)

Definition ascii_text (s : string) : Prop := Forall (fun c => Utf8.is_ascii c = true) (bytes s).

Lemma ascii_utf8 s : ascii_text s -> utf8 s.
Proof. apply Utf8.valid_ascii. Qed.

Lemma ascii_app a b : ascii_text a -> ascii_text b -> ascii_text (a +:+ b).
Proof. intros Ha Hb. unfold ascii_text. rewrite bytes_app. by apply Forall_app. Qed.

Lemma uint_ascii u : Forall (fun c => Utf8.is_ascii c = true) (Json.uint_chars u).
Proof. induction u; by constructor. Qed.

Lemma itoa_ascii z : ascii_text (GoTime.itoa z).
Proof.
  unfold ascii_text, GoTime.itoa. change (bytes (str (Json.format_int z))) with
    (list_ascii_of_string (string_of_list_ascii (Json.format_int z))).
  rewrite list_ascii_of_string_of_list_ascii. unfold Json.format_int, Json.format_nat.
  destruct (z <? 0)%Z; [constructor; [done|]|]; apply uint_ascii.
Qed.

Lemma pad_ascii w z : ascii_text (GoTime.pad w z).
Proof.
  apply ascii_app; [|apply itoa_ascii]. generalize (w - String.length (GoTime.itoa z)). intros k.
  induction k as [|[|k] IH]; by repeat constructor.
Qed.

Lemma fmtFrac_ascii n : forall print v acc, ascii_text acc -> ascii_text (GoTime.fmtFrac print v n acc).1.
Proof.
  induction n as [|n IH]; intros print v acc Ha; cbn [GoTime.fmtFrac].
  - destruct print; [|done]. by apply ascii_app; [repeat constructor|].
  - apply IH. case_match; [|done]. apply ascii_app; [apply itoa_ascii|done].
Qed.

Lemma take_ascii n s : ascii_text s -> ascii_text (GoStr.take n s).
Proof.
  revert s. induction n as [|n IH]; intros [|c s] Hs; try by constructor.
  inversion Hs. constructor; [done|]. by apply IH.
Qed.

Lemma time_utf8 t : utf8 (GoTime.RFC3339Nano t).
Proof.
  apply ascii_utf8. unfold GoTime.RFC3339Nano.
  pose proof (fmtFrac_ascii 9 false (t mod Second)%Z "" ltac:(constructor)) as Hf.
  destruct (GoTime.fmtFrac _ _ _ _) as [frac v]. cbn in Hf.
  apply ascii_app; [|apply ascii_app; [done|by repeat constructor]].
  apply take_ascii. unfold GoTime.RFC3339. destruct (GoTime.civil _) as [[y m] d].
  repeat first [apply pad_ascii | apply ascii_app]; unfold ascii_text; repeat constructor.

Qed.

(** The texts of an event are UTF-8, as a decoded request's are. *)
Definition utf8_event (e : AuditEvent) : Prop :=
  utf8 (evID e) /\ utf8 (evStatus e) /\ Forall utf8 (evCommands e)
  /\ Forall utf8 (default [] (evServers e)) /\ utf8 (evApprovedBy e) /\ utf8 (evAuthMode e).

Lemma event_reads_back e :
  utf8_event e -> is_Some (Marshal e) ->
  exists ts, time_value (evTS e) = Some ts /\ only_value (default [] (Marshal e)) = Some (event_value ts e).
Proof.
  intros (H1 & H2 & H3 & H4 & H5 & H6). unfold Marshal.
  destruct (time_value (evTS e)) as [ts|] eqn:Ht; [|by intros []]. intros _. exists ts. split; [done|].
  apply fits_written. apply fits_obj.
  assert (fits 3 ts) as Hts.
  { unfold time_value in Ht. destruct (GoTime.civil _) as [[y m] d]. case_match; [|done].
    injection Ht as <-. apply fits_str, time_utf8. }
  assert (fits 3 (slice_value (evServers e))) as Hs.
  { destruct (evServers e); cbn [slice_value]; [by apply fits_strs|]. split; [done|cbn; lia]. }
  auto 20 with fits.
Qed.

Lemma integral_strs l : integral (VArr (map vstr l)).
Proof. apply foldr_and, Forall_map, Forall_forall. done. Qed.

Lemma integral_obj ms : Forall (fun m => integral m.2) ms -> integral (VObj ms).
Proof. intros H. by apply (foldr_and (fun m => integral m.2)). Qed.

Lemma integral_member empty name v :
  integral v -> Forall (fun m => integral m.2) (omitempty empty name v).
Proof. intros Hv. destruct empty; by repeat constructor. Qed.

Lemma event_no_newline e : no_newline (default [] (Marshal e)).
Proof.
  unfold Marshal, time_value. destruct (GoTime.civil _) as [[y m] d].
  destruct (_ && _)%bool; [|constructor].
  apply write_value_no_newline. unfold event_value. apply integral_obj.
  pose proof (integral_member false) as Hm. cbn [omitempty] in Hm.
  repeat apply Forall_app_2; try apply integral_member; try apply Hm; try apply integral_strs; try exact I.
  destruct (evServers e); [apply integral_strs|exact I].
Qed.

(** ** What the file holds *)

Definition no_fault (tr : list event) : bool := forallb (fun ev => negb (is_fault ev)) tr.

(** Appending the lines of events to a file of whole lines. *)
Lemma split_lines es : forall (ls : list (list ascii)) b,
  split_on (fun c => c =c NL) b = ls ++ [[]] ->
  split_on (fun c => c =c NL) (b ++ piece_bytes (map whole es))
  = ls ++ map (fun e => default [] (Marshal e)) es ++ [[]].
Proof.
  induction es as [|e es IH]; intros ls b Hb; cbn [map].
  - unfold piece_bytes. cbn. by rewrite app_nil_r.
  - change (piece_bytes (whole e :: map whole es)) with (event_line e ++ piece_bytes (map whole es)).
    rewrite app_assoc. unfold event_line.
    rewrite (IH (ls ++ [default [] (Marshal e)])) by (apply split_line; [done|apply event_no_newline]).
    by rewrite <- app_assoc.
Qed.

(** C35: Whatever calls of Write run at once, however their writes are cut into pieces,
    fail or miss their fsync, and wherever the machine crashes and the log is opened
    again: the file is what it held plus pieces of lines, at most one for each call
    and none inside another; every event whose Write returned nil is there whole, in
    the order they returned.  With no fault and no call under way the file's lines
    are exactly the JSON of these events; each reads back as its event. *)
Theorem acknowledged_is_durable (old : list ascii) (tr : list event) (s : AuditLog)
    (Hrun : run (OpenAuditLog old) tr = Some s) :
  (exists ps, data s = old ++ piece_bytes ps /\ map whole (acked s) `sublist_of` ps
     /\ Forall piece_ok ps /\ map fst ps ⊆+ begun tr)
  /\ (forall ls, no_fault tr = true -> holder s = None ->
        split_on (fun c => c =c NL) old = ls ++ [[]] ->
        split_on (fun c => c =c NL) (data s)
        = ls ++ map (fun e => default [] (Marshal e)) (acked s) ++ [[]])
  /\ (forall e, In e (acked s) -> utf8_event e ->
        exists ts, time_value (evTS e) = Some ts
          /\ only_value (default [] (Marshal e)) = Some (event_value ts e)).
Proof.
  pose proof (inv_run old tr true [] _ _ (Inv_open old) Hrun) as (ps1 & ps2 & [H1 H2 H3 H4 H5 H6 H7]).
  split; [|split].
  - exists (ps1 ++ ps2). split; [done|]. split; [by apply sublist_inserts_r|]. split; [done|].
    etrans; [|exact H7]. by apply submseteq_inserts_l.
  - intros ls Hf Hh Ho. unfold lock_inv in H6. rewrite Hh in H6. rewrite H1, H6 by done. by apply split_lines.
  - intros e He Hu. apply event_reads_back; [done|].
    apply (marshalled_run tr (OpenAuditLog old)) in Hrun as [_ Ha]; [|by split].
    rewrite Forall_forall in Ha. by apply Ha, list_elem_of_In.
Qed.

Definition sample_event (rid : string) (cmds : list string) : AuditEvent :=
  mkEvent 1709164800120000000 rid "approved" cmds None "kk" "human".

Definition two_calls : list event :=
  let a := sample_event "a" ["ls"] in
  let b := sample_event "b" [String NL "rm"] in
  [Begin 1 a; Begin 2 b; Acquire 2; Chunk 2 7; Chunk 2 (List.length (event_line b) - 7);
   Sync 2 true; Acquire 1; Chunk 1 (List.length (event_line a)); Sync 1 true].

Lemma acknowledged_is_durable_witness :
  exists s, run (OpenAuditLog []) two_calls = Some s
    /\ split_on (fun c => c =c NL) (data s)
       = map (fun e => default [] (Marshal e)) [sample_event "b" [String NL "rm"]; sample_event "a" ["ls"]] ++ [[]].
Proof.
  destruct (run (OpenAuditLog []) two_calls) as [s|] eqn:E; [|vm_compute in E; discriminate].
  exists s. split; [reflexivity|].
  rewrite (proj1 (proj2 (acknowledged_is_durable [] two_calls s E)) [] eq_refl);
    vm_compute in E; injection E as <-; reflexivity.
Defined.

(** ** What it does not hold

    A write that stops half-way leaves a tail without a newline, and the next event,
    though acknowledged, shares its line: neither reads back. *)
Example torn_write_spoils_next :
  let a := sample_event "a" ["ls"] in
  let b := sample_event "b" ["df"] in
  exists s line, run (OpenAuditLog [])
      [Begin 1 a; Acquire 1; Chunk 1 20; WriteError 1;
       Begin 2 b; Acquire 2; Chunk 2 (List.length (event_line b)); Sync 2 true] = Some s
    /\ acked s = [b] /\ split_on (fun c => c =c NL) (data s) = [line; []] /\ only_value line = None.
Proof.
  eexists _, _. split; [vm_compute; reflexivity|]. split; [reflexivity|].
  split; [vm_compute; reflexivity|]. vm_compute. reflexivity.
Qed.

(** An fsync that fails reports a row as not written that is in the file. *)
Example unsynced_row_is_there :
  let a := sample_event "a" ["ls"] in
  exists s, run (OpenAuditLog [])
      [Begin 1 a; Acquire 1; Chunk 1 (List.length (event_line a)); Sync 1 false] = Some s
    /\ calls s !! 1 = Some (a, Returned (Some SyncFailed)) /\ data s = event_line a.
Proof. eexists. split; [vm_compute; reflexivity|]. split; vm_compute; reflexivity. Qed.

(** The line of an event is as long as its commands: no bound of a pipe holds it. *)
Example lines_outgrow_pipe_buf :
  4096 < List.length (event_line (sample_event "a" [String.concat "" (repeat "0123456789abcdef" 300)])).
Proof. apply Nat.ltb_lt. vm_compute. reflexivity. Qed.
