(* ===== verification/SignerTelegram.v ===== *)
(** * The Telegram approver (src/signer/backend/telegram.go)

    The text of an approval message, the decoding of a tap, and the backend as a
    transition system.  Requests run in the goroutines of their callers, updates
    in the one polling goroutine, and each request has a goroutine of its own that
    waits for its timer; they meet in the map of pending requests.  A step is what
    one of them does between two points where another may run: a request first
    sends its message and later stores its entry; a tap first looks its entry up
    and later resolves it; the body of an entry's [once] is one step.

    The bot library and the explainer are given by what they answer.  Times are
    nanoseconds since the epoch. *)

From S2P Require Import Prelude Json Sigwire RedactScanner RedactWriter SignerDaemon GoTime.

Module Telegram.
Import Sigwire Daemon GoTime.

(** GrantApprovalRequest, and the one handleRequestGrant builds. *)
Record GrantApprovalRequest := mkGrantApproval {
  gaID : string; gaAlias : string; gaScope : string; gaCommands : list string; gaDuration : Z
}.

Definition grant_approval_request (req : grantRequest) : GrantApprovalRequest :=
  mkGrantApproval (gID req) (gAlias req) (gScope req) (gCommands req) (gDurationSec req * Second).

Definition newline : string := String NL "".

(** ** The explainer *)

(** An error: the two context errors it may wrap, and its text. *)
Record error := mkError { is_deadline : bool; is_canceled : bool; text : string }.

(** What Explain does: it returns, or it panics. *)
Inductive Explained :=
  | Returns (lines : list string) (err : option error)
  | Panics.

(** runExplainer; the last component is the panic it counted. *)
Definition runExplainer (configured : bool) (Explain : list string -> Explained)
    (cmds : list CommandReq) : list string * option error * nat :=
  if negb configured || (List.length cmds =? 0) then ([], None, 0)
  else match Explain (map crCmd cmds) with
       | Returns lines err => (lines, err, 0)
       | Panics => ([], Some (mkError false false "explainer panic"), 1)
       end.

(** sanitiseExplainerErr *)
Definition sanitiseExplainerErr (err : option error) : string :=
  match err with
  | None => "unknown"
  | Some err =>
      if is_deadline err then "timeout"
      else if is_canceled err then "canceled"
      else if existsb (GoStr.Contains (text err)) ["http://"; "https://"; "Bearer "]
      then "upstream error"
      else if GoStr.longer (text err) 80 then GoStr.take 80 (text err) +:+ "…"
      else text err
  end.

(** ** The messages *)

(** requestHasReveal *)
Definition requestHasReveal (req : ApprovalRequest) : bool := existsb crReveal (arCommands req).

Section Messages.
Context `{Hmac}.
Variables (salt : list ascii) (rules : list Scanner.Rule).

(** redactForDisplay *)
Definition redactForDisplay (cmd : string) : string :=
  let '(red, ok) := Writer.RedactString cmd salt rules in
  if negb ok then cmd else red.

(** The reasons of the reveals. *)
Definition reason_lines (cmds : list CommandReq) : string :=
  String.concat ""
    (map (fun c => if crReveal c && negb (crReason c =s "")
                   then "Reason: " +:+ crReason c +:+ newline else "") cmds).

(** The lines of the command at index [i]. *)
Definition command_line (i : nat) (cmd : string) : string :=
  itoa (Z.of_nat (i + 1)) +:+ ". " +:+ redactForDisplay cmd +:+ newline.

Definition explanation_line (line : string) : string :=
  if line =s "" then "   → (no explanation)" +:+ newline else "   → " +:+ line +:+ newline.

Fixpoint command_lines (i : nat) (cmds : list CommandReq) (explanations : option (list string))
    : string :=
  match cmds with
  | [] => ""
  | c :: cmds =>
      command_line i (crCmd c)
      +:+ match explanations with
          | Some (line :: lines) => explanation_line line +:+ command_lines (S i) cmds (Some lines)
          | _ => command_lines (S i) cmds explanations
          end
  end.

(** formatApprovalMessage *)
Definition formatApprovalMessage (req : ApprovalRequest) (timeout : Z) (explanations : list string)
    (explainErr : option error) : string :=
  let cmds := arCommands req in
  let server := match cmds with c :: _ => crServer c | [] => "" end in
  let reveal := requestHasReveal req in
  let renderExplanations :=
    match explainErr with
    | None => List.length explanations =? List.length cmds
    | Some _ => false
    end in
  (if reveal
   then "⚠️ SECRET-REVEAL — output will NOT be redacted; raw secret values go to the agent, the AI provider, and this chat."
        +:+ newline +:+ newline
   else "")
  +:+ (if reveal then "🔓 SSHGate SECRET-REVEAL" else "🔐 SSHGate approval")
  +:+ (if negb (server =s "") then " — " +:+ server else "")
  +:+ newline +:+ newline
  +:+ (if reveal then reason_lines cmds +:+ newline else "")
  +:+ itoa (Z.of_nat (List.length cmds)) +:+ " command"
  +:+ (if negb (List.length cmds =? 1) then "s" else "")
  +:+ " queued:" +:+ newline
  +:+ command_lines 0 cmds (if renderExplanations then Some explanations else None)
  +:+ newline
  +:+ (match explainErr with
       | Some _ => "(no explanations: " +:+ sanitiseExplainerErr explainErr +:+ ")" +:+ newline
       | None => ""
       end)
  +:+ "Request ID: " +:+ arID req +:+ newline
  +:+ "Expires in " +:+ DurationString timeout +:+ newline.

(** formatGrantApprovalMessage, at the time [now]. *)
Definition formatGrantApprovalMessage (now : Z) (req : GrantApprovalRequest) (timeout : Z) : string :=
  "⚠️ STANDING GRANT — approving this auto-signs the commands below for the whole window WITHOUT further taps."
  +:+ newline +:+ newline
  +:+ "🟠 SSHGate STANDING GRANT — " +:+ gaAlias req +:+ newline +:+ newline
  +:+ (if gaScope req =s "all" then "Scope: ALL commands on " +:+ gaAlias req +:+ newline
       else if gaScope req =s "commands" then
         "Scope: ONLY these exact commands:" +:+ newline
         +:+ String.concat "" (imap (fun i c => command_line i c) (gaCommands req))
       else "Scope: " +:+ gaScope req +:+ newline)
  +:+ "Duration: " +:+ DurationString (gaDuration req) +:+ newline
  +:+ "Expires at: " +:+ RFC3339 (now + gaDuration req) +:+ newline +:+ newline
  +:+ "Request ID: " +:+ gaID req +:+ newline
  +:+ "Approval expires in " +:+ DurationString timeout +:+ newline.

End Messages.

(** outcomeMark *)
Definition outcomeMark (s : ResultStatus) : string :=
  match s with
  | StatusApproved => "✓"
  | StatusDenied => "✗"
  | StatusTimeout | StatusOther _ => "•"
  end.

(** maskUserID *)
Definition stars (n : nat) : string := string_of_list_ascii (repeat "*"%char n).

Definition maskUserID (id : Z) : string :=
  let s := itoa id in
  let n := String.length s in
  if n <=? 4 then stars n
  else GoStr.take 2 s +:+ stars (n - 4) +:+ GoStr.drop (n - 2) s.

(** ** Updates *)

Record User := mkUser { userID : Z; UserName : string }.

(** CallbackQuery: a tap; [cbMessage] is the text of the message it is on. *)
Record CallbackQuery := mkCallback {
  cbID : string; cbFrom : option User; cbMessage : option string; cbData : string
}.

(** Message: its sender, its chat, and its command when it is one. *)
Record IncomingMessage := mkIncoming {
  mFrom : option User; mChat : option Z; mCommand : option string
}.

Record Update := mkUpdate {
  UpdateID : Z; uCallback : option CallbackQuery; uMessage : option IncomingMessage
}.

Inductive Action := Approve | Deny.

Definition action_name (a : Action) : string :=
  match a with Approve => "approve" | Deny => "deny" end.

(** parseCallbackData *)
Definition parseCallbackData (data : string) : option (Action * string) :=
  match GoStr.IndexByte data ":" with
  | None | Some 0 => None
  | Some i =>
      let action := GoStr.take i data in
      let reqID := GoStr.drop (i + 1) data in
      if reqID =s "" then None
      else if action =s "approve" then Some (Approve, reqID)
      else if action =s "deny" then Some (Deny, reqID)
      else None
  end.

(** callbackApprover *)
Definition callbackApprover (cb : CallbackQuery) : string :=
  match cbFrom cb with
  | None => ""
  | Some u => if negb (UserName u =s "") then "@" +:+ UserName u else "id:" +:+ itoa (userID u)
  end.

(** Who a callback or a message is from. *)
Definition from_id (u : option User) (allowed : Z) : bool :=
  match u with
  | None => false
  | Some u => (userID u =? allowed)%Z
  end.

(** ** The chat store

    What the backend needs of a ChatStore: loading answers an error, no chat, or
    the chat last saved; a failing save changes nothing.  [faults] says which
    operations of the file system fail. *)
Class ChatStore := {
  store : Type;
  faults : Type;
  Load : faults -> store -> option (option Z);
  Save : faults -> Z -> store -> store * bool
}.

Class ChatStoreLaws (C : ChatStore) := {
  save_load f g c s s' :
    Save f c s = (s', true) -> forall r, Load g s' = Some r -> r = Some c;
  save_fail f c s s' : Save f c s = (s', false) -> s' = s;
  load_faults f g s r r' : Load f s = Some r -> Load g s = Some r' -> r = r'
}.

(** MemChatStore: chatID, once there is one. *)
Definition MemChatStore : ChatStore := {|
  store := option Z;
  faults := unit;
  Load := fun _ m => Some m;
  Save := fun _ chatID _ => (Some chatID, true)
|}.
#[export] Existing Instance MemChatStore.

(** ** The backend *)

(** What a goroutine asks the backend for: Request or RequestGrant. *)
Inductive Ask :=
  | AskSign (req : ApprovalRequest)
  | AskGrant (req : GrantApprovalRequest).

Definition ask_id (a : Ask) : string :=
  match a with AskSign req => arID req | AskGrant req => gaID req end.

(** sendMessage with its inline keyboard (label and callback data of a button),
    editMessageText, answerCallbackQuery. *)
Inductive Outgoing :=
  | SendMessage (chat : Z) (body : string) (buttons : list (string * string))
  | EditMessage (chat message : Z) (body : string)
  | AnswerCallback (id body : string) (alert : bool).

(** pendingState, with the deadline of its watcher; [ch] is the buffered channel,
    full once [once] has run. *)
Record pendingState := mkPending {
  ch : option Result;
  chatID : Z;
  messageID : Z;
  ask : Ask;
  deadline : Z
}.

Section Backend.
Context `{Hmac} `{ChatStore}.

(** The configuration of a TelegramBackend. *)
Record Options := mkOptions {
  allowedUserID : Z;
  reqTimeout : Z;
  Salt : list ascii;
  Rules : list Scanner.Rule;
  Explainer : bool
}.

(** The backend: its chat store; the entries made so far, which the map of
    pending requests refers to by index; the requests whose message is sent and
    whose entry is not yet stored; the tap that found its entry and has not yet
    resolved it; the calls made to the bot's API; the offset, the backoff, the
    updates fetched and not yet dispatched, and the panics of the polling goroutine;
    the clock. *)
Record State := mkState {
  chat : store;
  entries : list pendingState;
  pending : gmap string nat;
  sending : list (Ask * Z * Z);
  tapped : option (CallbackQuery * Action * string * nat);
  out : list Outgoing;
  offset : Z;
  backoff : Z;
  batch : list Update;
  panicsTotal : nat;
  clock : Z
}.

Definition minBackoff : Z := 100 * Millisecond.
Definition backoffCap : Z := 30 * Second.

Definition initial (c : store) (now : Z) : State := mkState c [] ∅ [] None [] 0 minBackoff [] 0 now.

Definition set_chat c (s : State) : State :=
  mkState c (entries s) (pending s) (sending s) (tapped s) (out s) (offset s)
    (backoff s) (batch s) (panicsTotal s) (clock s).
Definition set_sending l (s : State) : State :=
  mkState (chat s) (entries s) (pending s) l (tapped s) (out s) (offset s)
    (backoff s) (batch s) (panicsTotal s) (clock s).
Definition set_tapped t (s : State) : State :=
  mkState (chat s) (entries s) (pending s) (sending s) t (out s) (offset s)
    (backoff s) (batch s) (panicsTotal s) (clock s).
Definition set_entries l p (s : State) : State :=
  mkState (chat s) l p (sending s) (tapped s) (out s) (offset s)
    (backoff s) (batch s) (panicsTotal s) (clock s).
Definition emit o (s : State) : State :=
  mkState (chat s) (entries s) (pending s) (sending s) (tapped s) (out s ++ [o]) (offset s)
    (backoff s) (batch s) (panicsTotal s) (clock s).
Definition set_poll off b us (s : State) : State :=
  mkState (chat s) (entries s) (pending s) (sending s) (tapped s) (out s) off
    b us (panicsTotal s) (clock s).
Definition panicked n (s : State) : State :=
  mkState (chat s) (entries s) (pending s) (sending s) (tapped s) (out s) (offset s)
    (backoff s) (batch s) (panicsTotal s + n) (clock s).
Definition set_clock t (s : State) : State :=
  mkState (chat s) (entries s) (pending s) (sending s) (tapped s) (out s) (offset s)
    (backoff s) (batch s) (panicsTotal s) t.

Variable cfg : Options.

(** The text of what is asked, and the panic of the explainer. *)
Definition approval_text (Explain : list string -> Explained) (now : Z) (a : Ask) : string * nat :=
  match a with
  | AskSign req =>
      let '(lines, err, n) := runExplainer (Explainer cfg) Explain (arCommands req) in
      (formatApprovalMessage (Salt cfg) (Rules cfg) req (reqTimeout cfg) lines err, n)
  | AskGrant req =>
      (formatGrantApprovalMessage (Salt cfg) (Rules cfg) now req (reqTimeout cfg), 0)
  end.

Definition approveLabel (a : Ask) : string :=
  match a with
  | AskSign req => if requestHasReveal req then "✓ Approve SECRET-REVEAL" else "✓ Approve all"
  | AskGrant _ => "✓ Approve STANDING GRANT"
  end.

Definition buttons (a : Ask) : list (string * string) :=
  [(approveLabel a, "approve:" +:+ ask_id a); ("✗ Deny", "deny:" +:+ ask_id a)].

(** Request and RequestGrant up to the store: [sent] is the id of the message,
    or [None] when Send fails.  They return an error when the second component
    is false. *)
Definition request_send (f : faults) (Explain : list string -> Explained) (a : Ask)
    (sent : option Z) (s : State) : State * bool :=
  match Load f (chat s) with
  | None | Some None => (s, false)
  | Some (Some chatID) =>
      let '(body, n) := approval_text Explain (clock s) a in
      let s := emit (SendMessage chatID body (buttons a)) (panicked n s) in
      match sent with
      | None => (s, false)
      | Some messageID => (set_sending (sending s ++ [(a, chatID, messageID)]) s, true)
      end
  end.

(** Request and RequestGrant from the store on. *)
Definition request_store (a : Ask) (chatID messageID : Z) (s : State) : State :=
  let ps := mkPending None chatID messageID a (clock s + reqTimeout cfg)%Z in
  set_entries (entries s ++ [ps]) (<[ask_id a := List.length (entries s)]> (pending s)) s.

(** The body of [once]: the result goes on the channel, the entry leaves the map. *)
Definition set_result (r : Result) (ps : pendingState) : pendingState :=
  mkPending (Some r) (chatID ps) (messageID ps) (ask ps) (deadline ps).

(** resolve; whether [once] ran its body is the second component. *)
Definition resolve (reqID : string) (h : nat) (r : Result) (s : State) : State * bool :=
  match entries s !! h with
  | Some ps =>
      match ch ps with
      | None => (set_entries (<[h := set_result r ps]> (entries s)) (delete reqID (pending s)) s, true)
      | Some _ => (s, false)
      end
  | None => (s, false)
  end.

(** timeout *)
Definition timeout (h : nat) (s : State) : State :=
  match entries s !! h with
  | Some ps =>
      let '(s, resolved) := resolve (ask_id (ask ps)) h (mkRes StatusTimeout "" []) s in
      if negb resolved then s
      else emit (EditMessage (chatID ps) (messageID ps)
                   ("⏰ Expired (no response in " +:+ DurationString (reqTimeout cfg) +:+ ")")) s
  | None => s
  end.

(** handleStart, on a message with a chat. *)
Definition handleStart (f : faults) (m : IncomingMessage) (chat_ : Z) (s : State) : State :=
  if negb (from_id (mFrom m) (allowedUserID cfg)) then
    emit (SendMessage chat_ ("this bot only serves " +:+ maskUserID (allowedUserID cfg)
                             +:+ " — message ignored") []) s
  else
    emit (SendMessage chat_ "Linked — SSHGate approvals will now reach you here." [])
      (set_chat (Save f chat_ (chat s)).1 s).

(** handleCallback up to the entry it finds. *)
Definition handleCallback (cb : CallbackQuery) (s : State) : State :=
  if negb (from_id (cbFrom cb) (allowedUserID cfg)) then
    emit (AnswerCallback (cbID cb) "not authorized" true) s
  else match parseCallbackData (cbData cb) with
       | None => emit (AnswerCallback (cbID cb) "invalid request" false) s
       | Some (action, reqID) =>
           match pending s !! reqID with
           | None => emit (AnswerCallback (cbID cb) "expired or already resolved" false) s
           | Some h => set_tapped (Some (cb, action, reqID, h)) s
           end
       end.

Definition verdict (a : Action) : ResultStatus :=
  match a with Approve => StatusApproved | Deny => StatusDenied end.

Definition verbPast (a : Action) : string :=
  match a with Approve => "Approved" | Deny => "Denied" end.

(** handleCallback from the entry on. *)
Definition finishCallback (cb : CallbackQuery) (action : Action) (reqID : string) (h : nat)
    (s : State) : State :=
  let approver := callbackApprover cb in
  let s := (resolve reqID h (mkRes (verdict action) approver []) (set_tapped None s)).1 in
  match entries s !! h with
  | None => s
  | Some ps =>
      let footer := newline +:+ newline +:+ outcomeMark (verdict action) +:+ " " +:+ verbPast action
                    +:+ " by " +:+ approver +:+ " at " +:+ RFC3339 (clock s) in
      emit (EditMessage (chatID ps) (messageID ps)
              ((match cbMessage cb with Some body => body | None => "" end) +:+ footer))
        (emit (AnswerCallback (cbID cb) (GoStr.ToLower (verbPast action)) false) s)
  end.

(** dispatch; a message without a chat makes handleStart panic. *)
Definition dispatch (f : faults) (u : Update) (s : State) : State :=
  match uCallback u, uMessage u with
  | Some cb, _ => handleCallback cb s
  | None, Some m =>
      match mCommand m with
      | Some c =>
          if c =s "start" then
            match mChat m with
            | Some chat_ => handleStart f m chat_ s
            | None => panicked 1 s
            end
          else s
      | None => s
      end
  | None, None => s
  end.

(** pollLoop after a fetch, on the next update of the batch [u :: us], and after a
    fetch that failed, or panicked and was recovered. *)
Definition poll_fetched (us : list Update) (s : State) : State := set_poll (offset s) minBackoff us s.

Definition poll_update (f : faults) (u : Update) (us : list Update) (s : State) : State :=
  dispatch f u
    (set_poll (if (offset s <=? UpdateID u)%Z then UpdateID u + 1 else offset s)%Z (backoff s) us s).

Definition poll_failed (panic : bool) (s : State) : State :=
  let b := (backoff s * 2)%Z in
  panicked (if panic then 1 else 0)
    (set_poll (offset s) (if (backoffCap <? b)%Z then backoffCap else b) (batch s) s).

(** ** The transition system

    A timer fires at its deadline or later; no timer is later than [latency] past
    its deadline, which bounds how far the clock may run while a request waits. *)
Variable latency : Z.

Inductive event :=
  | Send (f : faults) (Explain : list string -> Explained) (a : Ask) (sent : option Z)
  | Store (a : Ask) (chat_ message : Z)
  | Fetched (us : list Update)
  | FetchFailed (panic : bool)
  | Poll (f : faults) (u : Update)
  | Tap (cb : CallbackQuery) (action : Action) (reqID : string) (h : nat)
  | Timer (h : nat)
  | CtxDone (h : nat)
  | Tick (t : Z).

Definition waiting (ps : pendingState) : Prop := ch ps = None.

Inductive step : State -> event -> State -> Prop :=
  | step_send f x a sent s : step s (Send f x a sent) (request_send f x a sent s).1
  | step_store a c m l1 l2 s :
      sending s = l1 ++ (a, c, m) :: l2 ->
      step s (Store a c m) (request_store a c m (set_sending (l1 ++ l2) s))
  | step_fetched us s :
      tapped s = None -> batch s = [] -> step s (Fetched us) (poll_fetched us s)
  | step_fetch_failed panic s :
      tapped s = None -> batch s = [] -> step s (FetchFailed panic) (poll_failed panic s)
  | step_poll f u us s :
      tapped s = None -> batch s = u :: us -> step s (Poll f u) (poll_update f u us s)
  | step_tap cb a reqID h s :
      tapped s = Some (cb, a, reqID, h) ->
      step s (Tap cb a reqID h) (finishCallback cb a reqID h s)
  | step_timer h ps s :
      entries s !! h = Some ps -> (deadline ps <= clock s)%Z -> step s (Timer h) (timeout h s)
  | step_ctx h s : step s (CtxDone h) (timeout h s)
  | step_tick t s :
      (clock s <= t)%Z ->
      (forall h ps, entries s !! h = Some ps -> waiting ps -> (t <= deadline ps + latency)%Z) ->
      step s (Tick t) (set_clock t s).

Inductive reach (s0 : State) : list event -> State -> Prop :=
  | reach_init : reach s0 [] s0
  | reach_step tr s ev s' : reach s0 tr s -> step s ev s' -> reach s0 (tr ++ [ev]) s'.

End Backend.

End Telegram.
