(* ===== verification/SignerTelegramProps.v ===== *)
(** * What the Telegram approver guarantees

    Where results come from, that there is one per request and that it comes in
    time, what the message shows, and what a reused request id does. *)

From S2P Require Import Prelude Json JsonProps Sigwire RedactScanner RedactWriter SignerDaemon GoTime SignerTelegram.
Import Sigwire Daemon GoTime Telegram.

(** ** Data of a button *)

Lemma parse_button (a : Action) (id : string) :
  id <> "" -> parseCallbackData (action_name a +:+ ":" +:+ id) = Some (a, id).
Proof.
  intros Hid. assert ((id =s "") = false) as E by by apply String.eqb_neq.
  unfold parseCallbackData. destruct a;
    lazy beta iota zeta delta -[String.eqb GoStr.take] ; cbn [GoStr.take]; rewrite E; done.
Qed.

Section Backend.
Context `{Hmac} `{ChatStore}.
Variables (cfg : Options) (latency : Z).
#[local] Abbreviation step := (step cfg latency).
#[local] Abbreviation reach := (reach cfg latency).

(** ** What one step does to the entries *)

(** An update the allowed user sent. *)
Definition authorised_tap (cb : CallbackQuery) (a : Action) (id : string) : Prop :=
  from_id (cbFrom cb) (allowedUserID cfg) = true /\ parseCallbackData (cbData cb) = Some (a, id).

(** Why an event resolves entry [h], asked under [id], with [r]. *)
Inductive decides (h : nat) (id : string) : event -> Result -> Prop :=
  | by_tap cb a : decides h id (Tap cb a id h) (mkRes (verdict a) (callbackApprover cb) [])
  | by_timer : decides h id (Timer h) (mkRes StatusTimeout "" [])
  | by_ctx : decides h id (CtxDone h) (mkRes StatusTimeout "" []).

Inductive changes (s : State) (ev : event) : list pendingState -> gmap string nat -> Prop :=
  | unchanged : changes s ev (entries s) (pending s)
  | stored a c m :
      In (a, c, m) (sending s) ->
      changes s ev (entries s ++ [mkPending None c m a (clock s + reqTimeout cfg)%Z])
        (<[ask_id a := List.length (entries s)]> (pending s))
  | decided h ps r :
      entries s !! h = Some ps -> waiting ps -> decides h (ask_id (ask ps)) ev r ->
      changes s ev (<[h := set_result r ps]> (entries s)) (delete (ask_id (ask ps)) (pending s)).

Lemma unchanged_eq s ev es p : es = entries s -> p = pending s -> changes s ev es p.
Proof. intros -> ->. constructor. Qed.

Definition tapped_ok (s : State) : Prop :=
  forall cb a id h, tapped s = Some (cb, a, id, h) ->
    authorised_tap cb a id /\ exists ps, entries s !! h = Some ps /\ ask_id (ask ps) = id.

Lemma resolve_changes s s1 ev h ps r :
  entries s1 = entries s -> pending s1 = pending s ->
  entries s !! h = Some ps -> decides h (ask_id (ask ps)) ev r ->
  let s' := (resolve (ask_id (ask ps)) h r s1).1 in changes s ev (entries s') (pending s').
Proof.
  intros He Hp Hh Hd. unfold resolve. rewrite He, Hh.
  destruct (ch ps) eqn:Ec; cbn; rewrite ?He, ?Hp; constructor; done.
Qed.

Lemma timeout_changes s ev h :
  (forall id, decides h id ev (mkRes StatusTimeout "" [])) ->
  changes s ev (entries (timeout cfg h s)) (pending (timeout cfg h s)).
Proof.
  intros Hd. unfold timeout. destruct (entries s !! h) as [ps|] eqn:Hh; [|constructor].
  pose proof (resolve_changes s s ev h ps _ eq_refl eq_refl Hh (Hd _)) as Hc.
  destruct (resolve _ _ _ _) as [s' b]. by destruct b.
Qed.

Lemma finishCallback_changes s cb a id h ps :
  entries s !! h = Some ps -> ask_id (ask ps) = id ->
  let s' := finishCallback cb a id h s in changes s (Tap cb a id h) (entries s') (pending s').
Proof.
  intros Hh <-. unfold finishCallback.
  pose proof (resolve_changes s (set_tapped None s) _ h ps _ eq_refl eq_refl Hh (by_tap _ _ cb a)) as Hc.
  destruct (resolve _ _ _ _) as [s' b]. cbv zeta in *. cbn [fst] in *. by destruct (entries s' !! h).
Qed.

Lemma handleCallback_same cb s :
  entries (handleCallback cfg cb s) = entries s /\ pending (handleCallback cfg cb s) = pending s.
Proof. unfold handleCallback. repeat split_match; done. Qed.

Lemma dispatch_same f u s :
  entries (dispatch cfg f u s) = entries s /\ pending (dispatch cfg f u s) = pending s.
Proof.
  unfold dispatch, handleStart. repeat split_match; try done; apply handleCallback_same.
Qed.

Lemma step_changes s ev s' :
  tapped_ok s -> step s ev s' -> changes s ev (entries s') (pending s').
Proof.
  intros Ht Hs. destruct Hs as
    [f x a sent s|a c m l1 l2 s Hl| | |f u us s ? ?|cb a id h s Htap|h ps s ? ?| |];
    try (by apply unchanged_eq).
  - unfold request_send. repeat split_match; by apply unchanged_eq.
  - apply (stored s _ a c m). rewrite Hl. apply in_elt.
  - unfold poll_update. destruct (dispatch_same f u (set_poll (if (offset s <=? UpdateID u)%Z
      then (UpdateID u + 1)%Z else offset s) (backoff s) us s)) as [-> ->]. by apply unchanged_eq.
  - destruct (Ht _ _ _ _ Htap) as (_ & ps & Hh & Hid). by apply (finishCallback_changes s cb a id h ps).
  - apply timeout_changes. constructor.
  - apply timeout_changes. constructor.
Qed.

(** Entries keep what they are for, and a result once they have one. *)
Lemma changes_entry s ev es p h ps :
  changes s ev es p -> entries s !! h = Some ps ->
  exists ps', es !! h = Some ps' /\ ask ps' = ask ps /\ chatID ps' = chatID ps
    /\ deadline ps' = deadline ps /\ (waiting ps \/ ps' = ps).
Proof.
  intros Hc Hh. destruct Hc as [|a c m _|h' ps' r Hh' Hw _].
  - exists ps. split_and!; auto.
  - exists ps. rewrite lookup_app_l by (by eapply lookup_lt_Some). split_and!; auto.
  - destruct (decide (h = h')) as [->|Hne].
    + rewrite list_lookup_insert_eq by (by eapply lookup_lt_Some).
      exists (set_result r ps'). rewrite Hh in Hh'. injection Hh' as ->. split_and!; auto.
    + rewrite list_lookup_insert_ne by done. exists ps. split_and!; auto.
Qed.

(** Where an entry of the next state comes from. *)
Lemma changes_origin s ev es p h ps :
  changes s ev es p -> es !! h = Some ps ->
  entries s !! h = Some ps
  \/ (exists a c m, In (a, c, m) (sending s) /\ h = List.length (entries s)
        /\ ps = mkPending None c m a (clock s + reqTimeout cfg)%Z)
  \/ (exists ps0 r, entries s !! h = Some ps0 /\ waiting ps0 /\ ps = set_result r ps0
        /\ decides h (ask_id (ask ps0)) ev r).
Proof.
  intros Hc Hh. destruct Hc as [|a c m Hin|h' ps' r Hh' Hw Hd]; [by left| |].
  - apply lookup_app_Some in Hh as [?|[Hle Hh]]; [by left|right; left].
    apply list_lookup_singleton_Some in Hh as [Hz <-]. exists a, c, m. split_and!; [done|lia|done].
  - destruct (decide (h = h')) as [->|Hne].
    + rewrite list_lookup_insert_eq in Hh by (by eapply lookup_lt_Some). injection Hh as <-.
      right; right. by exists ps', r.
    + rewrite list_lookup_insert_ne in Hh by done. by left.
Qed.

(** ** The other parts of the state *)

Lemma step_out s ev s' : step s ev s' -> exists l, out s' = out s ++ l.
Proof.
  intros Hs. assert (forall l : list Outgoing, exists l', l = l ++ l') as Hnil
    by (intros l; exists []; by rewrite app_nil_r).
  destruct Hs; cbn [out set_sending set_tapped set_clock].
  - unfold request_send. repeat split_match; cbn; eauto.
  - cbn; eauto.
  - cbn; eauto.
  - cbn; eauto.
  - unfold poll_update, dispatch, handleCallback, handleStart. repeat split_match; cbn; eauto.
  - unfold finishCallback, resolve. repeat split_match; cbn in *; rewrite <- ?app_assoc; eauto.
  - unfold timeout, resolve. repeat split_match; cbn; eauto.
  - unfold timeout, resolve. repeat split_match; cbn; eauto.
  - eauto.
Qed.

Lemma step_tapped s ev s' :
  step s ev s' ->
  tapped s' = tapped s \/ tapped s' = None
  \/ exists f u cb a id h, ev = Poll f u /\ uCallback u = Some cb /\ authorised_tap cb a id
       /\ pending s !! id = Some h /\ tapped s' = Some (cb, a, id, h).
Proof.
  intros Hs. destruct Hs; try (by left).
  - left. unfold request_send. repeat split_match; done.
  - destruct (uCallback u) as [cb|] eqn:Eu; unfold poll_update, dispatch; rewrite Eu.
    + unfold handleCallback. destruct (from_id _ _) eqn:Ef; cbn [negb]; [|by left].
      destruct (parseCallbackData (cbData cb)) as [[a id]|] eqn:Ep; [|by left].
      destruct (pending _ !! id) as [h|] eqn:Eh; [|by left].
      right; right. exists f, u, cb, a, id, h. done.
    + left. unfold handleStart. repeat split_match; done.
  - right; left. unfold finishCallback, resolve. repeat split_match; done.
  - left. unfold timeout, resolve. repeat split_match; done.
  - left. unfold timeout, resolve. repeat split_match; done.
Qed.

(** The message of [a] went to [chat_]. *)
Definition posted (s : State) (a : Ask) (chat_ : Z) : Prop :=
  exists x now, In (SendMessage chat_ (approval_text cfg x now a).1 (buttons a)) (out s).

Lemma posted_mono s ev s' a c : step s ev s' -> posted s a c -> posted s' a c.
Proof.
  intros (l & Hl)%step_out (x & now & Hin). exists x, now. rewrite Hl. apply in_or_app. by left.
Qed.

Lemma step_sending s ev s' a c m :
  step s ev s' -> In (a, c, m) (sending s') -> In (a, c, m) (sending s) \/ posted s' a c.
Proof.
  intros Hs. destruct Hs as [f x a' sent s|a' c' m' l1 l2 s Hl| | |f u us s ? ?|cb a' id h s Htap|h ps s ? ?| |];
    cbn [sending set_sending set_clock poll_fetched poll_failed panicked set_poll set_tapped]; auto.
  - unfold request_send. destruct (Load f (chat s)) as [[c'|]|]; cbn; auto.
    destruct (approval_text _ _ _ _) as [body n] eqn:Et. destruct sent as [m'|]; cbn; auto.
    intros [?|[[= <- <- <-]|[]]]%in_app_or; [by left|right]. exists x, (clock s).
    cbn. rewrite Et. apply in_or_app. right. by left.
  - unfold request_store. cbn. rewrite Hl. intros [?|?]%in_app_or; left; apply in_or_app; [by left|].
    right. by right.
  - unfold poll_update, dispatch, handleCallback, handleStart. repeat split_match; cbn; auto.
  - unfold finishCallback, resolve. repeat split_match; cbn; auto.
  - unfold timeout, resolve. repeat split_match; cbn; auto.
  - unfold timeout, resolve. repeat split_match; cbn; auto.
Qed.

(** ** The history of an entry *)

Variables (c0 : store) (t0 : Z).
#[local] Abbreviation s0 := (initial c0 t0).

(** The allowed user tapped [a] on request [id] while entry [h] was waiting for it. *)
Definition polled (tr : list event) (cb : CallbackQuery) (a : Action) (id : string) (h : nat) : Prop :=
  exists tr1 f u tr2 s1, tr = tr1 ++ Poll f u :: tr2 /\ reach s0 tr1 s1
    /\ uCallback u = Some cb /\ authorised_tap cb a id /\ pending s1 !! id = Some h.

Lemma polled_mono tr ev cb a id h : polled tr cb a id h -> polled (tr ++ [ev]) cb a id h.
Proof.
  intros (tr1 & f & u & tr2 & s1 & -> & ?). exists tr1, f, u, (tr2 ++ [ev]), s1.
  by rewrite <- app_assoc.
Qed.

(** Why entry [h] has the result [r]. *)
Definition cause (tr : list event) (h : nat) (id : string) (r : Result) : Prop :=
  (exists cb a, polled tr cb a id h /\ In (Tap cb a id h) tr
     /\ r = mkRes (verdict a) (callbackApprover cb) [])
  \/ (r = mkRes StatusTimeout "" [] /\ (In (Timer h) tr \/ In (CtxDone h) tr)).

Record Inv (tr : list event) (s : State) : Prop := mkInv {
  inv_pending id h : pending s !! id = Some h ->
    exists ps, entries s !! h = Some ps /\ waiting ps /\ ask_id (ask ps) = id;
  inv_tapped : tapped_ok s;
  inv_polled cb a id h : tapped s = Some (cb, a, id, h) -> polled tr cb a id h;
  inv_sending a c m : In (a, c, m) (sending s) -> posted s a c;
  inv_posted h ps : entries s !! h = Some ps -> posted s (ask ps) (chatID ps);
  inv_result h ps r : entries s !! h = Some ps -> ch ps = Some r -> cause tr h (ask_id (ask ps)) r
}.

Lemma changes_pending s ev es p :
  changes s ev es p ->
  (forall id h, pending s !! id = Some h ->
     exists ps, entries s !! h = Some ps /\ waiting ps /\ ask_id (ask ps) = id) ->
  forall id h, p !! id = Some h -> exists ps, es !! h = Some ps /\ waiting ps /\ ask_id (ask ps) = id.
Proof.
  intros Hc Hp id h. destruct Hc as [|a c m _|h' ps' r Hh' Hw _]; [apply Hp| |].
  - intros [[<- <-]|[Hne Hi]]%lookup_insert_Some.
    + eexists. rewrite lookup_app_r, Nat.sub_diag by lia. done.
    + destruct (Hp _ _ Hi) as (ps & Hh & ? & ?). exists ps.
      by rewrite lookup_app_l by (by eapply lookup_lt_Some).
  - intros [Hne Hi]%lookup_delete_Some. destruct (Hp _ _ Hi) as (ps & Hh & ? & Hid).
    destruct (decide (h = h')) as [->|?]; [congruence|].
    exists ps. by rewrite list_lookup_insert_ne by done.
Qed.

Lemma cause_mono tr ev h id r : cause tr h id r -> cause (tr ++ [ev]) h id r.
Proof.
  intros [(cb & a & Hp & Hi & ->)|(-> & Hi)]; [left; exists cb, a|right].
  - split_and!; [by apply polled_mono|apply in_or_app; by left|done].
  - rewrite !in_app_iff. tauto.
Qed.

Lemma decides_cause tr s h id ev r :
  (forall cb a id' h', tapped s = Some (cb, a, id', h') -> polled tr cb a id' h') ->
  (forall s' cb a id' h', step s ev s' -> ev = Tap cb a id' h' -> tapped s = Some (cb, a, id', h')) ->
  forall s', step s ev s' -> decides h id ev r -> cause (tr ++ [ev]) h id r.
Proof.
  intros Hp Ht s' Hs Hd. destruct Hd as [cb a| |].
  - left. exists cb, a. split_and!; [|apply in_elt|done]. apply polled_mono, Hp. by eapply Ht.
  - right. split; [done|left]. apply in_elt.
  - right. split; [done|right]. apply in_elt.
Qed.

Lemma inv_step tr s ev s' : reach s0 tr s -> Inv tr s -> step s ev s' -> Inv (tr ++ [ev]) s'.
Proof.
  intros Hr [Ip It Ipo Is Ips Ir] Hs. pose proof (step_changes _ _ _ It Hs) as Hc. constructor.
  - by apply (changes_pending s ev).
  - intros cb a id h Ht. destruct (step_tapped _ _ _ Hs) as [E|[E|(f & u & cb' & a' & id' & h' & _ & _ & Ha & Hp & E)]];
      rewrite E in Ht; [|done|injection Ht as -> -> -> ->].
    + destruct (It _ _ _ _ Ht) as (Ha & ps & Hh & Hid). split; [done|].
      destruct (changes_entry _ _ _ _ _ _ Hc Hh) as (ps' & ? & Hask & _). exists ps'. by rewrite Hask.
    + split; [done|]. destruct (Ip _ _ Hp) as (ps & Hh & _ & Hid).
      destruct (changes_entry _ _ _ _ _ _ Hc Hh) as (ps' & ? & Hask & _). exists ps'. by rewrite Hask.
  - intros cb a id h Ht. destruct (step_tapped _ _ _ Hs) as [E|[E|(f & u & cb' & a' & id' & h' & -> & Hu & Ha & Hp & E)]];
      rewrite E in Ht; [|done|injection Ht as -> -> -> ->].
    + by apply polled_mono, Ipo.
    + exists tr, f, u, [], s. done.
  - intros a c m Hi. destruct (step_sending _ _ _ _ _ _ Hs Hi); [|done].
    eapply posted_mono; [done|by eapply Is].
  - intros h ps Hh. destruct (changes_origin _ _ _ _ _ _ Hc Hh) as [?|[(a & c & m & Hi & _ & ->)|(ps1 & r & ? & _ & -> & _)]];
      eapply posted_mono; try done; [by eapply Ips|by eapply Is|by eapply (Ips h ps1)].
  - intros h ps r Hh Hch. destruct (changes_origin _ _ _ _ _ _ Hc Hh) as [?|[(a & c & m & _ & _ & ->)|(ps1 & r' & ? & _ & -> & Hd)]];
      [by eapply cause_mono, Ir|done|]. injection Hch as ->. cbn [ask set_result].
    refine (decides_cause _ _ _ _ _ _ Ipo _ _ Hs Hd).
    intros s2 cb a id' h' Hs2 ->. by inversion Hs2.
Qed.

Lemma reach_inv tr s : reach s0 tr s -> Inv tr s.
Proof.
  induction 1 as [|tr s ev s' Hr IH Hs]; [|by eapply inv_step].
  by constructor.
Qed.

(** C17: A request is approved or denied only by a tap of the allowed user that
    carries its request id and was made while it waited, and every other result
    is the timeout its own watcher gave; the approver's chat was sent the message
    that shows the request, with buttons that carry its id. *)
Theorem results_have_causes (tr : list event) (s : State) (h : nat) (ps : pendingState) (r : Result)
    (Hr : reach s0 tr s) (Hh : entries s !! h = Some ps) (Hres : ch ps = Some r) :
  posted s (ask ps) (chatID ps)
  /\ ((exists tr1 f u tr2 s1 cb a ps1,
          tr = tr1 ++ Poll f u :: tr2 /\ reach s0 tr1 s1 /\ uCallback u = Some cb
          /\ from_id (cbFrom cb) (allowedUserID cfg) = true
          /\ parseCallbackData (cbData cb) = Some (a, ask_id (ask ps))
          /\ entries s1 !! h = Some ps1 /\ waiting ps1
          /\ r = mkRes (verdict a) (callbackApprover cb) [])
      \/ (r = mkRes StatusTimeout "" [] /\ (In (Timer h) tr \/ In (CtxDone h) tr))).
Proof.
  destruct (reach_inv _ _ Hr) as [_ _ _ _ Ip Ir]. split; [by eapply Ip|].
  destruct (Ir _ _ _ Hh Hres) as [(cb & a & (tr1 & f & u & tr2 & s1 & -> & Hr1 & Hu & [Hf Hd] & Hp) & _ & ->)|?];
    [left|by right].
  destruct (inv_pending _ _ (reach_inv _ _ Hr1) _ _ Hp) as (ps1 & ? & ? & _).
  by exists tr1, f, u, tr2, s1, cb, a, ps1.
Qed.

(** ** Time *)

Lemma changes_length s ev es p : changes s ev es p -> List.length (entries s) <= List.length es.
Proof. destruct 1; rewrite ?length_app, ?length_insert; cbn; lia. Qed.

Lemma resolve_clock id h r s : clock (resolve id h r s).1 = clock s.
Proof. unfold resolve. by repeat split_match. Qed.

Lemma timeout_clock h s : clock (timeout cfg h s) = clock s.
Proof.
  unfold timeout. destruct (entries s !! h) as [p|]; [|done].
  pose proof (resolve_clock (ask_id (ask p)) h (mkRes StatusTimeout "" []) s) as Hc.
  destruct (resolve _ _ _ _) as [s1 b]. by destruct b.
Qed.

Lemma step_clock s ev s' :
  step s ev s' ->
  clock s' = clock s
  \/ (clock s <= clock s')%Z /\ entries s' = entries s
     /\ forall h ps, entries s !! h = Some ps -> waiting ps -> (clock s' <= deadline ps + latency)%Z.
Proof.
  intros Hs. destruct Hs; try (by left).
  - left. unfold request_send. by repeat split_match.
  - left. unfold poll_update, dispatch, handleCallback, handleStart. by repeat split_match.
  - left. unfold finishCallback. cbv zeta. split_match; cbn; by rewrite resolve_clock.
  - left. apply timeout_clock.
  - left. apply timeout_clock.
  - right. by split_and!.
Qed.

Lemma in_time tr s :
  (0 <= reqTimeout cfg + latency)%Z -> reach s0 tr s ->
  forall h ps, entries s !! h = Some ps -> waiting ps -> (clock s <= deadline ps + latency)%Z.
Proof.
  intros Hl Hr. induction Hr as [|tr s ev s' Hr IH Hs]; intros h ps Hh Hw; [done|].
  pose proof (step_changes _ _ _ (inv_tapped _ _ (reach_inv _ _ Hr)) Hs) as Hc.
  destruct (step_clock _ _ _ Hs) as [->|(_ & He & Ht)]; [|rewrite He in Hh; by apply (Ht h)].
  destruct (changes_origin _ _ _ _ _ _ Hc Hh) as [?|[(a & c & m & _ & _ & ->)|(ps1 & r & _ & _ & -> & _)]];
    [by apply (IH h)|cbn; lia|done].
Qed.

Definition is_waiting (ps : pendingState) : bool := match ch ps with None => true | Some _ => false end.

Lemma is_waiting_iff ps : is_waiting ps = true <-> waiting ps.
Proof. unfold is_waiting, waiting. by destruct (ch ps). Qed.

(** How many requests wait. *)
Definition waiters (s : State) : nat := List.length (List.filter is_waiting (entries s)).

Lemma filter_insert_length (p : pendingState -> bool) l h x y :
  l !! h = Some x -> p x = true -> p y = false ->
  S (List.length (List.filter p (<[h := y]> l))) = List.length (List.filter p l).
Proof.
  revert h. induction l as [|z l IH]; intros [|h] Hh Hx Hy; try done.
  - injection Hh as ->. cbn. by rewrite Hx, Hy.
  - pose proof (IH h Hh Hx Hy). change (<[S h := y]> (z :: l)) with (z :: <[h := y]> l).
    cbn [List.filter]. destruct (p z); cbn [List.length]; lia.
Qed.

(** The waiting entry with the first deadline before [t], if there is one. *)
Lemma first_deadline (t : Z) (l : list pendingState) :
  (forall h ps, l !! h = Some ps -> is_waiting ps = true -> (t <= deadline ps)%Z)
  \/ exists h ps, l !! h = Some ps /\ is_waiting ps = true /\ (deadline ps < t)%Z
       /\ forall h' ps', l !! h' = Some ps' -> is_waiting ps' = true -> (deadline ps <= deadline ps')%Z.
Proof.
  induction l as [|x l IH]; [left; intros h ps Hh; by rewrite lookup_nil in Hh|].
  destruct (is_waiting x && (deadline x <? t)%Z) eqn:Ex; bool_hyps.
  - right. destruct IH as [IH|(h & ps & Hh & Hw & Ht & Hmin)].
    + exists 0, x. split_and!; try done. intros [|h'] ps' Hh' Hw'; cbn in Hh'; [by injection Hh' as ->|].
      specialize (IH _ _ Hh' Hw'). lia.
    + destruct (Z.le_gt_cases (deadline x) (deadline ps)).
      * exists 0, x. split_and!; try done. intros [|h'] ps' Hh' Hw'; cbn in Hh'; [by injection Hh' as ->|].
        specialize (Hmin _ _ Hh' Hw'). lia.
      * exists (S h), ps. split_and!; try done. intros [|h'] ps' Hh' Hw'; cbn in Hh';
          [injection Hh' as <-; lia|by eapply Hmin].
  - destruct IH as [IH|(h & ps & Hh & Hw & Ht & Hmin)]; [left|right].
    + intros [|h'] ps' Hh' Hw'; cbn in Hh'; [injection Hh' as <-|by eapply IH].
      destruct Ex as [E|E]; bool_hyps; [congruence|lia].
    + exists (S h), ps. split_and!; try done. intros [|h'] ps' Hh' Hw'; cbn in Hh';
        [injection Hh' as <-|by eapply Hmin].
      destruct Ex as [E|E]; bool_hyps; [congruence|lia].
Qed.

(** The events with which time passes: the clock, and timers that fire. *)
Definition by_time (ev : event) : bool :=
  match ev with Tick _ | Timer _ => true | _ => false end.

Lemma tick_reach tr s t :
  reach s0 tr s -> (clock s <= t)%Z ->
  (forall h ps, entries s !! h = Some ps -> waiting ps -> (t <= deadline ps + latency)%Z) ->
  reach s0 (tr ++ [Tick t]) (set_clock t s).
Proof. intros Hr Hc Hd. by eapply reach_step, step_tick. Qed.

(** Firing the timer of an entry whose deadline is [t]. *)
Lemma timer_reach tr s h ps :
  reach s0 tr s -> entries s !! h = Some ps -> waiting ps -> (deadline ps <= clock s)%Z ->
  exists s', reach s0 (tr ++ [Timer h]) s' /\ clock s' = clock s
    /\ entries s' = <[h := set_result (mkRes StatusTimeout "" []) ps]> (entries s)
    /\ S (waiters s') = waiters s.
Proof.
  intros Hr Hh Hw Hd. exists (timeout cfg h s). split_and!.
  - eapply reach_step; [done|by eapply step_timer].
  - apply timeout_clock.
  - unfold timeout, resolve. rewrite Hh, Hw. done.
  - unfold waiters. replace (entries (timeout cfg h s)) with
      (<[h := set_result (mkRes StatusTimeout "" []) ps]> (entries s))
      by (unfold timeout, resolve; by rewrite Hh, Hw).
    eapply filter_insert_length; [done|by apply is_waiting_iff|done].
Qed.

(** Time is never stuck: the timers that are due fire, and the clock goes on. *)
Lemma time_passes n : forall tr s t,
  waiters s = n -> (0 <= latency)%Z -> (0 <= reqTimeout cfg + latency)%Z ->
  reach s0 tr s -> (clock s <= t)%Z ->
  exists tr' s', reach s0 (tr ++ tr') s' /\ forallb by_time tr' = true /\ clock s' = t.
Proof.
  induction n as [|n IH]; intros tr s t Hn Hlat Hl Hr Ht;
    destruct (first_deadline t (entries s)) as [Hno|(h & ps & Hh & Hw & Hd & Hmin)].
  1,3: exists [Tick t], (set_clock t s); split_and!; [|done..];
    apply tick_reach; [done|done|]; intros h ps Hh Hw%is_waiting_iff; specialize (Hno _ _ Hh Hw); lia.
  - exfalso. unfold waiters in Hn. apply nil_length_inv in Hn.
    apply list_elem_of_lookup_2, list_elem_of_In in Hh.
    assert (In ps (List.filter is_waiting (entries s))) as Hi by (by apply filter_In).
    by rewrite Hn in Hi.
  - pose proof (in_time _ _ Hl Hr) as Hin.
    set (t1 := Z.max (clock s) (deadline ps)).
    assert (reach s0 (tr ++ [Tick t1]) (set_clock t1 s)) as Hr1.
    { apply tick_reach; [done|lia|]. intros h' ps' Hh' Hw'. specialize (Hin _ _ Hh' Hw').
      apply is_waiting_iff in Hw'. specialize (Hmin _ _ Hh' Hw'). lia. }
    apply is_waiting_iff in Hw.
    destruct (timer_reach _ (set_clock t1 s) h ps Hr1 Hh Hw) as (s2 & Hr2 & Hc2 & _ & Hn2); [cbn; lia|].
    destruct (IH _ s2 t ltac:(unfold waiters in *; cbn in *; lia) Hlat Hl Hr2) as (tr' & s' & Hr' & Hb & Hc');
      [rewrite Hc2; cbn; lia|].
    exists ([Tick t1; Timer h] ++ tr'), s'. split_and!; [|done|done].
    by rewrite <- !app_assoc in Hr'.
Qed.

(** C26: A request is answered, once and in time.  When the clock is past its
    deadline by more than the timers' latency, its channel has a result; a result
    never changes; and time can always reach any later instant, by timers that
    fire and nothing else, so that no request waits for a tap for ever. *)
Theorem resolved_in_time (tr : list event) (s : State)
    (Hlat : (0 <= latency)%Z) (Hto : (0 <= reqTimeout cfg)%Z) (Hr : reach s0 tr s) :
  (forall h ps, entries s !! h = Some ps -> (deadline ps + latency < clock s)%Z ->
     exists r, ch ps = Some r)
  /\ (forall ev s' h ps, step s ev s' -> entries s !! h = Some ps ->
        exists ps', entries s' !! h = Some ps' /\ deadline ps' = deadline ps
          /\ (forall r, ch ps = Some r -> ch ps' = Some r))
  /\ (forall t, (clock s <= t)%Z ->
        exists tr' s', reach s0 (tr ++ tr') s' /\ forallb by_time tr' = true /\ clock s' = t).
Proof.
  split_and!.
  - intros h ps Hh Hd. destruct (ch ps) as [r|] eqn:Hc; [by exists r|].
    pose proof (in_time _ _ ltac:(lia) Hr _ _ Hh Hc). lia.
  - intros ev s' h ps Hs Hh.
    pose proof (step_changes _ _ _ (inv_tapped _ _ (reach_inv _ _ Hr)) Hs) as Hc.
    destruct (changes_entry _ _ _ _ _ _ Hc Hh) as (ps' & Hh' & _ & _ & Hd & Hw). exists ps'.
    split_and!; [done|done|]. intros r Hch. destruct Hw as [Hw| ->]; [by rewrite Hw in Hch|done].
  - intros t Ht. eapply time_passes; [done|lia|lia|done|done].
Qed.

(** ** Taps *)

Lemma only_entry_pending tr s h ps :
  reach s0 tr s -> entries s !! h = Some ps -> waiting ps ->
  (forall h' ps', entries s !! h' = Some ps' -> ask_id (ask ps') = ask_id (ask ps) -> h' = h) ->
  pending s !! ask_id (ask ps) = Some h.
Proof.
  intros Hr. revert h ps. induction Hr as [|tr s ev s' Hr IH Hs]; intros h ps Hh Hw Hu; [done|].
  pose proof (step_changes _ _ _ (inv_tapped _ _ (reach_inv _ _ Hr)) Hs) as Hc.
  assert (entries s !! h = Some ps ->
          forall h' ps', entries s !! h' = Some ps' -> ask_id (ask ps') = ask_id (ask ps) -> h' = h) as Hold.
  { intros _ h' ps' Hh' Hid. destruct (changes_entry _ _ _ _ _ _ Hc Hh') as (ps2 & Hh2 & Hask & _).
    apply (Hu h' ps2 Hh2). by rewrite Hask. }
  destruct Hc as [|a c m _|h1 ps1 r Hh1 Hw1 _]; [by apply (IH h ps Hh Hw (Hold Hh))| |].
  - apply lookup_app_Some in Hh as [Hh|[Hle Hh]].
    + rewrite lookup_insert_ne; [by apply (IH h ps Hh Hw (Hold Hh))|]. intros Hid.
      assert (List.length (entries s) = h) as <-.
      { apply (Hu _ (mkPending None c m a (clock s + reqTimeout cfg))); [|exact Hid].
        by rewrite lookup_app_r, Nat.sub_diag. }
      apply lookup_lt_Some in Hh. lia.
    + apply list_lookup_singleton_Some in Hh as [Hz <-]. cbn.
      rewrite lookup_insert_eq. f_equal. lia.
  - destruct (decide (h = h1)) as [->|Hne].
    + rewrite list_lookup_insert_eq in Hh by (by eapply lookup_lt_Some). by injection Hh as <-.
    + rewrite list_lookup_insert_ne in Hh by done.
      rewrite lookup_delete_ne; [by apply (IH h ps Hh Hw (Hold Hh))|]. intros Hid. apply Hne. symmetry.
      by apply (Hold Hh h1 ps1).
Qed.

(** What a tap does.  The allowed user's tap on a button of a request that
    waits, and whose id no other request has used, gives exactly that request the
    result of the button, with the user as its approver; anybody else's tap
    changes no request and is answered with an alert. *)
Theorem taps_decide (tr : list event) (s : State) (f : faults) (u : Update) (us : list Update)
    (cb : CallbackQuery) (Hr : reach s0 tr s) (Hu : uCallback u = Some cb) :
  (forall h ps a,
     from_id (cbFrom cb) (allowedUserID cfg) = true ->
     cbData cb = action_name a +:+ (":" +:+ ask_id (ask ps)) -> ask_id (ask ps) <> "" ->
     entries s !! h = Some ps -> waiting ps ->
     (forall h' ps', entries s !! h' = Some ps' -> ask_id (ask ps') = ask_id (ask ps) -> h' = h) ->
     tapped (poll_update cfg f u us s) = Some (cb, a, ask_id (ask ps), h)
     /\ entries (finishCallback cb a (ask_id (ask ps)) h (poll_update cfg f u us s))
        = <[h := set_result (mkRes (verdict a) (callbackApprover cb) []) ps]> (entries s))
  /\ (from_id (cbFrom cb) (allowedUserID cfg) = false ->
      let s' := poll_update cfg f u us s in
      entries s' = entries s /\ pending s' = pending s /\ tapped s' = tapped s
      /\ out s' = out s ++ [AnswerCallback (cbID cb) "not authorized" true]).
Proof.
  unfold poll_update, dispatch. rewrite Hu. unfold handleCallback. split.
  - intros h ps a Hf Hd Hne Hh Hw Huniq. rewrite Hf, Hd, parse_button by done. cbn [negb pending set_poll].
    rewrite (only_entry_pending _ _ _ _ Hr Hh Hw Huniq). split; [done|].
    unfold finishCallback, resolve. cbn. rewrite Hh, Hw. cbn.
    by rewrite list_lookup_insert_eq by (by eapply lookup_lt_Some).
  - by intros ->.
Qed.

(** ** Where messages go *)

(** The allowed user sent /start from chat [c]. *)
Definition linked (tr : list event) (c : Z) : Prop :=
  exists f u m, In (Poll f u) tr /\ uCallback u = None /\ uMessage u = Some m
    /\ mCommand m = Some "start" /\ mChat m = Some c
    /\ from_id (mFrom m) (allowedUserID cfg) = true.

Lemma linked_mono tr ev c : linked tr c -> linked (tr ++ [ev]) c.
Proof.
  intros (f & u & m & Hi & ?). exists f, u, m. split; [|done]. apply in_or_app. by left.
Qed.

Lemma step_chat tr s ev s' :
  step s ev s' ->
  chat s' = chat s \/ exists f c, linked (tr ++ [ev]) c /\ chat s' = (Save f c (chat s)).1.
Proof.
  intros Hs. destruct Hs; try (by left).
  - left. unfold request_send. by repeat split_match.
  - unfold poll_update, dispatch. destruct (uCallback u) as [cb|] eqn:Ec.
    { left. unfold handleCallback. by repeat split_match. }
    destruct (uMessage u) as [m|] eqn:Em; [|by left].
    destruct (mCommand m) as [k|] eqn:Ek; [|by left].
    destruct (k =s "start") eqn:Es; [|by left]. bool_hyps. subst k.
    destruct (mChat m) as [c|] eqn:Eh; [|by left].
    unfold handleStart. destruct (from_id _ _) eqn:Ef; [right|by left].
    exists f, c. split; [|done]. exists f, u, m. split; [apply in_elt|done].
  - left. unfold finishCallback, resolve. by repeat split_match.
  - left. unfold timeout, resolve. by repeat split_match.
  - left. unfold timeout, resolve. by repeat split_match.
Qed.

Definition is_approval (c : Z) (o : Outgoing) : Prop :=
  match o with SendMessage c' _ (_ :: _) => c' = c | _ => False end.

Lemma step_approvals s ev s' c o :
  step s ev s' -> is_approval c o -> In o (out s') ->
  In o (out s) \/ exists f, Load f (chat s) = Some (Some c).
Proof.
  intros Hs Ho.
  assert (forall l o', ~ is_approval c o' -> In o (l ++ [o']) -> In o l) as Hno.
  { intros l o' Hn [?|[->|[]]]%in_app_or; done. }
  destruct Hs as [f x a sent s|a c' m l1 l2 s Hl| | |f u us s ? ?|cb a id h s Htap|h ps s ? ?|h s|]; auto.
  - unfold request_send. destruct (Load f (chat s)) as [[c'|]|] eqn:El; cbn; auto.
    destruct (approval_text _ _ _ _) as [body n].
    assert (In o (out s ++ [SendMessage c' body (buttons a)]) ->
            In o (out s) \/ exists f, Load f (chat s) = Some (Some c)) as Hm.
    { intros [?|[<-|[]]]%in_app_or; [by left|right]. cbn in Ho. subst c'. by exists f. }
    destruct sent; exact Hm.
  - unfold poll_update, dispatch, handleCallback, handleStart. repeat split_match; cbn; auto;
      intros Hi; left; (eapply Hno; [|exact Hi]); cbn; tauto.
  - unfold finishCallback, resolve. repeat split_match; cbn in *; auto;
      intros Hi; left; do 2 (apply Hno in Hi; [|cbn; tauto]); exact Hi.
  - unfold timeout, resolve. repeat split_match; cbn; auto;
      intros Hi; left; (eapply Hno; [|exact Hi]); cbn; tauto.
  - unfold timeout, resolve. repeat split_match; cbn; auto;
      intros Hi; left; (eapply Hno; [|exact Hi]); cbn; tauto.
Qed.

Context `{!ChatStoreLaws H0}.

Definition known (tr : list event) (c : Z) : Prop :=
  (exists f, Load f c0 = Some (Some c)) \/ linked tr c.

Lemma known_mono tr ev c : known tr c -> known (tr ++ [ev]) c.
Proof. intros [?|?]; [by left|right; by apply linked_mono]. Qed.

Lemma chat_known tr s : reach s0 tr s -> forall f c, Load f (chat s) = Some (Some c) -> known tr c.
Proof.
  induction 1 as [|tr s ev s' Hr IH Hs]; intros f c Hl; [left; by exists f|].
  destruct (step_chat tr _ _ _ Hs) as [E|(g & c' & Hlk & E)]; rewrite E in Hl.
  - by eapply known_mono, IH.
  - destruct (Save g c' (chat s)) as [st ok] eqn:Es. destruct ok.
    + injection (save_load g f _ _ _ Es _ Hl) as ->. by right.
    + apply save_fail in Es as ->. by eapply known_mono, IH.
Qed.

(** A message with buttons goes only to the chat the store held at the start
    or to one from which the allowed user sent /start, so nobody else can have
    requests shown to them. *)
Theorem approvals_to_linked_chat (tr : list event) (s : State) (c : Z) (body : string)
    (b : string * string) (bs : list (string * string))
    (Hr : reach s0 tr s) (Hi : In (SendMessage c body (b :: bs)) (out s)) :
  (exists f, Load f c0 = Some (Some c)) \/ linked tr c.
Proof.
  change (known tr c). induction Hr as [|tr s ev s' Hr IH Hs]; [done|].
  destruct (step_approvals _ _ _ c (SendMessage c body (b :: bs)) Hs eq_refl Hi) as [?|(f & Hf)].
  - by apply known_mono, IH.
  - by eapply known_mono, chat_known.
Qed.

End Backend.

#[export] Instance MemChatStore_laws : ChatStoreLaws MemChatStore.
Proof. split; cbn; congruence. Qed.

(** ** Runs *)

Section Runs.
Context `{Hmac} `{ChatStore}.
Variables (cfg : Options) (latency : Z) (s0 : State).
#[local] Abbreviation reach := (reach cfg latency s0).

(** A request is sent and stored. *)
Lemma post tr s f x a m c :
  reach tr s -> sending s = [] -> Load f (chat s) = Some (Some c) ->
  exists s', reach (tr ++ [Send f x a (Some m); Store a c m]) s'
    /\ entries s' = entries s ++ [mkPending None c m a (clock s + reqTimeout cfg)]
    /\ pending s' = <[ask_id a := List.length (entries s)]> (pending s)
    /\ (chat s', sending s', tapped s', batch s', clock s')
       = (chat s, [], tapped s, batch s, clock s)
    /\ In (SendMessage c (approval_text cfg x (clock s) a).1 (buttons a)) (out s').
Proof.
  intros Hr Hs Hl.
  assert ((request_send cfg f x a (Some m) s).1
          = set_sending [(a, c, m)]
              (emit (SendMessage c (approval_text cfg x (clock s) a).1 (buttons a))
                 (panicked (approval_text cfg x (clock s) a).2 s))) as E.
  { unfold request_send. rewrite Hl. destruct (approval_text _ _ _ _). cbn. by rewrite Hs. }
  eexists. split.
  { change [Send f x a (Some m); Store a c m] with ([Send f x a (Some m)] ++ [Store a c m]).
    rewrite app_assoc. eapply reach_step; [eapply reach_step; [exact Hr|constructor]|].
    eapply (step_store _ _ _ _ _ [] []). by rewrite E. }
  rewrite E. unfold request_store. cbn. split_and!; [done..|]. apply in_or_app. right. by left.
Qed.

(** The allowed user taps the button of a request that is in the map. *)
Lemma tap tr s f n u shown a id h ps :
  reach tr s -> tapped s = None -> batch s = [] -> userID u = allowedUserID cfg -> id <> "" ->
  pending s !! id = Some h -> entries s !! h = Some ps -> ch ps = None ->
  let cb := mkCallback "q" (Some u) shown (action_name a +:+ (":" +:+ id)) in
  exists s', reach (tr ++ [Fetched [mkUpdate n (Some cb) None]; Poll f (mkUpdate n (Some cb) None);
                           Tap cb a id h]) s'
    /\ entries s' = <[h := set_result (mkRes (verdict a) (callbackApprover cb) []) ps]> (entries s)
    /\ pending s' = delete id (pending s).
Proof.
  intros Hr Ht Hb Hu Hid Hp He Hc cb. eexists. split.
  { change [Fetched [mkUpdate n (Some cb) None]; Poll f (mkUpdate n (Some cb) None); Tap cb a id h]
      with ([Fetched [mkUpdate n (Some cb) None]] ++ [Poll f (mkUpdate n (Some cb) None)]
            ++ [Tap cb a id h]). rewrite !app_assoc.
    eapply reach_step; [eapply reach_step; [eapply reach_step; [exact Hr|by constructor]|by constructor]|].
    constructor. unfold poll_update, dispatch, handleCallback. cbn.
    rewrite (proj2 (Z.eqb_eq _ _) Hu). cbn [negb]. rewrite parse_button by done. by rewrite Hp. }
  unfold poll_update, dispatch, handleCallback. cbn -[finishCallback].
  rewrite (proj2 (Z.eqb_eq _ _) Hu). cbn [negb]. rewrite parse_button, Hp by done.
  unfold finishCallback, resolve. cbn. rewrite He, Hc. cbn.
  by rewrite list_lookup_insert_eq by (by eapply lookup_lt_Some).
Qed.

End Runs.

(** ** Witnesses *)

#[local] Instance telegram_hmac : Hmac := {| mac salt s := s ++ salt |}.
#[local] Existing Instance MemChatStore.

Definition sample_options : Options := mkOptions 42 (300 * Second) [] [] false.
Definition sample_ask : Ask := AskSign (mkApproval "r1" [mkCommandReq "web" "reboot" 60 false ""]).
Definition silent (_ : list string) : Explained := Panics.
Definition sample_store : @store MemChatStore := Some 7%Z.
Definition sample_start : State := initial sample_store 0.
Definition sample_pending : pendingState := mkPending None 7 1 sample_ask (300 * Second).
Definition sample_posted : list event := [Send tt silent sample_ask (Some 1%Z); Store sample_ask 7 1].

(** A request is posted and waits. *)
Lemma sample_waits :
  exists s, reach sample_options 0 sample_start sample_posted s /\ entries s = [sample_pending]
    /\ tapped s = None /\ batch s = [] /\ pending s !! "r1" = Some 0
    /\ In (SendMessage 7 (approval_text sample_options silent 0 sample_ask).1 (buttons sample_ask)) (out s).
Proof.
  destruct (post sample_options 0 sample_start [] sample_start tt silent sample_ask 1 7)
    as (s & Hr & He & Hp & Heq & Ho); [constructor|reflexivity|reflexivity|].
  injection Heq as _ _ Ht Hb _. exists s. by rewrite Hp, lookup_insert_eq.
Qed.

(** It is approved. *)
Lemma sample_approved :
  exists tr s r, reach sample_options 0 sample_start tr s
    /\ entries s = [set_result r sample_pending] /\ r = mkRes StatusApproved "@op" [].
Proof.
  destruct sample_waits as (s & Hr & He & Ht & Hb & Hp & _).
  destruct (tap sample_options 0 sample_start sample_posted s tt 1 (mkUser 42 "op") None Approve "r1" 0 sample_pending)
    as (s' & Hr' & He' & _); try done; [by rewrite He|].
  eexists _, s', _. split; [exact Hr'|]. by rewrite He', He.
Qed.

Lemma results_have_causes_witness :
  exists tr s, reach sample_options 0 sample_start tr s /\ posted sample_options s sample_ask 7.
Proof.
  destruct sample_approved as (tr & s & r & Hr & He & Hres). exists tr, s. split; [exact Hr|].
  apply (results_have_causes sample_options 0 sample_store 0 tr s 0 (set_result r sample_pending) r Hr);
    [rewrite He|]; reflexivity.
Defined.

Lemma resolved_in_time_witness :
  exists tr s, reach sample_options 0 sample_start tr s /\ (300 * Second < clock s)%Z
    /\ exists ps r, entries s !! 0 = Some ps /\ ch ps = Some r.
Proof.
  destruct sample_waits as (s & Hr & He & _). assert (Hd : (0 <= 300 * Second)%Z) by (vm_compute; discriminate).
  assert (Hc : (clock s <= 300 * Second)%Z).
  { rewrite <- (Z.add_0_r (300 * Second)). change (300 * Second)%Z with (deadline sample_pending).
    apply (in_time sample_options 0 sample_store 0 sample_posted s Hd Hr 0); [by rewrite He|reflexivity]. }
  destruct (timer_reach sample_options 0 sample_store 0 (sample_posted ++ [Tick (300 * Second)])
              (set_clock (300 * Second) s) 0 sample_pending) as (s1 & Hr1 & Hc1 & He1 & _);
    [|cbn; by rewrite He|reflexivity|apply Z.le_refl|].
  { apply tick_reach; [exact Hr|exact Hc|]. intros h ps. rewrite He.
    intros [_ <-]%list_lookup_singleton_Some _. cbn. lia. }
  cbn in He1. rewrite He in He1.
  eexists _, _. split; [|split].
  - eapply (tick_reach sample_options 0 sample_store 0 _ s1 (301 * Second) Hr1).
    + rewrite Hc1. vm_compute. discriminate.
    + intros h ps. rewrite He1. by intros [_ <-]%list_lookup_singleton_Some.
  - vm_compute. reflexivity.
  - destruct (resolved_in_time sample_options 0 sample_store 0 _ _ (Z.le_refl 0) Hd
                (tick_reach sample_options 0 sample_store 0 _ s1 (301 * Second) Hr1
                   ltac:(rewrite Hc1; vm_compute; discriminate)
                   ltac:(intros h ps; rewrite He1; by intros [_ <-]%list_lookup_singleton_Some)))
      as (Hin & _ & _).
    destruct (Hin 0 (set_result (mkRes StatusTimeout "" []) sample_pending)) as [r Hres];
      [cbn; by rewrite He1|vm_compute; reflexivity|].
    eexists _, r. split; [cbn; rewrite He1; reflexivity|exact Hres].
Defined.

Lemma taps_decide_witness :
  exists s cb, entries (finishCallback cb Approve "r1" 0
                 (poll_update sample_options tt (mkUpdate 1 (Some cb) None) [] s))
    = [set_result (mkRes StatusApproved "id:42" []) sample_pending].
Proof.
  destruct sample_waits as (s & Hr & He & _).
  set (cb := mkCallback "q" (Some (mkUser 42 "")) None "approve:r1").
  exists s, cb.
  destruct (taps_decide sample_options 0 sample_store 0 sample_posted s tt (mkUpdate 1 (Some cb) None) []
              cb Hr eq_refl) as [Htap _].
  destruct (Htap 0 sample_pending Approve) as [_ Hf];
    [reflexivity|reflexivity|discriminate|by rewrite He|reflexivity| |].
  - intros h' ps'. rewrite He. by intros [-> _]%list_lookup_singleton_Some.
  - rewrite He in Hf. exact Hf.
Defined.

Lemma approvals_to_linked_chat_witness :
  exists tr s c, reach sample_options 0 sample_start tr s
    /\ ((exists f, Load f (chat sample_start) = Some (Some c)) \/ linked sample_options tr c).
Proof.
  destruct sample_waits as (s & Hr & _ & _ & _ & _ & Ho). exists sample_posted, s, 7%Z.
  split; [exact Hr|].
  exact (approvals_to_linked_chat sample_options 0 sample_store 0 sample_posted s 7 _ _ _ Hr Ho).
Defined.
