(* ===== verification/SignerTelegramTextProps.v ===== *)
(** * What an approval message shows

    The text of a request determines what is asked for when no field holds a
    newline; with newlines two requests can show the same text. *)

From S2P Require Import Prelude Json JsonProps Sigwire RedactScanner RedactWriter SignerDaemon GoTime SignerTelegram SignerTelegramProps.
Import Sigwire Daemon GoTime Telegram.

(** ** Lines *)

Definition no_nl (s : string) : Prop := no_newline (list_ascii_of_string s).

Fixpoint unlines (ls : list string) : string :=
  match ls with
  | [] => ""
  | l :: ls => l +:+ (newline +:+ unlines ls)
  end.

Lemma unlines_app ls ls' : unlines (ls ++ ls') = unlines ls +:+ unlines ls'.
Proof. induction ls as [|l ls IH]; [done|]. cbn [app unlines]. by rewrite IH, !str_app_assoc. Qed.

Lemma unlines_split ls :
  Forall no_nl ls ->
  split_on (fun c => c =c NL) (list_ascii_of_string (unlines ls))
  = map list_ascii_of_string ls ++ [[]].
Proof.
  induction 1 as [|l ls Hl _ IH]; [done|]. cbn [unlines map app].
  rewrite !list_ascii_of_app. cbn [list_ascii_of_string newline app].
  rewrite split_on_app by apply Ascii.eqb_refl. rewrite IH, split_on_no_sep; [done|].
  eapply Forall_impl; [exact Hl|]. intros c Hc. by apply Ascii.eqb_neq.
Qed.

Lemma unlines_inj ls ls' : Forall no_nl ls -> Forall no_nl ls' -> unlines ls = unlines ls' -> ls = ls'.
Proof.
  intros H1 H2 E. apply unlines_split in H1, H2. rewrite E, H2 in H1.
  apply app_inj_tail in H1 as [Hm _]. apply (f_equal (map string_of_list_ascii)) in Hm.
  rewrite !map_map in Hm.
  assert (forall l, map (fun s => string_of_list_ascii (list_ascii_of_string s)) l = l) as Hid.
  { intros l. rewrite <- (map_id l) at 2. apply map_ext, string_of_list_ascii_of_string. }
  by rewrite !Hid in Hm.
Qed.

(** ** No newline in what the program writes itself *)

Lemma no_nl_app s t : no_nl s -> no_nl t -> no_nl (s +:+ t).
Proof. unfold no_nl. rewrite list_ascii_of_app. apply no_newline_app. Qed.

Lemma itoa_no_nl z : no_nl (itoa z).
Proof.
  unfold no_nl, itoa, str. rewrite list_ascii_of_string_of_list_ascii. apply format_int_no_newline.
Qed.

Definition nl_free (s : string) : bool := forallb (fun c => negb (c =c NL)) (list_ascii_of_string s).

Lemma nl_free_ok s : nl_free s = true -> no_nl s.
Proof.
  unfold nl_free, no_nl, no_newline. rewrite forallb_forall, List.Forall_forall.
  intros Hf c Hc. specialize (Hf c Hc). bool_hyps. done.
Qed.

Ltac no_nl :=
  repeat first
    [ assumption | apply itoa_no_nl | apply no_nl_app
    | solve [apply nl_free_ok; vm_compute; reflexivity]
    | match goal with |- no_nl (if ?b then _ else _) => destruct b end ].

Lemma fmtFrac_no_nl prec : forall print v acc, no_nl acc -> no_nl (fmtFrac print v prec acc).1.
Proof.
  induction prec as [|prec IH]; intros print v acc Ha; cbn [fmtFrac fst]; [no_nl|].
  apply IH. no_nl.
Qed.

Lemma duration_no_nl d : no_nl (DurationString d).
Proof.
  assert (no_nl "") as Hn by (by apply nl_free_ok).
  unfold DurationString. cbv zeta.
  destruct (Z.abs d <? Second)%Z.
  - destruct (Z.abs d =? 0)%Z; [no_nl|].
    assert (forall pu : nat * string, no_nl pu.2 ->
      no_nl (let '(prec, unit) := pu in
             let '(frac, v) := fmtFrac false (Z.abs d) prec "" in itoa v +:+ (frac +:+ unit))) as Hu.
    { intros [prec unit] Hu. pose proof (fmtFrac_no_nl prec false (Z.abs d) "" Hn) as Hf.
      destruct (fmtFrac _ _ _ _) as [frac v]. cbn [fst snd] in *. no_nl. }
    destruct (d <? 0)%Z; [apply no_nl_app; [no_nl|]|]; apply Hu;
      (destruct (Z.abs d <? Microsecond)%Z; [|destruct (Z.abs d <? Millisecond)%Z]); cbn [snd]; no_nl.
  - pose proof (fmtFrac_no_nl 9 false (Z.abs d) "" Hn) as Hf.
    destruct (fmtFrac _ _ _ _) as [frac v]. cbn [fst] in Hf. no_nl.
Qed.

#[local] Opaque no_nl.

(** ** The message as lines *)

Section Text.
Context `{Hmac}.
Variables (salt : list ascii) (rules : list Scanner.Rule).

Definition reasons (cmds : list CommandReq) : list string :=
  map (fun c => "Reason: " +:+ crReason c)
    (List.filter (fun c => crReveal c && negb (crReason c =s "")) cmds).

Definition numbered (i : nat) (cmd : string) : string :=
  itoa (Z.of_nat (i + 1)) +:+ (". " +:+ redactForDisplay salt rules cmd).

Definition explained (line : string) : string :=
  if line =s "" then "   → (no explanation)" else "   → " +:+ line.

Fixpoint body (i : nat) (cmds : list CommandReq) (explanations : option (list string)) : list string :=
  match cmds with
  | [] => []
  | c :: cmds =>
      numbered i (crCmd c)
      :: match explanations with
         | Some (line :: lines) => explained line :: body (S i) cmds (Some lines)
         | _ => body (S i) cmds explanations
         end
  end.

Definition banner : string :=
  "⚠️ SECRET-REVEAL — output will NOT be redacted; raw secret values go to the agent, the AI provider, and this chat.".

Definition first_server (req : ApprovalRequest) : string :=
  match arCommands req with c :: _ => crServer c | [] => "" end.

Definition title (req : ApprovalRequest) : string :=
  (if requestHasReveal req then "🔓 SSHGate SECRET-REVEAL" else "🔐 SSHGate approval")
  +:+ (if negb (first_server req =s "") then " — " +:+ first_server req else "").

Definition rendered (req : ApprovalRequest) (explanations : list string) (err : option error)
    : option (list string) :=
  if match err with
     | None => List.length explanations =? List.length (arCommands req)
     | Some _ => false
     end
  then Some explanations else None.

Definition message_tail (req : ApprovalRequest) (timeout : Z) (err : option error) : list string :=
  (match err with
   | Some _ => ["(no explanations: " +:+ (sanitiseExplainerErr err +:+ ")")]
   | None => []
   end)
  ++ ["Request ID: " +:+ arID req; "Expires in " +:+ DurationString timeout].

Definition counted (req : ApprovalRequest) : string :=
  itoa (Z.of_nat (List.length (arCommands req))) +:+ (" command"
  +:+ ((if negb (List.length (arCommands req) =? 1) then "s" else "") +:+ " queued:")).

Definition message_lines (req : ApprovalRequest) (timeout : Z) (explanations : list string)
    (err : option error) : list string :=
  (if requestHasReveal req then [banner; ""] else [])
  ++ title req :: ""
  :: (if requestHasReveal req then reasons (arCommands req) ++ [""] else [])
  ++ counted req
  :: body 0 (arCommands req) (rendered req explanations err)
  ++ "" :: message_tail req timeout err.

Lemma concat_cons s l : String.concat "" (s :: l) = s +:+ String.concat "" l.
Proof. destruct l as [|t l]; [by rewrite str_app_nil_r|done]. Qed.

Lemma reason_lines_unlines cmds : reason_lines cmds = unlines (reasons cmds).
Proof.
  unfold reason_lines, reasons. induction cmds as [|c cmds IH]; [done|].
  cbn [map List.filter]. rewrite concat_cons, IH.
  destruct (crReveal c && negb (crReason c =s "")); [|done]. cbn [map unlines].
  by rewrite !str_app_assoc.
Qed.

Lemma command_lines_unlines cmds : forall i ex,
  command_lines salt rules i cmds ex = unlines (body i cmds ex).
Proof.
  induction cmds as [|c cmds IH]; intros i ex; [done|]. cbn [command_lines body unlines].
  unfold command_line, numbered.
  destruct ex as [[|line lines]|]; cbn [unlines]; rewrite IH, ?str_app_assoc; [done| |done].
  unfold explanation_line, explained. destruct (line =s ""); by rewrite !str_app_assoc.
Qed.

Lemma message_unlines req timeout explanations err :
  formatApprovalMessage salt rules req timeout explanations err
  = unlines (message_lines req timeout explanations err).
Proof.
  unfold formatApprovalMessage, message_lines, message_tail, title, counted. fold (first_server req).
  fold (rendered req explanations err). rewrite command_lines_unlines, reason_lines_unlines.
  fold banner.
  destruct (requestHasReveal req); cbn [app]; cbn [unlines];
    rewrite ?unlines_app; cbn [unlines]; rewrite ?unlines_app; cbn [unlines];
    destruct err; cbn [app unlines]; rewrite ?str_app_assoc, ?str_app_nil_r; done.
Qed.

(** ** Reading the lines back *)

Lemma str_app_inj s t u : s +:+ t = s +:+ u -> t = u.
Proof. intros E. apply (f_equal (GoStr.drop (String.length s))) in E. by rewrite !drop_app in E. Qed.

Lemma split_first {A} (x : A) l1 l2 r1 r2 :
  Forall (fun y => y <> x) l1 -> Forall (fun y => y <> x) l2 ->
  l1 ++ x :: r1 = l2 ++ x :: r2 -> l1 = l2 /\ r1 = r2.
Proof.
  intros H1. revert l2. induction H1 as [|y l1 Hy _ IH]; intros l2 H2 E; destruct H2 as [|z l2 Hz H2].
  - by injection E.
  - injection E as -> _. done.
  - injection E as -> _. done.
  - injection E as -> E. by destruct (IH _ H2 E) as [-> ->].
Qed.

Lemma itoa_digit n : exists c s, itoa (Z.of_nat n) = String c s /\ GoStr.is_digit c = true.
Proof.
  unfold itoa, str, Json.format_int. replace (Z.of_nat n <? 0)%Z with false by lia.
  destruct (format_nat_digit (Z.to_N (Z.of_nat n))) as (c & l & -> & Hc).
  exists c, (string_of_list_ascii l). done.
Qed.

Definition starts_digit (s : string) : bool :=
  match s with String c _ => GoStr.is_digit c | EmptyString => false end.

Lemma numbered_digit i cmd : starts_digit (numbered i cmd) = true.
Proof. unfold numbered. by destruct (itoa_digit (i + 1)) as (c & s & -> & Hc). Qed.

Lemma explained_not line : starts_digit (explained line) = false /\ explained line <> "".
Proof. unfold explained. by destruct (line =s ""). Qed.

Lemma body_not_empty cmds : forall i ex, Forall (fun l => l <> "") (body i cmds ex).
Proof.
  induction cmds as [|c cmds IH]; intros i ex; cbn [body]; [constructor|].
  constructor. { intros E. pose proof (numbered_digit i (crCmd c)) as Hd. by rewrite E in Hd. }
  destruct ex as [[|line lines]|]; [apply IH| |apply IH].
  constructor; [apply explained_not|apply IH].
Qed.

Fixpoint numbered_lines (i : nat) (cmds : list CommandReq) : list string :=
  match cmds with
  | [] => []
  | c :: cmds => numbered i (crCmd c) :: numbered_lines (S i) cmds
  end.

Lemma body_numbered cmds : forall i ex,
  List.filter starts_digit (body i cmds ex) = numbered_lines i cmds.
Proof.
  induction cmds as [|c cmds IH]; intros i ex; cbn [body numbered_lines]; [done|].
  cbn [List.filter]. rewrite numbered_digit.
  destruct ex as [[|line lines]|]; [by rewrite IH| |by rewrite IH].
  cbn [List.filter]. destruct (explained_not line) as [-> _]. by rewrite IH.
Qed.

Lemma numbered_lines_inj cmds1 : forall i cmds2,
  numbered_lines i cmds1 = numbered_lines i cmds2 ->
  map (fun c => redactForDisplay salt rules (crCmd c)) cmds1
  = map (fun c => redactForDisplay salt rules (crCmd c)) cmds2.
Proof.
  induction cmds1 as [|c1 cmds1 IH]; intros i [|c2 cmds2] E; try done. injection E as E1 E2.
  cbn [map]. rewrite (IH _ _ E2). by apply str_app_inj, str_app_inj in E1 as ->.
Qed.

Lemma reasons_not_empty cmds : Forall (fun l => l <> "") (reasons cmds).
Proof. unfold reasons. apply List.Forall_forall. by intros l (c & <- & _)%in_map_iff. Qed.

(** ** Fields on one line *)

Record one_line (req : ApprovalRequest) : Prop := {
  id_line : no_nl (arID req);
  server_line : no_nl (first_server req);
  command_lines_ : Forall (fun c => no_nl (redactForDisplay salt rules (crCmd c))) (arCommands req);
  reason_lines_ : Forall (fun c => no_nl (crReason c)) (arCommands req)
}.

Lemma body_no_nl cmds : forall i ex,
  Forall (fun c => no_nl (redactForDisplay salt rules (crCmd c))) cmds ->
  match ex with Some ls => Forall no_nl ls | None => True end ->
  Forall no_nl (body i cmds ex).
Proof.
  induction cmds as [|c cmds IH]; intros i ex Hc Hex; cbn [body]; [constructor|].
  apply Forall_cons in Hc as [Hc Hcs]. constructor; [unfold numbered; no_nl|].
  destruct ex as [[|line lines]|]; [by apply IH| |by apply IH].
  apply Forall_cons in Hex as [Hl Hls]. constructor; [unfold explained; no_nl|by apply IH].
Qed.

Lemma message_no_nl req timeout explanations err :
  one_line req -> Forall no_nl explanations -> no_nl (sanitiseExplainerErr err) ->
  Forall no_nl (message_lines req timeout explanations err).
Proof.
  intros [Hid Hs Hc Hr] Hex Herr. pose proof (duration_no_nl timeout) as Hd. unfold message_lines.
  assert (no_nl (title req)) by (unfold title; no_nl).
  assert (no_nl (counted req)) by (unfold counted; no_nl).
  assert (Forall no_nl (reasons (arCommands req))) as Hrs.
  { unfold reasons. apply List.Forall_forall. intros l (c & <- & Hi%filter_In)%in_map_iff.
    rewrite List.Forall_forall in Hr. destruct Hi as [Hi _]. specialize (Hr c Hi). no_nl. }
  assert (Forall no_nl (message_tail req timeout err)) as Ht.
  { unfold message_tail. destruct err; cbn [app]; repeat (apply Forall_cons_2 || apply Forall_nil_2); no_nl. }
  assert (Forall no_nl (body 0 (arCommands req) (rendered req explanations err))) as Hb.
  { apply body_no_nl; [done|]. unfold rendered.
    by destruct (match err with None => _ | Some _ => _ end). }
  assert (no_nl "" /\ no_nl banner) as [He Hbn] by (split; apply nl_free_ok; by vm_compute).
  destruct (requestHasReveal req); repeat (assumption || apply Forall_app_2 || apply Forall_cons_2 || apply Forall_nil_2).
Qed.

(** C29: The message identifies what is asked: two requests of one-line fields
    with the same message, whatever the explainer said, have the same id, name
    the same first server, ask for the same displayed commands in the same order,
    and agree on whether secrets are revealed and why. *)
Theorem message_identifies_request (req1 req2 : ApprovalRequest) (t1 t2 : Z)
    (ex1 ex2 : list string) (err1 err2 : option error)
    (H1 : one_line req1) (H2 : one_line req2)
    (Hx1 : Forall no_nl ex1 /\ no_nl (sanitiseExplainerErr err1))
    (Hx2 : Forall no_nl ex2 /\ no_nl (sanitiseExplainerErr err2))
    (E : formatApprovalMessage salt rules req1 t1 ex1 err1
         = formatApprovalMessage salt rules req2 t2 ex2 err2) :
  arID req1 = arID req2
  /\ first_server req1 = first_server req2
  /\ map (fun c => redactForDisplay salt rules (crCmd c)) (arCommands req1)
     = map (fun c => redactForDisplay salt rules (crCmd c)) (arCommands req2)
  /\ requestHasReveal req1 = requestHasReveal req2
  /\ (requestHasReveal req1 = true -> reasons (arCommands req1) = reasons (arCommands req2)).
Proof.
  rewrite !message_unlines in E. destruct Hx1 as [Hx1 He1], Hx2 as [Hx2 He2].
  apply unlines_inj in E; [|by apply message_no_nl..]. unfold message_lines in E.
  assert (requestHasReveal req1 = requestHasReveal req2) as Hrev.
  { destruct (requestHasReveal req1) eqn:R1, (requestHasReveal req2) eqn:R2; try done;
      unfold title in E; rewrite ?R1, ?R2 in E; injection E as E _; discriminate E. }
  assert (title req1 = title req2 -> first_server req1 = first_server req2) as Hsrv.
  { unfold title. rewrite <- Hrev. intros Et%str_app_inj.
    destruct (first_server req1 =s "") eqn:S1, (first_server req2 =s "") eqn:S2; bool_hyps; cbn [negb] in Et;
      [congruence|discriminate Et..|by apply str_app_inj in Et]. }
  assert (forall b1 b2 tl1 tl2,
    counted req1 :: body 0 (arCommands req1) b1 ++ "" :: message_tail req1 t1 tl1
    = counted req2 :: body 0 (arCommands req2) b2 ++ "" :: message_tail req2 t2 tl2 ->
    arID req1 = arID req2 /\ map (fun c => redactForDisplay salt rules (crCmd c)) (arCommands req1)
      = map (fun c => redactForDisplay salt rules (crCmd c)) (arCommands req2)) as Hrest.
  { intros b1 b2 tl1 tl2 Er. injection Er as _ Er.
    apply split_first in Er as [Eb Et]; [|apply body_not_empty..]. split.
    - unfold message_tail in Et. destruct tl1, tl2; cbn [app] in Et; try discriminate Et;
        [injection Et as _ Et _|injection Et as Et _]; by apply str_app_inj in Et.
    - apply (f_equal (List.filter starts_digit)) in Eb. rewrite !body_numbered in Eb.
      by eapply numbered_lines_inj. }
  rewrite <- Hrev in E. destruct (requestHasReveal req1); cbn [app] in E.
  - injection E as Et E. rewrite <- !app_assoc in E. cbn [app] in E.
    apply split_first in E as [Er E]; [|apply reasons_not_empty..].
    apply Hrest in E as [-> ->]. rewrite (Hsrv Et). by split_and!.
  - injection E as Et Ec E. rewrite (Hsrv Et).
    destruct (Hrest _ _ _ _ (f_equal2 cons Ec E)) as [-> ->]. by split_and!.
Qed.

End Text.

(** ** Two requests, one message *)

Section Ambiguity.
Context `{Hmac}.

Definition two (id server server2 c1 c2 : string) (ttl : Z) : ApprovalRequest :=
  mkApproval id [mkCommandReq server c1 ttl false ""; mkCommandReq server2 c2 ttl false ""].

(** The text is ambiguous where a command holds a newline, and does not show
    every server: a request for [a] with a second line [2. b], then [c], and a
    request for [a], then [b] with a second line [2. c], have the same message
    though they ask for different commands; and the server of a command that is
    not the first makes no difference. *)
Theorem message_ambiguous (salt : list ascii) (id server s2 s3 a b c : string) (ttl timeout : Z) :
  formatApprovalMessage salt [] (two id server s2 (a +:+ (newline +:+ ("2. " +:+ b))) c ttl) timeout [] None
  = formatApprovalMessage salt [] (two id server s3 a (b +:+ (newline +:+ ("2. " +:+ c))) ttl) timeout [] None
  /\ a <> a +:+ (newline +:+ ("2. " +:+ b)).
Proof.
  split.
  - unfold formatApprovalMessage, command_lines, command_line, redactForDisplay, Writer.RedactString.
    cbn [arCommands two requestHasReveal existsb crReveal crServer crCmd List.length Nat.eqb].
    rewrite !orb_true_r. cbn [negb]. rewrite <- !str_app_assoc. reflexivity.
  - intros E. apply (f_equal String.length) in E. rewrite !str_length_app in E. cbn in E. lia.
Qed.

End Ambiguity.

(** ** A reused request id *)

Section Reuse.
Context `{Hmac} `{ChatStore}.
Variables (cfg : Options) (latency : Z) (s0 : State).
#[local] Abbreviation reach := (reach cfg latency s0).

(** A reused request id moves an approval: when a second request with the id
    of a waiting one is posted, the allowed user's tap on the approve button of
    the first message approves the second request, and the first, whose message
    was tapped, waits on. *)
Theorem reused_id_misapproves (f : faults) (x : list string -> Explained) (c : Z)
    (req1 req2 : ApprovalRequest) (u : User)
    (Hidle : entries s0 = [] /\ sending s0 = [] /\ tapped s0 = None /\ batch s0 = [])
    (Hchat : Load f (chat s0) = Some (Some c))
    (Hu : userID u = allowedUserID cfg) (Hid : arID req1 = arID req2) (Hne : arID req1 <> "") :
  let shown := (approval_text cfg x (clock s0) (AskSign req1)).1 in
  let cb := mkCallback "q" (Some u) (Some shown) (action_name Approve +:+ (":" +:+ arID req1)) in
  exists tr s ps1 ps2,
    reach tr s
    /\ (forall g v, In (Poll g v) tr -> uCallback v = Some cb)
    /\ entries s = [ps1; ps2]
    /\ ask ps1 = AskSign req1 /\ ch ps1 = None
    /\ ask ps2 = AskSign req2 /\ option_map Status (ch ps2) = Some StatusApproved.
Proof.
  destruct Hidle as (He & Hs & Ht & Hb). intros shown cb.
  destruct (post cfg latency s0 [] s0 f x (AskSign req1) 1 c (reach_init _ _ _) Hs Hchat)
    as (s1 & Hr1 & He1 & _ & Heq1 & _).
  injection Heq1 as Hc1 Hs1 Ht1 Hb1 Hk1. rewrite <- Hc1 in Hchat.
  destruct (post cfg latency s0 _ s1 f x (AskSign req2) 2 c Hr1 Hs1 Hchat) as (s2 & Hr2 & He2 & Hp2 & Heq2 & _).
  injection Heq2 as Hc2 Hs2 Ht2 Hb2 Hk2.
  destruct (tap cfg latency s0 _ s2 f 1 u (Some shown) Approve (arID req1) 1
              (mkPending None c 2 (AskSign req2) (clock s1 + reqTimeout cfg)) Hr2)
    as (s3 & Hr3 & He3 & _); try congruence.
  - rewrite Hp2, He1, He, Hid. apply lookup_insert_eq.
  - by rewrite He2, He1, He.
  - reflexivity.
  - eexists _, s3, _, _. split; [exact Hr3|]. split; [|by rewrite He3, He2, He1, He].
    intros g v Hi. repeat (destruct Hi as [Hi|Hi]; [try discriminate Hi|]); [|done].
    injection Hi as _ <-. reflexivity.
Qed.

End Reuse.

(** ** Witnesses *)

#[local] Instance text_hmac : Hmac := {| mac salt s := s ++ salt |}.

Lemma message_identifies_request_witness :
  let r := mkApproval "r1" [mkCommandReq "web" "reboot" 60 true "why"] in
  one_line [] [] r /\ map (fun c => redactForDisplay [] [] (crCmd c)) (arCommands r) = ["reboot"].
Proof.
  intros r. assert (one_line [] [] r) as Hr.
  { split; cbn; repeat (apply Forall_cons_2 || apply Forall_nil_2); apply nl_free_ok; reflexivity. }
  split; [exact Hr|].
  destruct (message_identifies_request [] [] r r 5 5 [] [] None None Hr Hr) as (_ & _ & E & _);
    [split; [constructor|apply nl_free_ok; reflexivity]..|reflexivity|].
  exact E.
Defined.

Definition text_cfg : Options := mkOptions 42 (300 * Second) [] [] false.

Lemma reused_id_misapproves_witness :
  exists tr s, Telegram.reach (H0 := MemChatStore) text_cfg 0 (initial (H0 := MemChatStore) (Some 7%Z) 0) tr s
    /\ List.length (entries s) = 2.
Proof.
  destruct (reused_id_misapproves (H0 := MemChatStore) text_cfg 0
              (initial (H0 := MemChatStore) (Some 7%Z) 0) tt (fun _ => Panics) 7
              (mkApproval "r1" [mkCommandReq "web" "df -h" 60 false ""])
              (mkApproval "r1" [mkCommandReq "web" "rm -rf /" 60 false ""])
              (mkUser 42 "op")) as (tr & s & ps1 & ps2 & Hr & _ & He & _);
    [split_and!; reflexivity|reflexivity|reflexivity|reflexivity|discriminate|].
  exists tr, s. split; [exact Hr|]. rewrite He. reflexivity.
Defined.
