(* ===== verification/SignerExplainer.v ===== *)
(** * The command explainer (src/signer/backend/explainer.go)

    One request to a chat-completions endpoint, and what is made of its answer: a
    line for each command, or an error.  What the endpoint, the network and the
    wording of the JSON errors are is given; the body, the decoding and the
    splitting are the code's. *)

From S2P Require Import Prelude Json JsonValue Sigwire GoTime SignerDaemon SignerWire RedactScanner SignerTelegram.

Module Explain.
Import JsonValue GoTime Wire Telegram.

(** OpenAICompatibleExplainer, without its client. *)
Record Explainer := mkExplainer { Endpoint : string; Model : string; APIKey : string; Timeout : Z }.

(** explainerPromptHeader *)
Definition explainerPromptHeader : string :=
  "You are a security reviewer's assistant. For each shell command below, write a SINGLE SHORT SENTENCE (at most 25 words) explaining what it does in plain English. Reply with ONE LINE PER COMMAND, in the same order. No numbering, no formatting, no commentary, just the sentences. If a command is ambiguous or you don't know, write: unknown command."
  +:+ newline +:+ newline +:+ "Commands:" +:+ newline.

(** The numbered commands of the prompt. *)
Fixpoint numbered_commands (i : nat) (cmds : list string) : string :=
  match cmds with
  | [] => ""
  | c :: cmds => itoa (Z.of_nat (i + 1)) +:+ ". " +:+ c +:+ newline +:+ numbered_commands (S i) cmds
  end.

(** buildExplainerRequest *)
Definition buildExplainerRequest (model : string) (cmds : list string) : list ascii :=
  write_value (VObj (member "model" (vstr model) ++ member "messages" (VArr [
    VObj (member "role" (vstr "user")
          ++ member "content" (vstr (explainerPromptHeader +:+ numbered_commands 0 cmds)))]))).

Record chatMessage := mkMessage { Role : string; Content : string }.
Definition no_message : chatMessage := mkMessage "" "".

Definition message_decoder : decoder chatMessage :=
  decode_struct false
    [field "role" decode_string Role (fun x m => mkMessage x (Content m));
     field "content" decode_string Content (fun x m => mkMessage (Role m) x)].

(** chatResponse: its choices, each its message. *)
Definition choice_decoder : decoder chatMessage :=
  decode_struct false [field "message" message_decoder (fun m => m) (fun x _ => x)].

Definition response_decoder : decoder (slice chatMessage) :=
  decode_struct false [field "choices" (decode_slice no_message choice_decoder) (fun s => s) (fun x _ => x)].

(** strings.ReplaceAll(content, CR NL, NL) *)
Fixpoint unix_lines (l : list ascii) : list ascii :=
  match l with
  | c :: ((d :: rest) as l') => if (c =c CR) && (d =c NL) then NL :: unix_lines rest else c :: unix_lines l'
  | l => l
  end.

(** strings.Split at newlines. *)
Definition lines_of (s : string) : list string :=
  map str (split_on (fun c => c =c NL) (bytes s)).

(** parseExplainerContent *)
Definition parseExplainerContent (content : string) (n : nat) : list string :=
  let lines := lines_of (GoStr.TrimSpace (str (unix_lines (bytes content)))) in
  map (fun i => match lines !! i with Some l => GoStr.TrimSpace l | None => "" end) (seq 0 n).

(** What client.Do answers: an error, or a status and a body, which may fail to be
    read. *)
Inductive Answer :=
  | DoFails (err : error)
  | Responds (status : Z) (body : list ascii + error).

(** fmt.Errorf around an error, and one of its own. *)
Definition wrap (context : string) (err : error) : error :=
  mkError (is_deadline err) (is_canceled err) (context +:+ text err).
Definition own (message : string) : error := mkError false false message.

Definition body_cap : nat := Z.to_nat (2 ^ 20).

Section Explain.
Variable e : Explainer.

(** The errors of http.NewRequest, for a bad endpoint, and of json.Unmarshal. *)
Variable bad_request : option error.
Variable decode_error : list ascii -> error.

(** Explain, after the response. *)
Definition explained_by (n : nat) (a : Answer) : list string * option error :=
  match a with
  | DoFails err => ([], Some (wrap "explainer: http: " err))
  | Responds status body =>
      if ((status <? 200) || (300 <=? status))%Z then
        let class := if ((400 <=? status) && (status <? 500))%Z then "4xx" else "5xx" in
        ([], Some (own ("explainer: upstream " +:+ class +:+ " status " +:+ itoa status)))
      else match body with
           | inr err => ([], Some (wrap "explainer: read body: " err))
           | inl raw =>
               let raw := take body_cap raw in
               let '(parsed, ok) := Unmarshal response_decoder raw nil_slice in
               if negb ok then ([], Some (wrap "explainer: decode response: " (decode_error raw)))
               else match elems parsed with
                    | [] => ([], Some (own "explainer: response has no choices"))
                    | m :: _ => (parseExplainerContent (Content m) n, None)
                    end
           end
  end.

(** Explain; [post] is the endpoint, given the headers and the body. *)
Definition Explain (post : list (string * string) -> list ascii -> Answer) (cmds : list string)
    : list string * option error :=
  match cmds with
  | [] => ([], None)
  | _ =>
      match bad_request with
      | Some err => ([], Some (wrap "explainer: new request: " err))
      | None =>
          let headers := [("Content-Type", "application/json"); ("Accept", "application/json")]
            ++ (if APIKey e =s "" then [] else [("Authorization", "Bearer " +:+ APIKey e)]) in
          explained_by (List.length cmds) (post headers (buildExplainerRequest (Model e) cmds))
      end
  end.

End Explain.

End Explain.
