(* ===== verification/SignerChatStore.v ===== *)
(** * The chat store of the running signer (src/signer/backend/chatstore.go)

    FileChatStore keeps the operator's chat in a JSON file; it implements the
    interface [SignerTelegram.Telegram.ChatStore].  The file is its mode and its
    bytes; the write to a temporary file and the rename are one step, which may
    fail. *)

From S2P Require Import Prelude Json JsonProps JsonValue SignerWire SignerWireProps SignerTelegram.

Module ChatFile.
Import JsonValue Wire.

(** The file at Path. *)
Record PeerFile := mkPeer { fMode : Z; fBody : list ascii }.

(** What the file system refuses: the read, the stat, and any step from MkdirAll to
    the rename. *)
Record Faults := mkFaults { read_fails : bool; stat_fails : bool; write_fails : bool }.

(** fileChatStoreState, as Marshal writes it and Unmarshal reads it. *)
Definition state_value (chatID : Z) : value := VObj (member "chat_id" (vint chatID)).

Definition state_decoder : decoder Z :=
  decode_struct false [field "chat_id" decode_int64 (fun d => d) (fun x _ => x)].

(** FileChatStore.Load *)
Definition load (f : Faults) (file : option PeerFile) : option (option Z) :=
  if read_fails f then None
  else match file with
       | None => Some None
       | Some p =>
           let '(chatID, ok) := Unmarshal state_decoder (fBody p) 0%Z in
           if negb ok then None else if (chatID =? 0)%Z then Some None else Some (Some chatID)
       end.

(** The mode check of Save. *)
Definition too_open (mode : Z) : bool := negb (Z.land (Z.land mode 511) 63 =? 0)%Z.

(** FileChatStore.Save *)
Definition save (f : Faults) (chatID : Z) (file : option PeerFile) : option PeerFile * bool :=
  if (chatID =? 0)%Z then (file, false)
  else if stat_fails f then (file, false)
  else if match file with Some p => too_open (fMode p) | None => false end then (file, false)
  else if write_fails f then (file, false)
  else (Some (mkPeer 384 (write_value (state_value chatID))), true).

Definition FileChatStore : Telegram.ChatStore := {|
  Telegram.store := option PeerFile;
  Telegram.faults := Faults;
  Telegram.Load := load;
  Telegram.Save := save
|}.
#[export] Existing Instance FileChatStore.

End ChatFile.

(** ** The file keeps the interface

    What is saved is what a later load finds, so the theorems about the Telegram
    backend hold over the file. *)

Import JsonValue Wire ChatFile.

Lemma decode_vint_any z old :
  decode_int64 (vint z) old = if JsonValue.is_int64 z then (z, true) else (old, false).
Proof.
  unfold decode_int64, vint. pose proof (scan_format_int z [] I) as Hs. rewrite app_nil_r in Hs.
  by rewrite Hs.
Qed.

Lemma state_read_back c :
  Unmarshal state_decoder (write_value (state_value c)) 0%Z
  = if JsonValue.is_int64 c then (c, true) else (0%Z, false).
Proof.
  unfold Unmarshal. rewrite fits_written by (unfold state_value; auto 20 with fits).
  unfold state_decoder, state_value, decode_struct. cbn [member app decode_fields].
  change (field_of _ _) with (Some (field "chat_id" decode_int64 (fun d : Z => d) (fun x _ => x)).2).
  cbn [field snd]. rewrite decode_vint_any. by destruct (JsonValue.is_int64 c).
Qed.

(** What Save accepts: a chat other than zero, over no file or one that only its
    owner may use.  Then it leaves a private file; otherwise it leaves what is
    there. *)
Lemma save_spec f c file :
  let ok := negb (c =? 0)%Z && negb (stat_fails f) && negb (write_fails f)
            && match file with Some p => negb (too_open (fMode p)) | None => true end in
  save f c file = if ok then (Some (mkPeer 384 (write_value (state_value c))), true) else (file, false).
Proof.
  cbv zeta. unfold save. destruct (c =? 0)%Z, (stat_fails f); try done.
  destruct file as [p|]; [destruct (too_open (fMode p))|]; by destruct (write_fails f).
Qed.

Lemma save_done f c file s : save f c file = (s, true) ->
  s = Some (mkPeer 384 (write_value (state_value c))) /\ c <> 0%Z.
Proof.
  rewrite save_spec. destruct (Z.eqb_spec c 0); [done|]. destruct (_ && _); [|done].
  intros Hs. split; [congruence|done].
Qed.

Lemma load_saved g mode c :
  c <> 0%Z -> read_fails g = false ->
  load g (Some (mkPeer mode (write_value (state_value c))))
  = if JsonValue.is_int64 c then Some (Some c) else None.
Proof.
  intros Hc Hg. unfold load. rewrite Hg. cbn [fBody]. rewrite state_read_back.
  destruct (JsonValue.is_int64 c); [|done]. cbn [negb]. by rewrite (proj2 (Z.eqb_neq c 0) Hc).
Qed.

(** A load that succeeds finds what was saved last; a save that fails leaves the
    file; faults never change what a load finds. *)
#[export] Instance FileChatStore_laws : Telegram.ChatStoreLaws FileChatStore.
Proof.
  split; cbn [Telegram.Load Telegram.Save FileChatStore Telegram.store Telegram.faults].
  - intros f g c s s' [-> Hc]%save_done r. destruct (read_fails g) eqn:Hg; [unfold load; by rewrite Hg|].
    rewrite load_saved by done. destruct (JsonValue.is_int64 c); congruence.
  - intros f c s s'. rewrite save_spec. destruct (_ && _); congruence.
  - intros f g s r r'. unfold load. destruct (read_fails f), (read_fails g); try done. congruence.
Qed.

(** A chat that was saved is found by every load that can read the file, in this
    process or the next, and the file is private. *)
Lemma saved_is_loaded f g c file s :
  JsonValue.is_int64 c = true -> save f c file = (s, true) -> read_fails g = false ->
  load g s = Some (Some c) /\ exists p, s = Some p /\ too_open (fMode p) = false.
Proof.
  intros Hi [-> Hc]%save_done Hg. split; [by rewrite load_saved, Hi|by eexists].
Qed.
