(* ===== verification/SignerHosted.v ===== *)
(** * The hosted approver (src/signer/backend/hosted.go)

    The backend that submits a request to a signer-server over HTTPS and polls it
    for the decision.  The HTTP client is given by how long each exchange takes
    and what it brings; the caller's context by the time it is done, if ever.
    Times are nanoseconds. *)

From S2P Require Import Prelude Json JsonValue Sigwire GateVerify SignerDaemon SignerWire GoTime.

Module Hosted.
Import JsonValue Daemon Wire.

Record HttpRequest := mkHttp {
  method : string; url : string; headers : list (string * string); reqBody : list ascii
}.

(** A transport error, or a status with the bytes of the body that arrived and
    whether that is all of it. *)
Inductive HttpReply :=
  | HttpError
  | HttpResponse (code : Z) (body : list ascii) (complete : bool).

(** The [n]-th exchange, begun at a time and bounded by a timeout: how long it
    takes and how it ends. *)
Definition Transport : Type := nat -> Z -> Z -> HttpRequest -> Z * HttpReply.

(** HostedServerBackend; [url_ok] is whether the URLs built from BaseURL parse. *)
Record HostedServerBackend := mkHosted {
  BaseURL : string; APIKey : string; ClientID : string;
  PollWait : Z; Timeout : Z; url_ok : bool
}.

Inductive HostedErr :=
  | NoBaseURL | NoAPIKey | NoClientID | RevealUnsupported | BadURL | SubmitFailed
  | SubmitStatus (code : Z) (snippet : string) | BadAccepted | EmptyRequestID | GrantsUnsupported.

(** validate *)
Definition validate (h : HostedServerBackend) : option HostedErr :=
  if BaseURL h =s "" then Some NoBaseURL
  else if APIKey h =s "" then Some NoAPIKey
  else if ClientID h =s "" then Some NoClientID
  else None.

(** ** The wire *)

(** signRequestCmdV2 and signRequestBody *)
Definition cmd_v2 (c : CommandReq) : value :=
  VObj (member "server" (vstr (crServer c)) ++ member "cmd" (vstr (crCmd c))
        ++ member "ttl_seconds" (vint (crTTLSec c))).

Definition sign_body (h : HostedServerBackend) (req : ApprovalRequest) : value :=
  VObj (member "client_id" (vstr (ClientID h))
        ++ member "commands" (VArr (map cmd_v2 (arCommands req)))).

(** signAcceptedBody *)
Definition accepted_decoder : decoder (string * string) :=
  decode_struct false
    [field "request_id" decode_string fst (fun x d => (x, d.2));
     field "poll_url" decode_string snd (fun x d => (d.1, x))].

(** pollBody *)
Record pollBody := mkPoll {
  pbID : string; pbStatus : string; pbSignatures : slice SignedCmd; pbApprovedBy : string;
  pbApprovedAt : option Z; pbError : string
}.

(** A pointer to a time. *)
Definition decode_time : decoder (option Z) := fun v old =>
  match v with
  | VNull => (None, true)
  | VStr s => match GoTime.ParseRFC3339 s with Some t => (Some t, true) | None => (old, false) end
  | _ => (old, false)
  end.

Definition poll_decoder : decoder pollBody :=
  decode_struct false
    [field "request_id" decode_string pbID
       (fun x d => mkPoll x (pbStatus d) (pbSignatures d) (pbApprovedBy d) (pbApprovedAt d) (pbError d));
     field "status" decode_string pbStatus
       (fun x d => mkPoll (pbID d) x (pbSignatures d) (pbApprovedBy d) (pbApprovedAt d) (pbError d));
     field "signatures" (decode_slice (mkSigned "" "") sig_decoder) pbSignatures
       (fun x d => mkPoll (pbID d) (pbStatus d) x (pbApprovedBy d) (pbApprovedAt d) (pbError d));
     field "approved_by_user" decode_string pbApprovedBy
       (fun x d => mkPoll (pbID d) (pbStatus d) (pbSignatures d) x (pbApprovedAt d) (pbError d));
     field "approved_at" decode_time pbApprovedAt
       (fun x d => mkPoll (pbID d) (pbStatus d) (pbSignatures d) (pbApprovedBy d) x (pbError d));
     field "error" decode_string pbError
       (fun x d => mkPoll (pbID d) (pbStatus d) (pbSignatures d) (pbApprovedBy d) (pbApprovedAt d) x)].

Definition zero_poll : pollBody := mkPoll "" "" nil_slice "" None "".

(** strings.TrimRight(s, "/") *)
Fixpoint trim_slashes (s : string) : string :=
  match s with
  | EmptyString => EmptyString
  | String c s =>
      let s := trim_slashes s in
      if (c =c "/")%char && (s =s "") then EmptyString else String c s
  end.

Definition hex_digit (v : Z) : ascii := byte_of (if v <? 10 then v + 48 else v + 55)%Z.

(** The bytes url.PathEscape leaves alone. *)
Definition path_plain (c : ascii) : bool :=
  GoStr.is_lower c || GoStr.is_upper c || GoStr.is_digit c
  || existsb (fun d => d =c c) ["-"; "_"; "."; "~"; "$"; "&"; "+"; ":"; "="; "@"]%char.

(** url.PathEscape *)
Fixpoint PathEscape (s : string) : string :=
  match s with
  | EmptyString => EmptyString
  | String c s =>
      if path_plain c then String c (PathEscape s)
      else String "%" (String (hex_digit (byte_val c / 16))
                         (String (hex_digit (byte_val c mod 16)) (PathEscape s)))
  end.

(** readSnippet *)
Definition readSnippet (body : list ascii) : string := GoStr.TrimSpace (str (firstn 256 body)).

Definition submit_request (h : HostedServerBackend) (req : ApprovalRequest) : HttpRequest :=
  mkHttp "POST" (trim_slashes (BaseURL h) +:+ "/v1/sign")
    [("Authorization", "Bearer " +:+ APIKey h); ("Content-Type", "application/json");
     ("Accept", "application/json")]
    (write_value (sign_body h req)).

Definition poll_url (h : HostedServerBackend) (id : string) : string :=
  trim_slashes (BaseURL h) +:+ "/v1/poll/" +:+ PathEscape id.

Definition poll_request (h : HostedServerBackend) (id : string) : HttpRequest :=
  mkHttp "GET" (poll_url h id)
    [("Authorization", "Bearer " +:+ APIKey h); ("Accept", "application/json")] [].

(** The defaults of Request. *)
Definition poll_wait (h : HostedServerBackend) : Z :=
  if (PollWait h =? 0)%Z then 30 * Sigwire.Second else PollWait h.
Definition total_timeout (h : HostedServerBackend) : Z :=
  if (Timeout h =? 0)%Z then 60 * Sigwire.Second else Timeout h.

(** ** Request *)

(** Request, up to the start of pollLoop: the exchange it made, when it returned,
    and the id to poll for or the error. *)
Definition Request (h : HostedServerBackend) (http : Transport) (t0 : Z) (req : ApprovalRequest)
    : list HttpRequest * Z * (string + HostedErr) :=
  match validate h with
  | Some err => ([], t0, inr err)
  | None =>
      if existsb crReveal (arCommands req) then ([], t0, inr RevealUnsupported)
      else if negb (url_ok h) then ([], t0, inr BadURL)
      else
        let r := submit_request h req in
        let '(took, reply) := http 0 t0 (total_timeout h) r in
        ([r], (t0 + took)%Z,
         match reply with
         | HttpError => inr SubmitFailed
         | HttpResponse code body _ =>
             if negb (code =? 202)%Z then inr (SubmitStatus code (readSnippet body))
             else let '((id, _), ok) := Decode accepted_decoder body ("", "") in
                  if negb ok then inr BadAccepted
                  else if id =s "" then inr EmptyRequestID
                  else inl id
         end)
  end.

(** RequestGrant *)
Definition RequestGrant : HostedErr := GrantsUnsupported.

(** ** pollLoop *)

Definition backoff : Z := 500 * GoTime.Millisecond.

(** What one answer of the server means: a result, or one more poll. *)
Definition poll_verdict (code : Z) (body : list ascii) : option Result :=
  let timed_out := Some (mkRes StatusTimeout "" []) in
  if negb (code =? 200)%Z then timed_out
  else
    let '(b, ok) := Unmarshal poll_decoder body zero_poll in
    if negb ok then timed_out
    else if pbStatus b =s "approved"
    then Some (mkRes StatusApproved (pbApprovedBy b) (elems (pbSignatures b)))
    else if pbStatus b =s "denied" then Some (mkRes StatusDenied (pbApprovedBy b) [])
    else if pbStatus b =s "error" then timed_out
    else if (pbStatus b =s "timeout") || (pbStatus b =s "pending") then None
    else timed_out.

Section Poll.
Variable h : HostedServerBackend.
Variable http : Transport.
(** When the caller's context is done. *)
Variable ctx_done : option Z.

Definition is_done (now : Z) : bool := match ctx_done with Some c => (c <=? now)%Z | None => false end.

Definition iter_timeout (remaining : Z) : Z :=
  let t := Verify.wrap64 (poll_wait h + 5 * Sigwire.Second) in
  if (remaining <? t)%Z then remaining else t.

(** One round of pollLoop from time [now]: it ends with a result, or goes on at a
    later time. *)
Inductive Round := Ends (r : Result) (at_ : Z) | GoesOn (at_ : Z).

Definition timeout_at (t : Z) : Round := Ends (mkRes StatusTimeout "" []) t.

(** The select of the backoff. *)
Definition back_off (now : Z) : Round :=
  match ctx_done with
  | Some c => if (c <=? now + backoff)%Z then timeout_at (Z.max now c) else GoesOn (now + backoff)
  | None => GoesOn (now + backoff)
  end.

Definition poll_round (id : string) (deadline : Z) (n : nat) (now : Z) : Round :=
  let remaining := (deadline - now)%Z in
  if (remaining <=? 0)%Z then timeout_at now
  else if negb (url_ok h) then timeout_at now
  else
    let '(took, reply) := http n now (iter_timeout remaining) (poll_request h id) in
    let now := (now + took)%Z in
    match reply with
    | HttpError => if is_done now then timeout_at now else back_off now
    | HttpResponse _ _ false => back_off now
    | HttpResponse code body true =>
        match poll_verdict code body with Some r => Ends r now | None => GoesOn now end
    end.

(** pollLoop, with [n] exchanges made: [None] when the fuel runs out. *)
Fixpoint poll_loop (fuel : nat) (id : string) (deadline : Z) (n : nat) (now : Z) : option (Result * Z) :=
  match fuel with
  | O => None
  | S fuel =>
      match poll_round id deadline n now with
      | Ends r t => Some (r, t)
      | GoesOn t => poll_loop fuel id deadline (S n) t
      end
  end.

(** pollLoop begun at [start]; the submission was exchange 0. *)
Definition pollLoop (fuel : nat) (id : string) (start : Z) : option (Result * Z) :=
  poll_loop fuel id (start + total_timeout h) 1 start.

End Poll.

End Hosted.
