(* ===== verification/SignerHostedProps.v ===== *)
(** * What the hosted approver guarantees

    The polling ends, and when; what an approval rests on; and where its requests
    go. *)

From S2P Require Import Prelude Json JsonProps JsonValue JsonValueProps Base64 Sigwire GateVerify SignerDaemon SignerWire GoTime SignerHosted.
Import JsonValue Daemon Wire Hosted.

(** ** The loop ends *)

Section Poll.
Variables (h : HostedServerBackend) (http : Transport) (ctx_done : option Z) (slack : Z).

(** An exchange takes some time, and no more than a little after its timeout or
    its caller's context; begun after the context is done, it is an error. *)
Definition timely : Prop := forall n now d r,
  let '(took, reply) := http n now d r in
  (0 < took <= Z.max 0 d + slack)%Z
  /\ match ctx_done with
     | Some c => (took <= Z.max 0 (c - now) + slack)%Z /\ ((c <= now)%Z -> reply = HttpError)
     | None => True
     end.

Hypothesis (Htimely : timely).

(** The latest a poll ends that is begun at [start]. *)
Definition last_end (deadline start : Z) : Z := Z.max start (deadline + slack + backoff).

(** No later than [k] slacks after the caller's context is done. *)
Definition in_context (k start t : Z) : Prop :=
  match ctx_done with Some c => (t <= Z.max c start + k * slack)%Z | None => True end.

Lemma slack_pos : (0 < slack)%Z.
Proof.
  pose proof (Htimely 0 0%Z 0%Z (mkHttp "" "" [] [])) as Ht. destruct (http _ _ _ _) as [took r]. lia.
Qed.

Lemma back_off_round now :
  match back_off ctx_done now with
  | Ends r t => (now <= t <= now + backoff)%Z /\ Status r = StatusTimeout
                /\ match ctx_done with Some c => t = Z.max now c | None => False end
  | GoesOn t => t = (now + backoff)%Z /\ is_done ctx_done t = false
  end.
Proof.
  unfold back_off, is_done. destruct ctx_done as [c|]; [|done].
  assert (0 < backoff)%Z by (by vm_compute). destruct (c <=? now + backoff)%Z eqn:E; bool_hyps.
  - unfold timeout_at. cbn [Status]. split; [lia|done].
  - split; [done|]. apply Z.leb_gt. lia.
Qed.

(** A round moves time on, and stays in its bounds. *)
Definition round_ok (deadline now : Z) (r : Round) : Prop :=
  match r with
  | Ends _ t => (now <= t <= last_end deadline now)%Z /\ in_context 1 now t
  | GoesOn t => (now < deadline)%Z /\ (now < t <= deadline + slack + backoff)%Z
                /\ match ctx_done with Some c => (now < c /\ t <= c + slack)%Z | None => True end
  end.

(** The exchange of the round, and what may follow it. *)
Lemma exchanged_ok deadline now took (Hnow : (now < deadline)%Z)
    (Ht : (0 < took <= deadline - now + slack)%Z)
    (Hc : match ctx_done with Some c => (took <= Z.max 0 (c - now) + slack)%Z | None => True end) :
  (forall r, round_ok deadline now (Ends r (now + took)))
  /\ (match ctx_done with Some c => (now < c)%Z | None => True end ->
      round_ok deadline now (GoesOn (now + took)) /\ round_ok deadline now (back_off ctx_done (now + took))).
Proof.
  pose proof slack_pos as Hs. assert (0 < backoff)%Z as Hb by (by vm_compute).
  unfold round_ok, last_end, in_context. split.
  { intros r. split; [lia|]. destruct ctx_done; [lia|done]. }
  intros Hlive. split; [repeat split; try lia; destruct ctx_done; [lia|done]|].
  pose proof (back_off_round (now + took)) as Hr.
  destruct (back_off ctx_done (now + took)) as [r t|t].
  - destruct Hr as (Hr1 & _ & Hr2). split; [lia|]. destruct ctx_done; [lia|done].
  - destruct Hr as (-> & Hd). split; [lia|]. split; [lia|]. unfold is_done in Hd.
    destruct ctx_done; [bool_hyps; lia|done].
Qed.

Lemma round_bounds id deadline n now :
  round_ok deadline now (poll_round h http ctx_done id deadline n now).
Proof.
  pose proof slack_pos as Hs. assert (0 < backoff)%Z as Hb by (by vm_compute).
  assert (round_ok deadline now (timeout_at now)) as Hnow.
  { unfold round_ok, timeout_at, last_end, in_context. split; [lia|destruct ctx_done; [lia|done]]. }
  unfold poll_round. destruct (deadline - now <=? 0)%Z eqn:E; [done|]. bool_hyps.
  destruct (url_ok h); cbn [negb]; [|done].
  pose proof (Htimely n now (iter_timeout h (deadline - now)) (poll_request h id)) as Ht.
  assert (iter_timeout h (deadline - now) <= deadline - now)%Z as Hi.
  { unfold iter_timeout. destruct (_ <? _)%Z eqn:E'; bool_hyps; lia. }
  destruct (http _ _ _ _) as [took reply]. destruct Ht as [Ht Hc].
  destruct (exchanged_ok deadline now took) as [He Hg]; [lia|lia|destruct ctx_done; [lia|done]|].
  assert (reply <> HttpError -> match ctx_done with Some c => (now < c)%Z | None => True end) as Hlive.
  { intros Hne. destruct ctx_done as [c|]; [|done]. destruct (Z.lt_ge_cases now c); [done|].
    destruct Hc as [_ Hc]. by destruct Hne; apply Hc. }
  destruct reply as [|code body [|]].
  - destruct (is_done ctx_done (now + took)) eqn:Ed; [apply He|]. apply Hg.
    unfold is_done in Ed. destruct ctx_done; [bool_hyps; lia|done].
  - destruct (poll_verdict code body); [apply He|]. by apply Hg, Hlive.
  - by apply Hg, Hlive.
Qed.

Lemma poll_loop_ends fuel : forall id start deadline n now,
  Z.to_nat (deadline - now) < fuel -> (start <= now <= last_end deadline start)%Z ->
  in_context 1 start now ->
  exists r t, poll_loop h http ctx_done fuel id deadline n now = Some (r, t)
    /\ (start <= t <= last_end deadline start)%Z /\ in_context 2 start t.
Proof.
  pose proof slack_pos as Hs.
  induction fuel as [|fuel IH]; intros id start deadline n now Hf Hnow Hc; [lia|]. cbn [poll_loop].
  pose proof (round_bounds id deadline n now) as Hr. unfold round_ok, last_end, in_context in *.
  destruct (poll_round _ _ _ _ _ _ _) as [r t|t].
  - exists r, t. split; [done|]. split; [lia|destruct ctx_done; [lia|done]].
  - apply IH; [lia|lia|destruct ctx_done; [lia|done]].
Qed.

(** C27: Waiting for a hosted decision always ends: with one step of fuel for every
    nanosecond of the budget the loop has a result, whatever the server does,
    not later than the budget's end, one exchange's slack and one backoff, and
    with the caller's context up to the slack of two exchanges. *)
Theorem poll_ends (fuel : nat) (id : string) (start : Z)
    (Hfuel : Z.to_nat (total_timeout h) < fuel) :
  exists r t, pollLoop h http ctx_done fuel id start = Some (r, t)
    /\ (start <= t <= last_end (start + total_timeout h) start)%Z /\ in_context 2 start t.
Proof.
  pose proof slack_pos. apply poll_loop_ends.
  - by replace (start + total_timeout h - start)%Z with (total_timeout h) by lia.
  - unfold last_end. lia.
  - unfold in_context. destruct ctx_done; [lia|done].
Qed.

End Poll.

(** ** What a decision rests on *)

Section Verdict.
Variables (h : HostedServerBackend) (http : Transport) (ctx_done : option Z).

(** The server's word for a result, in the answer to one of the polls. *)
Definition server_said (id : string) (deadline : Z) (r : Result) (t : Z) : Prop :=
  exists n now took body b,
    (now < deadline)%Z /\ t = (now + took)%Z
    /\ http n now (iter_timeout h (deadline - now)) (poll_request h id) = (took, HttpResponse 200 body true)
    /\ Unmarshal poll_decoder body zero_poll = (b, true)
    /\ ((pbStatus b = "approved" /\ r = mkRes StatusApproved (pbApprovedBy b) (elems (pbSignatures b)))
        \/ (pbStatus b = "denied" /\ r = mkRes StatusDenied (pbApprovedBy b) [])).

Lemma verdict_cases code body r :
  poll_verdict code body = Some r ->
  r = mkRes StatusTimeout "" []
  \/ (code = 200%Z /\ exists b, Unmarshal poll_decoder body zero_poll = (b, true)
      /\ ((pbStatus b = "approved" /\ r = mkRes StatusApproved (pbApprovedBy b) (elems (pbSignatures b)))
          \/ (pbStatus b = "denied" /\ r = mkRes StatusDenied (pbApprovedBy b) []))).
Proof.
  unfold poll_verdict. destruct (code =? 200)%Z eqn:Ec; cbn [negb]; [|intros [= <-]; by left].
  destruct (Unmarshal _ _ _) as [b ok]. destruct ok; cbn [negb]; [|intros [= <-]; by left].
  apply Z.eqb_eq in Ec. destruct (pbStatus b =s "approved") eqn:E1.
  { intros [= <-]. right. split; [done|]. exists b. split; [done|]. left. by bool_hyps. }
  destruct (pbStatus b =s "denied") eqn:E2.
  { intros [= <-]. right. split; [done|]. exists b. split; [done|]. right. by bool_hyps. }
  destruct (pbStatus b =s "error"); [intros [= <-]; by left|].
  destruct (_ || _); [done|]. intros [= <-]. by left.
Qed.

Lemma back_off_timeout now r t : back_off ctx_done now = Ends r t -> r = mkRes StatusTimeout "" [].
Proof. unfold back_off, timeout_at. destruct ctx_done; [case_match|]; by intros [= <- _]. Qed.

(** No hosted decision is made up: a result is a timeout without approver or
    signatures, or it says, with the approver and the signatures given there,
    what an answer of the server to a poll for this request said, in a body that
    came whole, with status 200, to a poll begun within the budget. *)
Theorem hosted_verdicts (fuel : nat) (id : string) (start : Z) (r : Result) (t : Z)
    (Hr : pollLoop h http ctx_done fuel id start = Some (r, t)) :
  r = mkRes StatusTimeout "" [] \/ server_said id (start + total_timeout h) r t.
Proof.
  unfold pollLoop in Hr. revert Hr. generalize (start + total_timeout h)%Z as deadline.
  generalize 1 as n. revert start. induction fuel as [|fuel IH]; intros now n deadline Hr; [done|].
  cbn [poll_loop] in Hr.
  assert (match poll_round h http ctx_done id deadline n now with
    | Ends r t => r = mkRes StatusTimeout "" [] \/ server_said id deadline r t
    | GoesOn _ => True end) as Hround.
  { unfold poll_round, timeout_at. destruct (_ <=? 0)%Z eqn:E; [by left|].
    destruct (url_ok h); [|by left]. cbn [negb].
    destruct (http _ _ _ _) as [took reply] eqn:Eh. destruct reply as [|code body [|]].
    - destruct (is_done _ _); [by left|]. destruct (back_off _ _) eqn:Eb; [|done].
      left. by eapply back_off_timeout.
    - destruct (poll_verdict code body) as [r'|] eqn:Ev; [|done].
      destruct (verdict_cases _ _ _ Ev) as [->|(-> & b & Hb & Hs)]; [by left|].
      right. exists n, now, took, body, b. bool_hyps. split; [lia|]. by repeat split.
    - destruct (back_off _ _) eqn:Eb; [|done]. left. by eapply back_off_timeout. }
  destruct (poll_round _ _ _ _ _ _ _) as [r' t'|t']; [by simplify_eq|]. by eapply IH.
Qed.

End Verdict.

(** ** Where requests go *)

(** What a hosted submission sends: nothing when the backend is not configured
    or a command is a reveal, and otherwise one POST, to the configured origin,
    with the key, whose body is the client and, in order, the alias, the text
    and the lifetime of every command; and an id to poll for comes only from an
    answer 202 with an id that is not empty. *)
Theorem hosted_submits (h : HostedServerBackend) (http : Transport) (t0 : Z) (req : ApprovalRequest) :
  let '(sent, t, res) := Request h http t0 req in
  (sent = [] /\ t = t0 /\ exists err, res = inr err)
  \/ (sent = [mkHttp "POST" (trim_slashes (BaseURL h) +:+ "/v1/sign")
                [("Authorization", "Bearer " +:+ APIKey h); ("Content-Type", "application/json");
                 ("Accept", "application/json")]
                (write_value (sign_body h req))]
      /\ APIKey h <> "" /\ ClientID h <> "" /\ Forall (fun c => crReveal c = false) (arCommands req)
      /\ forall id, res = inl id ->
           id <> "" /\ exists took body whole url,
             http 0 t0 (total_timeout h) (submit_request h req) = (took, HttpResponse 202 body whole)
             /\ Decode accepted_decoder body ("", "") = (id, url, true)).
Proof.
  unfold Request. destruct (validate h) eqn:Ev; [left; eauto|].
  destruct (existsb crReveal (arCommands req)) eqn:Er; [left; eauto|].
  destruct (url_ok h); cbn [negb]; [|left; eauto].
  destruct (http _ _ _ _) as [took reply] eqn:Eh. right. split; [done|].
  unfold validate in Ev. destruct (BaseURL h =s ""); [done|].
  destruct (APIKey h =s "") eqn:Ea; [done|]. destruct (ClientID h =s "") eqn:Ec; [done|]. bool_hyps.
  do 2 (split; [done|]). split.
  { apply Forall_forall. intros c Hc. apply not_true_iff_false. intros Ht.
    apply not_true_iff_false in Er. apply Er, existsb_exists. exists c.
    split; [by apply list_elem_of_In|done]. }
  intros id. destruct reply as [|code body whole]; [done|].
  destruct (code =? 202)%Z eqn:Ecode; cbn [negb]; [|done]. apply Z.eqb_eq in Ecode as ->.
  destruct (Decode _ _ _) as [[id' u] ok] eqn:Ed. destruct ok; cbn [negb]; [|done].
  destruct (id' =s "") eqn:Ei; [done|]. intros [= <-]. bool_hyps. split; [done|].
  by exists took, body, whole, u.
Qed.

(** Whatever id the server chose, it stays one segment of the poll's path. *)
Lemma path_escape_segment s :
  Forall (fun c => c <> "/"%char /\ c <> "?"%char /\ c <> "#"%char) (bytes (PathEscape s)).
Proof.
  assert (forall v, (0 <= v < 16)%Z -> existsb (Ascii.eqb (hex_digit v)) (bytes "0123456789ABCDEF") = true) as Hhex.
  { intros v Hv. assert (v = 0 \/ v = 1 \/ v = 2 \/ v = 3 \/ v = 4 \/ v = 5 \/ v = 6 \/ v = 7 \/ v = 8
      \/ v = 9 \/ v = 10 \/ v = 11 \/ v = 12 \/ v = 13 \/ v = 14 \/ v = 15)%Z as Hc by lia.
    repeat (destruct Hc as [->|Hc]; [reflexivity|]). by subst. }
  assert (forall c, existsb (Ascii.eqb c) (bytes "0123456789ABCDEF") = true ->
            c <> "/"%char /\ c <> "?"%char /\ c <> "#"%char) as Hplain.
  { intros c Hc. repeat split; intros ->; by vm_compute in Hc. }
  induction s as [|c s IH]; [constructor|]. cbn [PathEscape].
  destruct (path_plain c) eqn:Ep; unfold bytes in *; cbn [list_ascii_of_string].
  - constructor; [|done]. repeat split; intros ->; by vm_compute in Ep.
  - assert (0 <= byte_val c < 256)%Z as Hb by apply byte_val_range.
    constructor; [done|]. constructor; [apply Hplain, Hhex; lia|].
    constructor; [apply Hplain, Hhex; lia|done].
Qed.

(** ** The budget

    The comment on Timeout says it covers the submission and the polls; pollLoop
    starts a budget of its own. *)
Definition says (name word : string) : list ascii := write_value (VObj (member name (vstr word))).

Definition slow_server : Transport := fun n _ d _ =>
  match n with
  | O => (50 * Sigwire.Second, HttpResponse 202 (says "request_id" "r") true)%Z
  | _ => (Z.max 1 (Z.min d (30 * Sigwire.Second)), HttpResponse 200 (says "status" "pending") true)%Z
  end.

Definition sample_hosted : HostedServerBackend :=
  mkHosted "https://signer.example.com/" "k" "laptop" 0 0 true.

Definition sample_approval : ApprovalRequest := mkApproval "q" [mkCommandReq "web" "reboot" 60 false ""].

(** A request with the default budget of one minute that is answered after almost
    two. *)
Lemma budget_restarts :
  exists r t, (Request sample_hosted slow_server 0 sample_approval).2 = inl "r"
    /\ (Request sample_hosted slow_server 0 sample_approval).1.2 = (50 * Sigwire.Second)%Z
    /\ pollLoop sample_hosted slow_server None 4 "r" (50 * Sigwire.Second) = Some (r, t)
    /\ total_timeout sample_hosted = (60 * Sigwire.Second)%Z /\ t = (110 * Sigwire.Second)%Z.
Proof. eexists _, _. split_and!; vm_compute; reflexivity. Qed.

(** ** Witnesses *)

Definition quick_server : Transport := fun n _ _ _ =>
  match n with
  | O => (1, HttpResponse 202 (says "request_id" "r") true)%Z
  | S O => (1, HttpResponse 200 (says "status" "pending") true)%Z
  | _ => (1, HttpResponse 200 (says "status" "approved") true)%Z
  end.

(** A budget of ten nanoseconds. *)
Definition hasty_hosted : HostedServerBackend := mkHosted "https://signer.example.com/" "k" "laptop" 0 10 true.

Lemma poll_ends_witness :
  exists r t, pollLoop hasty_hosted quick_server None 11 "r" 0 = Some (r, t)
    /\ (0 <= t <= last_end 1 (0 + 10) 0)%Z.
Proof.
  destruct (poll_ends hasty_hosted quick_server None 1) with (fuel := 11) (id := "r") (start := 0%Z)
    as (r & t & Hp & Ht & _).
  - intros n now d r. destruct n as [|[|n]]; cbn; (split; [lia|done]).
  - by apply Nat.ltb_lt.
  - exists r, t. split; [exact Hp|exact Ht].
Defined.

Lemma hosted_verdicts_witness :
  server_said sample_hosted quick_server "r" (0 + total_timeout sample_hosted)
    (mkRes StatusApproved "" []) 2.
Proof.
  assert (pollLoop sample_hosted quick_server None 3 "r" 0 = Some (mkRes StatusApproved "" [], 2%Z)) as Hp
    by (vm_compute; reflexivity).
  destruct (hosted_verdicts sample_hosted quick_server None 3 "r" 0 _ _ Hp) as [Hr|Hr]; [discriminate Hr|exact Hr].
Defined.
