(* ===== verification/SignerServer.v ===== *)
(** * The signer-server (src/signer-server)

    The HTTP service a hosted approver talks to: its store of requests over
    SQLite, its handlers and its routes.  The schema and the statements are the
    store's own, with their conditions and assignments; the database is what runs
    them ([SQLite]), by what SQL says of any such statement ([SQLiteLaws]).  The
    decision itself comes from outside, through UpdateStatus.
    Times are nanoseconds, and columns hold whole seconds. *)

From Stdlib Require Import Sorting.Sorted.
From S2P Require Import Prelude Json JsonValue Base64 Sigwire SignerDaemon SignerWire GoTime SignerHosted.

Module Store.
Import JsonValue.

(** Status *)
Definition StatusPending : string := "pending".
Definition StatusApproved : string := "approved".
Definition StatusDenied : string := "denied".
Definition StatusTimeout : string := "timeout".
Definition StatusError : string := "error".

(** IsValid *)
Definition IsValid (s : string) : bool :=
  GoStr.one_of s [StatusPending; StatusApproved; StatusDenied; StatusTimeout; StatusError].

(** A row of the table. *)
Record Row := mkRow {
  request_id : string; status : string; client_id : string; commands : string;
  signatures : option string; created_at : Z; resolved_at : option Z; approved_by : option string
}.

#[export] Instance Row_eq_dec : EqDecision Row.
Proof. solve_decision. Defined.

(** Request *)
Record Request := mkRequest {
  RequestID : string; Status : string; ClientID : string; Commands : list ascii;
  Signatures : list ascii; CreatedAt : Z; ResolvedAt : option Z; ApprovedBy : string
}.

(** ** SQL

    The columns of the table requests, the values in them, and the statements that
    the store sends with their arguments filled in. *)

Inductive Column :=
  | c_request_id | c_status | c_client_id | c_commands
  | c_signatures | c_created_at | c_resolved_at | c_approved_by.

Inductive Val := NULL | TEXT (s : string) | INTEGER (z : Z).

#[export] Instance Val_eq_dec : EqDecision Val.
Proof. solve_decision. Defined.

(** CREATE TABLE IF NOT EXISTS. *)
Record Schema := mkSchema { columns : list Column; primary_key : option Column }.

(** A conjunction of [column = value]; the assignments of a SET. *)
Definition Where : Type := list (Column * Val).
Definition Assign : Type := list (Column * Val).

Record Update := mkUpdate { set : Assign; update_where : Where }.

(** A SELECT of all columns: its conditions, its order, whether descending, and its
    limit. *)
Record Select := mkSelect { select_where : Where; order : option (Column * bool); limit : option Z }.

Definition optional (o : option string) : Val := match o with Some s => TEXT s | None => NULL end.

(** The value of a column. *)
Definition col (c : Column) (r : Row) : Val :=
  match c with
  | c_request_id => TEXT (request_id r)
  | c_status => TEXT (status r)
  | c_client_id => TEXT (client_id r)
  | c_commands => TEXT (commands r)
  | c_signatures => optional (signatures r)
  | c_created_at => INTEGER (created_at r)
  | c_resolved_at => match resolved_at r with Some t => INTEGER t | None => NULL end
  | c_approved_by => optional (approved_by r)
  end.

(** A comparison with NULL is not true. *)
Definition sql_eq (a b : Val) : bool :=
  match a, b with
  | TEXT s, TEXT t => s =s t
  | INTEGER x, INTEGER y => (x =? y)%Z
  | _, _ => false
  end.

Definition holds (w : Where) (r : Row) : bool := forallb (fun cv => sql_eq (col cv.1 r) cv.2) w.

(** One assignment; [None] where the column does not take the value. *)
Definition set_col (c : Column) (v : Val) (r : Row) : option Row :=
  let 'mkRow id st cl cmds sigs cr re by_ := r in
  match c, v with
  | c_request_id, TEXT s => Some (mkRow s st cl cmds sigs cr re by_)
  | c_status, TEXT s => Some (mkRow id s cl cmds sigs cr re by_)
  | c_client_id, TEXT s => Some (mkRow id st s cmds sigs cr re by_)
  | c_commands, TEXT s => Some (mkRow id st cl s sigs cr re by_)
  | c_signatures, TEXT s => Some (mkRow id st cl cmds (Some s) cr re by_)
  | c_signatures, NULL => Some (mkRow id st cl cmds None cr re by_)
  | c_created_at, INTEGER z => Some (mkRow id st cl cmds sigs z re by_)
  | c_resolved_at, INTEGER z => Some (mkRow id st cl cmds sigs cr (Some z) by_)
  | c_resolved_at, NULL => Some (mkRow id st cl cmds sigs cr None by_)
  | c_approved_by, TEXT s => Some (mkRow id st cl cmds sigs cr re (Some s))
  | c_approved_by, NULL => Some (mkRow id st cl cmds sigs cr re None)
  | _, _ => None
  end.

Fixpoint assign (a : Assign) (r : Row) : option Row :=
  match a with
  | [] => Some r
  | (c, v) :: a => match set_col c v r with Some r => assign a r | None => None end
  end.

(** What an UPDATE makes of a row. *)
Definition updated (u : Update) (r : Row) : Row :=
  if holds (update_where u) r then default r (assign (set u) r) else r.

(** In the order of a SELECT, as far as integers go. *)
Definition in_order (o : option (Column * bool)) (a b : Row) : Prop :=
  match o with
  | Some (c, desc) =>
      match col c a, col c b with
      | INTEGER x, INTEGER y => if desc then (y <= x)%Z else (x <= y)%Z
      | _, _ => True
      end
  | None => True
  end.

(** The database runs statements; an error is its text. *)
Class SQLite := {
  db : Type;
  exec_create : Schema -> db -> db * option string;
  exec_insert : Row -> db -> db * option string;
  exec_update : Update -> db -> db * option string;
  query : Select -> db -> list Row + string
}.

(** What SQL says of them, for any statement of the kind.  The table has the schema
    it was created with, once.  An insert adds its row, whose primary key is NULL or
    new; an update changes the rows its conditions hold of; a query gives the rows
    its conditions hold of, in order, up to the limit; and a statement that fails
    changes nothing. *)
Class SQLiteLaws (S : SQLite) := {
  schema_of : db -> option Schema;
  rows : db -> list Row;
  empty_db : db;
  empty_no_table : schema_of empty_db = None;
  no_table_rows d : schema_of d = None -> rows d = [];
  create_table sc d :
    match exec_create sc d with
    | (d', None) => schema_of d' = Some (default sc (schema_of d)) /\ Permutation (rows d') (rows d)
    | (d', Some _) => schema_of d' = schema_of d /\ Permutation (rows d') (rows d)
    end;
  insert_rows r d :
    match exec_insert r d with
    | (d', None) =>
        schema_of d' = schema_of d /\ Permutation (rows d') (r :: rows d)
        /\ forall sc k, schema_of d = Some sc -> primary_key sc = Some k -> col k r <> NULL ->
             ~ In (col k r) (map (col k) (rows d))
    | (d', Some _) => schema_of d' = schema_of d /\ Permutation (rows d') (rows d)
    end;
  update_rows u d :
    (forall r, assign (set u) r <> None) ->
    match exec_update u d with
    | (d', None) => schema_of d' = schema_of d /\ Permutation (rows d') (map (updated u) (rows d))
    | (d', Some _) => schema_of d' = schema_of d /\ Permutation (rows d') (rows d)
    end;
  query_rows q d :
    match query q d with
    | inl rs => exists more,
        Permutation (rs ++ more) (List.filter (holds (select_where q)) (rows d))
        /\ StronglySorted (in_order (order q)) (rs ++ more)
        /\ match limit q with
           | Some n => (0 <= n)%Z -> List.length rs = min (Z.to_nat n) (List.length (rs ++ more))
           | None => more = []
           end
    | inr _ => True
    end
}.

(** ** The store's statements *)

(** schema; its indices change no answer. *)
Definition schema : Schema :=
  mkSchema [c_request_id; c_status; c_client_id; c_commands; c_signatures; c_created_at;
            c_resolved_at; c_approved_by] (Some c_request_id).

(** GetByID: WHERE request_id = ? *)
Definition select_by_id (id : string) : Select := mkSelect [(c_request_id, TEXT id)] None None.

(** UpdateStatus: SET status, signatures, resolved_at, approved_by
    WHERE request_id = ? AND status = 'pending' *)
Definition update_status (st : string) (sigs : option string) (now : Z) (by_ : option string)
    (id : string) : Update :=
  mkUpdate [(c_status, TEXT st); (c_signatures, optional sigs); (c_resolved_at, INTEGER now);
            (c_approved_by, optional by_)]
    [(c_request_id, TEXT id); (c_status, TEXT StatusPending)].

(** ListPending: WHERE status = ? ORDER BY created_at ASC *)
Definition select_pending : Select :=
  mkSelect [(c_status, TEXT StatusPending)] (Some (c_created_at, false)) None.

(** RecentAudit: ORDER BY created_at DESC LIMIT ? *)
Definition select_recent (n : Z) : Select := mkSelect [] (Some (c_created_at, true)) (Some n).

(** nullableString and nullableEmpty *)
Definition nullableString (b : list ascii) : option string :=
  match b with [] => None | _ => Some (str b) end.
Definition nullableEmpty (s : string) : option string := if s =s "" then None else Some s.

(** The zero time.Time, and Unix. *)
Definition zero_time : Z := -62135596800 * Sigwire.Second.
Definition unix (t : Z) : Z := (t / Sigwire.Second)%Z.

(** nullableTime *)
Definition nullableTime (t : option Z) : option Z :=
  match t with
  | Some t => if (t =? zero_time)%Z then None else Some (unix t)
  | None => None
  end.

(** scanRequest *)
Definition scanRequest (r : Row) : Request :=
  mkRequest (request_id r) (status r) (client_id r) (bytes (commands r))
    (match signatures r with Some s => bytes s | None => [] end)
    (created_at r * Sigwire.Second) (option_map (fun t => t * Sigwire.Second)%Z (resolved_at r))
    (match approved_by r with Some s => s | None => "" end).

Definition lower (c : ascii) : ascii := if GoStr.in_range "A" "Z" c then byte_of (byte_val c + 32) else c.

(** The inner loop of containsCI. *)
Fixpoint prefixCI (needle haystack : string) : bool :=
  match needle, haystack with
  | EmptyString, _ => true
  | String b needle, String a haystack => (lower a =c lower b) && prefixCI needle haystack
  | _, _ => false
  end.

(** containsCI *)
Fixpoint containsCI (haystack needle : string) : bool :=
  prefixCI needle haystack
  || match haystack with EmptyString => false | String _ rest => containsCI rest needle end.

(** isUniqueConstraintErr *)
Definition isUniqueConstraintErr (text : string) : bool := containsCI text "UNIQUE constraint failed".

Inductive StoreErr :=
  | EmptyID | InvalidStatus (s : string) | EmptyCommands
  | ErrDuplicateID (id : string) | ErrNotFound | Driver (text : string) | ContextDone.

Section Store.
Context `{SQLite}.

(** Open, of a database whose driver is ready: the schema is applied. *)
Definition Open (d : db) : db * option string := exec_create schema d.

(** What Insert writes. *)
Definition row_of (now : Z) (r : Request) : Row :=
  let created := if (CreatedAt r =? zero_time)%Z then now else CreatedAt r in
  mkRow (RequestID r) (Status r) (ClientID r) (str (Commands r)) (nullableString (Signatures r))
    (unix created) (nullableTime (ResolvedAt r)) (nullableEmpty (ApprovedBy r)).

(** Insert *)
Definition Insert (now : Z) (r : Request) (d : db) : db * option StoreErr :=
  if RequestID r =s "" then (d, Some EmptyID)
  else if negb (IsValid (Status r)) then (d, Some (InvalidStatus (Status r)))
  else match Commands r with
       | [] => (d, Some EmptyCommands)
       | _ =>
           let '(d, err) := exec_insert (row_of now r) d in
           (d, option_map (fun text => if isUniqueConstraintErr text
                                       then ErrDuplicateID (RequestID r) else Driver text) err)
       end.

(** GetByID *)
Definition GetByID (id : string) (d : db) : Request + StoreErr :=
  match query (select_by_id id) d with
  | inl (r :: _) => inl (scanRequest r)
  | inl [] => inr ErrNotFound
  | inr text => inr (Driver text)
  end.

(** UpdateStatus *)
Definition UpdateStatus (now : Z) (id st : string) (sigs : list ascii) (by_ : string) (d : db)
    : db * option StoreErr :=
  if negb (IsValid st) then (d, Some (InvalidStatus st))
  else let u := update_status st (nullableString sigs) (unix now) (nullableEmpty by_) id in
       let '(d, err) := exec_update u d in
       (d, option_map Driver err).

(** One turn of the select in WaitForResolution: the context is done, or a tick
    comes, at a time and on a database. *)
Inductive Turn := Done | Tick (now : Z) (d : db).

(** The loop of WaitForResolution; [None] while it goes on waiting. *)
Fixpoint wait_loop (id : string) (deadline : Z) (turns : list Turn) : option (Request + StoreErr) :=
  match turns with
  | [] => None
  | Done :: _ => Some (inr ContextDone)
  | Tick now d :: turns =>
      match GetByID id d with
      | inr err => Some (inr err)
      | inl r =>
          if negb (Status r =s StatusPending) then Some (inl r)
          else if (deadline <? now)%Z then Some (inl r)
          else wait_loop id deadline turns
      end
  end.

(** WaitForResolution, begun at [start] on the database [d]. *)
Definition WaitForResolution (start : Z) (id : string) (timeout : Z) (d : db) (turns : list Turn)
    : option (Request + StoreErr) :=
  match GetByID id d with
  | inr err => Some (inr err)
  | inl r => if negb (Status r =s StatusPending) then Some (inl r)
             else wait_loop id (start + timeout) turns
  end.

(** ListPending and RecentAudit *)
Definition ListPending (d : db) : list Request + StoreErr :=
  match query select_pending d with
  | inl rs => inl (map scanRequest rs)
  | inr text => inr (Driver text)
  end.

Definition RecentAudit (limit : Z) (d : db) : list Request + StoreErr :=
  match query (select_recent (if (limit <=? 0)%Z then 100 else limit)%Z) d with
  | inl rs => inl (map scanRequest rs)
  | inr text => inr (Driver text)
  end.

End Store.

End Store.

Module Server.
Import JsonValue Daemon Wire Store.

(** signRequestCmd *)
Record signRequestCmd := mkServerCmd { scServer : string; scText : string; scTTL : Z }.

Definition cmd_decoder (strict : bool) : decoder signRequestCmd :=
  decode_struct strict
    [field "server" decode_string scServer (fun x c => mkServerCmd x (scText c) (scTTL c));
     field "cmd" decode_string scText (fun x c => mkServerCmd (scServer c) x (scTTL c));
     field "ttl_seconds" decode_int64 scTTL (fun x c => mkServerCmd (scServer c) (scText c) x)].

Definition cmd_value (c : signRequestCmd) : value :=
  VObj (member "server" (vstr (scServer c)) ++ member "cmd" (vstr (scText c))
        ++ member "ttl_seconds" (vint (scTTL c))).

(** signRequest *)
Record signRequest := mkSignRequest {
  rqClientID : string; rqCommands : slice signRequestCmd;
  rqContext : option (list (list ascii * value))
}.

Definition zero_cmd : signRequestCmd := mkServerCmd "" "" 0.

Definition request_decoder : decoder signRequest :=
  decode_struct true
    [field "client_id" decode_string rqClientID (fun x d => mkSignRequest x (rqCommands d) (rqContext d));
     field "commands" (decode_slice zero_cmd (cmd_decoder true)) rqCommands
       (fun x d => mkSignRequest (rqClientID d) x (rqContext d));
     field "context" decode_map rqContext (fun x d => mkSignRequest (rqClientID d) (rqCommands d) x)].

(** signedCmd, as the store's blob holds it. *)
Definition sigs_decoder : decoder (slice SignedCmd) := decode_slice (mkSigned "" "") sig_decoder.

(** Why a request is refused. *)
Inductive Refusal :=
  | Unauthorized | MalformedRequest | ClientIDRequired | CommandsRequired
  | CmdEmpty (i : nat) | TTLNotPositive (i : nat) | StoreInsert | UnknownRequestID | WaitFailed | AuditFailed.

(** pollResponse *)
Record pollResponse := mkPollResponse {
  prID : string; prStatus : string; prSignatures : list SignedCmd; prApprovedBy : string;
  prApprovedAt : option Z
}.

(** auditEntry *)
Record auditEntry := mkAuditEntry {
  aeID : string; aeStatus : string; aeClientID : string; aeCommands : list string;
  aeApprovedBy : string; aeCreatedAt : Z; aeResolvedAt : option Z
}.

(** The bodies of responses. *)
Inductive Body :=
  | Text (s : string)
  | Error (why : Refusal)
  | Accepted (rid : string)
  | Poll (p : pollResponse)
  | AuditList (entries : list auditEntry).

Record HttpResp := mkResp { code : Z; body : Body }.

(** What is written for the bodies a hosted client reads. *)
Definition accepted_value (rid : string) : value :=
  VObj (member "request_id" (vstr rid) ++ member "poll_url" (vstr ("/v1/poll/" +:+ rid))).

Definition poll_value (p : pollResponse) : value :=
  VObj (member "request_id" (vstr (prID p)) ++ member "status" (vstr (prStatus p))
        ++ omitempty (is_nil (prSignatures p)) "signatures" (VArr (map sig_value (prSignatures p)))
        ++ omitempty (prApprovedBy p =s "") "approved_by_user" (vstr (prApprovedBy p))
        ++ match prApprovedAt p with
           | Some t => member "approved_at" (vstr (GoTime.RFC3339Nano t))
           | None => []
           end).

(** generateRequestID; [None] is the panic. *)
Definition generateRequestID (rnd : option (list ascii)) : option string :=
  option_map (fun b => "r_" +:+ str (Base64.encode b)) rnd.

(** An HTTP request, as the mux hands it on: its path is decoded. *)
Record HttpReq := mkReq { rMethod : string; rPath : string; rAuth : string; rBody : list ascii }.

(** Server, and what a handler finds. *)
Record Config := mkServer { APIKey : string; PollWait : Z; has_store : bool }.

Record Env `{SQLite} := mkEnv {
  now : Z;
  random : option (list ascii);
  turns : list Turn;
  context_done : bool
}.

(** The validation of handleSign's commands, from index [i]. *)
Fixpoint check_commands (i : nat) (cmds : list signRequestCmd) : option Refusal :=
  match cmds with
  | [] => None
  | c :: cmds =>
      if scText c =s "" then Some (CmdEmpty i)
      else if (scTTL c <=? 0)%Z then Some (TTLNotPositive i)
      else check_commands (S i) cmds
  end.

Section Handlers.
Context `{SQLite}.
Variable sv : Config.

Definition refuse (c : Z) (why : Refusal) : option HttpResp := Some (mkResp c (Error why)).

(** The row handleSign inserts. *)
Definition pending_request (e : Env) (rid : string) (req : signRequest) : Request :=
  mkRequest rid StatusPending (rqClientID req)
    (write_value (VArr (map cmd_value (elems (rqCommands req))))) [] (now e) None "".

(** handleSign; no response is a panic. *)
Definition handleSign (e : Env) (r : HttpReq) (d : db) : db * option HttpResp :=
  let '(req, ok) := Decode request_decoder (rBody r) (mkSignRequest "" nil_slice None) in
  if negb ok then (d, refuse 400 MalformedRequest)
  else if rqClientID req =s "" then (d, refuse 400 ClientIDRequired)
  else match elems (rqCommands req) with
       | [] => (d, refuse 400 CommandsRequired)
       | cmds =>
           match check_commands 0 cmds with
           | Some why => (d, refuse 400 why)
           | None =>
               match generateRequestID (random e) with
               | None => (d, None)
               | Some rid =>
                   let accepted := Some (mkResp 202 (Accepted rid)) in
                   if has_store sv then
                     match Insert (now e) (pending_request e rid req) d with
                     | (d, Some _) => (d, refuse 500 StoreInsert)
                     | (d, None) => (d, accepted)
                     end
                   else (d, accepted)
               end
           end
       end.

(** The body of a poll that found a row. *)
Definition poll_response (res : Request) : pollResponse :=
  if Status res =s StatusPending then
    mkPollResponse (RequestID res) StatusTimeout [] (ApprovedBy res) (ResolvedAt res)
  else
    let sigs :=
      if Status res =s StatusApproved then
        match Signatures res with
        | [] => []
        | blob => let '(s, ok) := Unmarshal sigs_decoder blob nil_slice in if ok then elems s else []
        end
      else [] in
    mkPollResponse (RequestID res) (Status res) sigs (ApprovedBy res) (ResolvedAt res).

(** handlePoll; no response is a wait that goes on, or a client that has gone. *)
Definition handlePoll (e : Env) (rid : string) (d : db) : option HttpResp :=
  if negb (has_store sv) then
    if context_done e then None
    else Some (mkResp 200 (Poll (mkPollResponse rid "timeout" [] "" None)))
  else match WaitForResolution (now e) rid (PollWait sv) d (turns e) with
       | None => None
       | Some (inr ErrNotFound) => refuse 404 UnknownRequestID
       | Some (inr _) => refuse 500 WaitFailed
       | Some (inl res) => Some (mkResp 200 (Poll (poll_response res)))
       end.

(** One entry of handleAudit: commands that do not parse are left as far as they
    were decoded. *)
Definition audit_entry (r : Request) : auditEntry :=
  let '(cmds, _) := Unmarshal (decode_slice zero_cmd (cmd_decoder false)) (Commands r) nil_slice in
  mkAuditEntry (RequestID r) (Status r) (ClientID r) (map scText (elems cmds)) (ApprovedBy r)
    (CreatedAt r) (ResolvedAt r).

(** handleAudit *)
Definition handleAudit (d : db) : option HttpResp :=
  if negb (has_store sv) then Some (mkResp 200 (AuditList []))
  else match RecentAudit 100 d with
       | inr _ => refuse 500 AuditFailed
       | inl rs => Some (mkResp 200 (AuditList (map audit_entry rs)))
       end.

(** withAuth: whether the token is the key. *)
Definition authorized (r : HttpReq) : bool :=
  GoStr.HasPrefix (rAuth r) "Bearer " && (GoStr.drop 7 (rAuth r) =s APIKey sv).

(** The routes; the mux answers the rest. *)
Inductive Route := Healthz | Sign | PollRoute (rid : string) | Audit | NotRouted (c : Z).

Definition get_method (m : string) : bool := (m =s "GET") || (m =s "HEAD").

(** One path segment that is not empty. *)
Definition poll_segment (p : string) : option string :=
  let rest := GoStr.TrimPrefix p "/v1/poll/" in
  if GoStr.HasPrefix p "/v1/poll/" && negb (rest =s "") && negb (GoStr.Contains rest "/")
  then Some rest else None.

Definition routes (m p : string) : Route :=
  if p =s "/healthz" then if get_method m then Healthz else NotRouted 405
  else if p =s "/v1/sign" then if m =s "POST" then Sign else NotRouted 405
  else if p =s "/v1/audit" then if get_method m then Audit else NotRouted 405
  else match poll_segment p with
       | Some rid => if get_method m then PollRoute rid else NotRouted 405
       | None => NotRouted 404
       end.

(** ServeHTTP *)
Definition ServeHTTP (e : Env) (r : HttpReq) (d : db) : db * option HttpResp :=
  match routes (rMethod r) (rPath r) with
  | Healthz => (d, Some (mkResp 200 (Text ("ok" +:+ String NL ""))))
  | NotRouted c => (d, Some (mkResp c (Text "")))
  | route =>
      if negb (authorized r) then (d, refuse 401 Unauthorized)
      else match route with
           | Sign => handleSign e r d
           | PollRoute rid => (d, handlePoll e rid d)
           | _ => (d, handleAudit d)
           end
  end.

(** ** The service as a transition system

    A request is served, or something outside resolves a row. *)
Inductive event :=
  | Serve (e : Env) (r : HttpReq)
  | Resolve (t : Z) (id st : string) (sigs : list ascii) (by_ : string).

Definition step (ev : event) (d : db) : db :=
  match ev with
  | Serve e r => (ServeHTTP e r d).1
  | Resolve t id st sigs by_ => (UpdateStatus t id st sigs by_ d).1
  end.

Definition run (evs : list event) (d : db) : db := fold_left (fun d ev => step ev d) evs d.

End Handlers.

End Server.
