(* ===== verification/SignerServerProps.v ===== *)
(** * What the signer-server guarantees

    Its rows keep their identity and their decision, a poll says what the store
    holds, and the hosted approver at the other end understands it. *)

From Stdlib Require Import Sorting.Sorted.
From stdpp Require Import sorting.
From S2P Require Import Prelude Json JsonProps JsonValue JsonValueProps Base64 Sigwire SigwireProps GateVerify SignerDaemon SignerWire SignerWireProps GoTime SignerHosted SignerServer.
Import Utf8 Json JsonValue Daemon Wire Store Server.

Section Rows.
Context `{S : SQLite} `{!SQLiteLaws S}.
Variable sv : Server.Config.

(** ** Well-formed tables *)

(** A row as the store writes it: it has an id and a known status, and a decision
    has its time. *)
Definition row_ok (r : Row) : Prop :=
  request_id r <> "" /\ IsValid (status r) = true
  /\ (status r <> StatusPending -> resolved_at r <> None).

Definition table_ok (rs : list Row) : Prop := NoDup (map request_id rs) /\ Forall row_ok rs.

Lemma table_ok_perm rs rs' : Permutation rs rs' -> table_ok rs -> table_ok rs'.
Proof.
  intros Hp [Hn Hr]. split; [by rewrite <- Hp|by rewrite <- Hp].
Qed.

(** [r'] is [r], later: the same request, and the same decision if it had one. *)
Definition later (r r' : Row) : Prop :=
  request_id r' = request_id r /\ client_id r' = client_id r /\ commands r' = commands r
  /\ created_at r' = created_at r /\ (status r <> StatusPending -> r' = r).

Lemma later_refl r : later r r.
Proof. by repeat split. Qed.

Lemma later_trans r r' r'' : later r r' -> later r' r'' -> later r r''.
Proof.
  intros (H1 & H2 & H3 & H4 & H5) (G1 & G2 & G3 & G4 & G5). repeat split; try congruence.
  intros Hs. rewrite (H5 Hs) in *. by apply G5.
Qed.

Definition keeps (rs rs' : list Row) : Prop := forall r, In r rs -> exists r', In r' rs' /\ later r r'.

Lemma keeps_trans rs rs' rs'' : keeps rs rs' -> keeps rs' rs'' -> keeps rs rs''.
Proof.
  intros H1 H2 r Hr. destruct (H1 r Hr) as (r' & Hr' & Hl). destruct (H2 r' Hr') as (r'' & Hr'' & Hl').
  exists r''. split; [done|]. by eapply later_trans.
Qed.

(** ** The statements *)

(** The row an update leaves for each: a decision for the pending row of that id. *)
Definition decided (st : string) (sigs : option string) (t : Z) (by_ : option string) (id : string)
    (r : Row) : Row :=
  if (request_id r =s id) && (status r =s StatusPending)
  then mkRow (request_id r) st (client_id r) (commands r) sigs (created_at r) (Some t) by_
  else r.

Lemma updated_decided st sigs t by_ id r :
  updated (update_status st sigs t by_ id) r = decided st sigs t by_ id r.
Proof.
  unfold updated, decided, holds. cbn [update_status update_where set forallb fst snd col sql_eq].
  rewrite andb_true_r. destruct r, (_ && _); [|done]. by destruct sigs, by_.
Qed.

Lemma update_assigns st sigs t by_ id r : assign (set (update_status st sigs t by_ id)) r <> None.
Proof. destruct r. by destruct sigs, by_. Qed.

Lemma key_new id (rs : list Row) :
  ~ In (TEXT id) (map (col c_request_id) rs) -> ~ In id (map request_id rs).
Proof.
  intros Hn (r & <- & Hin)%in_map_iff. apply Hn, in_map_iff. by exists r.
Qed.

Lemma GetByID_rows id d :
  match GetByID id d with
  | inl res => exists r, In r (rows d) /\ request_id r = id /\ res = scanRequest r
  | inr ErrNotFound => ~ In id (map request_id (rows d))
  | inr _ => True
  end.
Proof.
  unfold GetByID. pose proof (query_rows (select_by_id id) d) as Hq.
  destruct (query _ d) as [rs|text]; [|done]. destruct Hq as (more & Hp & _ & Hm).
  cbn [limit select_by_id select_where] in *. subst more. rewrite app_nil_r in Hp.
  assert (forall r, In r rs <-> In r (rows d) /\ request_id r = id) as Hin.
  { intros r. rewrite Hp, filter_In. unfold holds. cbn [forallb fst snd col sql_eq].
    rewrite andb_true_r. by rewrite String.eqb_eq. }
  destruct rs as [|r rs].
  - intros (r & Hid & Hr)%in_map_iff. by destruct (proj2 (Hin r) (conj Hr Hid)).
  - destruct (proj1 (Hin r) (or_introl eq_refl)). by exists r.
Qed.

(** ** The operations *)

(** The table is there, with the store's schema. *)
Definition opened (d : db) : Prop := schema_of d = Some schema.

(** From [d] to [d'] the table keeps its schema, its form and its rows. *)
Definition grows (d d' : db) : Prop :=
  opened d -> opened d' /\ (table_ok (rows d) -> table_ok (rows d')) /\ keeps (rows d) (rows d').

Lemma grows_perm d d' :
  schema_of d' = schema_of d -> Permutation (rows d') (rows d) -> grows d d'.
Proof.
  intros Hs Hp Ho. split; [by unfold opened; rewrite Hs|]. split; [by apply table_ok_perm|].
  intros r Hr. exists r. split; [by rewrite Hp|apply later_refl].
Qed.

Lemma grows_refl d : grows d d.
Proof. by apply grows_perm. Qed.

Lemma Insert_grows t r d : Store.Status r = StatusPending -> grows d (Insert t r d).1.
Proof.
  intros Hst. unfold Insert. destruct (RequestID r =s "") eqn:Ei; [apply grows_refl|].
  destruct (IsValid (Store.Status r)) eqn:Ev; cbn [negb]; [|apply grows_refl].
  destruct (Commands r); [apply grows_refl|].
  pose proof (insert_rows (row_of t r) d) as Hins. destruct (exec_insert _ d) as [d' [text|]]; cbn [fst].
  - destruct Hins. by apply grows_perm.
  - destruct Hins as (Hs & Hp & Hnew). intros Ho. split; [by unfold opened; rewrite Hs|].
    specialize (Hnew schema c_request_id Ho eq_refl ltac:(done)). apply key_new in Hnew. split.
    + intros [Hn Hr]. apply (table_ok_perm _ _ (symmetry Hp)). split.
      * cbn. constructor; [by rewrite list_elem_of_In|done].
      * constructor; [|done]. unfold row_ok. cbn. bool_hyps. rewrite Hst in *. by repeat split.
    + intros r' Hr'. exists r'. split; [rewrite Hp; by right|apply later_refl].
Qed.

Lemma decided_later st sigs t by_ id r : later r (decided st sigs t by_ id r).
Proof.
  unfold decided. destruct (request_id r =s id); cbn [andb]; [|apply later_refl].
  destruct (status r =s StatusPending) eqn:Es; [|apply later_refl]. bool_hyps. by repeat split.
Qed.

Lemma UpdateStatus_grows t id st sigs by_ d : grows d (UpdateStatus t id st sigs by_ d).1.
Proof.
  unfold UpdateStatus. destruct (IsValid st) eqn:Ev; cbn [negb]; [|apply grows_refl].
  cbv zeta. pose proof (update_rows _ d (update_assigns st (nullableString sigs) (unix t) (nullableEmpty by_) id))
    as Hres.
  destruct (exec_update _ d) as [d' [text|]]; cbn [fst]; destruct Hres as [Hs Hp]; [by apply grows_perm|].
  rewrite (map_ext _ _ (updated_decided _ _ _ _ _)) in Hp.
  set (f := decided st (nullableString sigs) (unix t) (nullableEmpty by_) id) in *.
  intros Ho. split; [by unfold opened; rewrite Hs|]. split.
  - intros [Hn Hr]. apply (table_ok_perm _ _ (symmetry Hp)). split.
    + rewrite map_map. rewrite (map_ext _ request_id); [done|]. intros r. by apply decided_later.
    + apply Forall_map. eapply Forall_impl; [exact Hr|]. intros r (H1 & H2 & H3). unfold f, decided.
      destruct (_ && _); by repeat split.
  - intros r Hr. exists (f r). split; [rewrite Hp; by apply in_map|apply decided_later].
Qed.

Lemma step_grows ev d : grows d (step sv ev d).
Proof.
  destruct ev as [e r|t id st sigs by_]; cbn [step]; [|apply UpdateStatus_grows].
  pose proof (grows_refl d) as Hsame. unfold ServeHTTP.
  destruct (routes _ _); try done; destruct (authorized sv r); cbn [negb fst]; try done.
  unfold handleSign. destruct (Decode _ _ _) as [req ok]. destruct ok; cbn [negb]; [|done].
  destruct (_ =s ""); [done|]. destruct (elems _); [done|].
  destruct (Server.check_commands _ _); [done|]. destruct (generateRequestID _) as [rid|]; [|done].
  destruct (has_store sv); [|done].
  pose proof (Insert_grows (now e) (pending_request e rid req) d eq_refl) as Hi.
  destruct (Insert _ _ _) as [d' [err|]]; exact Hi.
Qed.

Lemma run_grows evs : forall d, grows d (run sv evs d).
Proof.
  induction evs as [|ev evs IH]; intros d Ho; [by apply grows_refl|]. cbn [run fold_left].
  destruct (step_grows ev d Ho) as (O1 & H1 & H2). destruct (IH (step sv ev d) O1) as (O2 & G1 & G2).
  split; [done|]. split; [auto|by eapply keeps_trans].
Qed.

(** A new file has the table, empty, once it is opened. *)
Lemma Open_new d0 d : schema_of d0 = None -> Open d0 = (d, None) -> opened d /\ rows d = [].
Proof.
  intros Hs Ho. pose proof (create_table schema d0) as Hc. unfold Open in Ho. rewrite Ho in Hc.
  destruct Hc as [Hsc Hp]. split; [by unfold opened; rewrite Hsc, Hs|].
  rewrite (no_table_rows d0 Hs) in Hp. by apply Permutation_nil_r in Hp.
Qed.

(** C28: The table stays well formed and decisions are final: from a new file that
    was opened, whatever is served and resolved, ids are unique and not empty, every
    status is one of the five, and a decision has its time; and whatever comes
    after, each row keeps its id, client, commands and time of creation, and a row
    that is no longer pending never changes again.  That an insert keeps ids unique
    is the schema's primary key, and that an update leaves decisions alone its
    condition; the database is asked only to run them. *)
Theorem decisions_final (d0 d1 : db) (evs evs' : list event)
    (Hnew : schema_of d0 = None) (Hopen : Open d0 = (d1, None)) :
  let d := run sv evs d1 in
  table_ok (rows d) /\ keeps (rows d) (rows (run sv evs' d)).
Proof.
  intros d. destruct (Open_new d0 d1 Hnew Hopen) as [Ho Hr].
  destruct (run_grows evs d1 Ho) as (Hod & Hok & _). split.
  - apply Hok. rewrite Hr. by split; constructor.
  - by apply run_grows.
Qed.

End Rows.

(** ** Polling *)

Section Poll.
Context `{S : SQLite} `{!SQLiteLaws S}.
Variable sv : Server.Config.

(** The databases a poll reads. *)
Definition views (e : Env) (d : db) : list db :=
  d :: flat_map (fun t => match t with Tick _ d => [d] | Done => [] end) (turns e).

(** The poll of [rid] is over by one of its turns. *)
Definition time_up (e : Env) (wait : Z) : Prop :=
  Exists (fun t => match t with Done => True | Tick t _ => (now e + wait < t)%Z end) (turns e).

Lemma wait_loop_reads id deadline ts : forall o,
  wait_loop id deadline ts = Some o ->
  o = inr ContextDone
  \/ exists d, In d (flat_map (fun t => match t with Tick _ d => [d] | Done => [] end) ts) /\ GetByID id d = o.
Proof.
  induction ts as [|[|t d] ts IH]; intros o; cbn [wait_loop flat_map]; [done|by intros [= <-]; left|].
  destruct (GetByID id d) as [r|err] eqn:Eg; [|intros [= <-]; right; exists d; split; [by left|done]].
  destruct (negb _); [intros [= <-]; right; exists d; split; [by left|done]|].
  destruct (_ <? _)%Z; [intros [= <-]; right; exists d; split; [by left|done]|].
  intros [->|(d' & Hd & Hg)]%IH; [by left|]. right. exists d'. split; [by right|done].
Qed.

Lemma wait_reads e id wait d o :
  WaitForResolution (now e) id wait d (turns e) = Some o ->
  o = inr ContextDone \/ exists d', In d' (views e d) /\ GetByID id d' = o.
Proof.
  unfold WaitForResolution, views. destruct (GetByID id d) as [r|err] eqn:Eg.
  2: { intros [= <-]. right. exists d. split; [by left|done]. }
  destruct (negb _).
  { intros [= <-]. right. exists d. split; [by left|done]. }
  intros [->|(d' & Hd & Hg)]%wait_loop_reads; [by left|]. right. exists d'. split; [by right|done].
Qed.

Lemma wait_ends e id wait d :
  time_up e wait -> WaitForResolution (now e) id wait d (turns e) <> None.
Proof.
  unfold WaitForResolution, time_up. intros Hup. destruct (GetByID id d); [|done].
  destruct (negb _); [done|]. induction (turns e) as [|[|t d'] ts IH]; cbn [wait_loop]; [|done|].
  - by apply Exists_nil in Hup.
  - destruct (GetByID id d'); [|done]. destruct (negb _); [done|].
    destruct (now e + wait <? t)%Z eqn:E; [done|]. apply IH.
    apply Exists_cons in Hup as [Hup|Hup]; [bool_hyps; lia|done].
Qed.

(** What the hosted approver should make of a row. *)
Definition row_verdict (r : Row) : option Result :=
  let by_ := match approved_by r with Some s => s | None => "" end in
  if status r =s StatusApproved
  then Some (mkRes Daemon.StatusApproved by_ (prSignatures (poll_response (scanRequest r))))
  else if status r =s StatusDenied then Some (mkRes Daemon.StatusDenied by_ [])
  else if status r =s StatusError then Some (mkRes Daemon.StatusTimeout "" [])
  else None.

(** The strings and the time of a response read back. *)
Definition wire_poll (p : pollResponse) : Prop :=
  utf8 (prID p) /\ utf8 (prStatus p) /\ Forall wire_sig (prSignatures p) /\ utf8 (prApprovedBy p)
  /\ match prApprovedAt p with
     | Some t => utf8 (GoTime.RFC3339Nano t)
                 /\ GoTime.ParseRFC3339 (Sigwire.bytes (GoTime.RFC3339Nano t)) = Some t
     | None => True
     end.

Lemma poll_value_eq p :
  poll_value p
  = VObj (member "request_id" (vstr (prID p)) ++ member "status" (vstr (prStatus p))
          ++ omitempty (is_nil (prSignatures p)) "signatures" (VArr (map sig_value (prSignatures p)))
          ++ omitempty (prApprovedBy p =s "") "approved_by_user" (vstr (prApprovedBy p))
          ++ omitempty (match prApprovedAt p with Some _ => false | None => true end) "approved_at"
               (vstr (GoTime.RFC3339Nano (default 0%Z (prApprovedAt p)))) ++ []).
Proof. unfold poll_value. rewrite app_nil_r. by destruct (prApprovedAt p). Qed.

Lemma poll_read_back p :
  wire_poll p ->
  Unmarshal Hosted.poll_decoder (line (poll_value p)) Hosted.zero_poll
  = (Hosted.mkPoll (prID p) (prStatus p) (mkSlice (prSignatures p) []) (prApprovedBy p)
       (prApprovedAt p) "", true).
Proof.
  intros (H1 & H2 & H3 & H4 & H5). unfold Unmarshal.
  assert (fit_members 3 (omitempty (match prApprovedAt p with Some _ => false | None => true end)
            "approved_at" (vstr (GoTime.RFC3339Nano (default 0%Z (prApprovedAt p)))))) as Ht.
  { destruct (prApprovedAt p) as [t|]; [|constructor]. apply fit_omitempty; [done|]. apply fits_str, H5. }
  assert (fits 4 (poll_value p)) as [Ho _]%fits_only.
  { rewrite poll_value_eq. rewrite app_nil_r. auto 20 with fits. }
  rewrite Ho, poll_value_eq. unfold Hosted.poll_decoder, decode_struct. do 2 step_member.
  erewrite decode_optional with (x := mkSlice (prSignatures p) []); [|reflexivity|by destruct (prSignatures p)|].
  2: { intros _. apply decode_list, Forall_forall. intros sg _. apply decode_sig. }
  step_member.
  2: { intros ->%eqb_empty. done. }
  erewrite decode_optional with (x := prApprovedAt p); [|reflexivity| |].
  - done.
  - destruct (prApprovedAt p); [done|]. done.
  - intros Hsome. destruct (prApprovedAt p) as [t|]; [|done]. cbn [default].
    unfold Hosted.decode_time, vstr. cbn. destruct H5 as [_ H5].
    change (JsonValue.bytes (GoTime.RFC3339Nano t)) with (Sigwire.bytes (GoTime.RFC3339Nano t)). by rewrite H5.
Qed.

Lemma verdict_read_back p :
  wire_poll p ->
  Hosted.poll_verdict 200 (line (poll_value p))
  = if prStatus p =s "approved" then Some (mkRes Daemon.StatusApproved (prApprovedBy p) (prSignatures p))
    else if prStatus p =s "denied" then Some (mkRes Daemon.StatusDenied (prApprovedBy p) [])
    else if prStatus p =s "error" then Some (mkRes Daemon.StatusTimeout "" [])
    else if (prStatus p =s "timeout") || (prStatus p =s "pending") then None
    else Some (mkRes Daemon.StatusTimeout "" []).
Proof. intros Hp. unfold Hosted.poll_verdict. rewrite (poll_read_back p Hp). by destruct (_ =s "approved"). Qed.

Lemma valid_status s :
  IsValid s = true ->
  s = StatusPending \/ s = StatusApproved \/ s = StatusDenied \/ s = Store.StatusTimeout \/ s = StatusError.
Proof.
  unfold IsValid, GoStr.one_of. cbn [existsb]. intros Hs. repeat (apply orb_true_iff in Hs as [Hs|Hs]);
    try (apply String.eqb_eq in Hs; auto); done.
Qed.

Lemma row_response r :
  row_ok r -> wire_poll (poll_response (scanRequest r)) ->
  Hosted.poll_verdict 200 (line (poll_value (poll_response (scanRequest r)))) = row_verdict r.
Proof.
  intros (_ & Hv & _) Hw. rewrite verdict_read_back by done. unfold row_verdict, poll_response in *.
  cbn [Store.Status scanRequest Store.ApprovedBy] in *.
  apply valid_status in Hv. by destruct Hv as [->|[->|[->|[->| ->]]]].
Qed.

(** What the poll of a hosted request says: it ends by its window; it answers
    404 only when the store had no such row; and what it answers with status 200
    is the state of a row with that id that the store held at one of the poll's
    reads, and the hosted approver takes it for that row's decision: approved
    with the approver and the signatures stored, denied, failed, or, while the
    row is pending, not yet. *)
Theorem hosted_poll_agrees (e : Env) (rid : string) (d : db)
    (Hstore : has_store sv = true) (Hok : Forall (fun d => table_ok (rows d)) (views e d)) :
  (time_up e (Server.PollWait sv) -> handlePoll sv e rid d <> None)
  /\ forall c b, handlePoll sv e rid d = Some (mkResp c b) ->
       (c = 404%Z -> exists d', In d' (views e d) /\ ~ In rid (map request_id (rows d')))
       /\ (c = 200%Z -> exists d' r, In d' (views e d) /\ In r (rows d') /\ request_id r = rid
             /\ b = Poll (poll_response (scanRequest r))
             /\ (wire_poll (poll_response (scanRequest r)) ->
                 Hosted.poll_verdict c (line (poll_value (poll_response (scanRequest r)))) = row_verdict r)).
Proof.
  unfold handlePoll. rewrite Hstore. cbn [negb]. split.
  { intros Hup. pose proof (wait_ends e rid _ d Hup). destruct (WaitForResolution _ _ _ _ _) as [[|[]]|]; done. }
  intros c b. destruct (WaitForResolution _ _ _ _ _) as [o|] eqn:Ew; [|done].
  apply wait_reads in Ew.
  assert (o <> inr ContextDone -> exists d', In d' (views e d) /\ GetByID rid d' = o) as Hread.
  { intros Hne. by destruct Ew. }
  destruct o as [res|err].
  - intros [= <- <-]. split; [done|]. intros _. destruct Hread as (d' & Hd & Hg); [done|].
    rewrite List.Forall_forall in Hok. destruct (Hok _ Hd) as [_ Hrows].
    pose proof (GetByID_rows rid d') as Hq. rewrite Hg in Hq. destruct Hq as (r & Hin & Hid & ->).
    exists d', r. split_and!; try done.
    intros Hw. apply row_response; [|done]. rewrite List.Forall_forall in Hrows. by apply Hrows.
  - assert (err = ErrNotFound \/ err <> ErrNotFound) as [->|Hne] by (destruct err; auto; right; done).
    + intros [= <- <-]. split; [|done]. intros _. destruct Hread as (d' & Hd & Hg); [done|].
      exists d'. split; [done|]. pose proof (GetByID_rows rid d') as Hq. by rewrite Hg in Hq.
    + assert (refuse 500 WaitFailed = Some (mkResp c b) ->
        (c = 404%Z -> exists d', In d' (views e d) /\ ~ In rid (map request_id (rows d')))
        /\ (c = 200%Z -> exists d' r, In d' (views e d) /\ In r (rows d') /\ request_id r = rid
             /\ b = Poll (poll_response (scanRequest r))
             /\ (wire_poll (poll_response (scanRequest r)) ->
                 Hosted.poll_verdict c (line (poll_value (poll_response (scanRequest r)))) = row_verdict r)))
        as H500 by (intros [= <- <-]; by split).
      by destruct err.
Qed.

End Poll.

(** ** Submitting *)

Section Submit.
Context `{S : SQLite} `{!SQLiteLaws S}.
Variable sv : Server.Config.

(** A command as the hosted wire carries it. *)
Definition on_wire (c : CommandReq) : Server.signRequestCmd :=
  mkServerCmd (crServer c) (crCmd c) (crTTLSec c).

Definition wire_command (c : CommandReq) : Prop :=
  utf8 (crServer c) /\ utf8 (crCmd c) /\ JsonValue.is_int64 (crTTLSec c) = true.

Lemma decode_on_wire c : wire_command c -> Server.cmd_decoder true (Hosted.cmd_v2 c) Server.zero_cmd = (on_wire c, true).
Proof.
  intros (_ & _ & Ht). unfold Server.cmd_decoder, Hosted.cmd_v2, decode_struct.
  rewrite <- (app_nil_r (member "ttl_seconds" _)). by step_members.
Qed.

Lemma submission_read_back h req :
  utf8 (Hosted.ClientID h) -> Forall wire_command (arCommands req) ->
  Decode Server.request_decoder (write_value (Hosted.sign_body h req)) (mkSignRequest "" nil_slice None)
  = (mkSignRequest (Hosted.ClientID h) (mkSlice (map on_wire (arCommands req)) []) None, true).
Proof.
  intros Hc Hcs. unfold Decode.
  assert (fits 4 (Hosted.sign_body h req)) as [Hw Hd].
  { assert (fits 3 (VArr (map Hosted.cmd_v2 (arCommands req)))).
    { apply fits_arr. eapply Forall_impl; [exact Hcs|]. intros c (H1 & H2 & _). unfold Hosted.cmd_v2.
      auto 20 with fits. }
    unfold Hosted.sign_body. auto 20 with fits. }
  rewrite <- (app_nil_r (write_value _)), first_value_write; [|done|by apply (Nat.le_trans _ 4), Nat.leb_le|done].
  unfold Server.request_decoder, Hosted.sign_body, decode_struct.
  rewrite <- (app_nil_r (member "commands" _)).
  assert (decode_slice Server.zero_cmd (Server.cmd_decoder true) (VArr (map Hosted.cmd_v2 (arCommands req))) nil_slice
          = (mkSlice (map on_wire (arCommands req)) [], true)) as Hs.
  { unfold decode_slice. assert (decode_elements Server.zero_cmd (Server.cmd_decoder true)
      (map Hosted.cmd_v2 (arCommands req)) [] = (map on_wire (arCommands req), true)) as He.
    { induction Hcs as [|c cs Hc' _ IH]; cbn [decode_elements map tl]; [done|].
      by rewrite decode_on_wire, IH. }
    destruct (arCommands req) as [|c cs]; [done|]. cbn [map] in *.
    change (elems nil_slice ++ spare nil_slice) with (@nil Server.signRequestCmd). by rewrite He, drop_nil. }
  by step_members.
Qed.

(** A hosted approver's submission as the server sees it. *)
Definition submission (h : Hosted.HostedServerBackend) (req : ApprovalRequest) : HttpReq :=
  mkReq "POST" "/v1/sign" ("Bearer " +:+ Hosted.APIKey h) (write_value (Hosted.sign_body h req)).

(** The row of a submission. *)
Definition submitted (e : Env) (rid : string) (h : Hosted.HostedServerBackend) (req : ApprovalRequest) : Row :=
  mkRow rid StatusPending (Hosted.ClientID h)
    (str (write_value (VArr (map Server.cmd_value (map on_wire (arCommands req)))))) None
    (unix (now e)) None None.

Lemma bearer_authorized h : Server.APIKey sv = Hosted.APIKey h ->
  forall req, authorized sv (submission h req) = true.
Proof.
  intros Hk req. unfold authorized, submission. cbn [rAuth]. rewrite Hk.
  change (GoStr.drop 7 ("Bearer " +:+ Hosted.APIKey h)) with (Hosted.APIKey h).
  rewrite String.eqb_refl, andb_true_r. apply prefix_spec. by eexists.
Qed.

Lemma generated_utf8 rnd rid : generateRequestID rnd = Some rid -> rid <> "" /\ utf8 rid.
Proof.
  destruct rnd as [b|]; [|done]. cbn. intros [= <-]. split; [done|]. unfold utf8. apply valid_ascii.
  rewrite bytes_app. apply Forall_app. split; [by repeat constructor|]. apply encode_ascii.
Qed.

Lemma valid_ascii_app a l : Forall (fun c => is_ascii c = true) a -> valid (a ++ l) = valid l.
Proof.
  unfold valid. induction 1 as [|c a Hc _ IH]; [done|].
  cbn [app runes]. rewrite Hc. cbn [forallb valid_rune]. by rewrite Hc.
Qed.

Lemma accepted_read_back rid :
  utf8 rid -> Decode Hosted.accepted_decoder (line (accepted_value rid)) ("", "")
              = ((rid, "/v1/poll/" +:+ rid), true).
Proof.
  intros Hr. assert (utf8 ("/v1/poll/" +:+ rid)) as Hp.
  { unfold utf8 in *. rewrite bytes_app, valid_ascii_app; [done|by repeat constructor]. }
  unfold Decode. assert (fits 4 (accepted_value rid)) as [_ Hf]%fits_only.
  { unfold accepted_value. auto 20 with fits. }
  rewrite Hf. unfold Hosted.accepted_decoder, accepted_value, decode_struct.
  rewrite <- (app_nil_r (member "poll_url" _)). by step_members.
Qed.

(** A hosted submission end to end: the server with the same key reads the
    approver's request as the client and the commands it was given, and either
    stores exactly one row more, pending, with those commands and a new id, and
    answers 202 with that id, which is the id the approver then polls for, or
    stores nothing and answers 500. *)
Theorem submission_agrees (h : Hosted.HostedServerBackend) (e : Env) (req : ApprovalRequest) (d : db) (rid : string)
    (Hkey : Server.APIKey sv = Hosted.APIKey h) (Hstore : has_store sv = true)
    (Hc : Hosted.ClientID h <> "" /\ utf8 (Hosted.ClientID h))
    (Hne : arCommands req <> []) (Hw : Forall wire_command (arCommands req))
    (Hok : Server.check_commands 0 (map on_wire (arCommands req)) = None)
    (Hrid : generateRequestID (random e) = Some rid) (Hopen : opened d) :
  let '(d', resp) := ServeHTTP sv e (submission h req) d in
  (resp = refuse 500 StoreInsert /\ Permutation (rows d') (rows d))
  \/ (resp = Some (mkResp 202 (Accepted rid))
      /\ ~ In rid (map request_id (rows d)) /\ Permutation (rows d') (submitted e rid h req :: rows d)
      /\ (Decode Hosted.accepted_decoder (line (accepted_value rid)) ("", "")).1.1 = rid).
Proof.
  destruct (generated_utf8 _ _ Hrid) as [Hr0 Hru]. destruct Hc as [Hc0 Hcu].
  unfold ServeHTTP. change (routes _ _) with Sign. rewrite bearer_authorized by done. cbn [negb].
  unfold handleSign. cbn [rBody submission]. rewrite submission_read_back by done.
  cbn [negb rqClientID rqCommands elems]. rewrite (proj2 (String.eqb_neq _ "")) by done.
  destruct (map on_wire (arCommands req)) as [|c cs] eqn:Em; [by destruct (arCommands req)|].
  rewrite Hok, Hrid, Hstore. rewrite <- Em.
  set (preq := pending_request e rid _). unfold Insert.
  change (RequestID preq) with rid. rewrite (proj2 (String.eqb_neq rid "")) by done.
  change (IsValid (Store.Status preq)) with true. cbn [negb].
  pose proof (insert_rows (row_of (now e) preq) d) as Hins.
  destruct (Commands preq) as [|b blob] eqn:Eb; [by left|].
  destruct (exec_insert (row_of (now e) preq) d) as [d' [text|]]; cbn [option_map];
    [left; by destruct Hins|].
  right. destruct Hins as (_ & Hp & Hnew). specialize (Hnew schema c_request_id Hopen eq_refl ltac:(done)).
  apply key_new in Hnew.
  assert (row_of (now e) preq = submitted e rid h req) as Hrow.
  { unfold row_of, submitted. rewrite Eb. unfold preq, pending_request in *.
    cbn [Commands rqCommands elems CreatedAt] in *. rewrite <- Eb.
    by destruct (now e =? zero_time)%Z. }
  split; [done|]. split; [exact Hnew|]. split; [by rewrite <- Hrow|]. by rewrite accepted_read_back.
Qed.

End Submit.

(** ** What the store lets through

    A row can be resolved as pending: it stays pending, with a time and an approver
    of a decision, and can be decided again. *)
Lemma resolved_as_pending `{S : SQLite} `{!SQLiteLaws S} (t : Z) (id : string) (sigs : list ascii)
    (by_ : string) (d d' : db) (r : Row) :
  In r (rows d) -> request_id r = id -> status r = StatusPending ->
  UpdateStatus t id StatusPending sigs by_ d = (d', None) ->
  exists r', In r' (rows d') /\ request_id r' = id /\ status r' = StatusPending
    /\ resolved_at r' = Some (unix t).
Proof.
  intros Hin Hid Hst. unfold UpdateStatus. change (IsValid StatusPending) with true. cbn [negb]. cbv zeta.
  pose proof (update_rows _ d (update_assigns StatusPending (nullableString sigs) (unix t) (nullableEmpty by_) id))
    as Hres.
  destruct (exec_update _ _) as [d1 [text|]]; [done|]. destruct Hres as [_ Hp]. intros [= <-].
  eexists. split; [rewrite Hp; apply in_map; exact Hin|]. rewrite updated_decided. unfold decided.
  rewrite Hid, Hst, !String.eqb_refl. by repeat split.
Qed.

(** ** A table in memory

    An engine that runs any of the statements on a list of rows. *)

Definition Mem : Type := option (Schema * list Row).

Definition precedes (o : option (Column * bool)) (a b : Row) : Prop :=
  match o with
  | Some (c, desc) =>
      let key r := match col c r with INTEGER z => if desc then (- z)%Z else z | _ => 0%Z end in
      (key a <= key b)%Z
  | None => True
  end.

#[export] Instance precedes_dec o : RelDecision (precedes o).
Proof. intros a b. destruct o as [[c desc]|]; cbn; apply _. Defined.
#[export] Instance precedes_total o : Total (precedes o).
Proof. intros a b. destruct o as [[c desc]|]; cbn; [lia|by left]. Qed.
#[export] Instance precedes_trans o : Transitive (precedes o).
Proof. intros a b c. destruct o as [[k desc]|]; cbn; [lia|done]. Qed.

Lemma precedes_in_order o a b : precedes o a b -> in_order o a b.
Proof.
  destruct o as [[c desc]|]; cbn; [|done].
  destruct (col c a), (col c b); try done. destruct desc; lia.
Qed.

Definition duplicate (sc : Schema) (r : Row) (rs : list Row) : bool :=
  match primary_key sc with
  | Some k => existsb (fun r' => sql_eq (col k r') (col k r)) rs
  | None => false
  end.

Definition no_such_table : string := "no such table: requests".

Definition mem_create (sc : Schema) (d : Mem) : Mem * option string := (Some (default (sc, []) d), None).

Definition mem_insert (r : Row) (d : Mem) : Mem * option string :=
  match d with
  | None => (d, Some no_such_table)
  | Some (sc, rs) =>
      if duplicate sc r rs then (d, Some "UNIQUE constraint failed: requests.request_id")
      else (Some (sc, r :: rs), None)
  end.

Definition mem_update (u : Update) (d : Mem) : Mem * option string :=
  match d with
  | None => (d, Some no_such_table)
  | Some (sc, rs) => (Some (sc, map (updated u) rs), None)
  end.

Definition sorted_hits (q : Select) (rs : list Row) : list Row :=
  merge_sort (precedes (order q)) (List.filter (holds (select_where q)) rs).

Definition mem_query (q : Select) (d : Mem) : list Row + string :=
  match d with
  | None => inr no_such_table
  | Some (_, rs) =>
      inl (match limit q with
           | Some n => firstn (Z.to_nat n) (sorted_hits q rs)
           | None => sorted_hits q rs
           end)
  end.

#[local] Instance MemTable : SQLite := {|
  db := Mem; exec_create := mem_create; exec_insert := mem_insert; exec_update := mem_update;
  query := mem_query
|}.

Definition mem_schema (d : Mem) : option Schema := option_map fst d.
Definition mem_rows (d : Mem) : list Row := match d with Some (_, rs) => rs | None => [] end.

Lemma mem_no_table d : mem_schema d = None -> mem_rows d = [].
Proof. by destruct d as [[]|]. Qed.

Lemma mem_create_table sc d :
  match mem_create sc d with
  | (d', None) => mem_schema d' = Some (default sc (mem_schema d)) /\ Permutation (mem_rows d') (mem_rows d)
  | (d', Some _) => mem_schema d' = mem_schema d /\ Permutation (mem_rows d') (mem_rows d)
  end.
Proof. by destruct d as [[]|]. Qed.

Lemma sql_eq_refl v : v <> NULL -> sql_eq v v = true.
Proof. destruct v; [done|intros _; apply String.eqb_refl|intros _; apply Z.eqb_refl]. Qed.

Lemma mem_insert_rows r d :
  match mem_insert r d with
  | (d', None) =>
      mem_schema d' = mem_schema d /\ Permutation (mem_rows d') (r :: mem_rows d)
      /\ forall sc k, mem_schema d = Some sc -> primary_key sc = Some k -> col k r <> NULL ->
           ~ In (col k r) (map (col k) (mem_rows d))
  | (d', Some _) => mem_schema d' = mem_schema d /\ Permutation (mem_rows d') (mem_rows d)
  end.
Proof.
  destruct d as [[sc rs]|]; [|done]. unfold mem_insert. destruct (duplicate sc r rs) eqn:E; [done|].
  do 2 (split; [done|]). intros sc' k [= <-] Hk Hn (r' & Hr & Hin)%in_map_iff.
  unfold duplicate in E. rewrite Hk in E. apply not_true_iff_false in E. apply E, existsb_exists.
  exists r'. rewrite Hr. split; [done|by apply sql_eq_refl].
Qed.

Lemma mem_update_rows u d :
  (forall r, assign (set u) r <> None) ->
  match mem_update u d with
  | (d', None) => mem_schema d' = mem_schema d /\ Permutation (mem_rows d') (map (updated u) (mem_rows d))
  | (d', Some _) => mem_schema d' = mem_schema d /\ Permutation (mem_rows d') (mem_rows d)
  end.
Proof. by destruct d as [[]|]. Qed.

Lemma mem_query_rows q d :
  match mem_query q d with
  | inl rs => exists more,
      Permutation (rs ++ more) (List.filter (holds (select_where q)) (mem_rows d))
      /\ StronglySorted (in_order (order q)) (rs ++ more)
      /\ match limit q with
         | Some n => (0 <= n)%Z -> List.length rs = min (Z.to_nat n) (List.length (rs ++ more))
         | None => more = []
         end
  | inr _ => True
  end.
Proof.
  destruct d as [[sc rs]|]; [|done]. cbn [mem_query mem_rows].
  assert (StronglySorted (in_order (order q)) (sorted_hits q rs)) as Hs.
  { pose proof (StronglySorted_merge_sort (precedes (order q))
                  (List.filter (holds (select_where q)) rs)) as Hs.
    unfold sorted_hits. induction Hs as [|a l Hl IH Ha]; constructor; [exact IH|].
    eapply Forall_impl; [exact Ha|]. intros b. apply precedes_in_order. }
  assert (Permutation (sorted_hits q rs) (List.filter (holds (select_where q)) rs)) as Hp
    by apply merge_sort_Permutation.
  destruct (limit q) as [n|].
  - exists (skipn (Z.to_nat n) (sorted_hits q rs)). rewrite firstn_skipn. split; [done|]. split; [done|].
    intros _. by rewrite length_firstn.
  - exists []. by rewrite app_nil_r.
Qed.

#[local] Instance MemLaws : SQLiteLaws MemTable := {|
  schema_of := mem_schema : @db MemTable -> _;
  rows := mem_rows;
  empty_db := None : @db MemTable;
  empty_no_table := eq_refl;
  no_table_rows := mem_no_table;
  create_table := mem_create_table;
  insert_rows := mem_insert_rows;
  update_rows := mem_update_rows;
  query_rows := mem_query_rows
|}.

(** ** Witnesses *)

Definition sample_server : Server.Config := mkServer "k" (30 * Sigwire.Second) true.
Definition sample_laptop : Hosted.HostedServerBackend :=
  Hosted.mkHosted "https://signer.example.com" "k" "laptop" 0 0 true.
Definition sample_submission : ApprovalRequest := mkApproval "q" [mkCommandReq "web" "reboot" 60 false ""].

Definition sample_time : Z := 1709164800 * Sigwire.Second.
Definition at_time (ts : list Turn) : Server.Env := mkEnv _ sample_time (Some (bytes "123456789")) ts false.

(** A table with the store's schema. *)
Definition table (rs : list Row) : @db MemTable := Some (schema, rs).

(** A row that was approved without signatures. *)
Definition approved_row : Row :=
  mkRow "r_1" StatusApproved "laptop" "[]" None 1709164800 (Some 1709164805%Z) (Some "op").

Lemma hosted_poll_agrees_witness :
  exists p, handlePoll sample_server (at_time []) "r_1" (table [approved_row]) = Some (mkResp 200 (Poll p))
    /\ Hosted.poll_verdict 200 (line (poll_value p)) = Some (mkRes Daemon.StatusApproved "op" []).
Proof.
  destruct (hosted_poll_agrees sample_server (at_time []) "r_1" (table [approved_row]) eq_refl) as [_ Hp].
  { repeat constructor; try done; by rewrite list_elem_of_In; intros []. }
  destruct (Hp 200%Z (Poll (poll_response (scanRequest approved_row))) eq_refl) as [_ Hr].
  destruct (Hr eq_refl) as (d' & r & Hd & Hin & _ & _ & Hv).
  destruct Hd as [<-|[]]. destruct Hin as [<-|[]].
  exists (poll_response (scanRequest approved_row)). split; [reflexivity|]. rewrite Hv; [reflexivity|].
  split; [reflexivity|]. split; [reflexivity|]. split; [constructor|]. split; [reflexivity|]. by split.
Defined.

Lemma submission_agrees_witness :
  exists rid row, generateRequestID (Server.random (at_time [])) = Some rid
    /\ rows (ServeHTTP sample_server (at_time []) (submission sample_laptop sample_submission) (table [])).1
       = [row]
    /\ request_id row = rid /\ status row = StatusPending.
Proof.
  destruct (generateRequestID (Server.random (at_time []))) as [rid|] eqn:Hrid; [|discriminate Hrid].
  assert (Hosted.ClientID sample_laptop <> "" /\ utf8 (Hosted.ClientID sample_laptop)) as Hc by (by split).
  assert (Forall wire_command (arCommands sample_submission)) as Hw by (by repeat constructor).
  pose proof (submission_agrees sample_server sample_laptop (at_time []) sample_submission (table []) rid
    eq_refl eq_refl Hc ltac:(discriminate) Hw eq_refl Hrid eq_refl) as Hs.
  exists rid.
  destruct (ServeHTTP _ _ _ _) as [d' resp] eqn:E. destruct Hs as [[Hr _]|(_ & _ & Hp & _)].
  - exfalso. assert (resp = Some (mkResp 202 (Accepted rid))) as Hresp; [|rewrite Hresp in Hr; discriminate Hr].
    change resp with (d', resp).2. rewrite <- E. vm_compute in Hrid. injection Hrid as <-. by vm_compute.
  - apply Permutation_singleton_r in Hp. eexists. split; [done|]. split; [exact Hp|]. by split.
Defined.

(** A request comes in and is approved; a denial that comes later finds it decided,
    and so does everything after it. *)
Definition sample_events : list event :=
  [Serve (at_time []) (submission sample_laptop sample_submission);
   Resolve sample_time "r_MTIzNDU2Nzg5" StatusApproved (bytes "[]") "op"].

Definition sample_denial : event := Resolve sample_time "r_MTIzNDU2Nzg5" StatusDenied [] "other".

Lemma decisions_final_witness :
  Open (empty_db : @db MemTable) = (table [], None)
  /\ exists r, In r (rows (run sample_server sample_events (table []))) /\ status r = StatusApproved
    /\ In r (rows (run sample_server [sample_denial] (run sample_server sample_events (table [])))).
Proof.
  split; [reflexivity|].
  pose proof (@decisions_final MemTable MemLaws sample_server empty_db (table []) sample_events [sample_denial]
                eq_refl eq_refl) as [_ Hk].
  assert (exists r, rows (run sample_server sample_events (table [])) = [r] /\ status r = StatusApproved)
    as (r & Hr & Hst) by (eexists; split; [by vm_compute|done]).
  exists r. rewrite Hr. split; [by left|]. split; [done|].
  destruct (Hk r) as (r' & Hin & Hl); [rewrite Hr; by left|].
  destruct Hl as (_ & _ & _ & _ & He). rewrite He in Hin; [exact Hin|]. by rewrite Hst.
Defined.
