(* ===== verification/McpRegistry.v ===== *)
(** * The server registry (src/mcp/registry/servers.go)

    The alias map the MCP side takes hosts and host keys from: its file as JSON,
    the checks a load makes, the reload on a changed content hash, and the
    operations that rewrite the file.  What the file system answers is given at
    each call; warnings are left out.  SHA-256 is a parameter. *)

From stdpp Require Import sorting.
From S2P Require Import Prelude Json JsonValue Sigwire SignerWire GoTime.

(** crypto/sha256 *)
Class Sha256 := { Sum256 : list ascii -> list ascii }.

Module Registry.
Import Json JsonValue Wire.

(** Entry; [AddedAt] is in nanoseconds since the epoch. *)
Record Entry := mkEntry {
  Host : string;
  Port : Z;
  User : string;
  AddedAt : Z;
  ReadOnly : bool;
  Fingerprint : string
}.

#[export] Instance Entry_eq_dec : EqDecision Entry.
Proof. solve_decision. Defined.

(** The zero Entry; its time is the zero time.Time. *)
Definition zero_time : Z := -62135596800 * Sigwire.Second.
Definition zero_entry : Entry := mkEntry "" 0 "" zero_time false "".

(** ** The file *)

Definition entry_value (e : Entry) : value :=
  VObj (member "host" (vstr (Host e)) ++ member "port" (vint (Port e)) ++ member "user" (vstr (User e))
        ++ member "added_at" (vstr (GoTime.RFC3339Nano (AddedAt e)))
        ++ omitempty (negb (ReadOnly e)) "read_only" (VBool (ReadOnly e))
        ++ omitempty (Fingerprint e =s "") "fingerprint" (vstr (Fingerprint e))).

Definition decode_time : decoder Z := fun v old =>
  match v with
  | VNull => (old, true)
  | VStr s => match GoTime.ParseRFC3339 s with Some t => (t, true) | None => (old, false) end
  | _ => (old, false)
  end.

Definition entry_decoder : decoder Entry :=
  decode_struct false
    [field "host" decode_string Host
       (fun x e => mkEntry x (Port e) (User e) (AddedAt e) (ReadOnly e) (Fingerprint e));
     field "port" decode_int64 Port
       (fun x e => mkEntry (Host e) x (User e) (AddedAt e) (ReadOnly e) (Fingerprint e));
     field "user" decode_string User
       (fun x e => mkEntry (Host e) (Port e) x (AddedAt e) (ReadOnly e) (Fingerprint e));
     field "added_at" decode_time AddedAt
       (fun x e => mkEntry (Host e) (Port e) (User e) x (ReadOnly e) (Fingerprint e));
     field "read_only" decode_bool ReadOnly
       (fun x e => mkEntry (Host e) (Port e) (User e) (AddedAt e) x (Fingerprint e));
     field "fingerprint" decode_string Fingerprint
       (fun x e => mkEntry (Host e) (Port e) (User e) (AddedAt e) (ReadOnly e) x)].

(** The members of a map[string]Entry: each is decoded into a zero Entry, and the
    last of a name stays. *)
Fixpoint decode_entries (ms : list (list ascii * value)) (m : gmap string Entry)
    : gmap string Entry * bool :=
  match ms with
  | [] => (m, true)
  | (k, v) :: ms =>
      let '(e, ok) := entry_decoder v zero_entry in
      let '(m, oks) := decode_entries ms (<[str k := e]> m) in
      (m, ok && oks)
  end.

(** json.Unmarshal into a nil map; [null] leaves it nil, which Load makes empty. *)
Definition decode_registry (body : list ascii) : option (gmap string Entry * list (list ascii * value)) :=
  match only_value body with
  | Some (VObj ms) => let '(m, ok) := decode_entries ms ∅ in if ok then Some (m, ms) else None
  | Some VNull => Some (∅, [])
  | _ => None
  end.

(** A newline and the indentation of a depth. *)
Definition nl (d : nat) : list ascii := NL :: repeat SPACE (2 * d).

(** MarshalIndent with no prefix and two spaces. *)
Fixpoint write_indented (d : nat) (v : value) : list ascii :=
  match v with
  | VArr ((_ :: _) as vs) =>
      "["%char :: join (map (fun v => nl (S d) ++ write_indented (S d) v) vs) ++ nl d ++ ["]"%char]
  | VObj ((_ :: _) as ms) =>
      "{"%char :: join (map (fun m => nl (S d) ++ quote m.1 ++ ":"%char :: SPACE
                                        :: write_indented (S d) m.2) ms) ++ nl d ++ ["}"%char]
  | _ => write_value v
  end.

Definition key_le (a b : string * Entry) : Prop := String.leb a.1 b.1 = true.

#[export] Instance key_le_dec : RelDecision key_le.
Proof. intros a b. unfold key_le. apply _. Defined.

Definition registry_value (m : gmap string Entry) : value :=
  VObj (map (fun ke => (bytes ke.1, entry_value ke.2)) (merge_sort key_le (map_to_list m))).

(** Time.MarshalJSON fails outside the years 0 to 9999. *)
Definition year_ok (t : Z) : bool :=
  let '(y, _, _) := GoTime.civil (t / Sigwire.Second / 86400)%Z in ((0 <=? y) && (y <=? 9999))%Z.

Definition MarshalIndent (m : gmap string Entry) : option (list ascii) :=
  if forallb (fun ke => year_ok (AddedAt ke.2)) (map_to_list m)
  then Some (write_indented 0 (registry_value m)) else None.

(** ** Loading *)

(** What os.Stat and os.ReadFile answer. *)
Inductive Stat := StatNotExist | StatError | StatMode (mode : Z).
Inductive Read := ReadNotExist | ReadError | ReadBody (body : list ascii).

Inductive LoadErr := StatFailed | InsecureMode | ReadFailed | Malformed | Wrapped.

Section Registry.
Context `{Sha256}.

(** Servers *)
Record Servers := mkServers {
  data : gmap string Entry;
  lastHash : list ascii;
  hasHash : bool;
  filePresent : bool
}.

Definition zero_hash : list ascii := repeat NUL 32.

(** recordHashLocked *)
Definition recordHashLocked (h : list ascii) (present : bool) (s : Servers) : Servers :=
  mkServers (data s) h true present.

Definition set_data (m : gmap string Entry) (s : Servers) : Servers :=
  mkServers m (lastHash s) (hasHash s) (filePresent s).

(** The legacy wrapper: the one key is servers and its entry is zero. *)
Definition is_wrapper (m : gmap string Entry) : bool :=
  bool_decide (size m = 1) && bool_decide (m !! "servers" = Some zero_entry).

(** How many servers the wrapper holds: the members of its last servers key. *)
Definition wrapped_servers (ms : list (list ascii * value)) : list (list ascii) :=
  match List.find (fun m => bool_decide (m.1 = bytes "servers")) (rev ms) with
  | Some (_, VObj inner) => map fst inner
  | _ => []
  end.

(** What Load makes of a body. *)
Definition parse (body : list ascii) : gmap string Entry + LoadErr :=
  match body with
  | [] => inl ∅
  | _ =>
      match decode_registry body with
      | None => inr Malformed
      | Some (m, ms) =>
          if is_wrapper m
          then match wrapped_servers ms with [] => inl ∅ | _ => inr Wrapped end
          else inl m
      end
  end.

Definition insecure (mode : Z) : bool := negb (Z.land (Z.land mode 511) 18 =? 0)%Z.

(** Load *)
Definition Load (st : Stat) (rd : Read) (s : Servers) : Servers * option LoadErr :=
  match st with
  | StatNotExist => (recordHashLocked zero_hash false (set_data ∅ s), None)
  | StatError => (s, Some StatFailed)
  | StatMode mode =>
      if insecure mode then (s, Some InsecureMode)
      else match rd with
           | ReadBody body =>
               match parse body with
               | inl m => (recordHashLocked (Sum256 body) true (set_data m s), None)
               | inr err => (s, Some err)
               end
           | _ => (s, Some ReadFailed)
           end
  end.

(** New *)
Definition New (st : Stat) (rd : Read) : Servers + LoadErr :=
  match Load st rd (mkServers ∅ zero_hash false false) with
  | (s, None) => inl s
  | (_, Some err) => inr err
  end.

(** What the file system answers in one reload: the read that is hashed, and the
    stat and the read of the Load that may follow. *)
Record View := mkView { hashed : Read; stat : Stat; read : Read }.

(** reloadIfChanged *)
Definition reloadIfChanged (v : View) (s : Servers) : Servers :=
  match hashed v with
  | ReadNotExist => if negb (hasHash s) || filePresent s then (Load (stat v) (read v) s).1 else s
  | ReadError => s
  | ReadBody body =>
      if hasHash s && filePresent s && bool_decide (Sum256 body = lastHash s) then s
      else (Load (stat v) (read v) (recordHashLocked (Sum256 body) true s)).1
  end.

(** Get *)
Definition Get (v : View) (alias : string) (s : Servers) : Servers * option Entry :=
  let s := reloadIfChanged v s in (s, data s !! alias).

(** List *)
Definition List_ (v : View) (s : Servers) : Servers * gmap string Entry :=
  let s := reloadIfChanged v s in (s, data s).

(** ** Rewriting *)

Inductive PersistErr := MarshalFailed | MkdirFailed | TmpFailed | RenameFailed.
Inductive UpdateErr := AliasEmpty | UnknownAlias | Persist (why : PersistErr).

(** persist: the new body of the file, or the error; [fault] is the step of the
    file system that fails, all of them before or at the rename. *)
Definition persist (fault : option PersistErr) (m : gmap string Entry) : list ascii + PersistErr :=
  match MarshalIndent m with
  | None => inr MarshalFailed
  | Some body => match fault with Some why => inr why | None => inl body end
  end.

(** Add: the file's new body, when it is written.  It is one call that runs alone:
    the code takes its snapshot under the lock and persists it after, and two calls
    that persist their snapshots in the other order are not modelled. *)
Definition Add (fault : option PersistErr) (alias : string) (e : Entry) (s : Servers)
    : Servers * option (list ascii) * option UpdateErr :=
  if alias =s "" then (s, None, Some AliasEmpty)
  else
    let m := <[alias := e]> (data s) in
    match persist fault m with
    | inl body => (set_data m s, Some body, None)
    | inr why =>
        (set_data (match data s !! alias with Some prev => <[alias := prev]> m | None => delete alias m end) s,
         None, Some (Persist why))
    end.

(** Remove *)
Definition Remove (fault : option PersistErr) (alias : string) (s : Servers)
    : Servers * option (list ascii) * option UpdateErr :=
  match data s !! alias with
  | None => (s, None, Some UnknownAlias)
  | Some prev =>
      let m := delete alias (data s) in
      match persist fault m with
      | inl body => (set_data m s, Some body, None)
      | inr why => (set_data (<[alias := prev]> m) s, None, Some (Persist why))
      end
  end.

(** ** One process over time *)
Inductive event :=
  | Lookup (v : View) (alias : string)
  | Listing (v : View)
  | Adding (fault : option PersistErr) (alias : string) (e : Entry)
  | Removing (fault : option PersistErr) (alias : string).

Definition step (ev : event) (s : Servers) : Servers :=
  match ev with
  | Lookup v alias => (Get v alias s).1
  | Listing v => (List_ v s).1
  | Adding fault alias e => (Add fault alias e s).1.1
  | Removing fault alias => (Remove fault alias s).1.1
  end.

Definition run (evs : list event) (s : Servers) : Servers := fold_left (fun s ev => step ev s) evs s.

End Registry.

End Registry.
