(* ===== verification/McpRegistryProps.v ===== *)
(** * What the server registry guarantees

    What is written is what the next process reads, and every entry that is ever
    served comes from a file that passed the checks. *)

From stdpp Require Import sorting.
From S2P Require Import Prelude Json JsonProps JsonValue JsonValueProps Sigwire SigwireProps SignerDaemon SignerWire SignerWireProps GoTime McpRegistry.
Import Utf8 Json JsonValue Wire Registry.

(** ** Indented JSON reads back *)

Lemma skip_nl d l : skip_ws (nl d ++ l) = skip_ws l.
Proof.
  unfold nl. cbn [app]. transitivity (skip_ws (repeat SPACE (2 * d) ++ l)); [done|].
  by induction (2 * d) as [|n IH].
Qed.

Lemma skip_space l : skip_ws (SPACE :: l) = skip_ws l.
Proof. done. Qed.

Lemma scan_value_skips fuel d l l' : skip_ws l = skip_ws l' -> scan_value fuel d l = scan_value fuel d l'.
Proof. intros Hl. destruct fuel as [|fuel]; [done|]. cbn [scan_value]. by rewrite Hl. Qed.

Lemma scan_key_nl d l : scan_key (nl d ++ l) = scan_key l.
Proof. unfold scan_key. by rewrite skip_nl. Qed.

(** No array inside. *)
Fixpoint flat (v : value) : Prop :=
  match v with
  | VArr _ => False
  | VObj ms => foldr (fun m => and (flat m.2)) True ms
  | _ => True
  end.

Definition reads_indented (v : value) : Prop :=
  forall k fuel d rest, 2 * List.length (write_indented k v) + 1 <= fuel -> depth v <= d -> closes rest ->
    scan_value fuel d (write_indented k v ++ rest) = Some (v, rest).

Definition indented_member (k : nat) (m : list ascii * value) : list ascii :=
  nl (S k) ++ quote m.1 ++ ":"%char :: SPACE :: write_indented (S k) m.2.

Lemma closes_nl d l : closes (nl d ++ l).
Proof. by right. Qed.

Lemma indented_fields ms : forall k fuel d rest,
  ms <> [] -> Forall (fun m => reads_indented m.2) ms -> Forall (fun m => valid m.1 = true) ms ->
  Forall (fun m => depth m.2 <= d) ms ->
  2 * List.length (join (map (indented_member k) ms)) + 1 <= fuel ->
  scan_fields fuel d (join (map (indented_member k) ms) ++ nl k ++ "}"%char :: rest) = Some (ms, rest).
Proof.
  induction ms as [|[key v] ms IH]; [done|]. intros k fuel d rest _ Hv Hk Hd Hf.
  apply Forall_cons in Hv as [Hv Hvs]. apply Forall_cons in Hk as [Hk Hks].
  apply Forall_cons in Hd as [Hd Hds]. cbn [fst snd] in *.
  assert (forall tail fuel', closes tail -> 2 * List.length (indented_member k (key, v)) <= fuel' ->
    scan_key (indented_member k (key, v) ++ tail) = Some (key, SPACE :: write_indented (S k) v ++ tail)
    /\ scan_value fuel' d (SPACE :: write_indented (S k) v ++ tail) = Some (v, tail)) as Hm.
  { intros tail fuel' Ht Hf'. unfold indented_member in *. cbn [fst snd] in *.
    rewrite !length_app in Hf'. cbn [List.length] in Hf'. split.
    - rewrite <- !app_assoc, scan_key_nl. cbn [app]. by rewrite scan_key_write.
    - rewrite (scan_value_skips _ _ _ _ (skip_space _)). apply Hv; [lia|done|done]. }
  destruct fuel as [|fuel]; [lia|]. cbn [scan_fields].
  destruct (decide (ms = [])) as [->|Hne].
  - cbn [map join] in *. destruct (Hm (nl k ++ "}"%char :: rest) fuel) as [-> ->]; [apply closes_nl|lia|].
    by rewrite skip_nl, skip_ws_id by done.
  - rewrite join_cons in * by done. rewrite length_app in Hf. cbn [List.length] in Hf.
    rewrite <- app_assoc. cbn [app].
    edestruct Hm as [-> ->]; [apply closes_end; by left|lia|].
    rewrite skip_comma. change ("," =c ",")%char with true. cbv iota.
    by rewrite (IH k fuel d rest) by (done || lia).
Qed.

Lemma indented_reads_back v : wf_value v -> flat v -> reads_indented v.
Proof.
  induction v as [|b|l|s|vs _|ms IH] using value_ind'; intros Hw Hfl k fuel d rest Hf Hd Hr;
    try (apply value_reads_back; [done| |done|done]; cbn [write_indented] in Hf; lia); [destruct Hfl|].
  destruct ms as [|m ms]; [by apply value_reads_back; [done| |done|done]; cbn in *; lia|].
  destruct d as [|d]; [by inversion Hd|].
  set (M := m :: ms) in *. assert (M <> []) as Hne by done.
  assert (write_indented k (VObj M)
          = "{"%char :: join (map (indented_member k) M) ++ nl k ++ ["}"%char]) as Eq by reflexivity.
  rewrite Eq in *. cbn [List.length] in Hf. rewrite length_app in Hf.
  assert (Forall (fun m => valid m.1 = true /\ wf_value m.2) M) as Hwf by (by apply foldr_and).
  assert (Forall (fun m => flat m.2) M) as Hfls by (by apply foldr_and).
  destruct fuel as [|fuel]; [lia|]. cbn [app scan_value]. rewrite (skip_ws_id "{") by done.
  change ("{" =c "{")%char with true. cbv iota. rewrite <- !app_assoc. cbn [app].
  assert (exists tl, skip_ws (join (map (indented_member k) M) ++ nl k ++ "}"%char :: rest) = DQUOTE :: tl) as [tl Htl].
  { unfold M. destruct (join_head (indented_member k) m ms (nl k ++ "}"%char :: rest)) as [tl ->].
    unfold indented_member at 1. rewrite <- !app_assoc, skip_nl. unfold quote. cbn [app].
    rewrite skip_ws_id by done. by eexists. }
  rewrite Htl. change (DQUOTE =c "}")%char with false. cbv iota.
  rewrite indented_fields; [done|done| | |by apply (foldr_max (fun m => depth m.2)), le_S_n|lia].
  - rewrite Forall_forall in *. intros m' Hm'. apply IH; [done|by apply Hwf|by apply Hfls].
  - eapply Forall_impl; [exact Hwf|]. by intros m' [? _].
Qed.

Lemma only_value_indented v :
  wf_value v -> flat v -> depth v <= maxNestingDepth -> only_value (write_indented 0 v) = Some v.
Proof.
  intros Hw Hfl Hd. unfold only_value. rewrite <- (app_nil_r (write_indented 0 v)) at 2.
  rewrite (indented_reads_back v Hw Hfl 0); [done| |done|done].
  unfold fuel_for. lia.
Qed.

(** ** The file is read back *)

Section RoundTrip.
Context `{Sha256}.

(** An entry as provisioning makes it. *)
Definition wf_entry (e : Entry) : Prop :=
  Host e <> "" /\ utf8 (Host e) /\ JsonValue.is_int64 (Port e) = true /\ utf8 (User e)
  /\ utf8 (Fingerprint e) /\ utf8 (GoTime.RFC3339Nano (AddedAt e))
  /\ GoTime.ParseRFC3339 (Sigwire.bytes (GoTime.RFC3339Nano (AddedAt e))) = Some (AddedAt e).

Definition wf_registry (m : gmap string Entry) : Prop := map_Forall (fun a e => utf8 a /\ wf_entry e) m.

Lemma decode_entry e : wf_entry e -> entry_decoder (entry_value e) zero_entry = (e, true).
Proof.
  intros (_ & _ & Hp & _ & _ & _ & Ht). destruct e as [host port user added ro fp].
  unfold entry_decoder, entry_value, decode_struct. cbn [Host Port User AddedAt ReadOnly Fingerprint] in *.
  rewrite <- (app_nil_r (omitempty (fp =s "") _ _)). do 3 step_member.
  erewrite decode_member with (x := added); [|reflexivity|].
  2: { unfold decode_time, vstr. cbv beta iota. by rewrite Ht. }
  erewrite decode_optional with (x := ro); [|reflexivity|by destruct ro|].
  2: { intros _. by destruct ro. }
  by step_members.
Qed.

Lemma fits_entry e : wf_entry e -> fits 1 (entry_value e).
Proof. intros (_ & H1 & _ & H2 & H3 & H4 & _). unfold entry_value. auto 20 with fits. Qed.

Lemma flat_members ms : Forall (fun m => flat m.2) ms -> flat (VObj ms).
Proof. intros Hm. cbn. by apply foldr_and. Qed.

Lemma entry_flat e : flat (entry_value e).
Proof.
  apply flat_members. repeat (apply Forall_app; split); try (by repeat constructor);
    unfold omitempty; destruct (_ : bool); by repeat constructor.
Qed.

Definition member_of (ke : string * Entry) : list ascii * value := (JsonValue.bytes ke.1, entry_value ke.2).

Lemma str_bytes' s : JsonValue.str (JsonValue.bytes s) = s.
Proof. apply string_of_list_ascii_of_string. Qed.

Lemma decode_members l : forall m,
  NoDup l.*1 -> Forall (fun ke => wf_entry ke.2) l ->
  decode_entries (map member_of l) m = (list_to_map l ∪ m, true).
Proof.
  induction l as [|[a e] l IH]; intros m Hn Hw; cbn [map decode_entries].
  { by rewrite list_to_map_nil, (left_id_L ∅ (∪)). }
  apply NoDup_cons in Hn as [Ha Hn]. apply Forall_cons in Hw as [He Hw]. cbn [fst snd] in *.
  unfold member_of at 1. cbn [fst snd]. rewrite decode_entry, str_bytes' by done.
  rewrite IH by done. cbn [andb]. rewrite list_to_map_cons, <- insert_union_l.
  f_equal. symmetry. apply insert_union_r. by apply not_elem_of_list_to_map_1.
Qed.

Lemma sorted_entries m :
  list_to_map (merge_sort key_le (map_to_list m)) = m
  /\ NoDup (merge_sort key_le (map_to_list m)).*1
  /\ Permutation (merge_sort key_le (map_to_list m)) (map_to_list m).
Proof.
  pose proof (merge_sort_Permutation key_le (map_to_list m)) as Hp.
  assert (NoDup (merge_sort key_le (map_to_list m)).*1) as Hn.
  { rewrite Hp. apply NoDup_fst_map_to_list. }
  split_and!; [|done|done]. rewrite (list_to_map_proper _ _ Hn Hp). apply list_to_map_to_list.
Qed.

Lemma registry_body m :
  wf_registry m ->
  decode_registry (write_indented 0 (registry_value m))
  = Some (m, map member_of (merge_sort key_le (map_to_list m))).
Proof.
  intros Hm. destruct (sorted_entries m) as (Hl & Hn & Hp).
  assert (Forall (fun ke => utf8 ke.1 /\ wf_entry ke.2) (merge_sort key_le (map_to_list m))) as Hw.
  { rewrite Hp. apply map_Forall_to_list in Hm. eapply Forall_impl; [exact Hm|]. by intros [a e]. }
  unfold decode_registry.
  change (registry_value m) with (VObj (map member_of (merge_sort key_le (map_to_list m)))).
  set (l := merge_sort key_le (map_to_list m)) in *.
  assert (fits 2 (VObj (map member_of l))) as [Hwf Hd].
  { apply fits_obj, Forall_map. eapply Forall_impl; [exact Hw|]. intros [a e] [Ha He]. cbn.
    split; [done|]. by apply fits_entry. }
  rewrite only_value_indented; [|done| |by apply (Nat.le_trans _ 2), Nat.leb_le].
  - rewrite decode_members; [|done|].
    + by rewrite Hl, (right_id_L ∅ (∪)).
    + eapply Forall_impl; [exact Hw|]. by intros ke [_ ?].
  - apply flat_members, Forall_map. eapply Forall_impl; [exact Hw|]. intros ke _. apply entry_flat.
Qed.

Lemma not_wrapper m : wf_registry m -> is_wrapper m = false.
Proof.
  intros Hm. unfold is_wrapper. destruct (m !! "servers") as [e|] eqn:E.
  2: { rewrite (bool_decide_false (None = _)) by done. by rewrite andb_false_r. }
  destruct (Hm _ _ E) as (_ & Hh & _). rewrite (bool_decide_false (Some e = _)); [by rewrite andb_false_r|].
  intros [= ->]. by apply Hh.
Qed.

Lemma object_written k ms : write_indented k (VObj ms) <> [].
Proof. by destruct ms. Qed.

Lemma parse_written m : wf_registry m -> parse (write_indented 0 (registry_value m)) = inl m.
Proof.
  intros Hm. unfold parse. pose proof (registry_body m Hm) as Hb.
  destruct (write_indented 0 (registry_value m)) as [|c l] eqn:E.
  - by destruct (object_written 0 _ E).
  - by rewrite Hb, not_wrapper.
Qed.

(** ** What a process finds *)

(** The file as one reload sees it, secure. *)
Definition sees (body : list ascii) (v : View) : Prop :=
  hashed v = ReadBody body /\ read v = ReadBody body
  /\ exists mode, stat v = StatMode mode /\ insecure mode = false.

(** The content is not the one a process saw last. *)
Definition news (body : list ascii) (s : Servers) : Prop :=
  hasHash s && filePresent s && bool_decide (Sum256 body = lastHash s) = false.

Lemma reload_news body v s m :
  sees body v -> news body s -> parse body = inl m -> data (reloadIfChanged v s) = m.
Proof.
  intros (Hh & Hr & mode & Hs & Hm) Hn Hp. unfold reloadIfChanged. unfold news in Hn.
  rewrite Hh, Hn. unfold Load. by rewrite Hs, Hm, Hr, Hp.
Qed.

(** C30: The registry is a round trip through its file: when Add succeeds, in the
    process that made it and in any other that had not seen this content before,
    looking up an alias in the file it wrote gives the added entry for the added
    alias, with the same host key, and for every other alias what was there
    before; and a process started on that file finds the same. *)
Theorem added_is_found (s s' t : Servers) (fault : option PersistErr) (alias a : string) (e : Entry)
    (body : list ascii) (v : View)
    (Hw : wf_registry (data s)) (He : wf_entry e) (Ha : utf8 alias)
    (Hadd : Add fault alias e s = (s', Some body, None))
    (Hv : sees body v) (Hn : news body t) :
  (Get v a t).2 = (if decide (a = alias) then Some e else data s !! a)
  /\ data s' !! a = (if decide (a = alias) then Some e else data s !! a)
  /\ exists s0, New (stat v) (read v) = inl s0 /\ data s0 = data s'.
Proof.
  unfold Add in Hadd. destruct (alias =s ""); [done|]. unfold persist, MarshalIndent in Hadd.
  destruct (forallb _ _); [|done]. destruct fault; [done|].
  assert (body = write_indented 0 (registry_value (<[alias := e]> (data s)))) as -> by congruence.
  assert (s' = set_data (<[alias := e]> (data s)) s) as -> by congruence. clear Hadd.
  assert (wf_registry (<[alias := e]> (data s))) as Hw' by (by apply map_Forall_insert_2).
  pose proof (parse_written _ Hw') as Hp.
  assert (<[alias := e]> (data s) !! a = if decide (a = alias) then Some e else data s !! a) as Hl.
  { destruct (decide (a = alias)) as [->|Hne]; [apply lookup_insert_eq|by apply lookup_insert_ne]. }
  split; [|split; [exact Hl|]].
  - unfold Get. cbn [snd]. by rewrite (reload_news _ _ _ _ Hv Hn Hp).
  - destruct Hv as (_ & Hr & mode & Hs & Hm). unfold New, Load. rewrite Hs, Hm, Hr, Hp. by eexists.
Qed.

(** ** Where served entries come from *)

(** A body that passed the checks of a load holds [e] under [a]. *)
Definition in_good_file (st : Stat) (rd : Read) (a : string) (e : Entry) : Prop :=
  exists mode body m, st = StatMode mode /\ insecure mode = false /\ rd = ReadBody body
    /\ parse body = inl m /\ m !! a = Some e.

Definition view_of (ev : event) : option View :=
  match ev with Lookup v _ | Listing v => Some v | _ => None end.

Definition from_event (ev : event) (a : string) (e : Entry) : Prop :=
  (exists v, view_of ev = Some v /\ in_good_file (stat v) (read v) a e)
  \/ exists fault, ev = Adding fault a e.

Lemma Load_origin st rd s a e :
  data (Load st rd s).1 !! a = Some e -> data s !! a = Some e \/ in_good_file st rd a e.
Proof.
  unfold Load. destruct st as [| |mode]; cbn [fst recordHashLocked set_data data].
  - by rewrite lookup_empty.
  - by left.
  - destruct (insecure mode) eqn:Em; [by left|]. destruct rd as [| |body]; [by left..|].
    destruct (parse body) as [m|] eqn:Ep; [|by left]. cbn. intros Hl. right.
    by exists mode, body, m.
Qed.

Lemma reload_origin v s a e :
  data (reloadIfChanged v s) !! a = Some e -> data s !! a = Some e \/ in_good_file (stat v) (read v) a e.
Proof.
  unfold reloadIfChanged. destruct (hashed v) as [| |body].
  - destruct (_ || _); [apply Load_origin|by left].
  - by left.
  - destruct (_ && _); [by left|]. apply (Load_origin _ _ (recordHashLocked (Sum256 body) true s)).
Qed.

Lemma step_origin ev s a e :
  data (step ev s) !! a = Some e -> data s !! a = Some e \/ from_event ev a e.
Proof.
  destruct ev as [v alias|v|fault alias e'|fault alias]; cbn [step].
  - intros [Hl|Hl]%reload_origin; [by left|]. right. left. by exists v.
  - intros [Hl|Hl]%reload_origin; [by left|]. right. left. by exists v.
  - unfold Add. destruct (alias =s ""); [by left|]. destruct (persist _ _); cbn [fst data set_data].
    + destruct (decide (alias = a)) as [->|Hne].
      * rewrite lookup_insert_eq. intros [= ->]. right. right. by exists fault.
      * rewrite lookup_insert_ne by done. by left.
    + destruct (data s !! alias) as [prev|] eqn:E.
      * rewrite insert_insert_eq, insert_id by done. by left.
      * rewrite delete_insert_id by done. by left.
  - unfold Remove. destruct (data s !! alias) as [prev|] eqn:E; [|by left].
    destruct (persist _ _); cbn [fst data set_data].
    + intros [_ Hl]%lookup_delete_Some. by left.
    + rewrite insert_delete_id by done. by left.
Qed.

(** Every host key a process uses is one it may trust: whatever files it saw
    and whatever it did, an entry it holds was in a file that no group or world
    member could write and that parsed and was no wrapped registry, at its start
    or at one of its reloads, or was added by the process itself under that
    alias; an update that fails leaves no trace. *)
Theorem entries_have_origin (st : Stat) (rd : Read) (s0 : Servers) (evs : list event) (a : string) (e : Entry)
    (Hnew : New st rd = inl s0) (He : data (run evs s0) !! a = Some e) :
  in_good_file st rd a e \/ Exists (fun ev => from_event ev a e) evs.
Proof.
  assert (forall s, data (run evs s) !! a = Some e -> data s !! a = Some e \/ Exists (fun ev => from_event ev a e) evs)
    as Hrun.
  { clear He. induction evs as [|ev evs IH]; intros s Hs; [by left|].
    destruct (IH _ Hs) as [Hst|Hex]; [|right; by right].
    destruct (step_origin _ _ _ _ Hst) as [?|?]; [by left|right; by left]. }
  destruct (Hrun _ He) as [Hs|?]; [|by right]. left. unfold New in Hnew.
  destruct (Load st rd _) as [s' [err|]] eqn:El; [done|]. injection Hnew as ->.
  destruct (Load_origin st rd (mkServers ∅ zero_hash false false) a e) as [Hl|?]; [by rewrite El| |done].
  cbn [data] in Hl. by rewrite lookup_empty in Hl.
Qed.

End RoundTrip.

(** ** What a reload misses *)

(** A file that a load refused for its mode is not read again when only the mode is
    repaired: its content was recorded as seen. *)
Lemma repaired_mode_unseen `{Sha256} (s : Servers) (body : list ascii) (bad good : Z) (alias : string) :
  news body s -> insecure bad = true -> insecure good = false ->
  let s1 := (Get (mkView (ReadBody body) (StatMode bad) (ReadBody body)) alias s).1 in
  (Get (mkView (ReadBody body) (StatMode good) (ReadBody body)) alias s1).2 = data s !! alias.
Proof.
  intros Hn Hb Hg. unfold Get. cbn [fst snd]. unfold news in Hn. unfold reloadIfChanged at 2.
  cbn [hashed]. rewrite Hn. unfold Load. cbn [stat read]. rewrite Hb. cbn [fst].
  unfold reloadIfChanged. cbn [hashed recordHashLocked hasHash filePresent lastHash].
  by rewrite bool_decide_true.
Qed.

(** An update writes what the process remembers: an alias that another process
    added to the file since is lost from it. *)
Lemma update_loses_others `{Sha256} (s s' : Servers) (fault : option PersistErr) (alias other : string) (e : Entry)
    (body : list ascii) :
  wf_registry (data s) -> wf_entry e -> utf8 alias -> data s !! other = None -> other <> alias ->
  Add fault alias e s = (s', Some body, None) ->
  exists m, parse body = inl m /\ m !! other = None.
Proof.
  intros Hw He Ha Ho Hne Hadd. unfold Add in Hadd. destruct (alias =s ""); [done|].
  unfold persist, MarshalIndent in Hadd. destruct (forallb _ _); [|done]. destruct fault; [done|].
  assert (body = write_indented 0 (registry_value (<[alias := e]> (data s)))) as -> by congruence.
  eexists. split; [by apply parse_written, map_Forall_insert_2|]. by rewrite lookup_insert_ne by done.
Qed.

(** ** Witnesses *)

#[local] Instance toy_sha : Sha256 := {| Sum256 b := b |}.

Definition sample_host : Entry := mkEntry "10.0.0.1" 22 "u" (1709164800 * Sigwire.Second) false "SHA256:a".
Definition empty_servers : Servers := mkServers ∅ zero_hash false false.

Lemma sample_wf : wf_entry sample_host.
Proof. split; [done|]. by repeat split. Qed.

Lemma added_is_found_witness :
  exists body, (Add None "web" sample_host empty_servers).1.2 = Some body
    /\ (Get (mkView (ReadBody body) (StatMode 384) (ReadBody body)) "web" empty_servers).2 = Some sample_host.
Proof.
  destruct (Add None "web" sample_host empty_servers) as [[s' [body|]] err] eqn:E; [|by vm_compute in E].
  destruct err as [err|]; [by vm_compute in E|].
  exists body. split; [reflexivity|].
  set (v := mkView (ReadBody body) (StatMode 384) (ReadBody body)).
  assert (sees body v) as Hv by (split; [reflexivity|]; split; [reflexivity|]; exists 384%Z; split; reflexivity).
  assert (news body empty_servers) as Hn by reflexivity.
  destruct (added_is_found empty_servers s' empty_servers None "web" "web" sample_host body v
              (map_Forall_empty _) sample_wf eq_refl E Hv Hn) as [Hg _].
  rewrite Hg. by rewrite decide_True.
Defined.

Lemma entries_have_origin_witness :
  in_good_file StatNotExist ReadNotExist "web" sample_host
  \/ Exists (fun ev => from_event ev "web" sample_host) [Adding None "web" sample_host].
Proof.
  destruct (New StatNotExist ReadNotExist) as [s0|] eqn:E; [|by vm_compute in E].
  apply (entries_have_origin StatNotExist ReadNotExist s0 _ "web" sample_host E).
  injection E as <-. reflexivity.
Defined.
