(* ===== verification/McpKeys.v ===== *)
(** * The restricted entry in authorized_keys (src/mcp/tools/authorizedkeys.go)

    How the installer replaces the SSHGate key's lines by one line that forces the
    gate, and the two probes that tell whether it has to.  A public key is its wire
    bytes; reading and writing a key's line is golang.org/x/crypto/ssh. *)

From S2P Require Import Prelude RedactScanner GateRevoke.

(** ssh.ParseAuthorizedKey: the first key of the input; ssh.MarshalAuthorizedKey. *)
Class SSHKeys := {
  ParseAuthorizedKey : list ascii -> option (list ascii);
  MarshalAuthorizedKey : list ascii -> list ascii
}.

Module Keys.
Import Bytes Revoke.

(** commandForcingFmt *)
Definition commandForcing (commandPath : string) : list ascii :=
  lit "command=" ++ DQUOTE :: lit commandPath
  ++ DQUOTE :: lit ",no-port-forwarding,no-X11-forwarding,no-agent-forwarding ".

(** bytes.TrimRight(b, "\n") *)
Fixpoint trim_newlines (l : list ascii) : list ascii :=
  match l with
  | [] => []
  | c :: l => match trim_newlines l with
              | [] => if c =c NL then [] else [c]
              | t => c :: t
              end
  end.

(** The scanner's error: a line that does not fit its buffer. *)
Definition scan_fits (body : list ascii) : bool :=
  forallb (fun line => List.length line <? maxLine) (split_on (fun c => c =c NL) body).

Inductive KeysErr := NilKey | BadCommandPath | ScanFailed.

Definition forbidden (c : ascii) : bool := (c =c DQUOTE) || (c =c NL).

Section Keys.
Context `{SSHKeys}.

(** lineMatchesKey *)
Definition lineMatchesKey (line want : list ascii) : bool :=
  let trimmed := GoStr.TrimSpace (string_of_list_ascii line) in
  if (trimmed =s "") || GoStr.HasPrefix trimmed "#" then false
  else match ParseAuthorizedKey line with
       | Some k => bool_decide (k = want)
       | None => false
       end.

(** The line rewriteAuthorizedKeys appends. *)
Definition restricted_line (pubkey : list ascii) (commandPath : string) : list ascii :=
  commandForcing commandPath ++ trim_newlines (MarshalAuthorizedKey pubkey).

(** The loop of rewriteAuthorizedKeys. *)
Fixpoint keep_loop (want : list ascii) (lines : list (list ascii)) : list ascii :=
  match lines with
  | [] => []
  | line :: lines =>
      if lineMatchesKey line want then keep_loop want lines
      else line ++ NL :: keep_loop want lines
  end.

(** rewriteAuthorizedKeys; no key is the nil PublicKey. *)
Definition rewriteAuthorizedKeys (existing : list ascii) (pubkey : option (list ascii))
    (commandPath : string) : list ascii + KeysErr :=
  match pubkey with
  | None => inr NilKey
  | Some k =>
      if existsb forbidden (lit commandPath) then inr BadCommandPath
      else if negb (scan_fits existing) then inr ScanFailed
      else inl (keep_loop k (Scan existing) ++ restricted_line k commandPath ++ [NL])
  end.

(** hasRestrictedEntryForKey; it does not ask whether the scan came to an end. *)
Definition hasRestrictedEntryForKey (existing : list ascii) (pubkey : option (list ascii))
    (commandPath : string) : bool :=
  match pubkey with
  | None => false
  | Some k =>
      existsb (fun line => is_prefix (commandForcing commandPath) line && lineMatchesKey line k)
        (Scan existing)
  end.

(** hasPlainLineForKey (provision.go), for the command path [commandPath]. *)
Definition hasPlainLineForKey (existing : list ascii) (pubkey : option (list ascii))
    (commandPath : string) : bool :=
  match pubkey with
  | None => false
  | Some k =>
      existsb (fun line => lineMatchesKey line k && negb (is_prefix (commandForcing commandPath) line))
        (Scan existing)
  end.

End Keys.

End Keys.
