(* ===== verification/McpKeysProps.v ===== *)
(** * What the restricted entry is

    After a rewrite the key has one line, and it forces the gate; everybody else's
    lines are kept; and when the gate's own revoke takes that line out again, and what
    else it takes. *)

From S2P Require Import Prelude Base64 RedactScanner RedactMatchProps GateRevoke GateRevokeProps McpKeys.
Import Bytes Revoke Keys.

#[local] Opaque maxLine.

(** What the library documents: a key's line ends at its only newline and has no
    quotes, and a key behind quoted options is read back. *)
Class SSHKeysLaws (K : SSHKeys) := {
  marshal_line k :
    exists l, MarshalAuthorizedKey k = l ++ [NL] /\ newline_free l /\ dropCR l = l /\ l <> [];
  marshal_unquoted k : Forall (fun c => (c =c DQUOTE) = false) (MarshalAuthorizedKey k);
  parse_forced k path :
    existsb (fun c => forbidden c || (c =c BACKSLASH)) (lit path) = false ->
    ParseAuthorizedKey (restricted_line k path) = Some k
}.

(** ** Lines *)

Definition text_of (body : list ascii) : list (list ascii) := text_lines (file_lines body).

Lemma scan_fits_iff body : scan_fits body = true <-> Forall short (file_lines body).
Proof.
  unfold scan_fits, file_lines, short. rewrite forallb_forall, List.Forall_forall.
  split; intros H l Hl; specialize (H l Hl); by apply Nat.ltb_lt.
Qed.

Lemma scan_text body : Forall short (file_lines body) -> Scan body = map dropCR (text_of body).
Proof. apply scan_tokens_short. Qed.

Lemma scan_newline_free body : Forall short (file_lines body) -> Forall newline_free (Scan body).
Proof.
  intros Hs. rewrite scan_text by done. apply List.Forall_forall. intros l (l0 & <- & Hl)%in_map_iff.
  apply text_lines_incl in Hl. pose proof (split_newline_free body) as Hf.
  rewrite List.Forall_forall in Hf. by apply dropCR_newline_free, Hf.
Qed.

Lemma text_unlines ls : Forall newline_free ls -> text_of (unlines ls) = ls.
Proof. intros Hl. unfold text_of. rewrite split_unlines by done. by apply text_lines_app, Forall_true. Qed.

Lemma is_prefix_self p r : is_prefix p (p ++ r) = true.
Proof. induction p as [|c p IH]; [done|]. cbn [app is_prefix]. by rewrite Ascii.eqb_refl. Qed.

Lemma keep_loop_spec `{SSHKeys} want lines :
  keep_loop want lines = unlines (List.filter (fun l => negb (lineMatchesKey l want)) lines).
Proof.
  induction lines as [|l lines IH]; [done|]. cbn [keep_loop List.filter]. rewrite IH.
  destruct (lineMatchesKey l want); cbn [negb]; [done|]. unfold unlines. cbn [map List.concat].
  by rewrite <- app_assoc.
Qed.

(** The lines of others: what a rewrite keeps. *)
Definition others `{SSHKeys} (existing want : list ascii) : list (list ascii) :=
  List.filter (fun l => negb (lineMatchesKey l want)) (Scan existing).

Lemma unlines_snoc ls l : unlines (ls ++ [l]) = unlines ls ++ l ++ [NL].
Proof. unfold unlines. rewrite map_app, concat_app. cbn. by rewrite app_nil_r. Qed.

Lemma trim_newlines_line l : newline_free l -> trim_newlines (l ++ [NL]) = l.
Proof.
  induction 1 as [|c l Hc _ IH]; [done|]. cbn [app trim_newlines]. rewrite IH.
  destruct l; [by rewrite Hc|done].
Qed.

(** TrimSpace keeps a first byte that is no white space and part of no rune. *)
Lemma trim_right_first c l :
  GoStr.is_ascii_space c = false -> (N_of_ascii c < 128)%N ->
  exists t, GoStr.trim_left_rev (l ++ [c]) = t ++ [c].
Proof.
  intros Hc Hn. induction l as [l IH] using list_length_ind.
  assert (forall a, GoStr.is_space2 c a = false) as H2.
  { intros a. unfold GoStr.is_space2. apply andb_false_intro1, Ascii.eqb_neq. intros ->. by cbn in Hn. }
  assert (forall a b, GoStr.is_space3 c a b = false) as H3.
  { intros a b. unfold GoStr.is_space3.
    by repeat (rewrite (proj2 (Ascii.eqb_neq c _)) by (intros ->; by cbn in Hn); cbn). }
  destruct l as [|a l]; [exists []; cbn; by rewrite Hc|]. cbn [app GoStr.trim_left_rev].
  destruct (GoStr.is_ascii_space a); [apply IH; cbn; lia|].
  destruct l as [|b l]; cbn [app]; [rewrite H2; by exists [a]|].
  destruct (GoStr.is_space2 b a); [apply IH; cbn; lia|].
  destruct l as [|d l]; cbn [app]; [rewrite H3; by exists [a; b]|].
  destruct (GoStr.is_space3 d b a); [apply IH; cbn; lia|by exists (a :: b :: d :: l)].
Qed.

Lemma trim_space_first c r :
  GoStr.is_ascii_space c = false -> (N_of_ascii c < 128)%N ->
  exists t, GoStr.TrimSpace (string_of_list_ascii (c :: r)) = String c t.
Proof.
  intros Hc Hn. unfold GoStr.TrimSpace. rewrite list_ascii_of_string_of_list_ascii.
  assert (GoStr.trim_left (c :: r) = c :: r) as ->.
  { cbn [GoStr.trim_left]. rewrite Hc. destruct r as [|a r]; [done|].
    assert (GoStr.is_space2 c a = false) as ->
      by (unfold GoStr.is_space2; apply andb_false_intro1, Ascii.eqb_neq; intros ->; by cbn in Hn).
    destruct r as [|b r]; [done|]. unfold GoStr.is_space3.
    by repeat (rewrite (proj2 (Ascii.eqb_neq c _)) by (intros ->; by cbn in Hn); cbn). }
  rewrite reverse_cons. destruct (trim_right_first c (reverse r) Hc Hn) as [t ->].
  rewrite reverse_snoc. by eexists.
Qed.

Section Rewrite.
Context `{!SSHKeysLaws K}.

(** A command path the installer may use: nothing the option's quoting reads
    specially. *)
Definition plain_path (path : string) : Prop :=
  existsb (fun c => forbidden c || (c =c BACKSLASH)) (lit path) = false.

Lemma plain_allowed path : plain_path path -> existsb forbidden (lit path) = false.
Proof.
  unfold plain_path. induction (lit path) as [|c l IH]; [done|]. cbn [existsb].
  destruct (forbidden c); [done|]. cbn [orb]. destruct (c =c BACKSLASH); [done|]. exact IH.
Qed.

Lemma allowed_newline_free path : existsb forbidden (lit path) = false -> newline_free (lit path).
Proof.
  induction (lit path) as [|c l IH]; [by constructor|]. cbn [existsb]. unfold forbidden at 1.
  destruct (c =c NL) eqn:E; [by rewrite orb_true_r|]. intros [_ Hl]%orb_false_iff.
  constructor; [done|by apply IH].
Qed.

Lemma key_line k :
  exists l, trim_newlines (MarshalAuthorizedKey k) = l /\ newline_free l /\ dropCR l = l /\ l <> [].
Proof.
  destruct (marshal_line k) as (l & -> & Hl & Hd & Hn). exists l. by rewrite trim_newlines_line.
Qed.

Lemma dropCR_app l r : r <> [] -> dropCR (l ++ r) = l ++ dropCR r.
Proof.
  intros Hr. induction l as [|c l IH]; [done|]. cbn [app].
  destruct (l ++ r) as [|d l'] eqn:E; [by apply app_nil in E as [_ ->]|].
  change (dropCR (c :: d :: l')) with (c :: dropCR (d :: l')). by rewrite IH.
Qed.

Lemma forcing_newline_free path : existsb forbidden (lit path) = false -> newline_free (commandForcing path).
Proof.
  intros Hp. apply allowed_newline_free in Hp. unfold commandForcing.
  apply Forall_app; split; [by repeat constructor|]. constructor; [done|].
  apply Forall_app; split; [done|]. by repeat constructor.
Qed.

Lemma restricted_newline_free k path :
  existsb forbidden (lit path) = false -> newline_free (restricted_line k path).
Proof.
  intros Hp. unfold restricted_line. destruct (key_line k) as (l & -> & Hl & _).
  apply Forall_app; split; [by apply forcing_newline_free|done].
Qed.

Lemma restricted_dropCR k path : dropCR (restricted_line k path) = restricted_line k path.
Proof.
  unfold restricted_line. destruct (key_line k) as (l & -> & _ & Hd & Hn).
  by rewrite dropCR_app, Hd.
Qed.

Lemma restricted_matches k path : plain_path path -> lineMatchesKey (restricted_line k path) k = true.
Proof.
  intros Hp. unfold lineMatchesKey. rewrite parse_forced by done.
  destruct (trim_space_first "c" (tl (restricted_line k path))) as [t Ht]; [done|done|].
  change (_ :: tl _) with (restricted_line k path) in Ht. rewrite Ht. cbn. by rewrite bool_decide_true.
Qed.

Lemma restricted_forced k path : is_prefix (commandForcing path) (restricted_line k path) = true.
Proof.
  apply is_prefix_self.
Qed.

(** ** The rewrite *)

Lemma rewrite_inv existing k path body :
  rewriteAuthorizedKeys existing (Some k) path = inl body ->
  existsb forbidden (lit path) = false /\ Forall short (file_lines existing)
  /\ body = unlines (others existing k ++ [restricted_line k path]).
Proof.
  unfold rewriteAuthorizedKeys. destruct (existsb forbidden (lit path)) eqn:Ep; [done|].
  destruct (scan_fits existing) eqn:Es; [|done]. apply scan_fits_iff in Es. cbn [negb].
  intros [= <-]. do 2 (split; [done|]). unfold others.
  by rewrite keep_loop_spec, unlines_snoc.
Qed.

Lemma others_newline_free existing k : Forall short (file_lines existing) -> Forall newline_free (others existing k).
Proof.
  intros Hs. apply scan_newline_free in Hs. rewrite List.Forall_forall in *.
  intros l [Hl _]%filter_In. by apply Hs.
Qed.

(** The rewritten file: the other lines in order, then the one entry. *)
Lemma rewrite_lines existing k path body :
  rewriteAuthorizedKeys existing (Some k) path = inl body ->
  text_of body = others existing k ++ [restricted_line k path].
Proof.
  intros (Hp & Hs & ->)%rewrite_inv. apply text_unlines. apply Forall_app. split.
  - by apply others_newline_free.
  - constructor; [by apply restricted_newline_free|constructor].
Qed.

(** The key's only line forces the gate. *)
Lemma rewrite_locks existing k path body :
  plain_path path -> rewriteAuthorizedKeys existing (Some k) path = inl body ->
  List.filter (fun l => lineMatchesKey l k) (text_of body) = [restricted_line k path].
Proof.
  intros Hp Hb. rewrite (rewrite_lines _ _ _ _ Hb), List.filter_app. cbn [List.filter].
  rewrite restricted_matches by done. unfold others.
  induction (Scan existing) as [|l ls IH]; [done|]. cbn [List.filter].
  destruct (lineMatchesKey l k) eqn:E; cbn [negb]; [done|]. cbn [List.filter]. by rewrite E.
Qed.

Lemma prefix_index n l : is_prefix n l = true -> contains l n = true.
Proof. unfold contains. destruct l; cbn [index]; by intros ->. Qed.

(** The needle a restricted line begins with. *)
Lemma restricted_shape k path :
  restricted_line k path
  = needle path ++ lit ",no-port-forwarding,no-X11-forwarding,no-agent-forwarding "
    ++ trim_newlines (MarshalAuthorizedKey k).
Proof.
  unfold restricted_line, commandForcing, needle. rewrite <- !app_assoc. cbn [app]. by rewrite <- !app_assoc.
Qed.

Lemma unquoted_trimmed k : Forall (fun c => (c =c DQUOTE) = false) (trim_newlines (MarshalAuthorizedKey k)).
Proof.
  pose proof (marshal_unquoted k) as Hq. induction Hq as [|c l Hc _ IH]; [constructor|]. cbn [trim_newlines].
  destruct (trim_newlines l); [destruct (c =c NL); by repeat constructor|by constructor].
Qed.

Lemma allowed_unquoted path :
  existsb forbidden (lit path) = false -> Forall (fun c => (c =c DQUOTE) = false) (lit path).
Proof.
  induction (lit path) as [|c l IH]; [by constructor|]. cbn [existsb]. unfold forbidden at 1.
  destruct (c =c DQUOTE) eqn:E; [done|]. intros [_ Hl]%orb_false_iff. constructor; [done|by apply IH].
Qed.

(** Cut at its two quotes. *)
Lemma restricted_quotes k path :
  existsb forbidden (lit path) = false ->
  exists rest, split_on (fun c => c =c DQUOTE) (restricted_line k path) = [lit "command="; lit path; rest].
Proof.
  intros Hp%allowed_unquoted. eexists. rewrite restricted_shape. unfold needle.
  rewrite <- app_assoc. cbn [app]. rewrite <- app_assoc. cbn [app].
  rewrite split_on_app by done. rewrite split_on_app by done.
  rewrite !split_on_no_sep; [done| |done|by repeat constructor].
  apply Forall_app. split; [by repeat constructor|apply unquoted_trimmed].
Qed.

Lemma split_single {A} (p : A -> bool) l l' : split_on p l = [l'] -> l = l'.
Proof.
  revert l'. induction l as [|x l IH]; intros l'; cbn [split_on]; [by intros [= <-]|].
  pose proof (split_on_ne p l) as Hn. destruct (p x); [intros [= <- Hl]; by destruct Hn|].
  destruct (split_on p l) as [|h [|? ?]]; [done| |done]. intros [= <-]. f_equal. by apply IH.
Qed.

Lemma three_parts {A} (u v w : list A) a b c :
  u <> [] -> v <> [] -> w <> [] -> u ++ v ++ w = [a; b; c] -> v = [b].
Proof.
  intros Hu Hv Hw E. destruct u as [|u1 [|? [|? [|? ?]]]]; [done| | | |done]; injection E as -> E;
    destruct v as [|v1 [|? [|? ?]]]; try done; simplify_eq/=; try done; by destruct w.
Qed.

(** A restricted line names its own path and no other. *)
Lemma restricted_names k path c :
  existsb forbidden (lit path) = false ->
  contains (restricted_line k path) (needle c) = true <-> c = path.
Proof.
  intros Hp. split.
  - unfold contains. destruct (index _ _) as [i|] eqn:E; [|done]. intros _.
    apply index_app in E as (x & y & E). destruct (restricted_quotes k path Hp) as [rest Hr].
    replace (restricted_line k path) with ((x ++ lit "command=") ++ DQUOTE :: lit c ++ DQUOTE :: y) in Hr.
    2: { rewrite E. unfold needle. rewrite <- !app_assoc. cbn [app]. by rewrite <- !app_assoc. }
    rewrite split_on_app in Hr by done. rewrite split_on_app in Hr by done.
    apply three_parts in Hr; [|apply split_on_ne..]. apply split_single in Hr.
    apply (f_equal string_of_list_ascii) in Hr. by rewrite !string_of_list_ascii_of_string in Hr.
  - intros ->. apply prefix_index. rewrite restricted_shape. apply is_prefix_self.
Qed.

(** What the gate's revoke makes of the rewritten file: every line that names a
    candidate goes. *)
Lemma rewrite_stripped existing k path body candidates :
  rewriteAuthorizedKeys existing (Some k) path = inl body -> short (restricted_line k path) ->
  let names := matched (needles candidates) in
  let lines := map dropCR (others existing k) ++ [restricted_line k path] in
  stripGateLines body candidates
  = (unlines (List.filter (fun l => negb (names l)) lines), List.length (List.filter names lines)).
Proof.
  intros Hb Hr. pose proof (rewrite_lines _ _ _ _ Hb) as Ht.
  apply rewrite_inv in Hb as (Hp & Hs & ->). cbv zeta.
  assert (Forall short (others existing k)) as Hos.
  { unfold others. rewrite scan_text by done. apply List.Forall_forall.
    intros l [(l0 & <- & Hl0)%in_map_iff _]%filter_In. apply text_lines_incl in Hl0.
    rewrite List.Forall_forall in Hs. by apply dropCR_short, Hs. }
  unfold stripGateLines. rewrite scan_text, Ht, map_app; cbn [map].
  2: { rewrite split_unlines.
       - apply Forall_app. split; [|constructor; [apply maxLine_pos|constructor]].
         apply Forall_app. split; [exact Hos|]. constructor; [exact Hr|constructor].
       - apply Forall_app. split; [by apply others_newline_free|].
         constructor; [by apply restricted_newline_free|constructor]. }
  by rewrite restricted_dropCR, strip_loop_spec.
Qed.

End Rewrite.

(** ** From the installer to the gate's revoke *)

Abbreviation installed_path := "~/.sshgate-gate/gate".

Lemma lit_app s t : lit (s +:+ t) = lit s ++ lit t.
Proof. apply list_ascii_of_app. Qed.

Definition no_slash (c : string) : Prop := Forall (fun x => (x =c "/")%char = false) (lit c).

Lemma components_no_slash p : Forall no_slash (components p).
Proof.
  unfold components, no_slash. apply Forall_map.
  assert (forall l : list ascii, Forall (Forall (fun x => (x =c "/")%char = false))
            (split_on (fun x => (x =c "/")%char) l)) as Hs.
  { induction l as [|x l IH]; [by repeat constructor|]. cbn [split_on].
    destruct (x =c "/")%char eqn:E; [by constructor|]. destruct (split_on _ l) as [|h t].
    - repeat constructor; done.
    - apply Forall_cons in IH as [Hh Ht]. by repeat constructor. }
  eapply Forall_impl; [apply Hs|]. intros l Hl. unfold lit. by rewrite list_ascii_of_string_of_list_ascii.
Qed.

(** A cleaned absolute path has no empty component, no dots and no slash. *)
Definition plain_component (c : string) : Prop := c <> "" /\ c <> "." /\ c <> ".." /\ no_slash c.

Lemma clean_plain cs : forall acc,
  Forall no_slash cs -> Forall plain_component acc -> Forall plain_component (clean_components true acc cs).
Proof.
  induction cs as [|c cs IH]; intros acc Hcs Hacc; [done|]. apply Forall_cons in Hcs as [Hc Hcs].
  cbn [clean_components]. destruct (_ || _) eqn:E1; [by apply IH|].
  destruct (c =s "..") eqn:E2.
  - destruct acc as [|a acc]; [by apply IH|]. apply Forall_cons in Hacc as [Ha Hacc].
    destruct (a =s "..") eqn:E3; [bool_hyps; by destruct Ha as (_ & _ & ? & _)|by apply IH].
  - apply IH; [done|]. constructor; [|done]. bool_hyps. by split_and!.
Qed.

Lemma Clean_plain p : rooted p = true -> Forall plain_component (Clean p).
Proof.
  intros Hr. unfold Clean. rewrite Hr. apply Forall_reverse, clean_plain; [apply components_no_slash|constructor].
Qed.

Lemma components_join c cs : Forall no_slash (c :: cs) -> components (join_slash (c :: cs)) = c :: cs.
Proof.
  revert c. induction cs as [|d cs IH]; intros c Hc; apply Forall_cons in Hc as [Hc Hcs].
  - cbn [join_slash]. unfold components. rewrite split_on_no_sep by done. cbn [map].
    by rewrite string_of_list_ascii_of_string.
  - change (join_slash (c :: d :: cs)) with (c +:+ ("/" +:+ join_slash (d :: cs))).
    specialize (IH d Hcs). unfold components in *. fold (lit (c +:+ ("/" +:+ join_slash (d :: cs)))).
    rewrite !lit_app. change (lit "/" ++ ?x) with ("/"%char :: x).
    rewrite split_on_app, split_on_no_sep by done. cbn [map app]. unfold lit at 2. rewrite IH.
    by rewrite string_of_list_ascii_of_string.
Qed.

Lemma strip_common_inv a : forall b t,
  strip_common a b = ([], t) <-> b = a ++ t.
Proof.
  induction a as [|x a IH]; intros b t; cbn [strip_common].
  - split; [by intros [= ->]|by intros ->].
  - destruct b as [|y b]; [done|]. destruct (x =s y) eqn:E; bool_hyps.
    + subst y. rewrite IH. split; [by intros ->|by intros [= ->]].
    + split; [done|]. by intros [= -> _].
Qed.

(** The gate looks for the line the installer wrote exactly when its executable is
    where the installer put it, below the home directory the gate finds. *)
Lemma installed_candidate home exe :
  rooted home = true -> rooted exe = true ->
  In installed_path (gateBinaryCandidates home exe)
  <-> Clean exe = Clean home ++ [".sshgate-gate"; "gate"].
Proof.
  intros Hh He. assert (exe <> installed_path) as Hne by (by intros ->).
  unfold gateBinaryCandidates. destruct (_ || _) eqn:E0.
  { apply orb_true_iff in E0 as [E0|E0]; bool_hyps; by subst. }
  unfold Rel. rewrite Hh, He. cbn [Bool.eqb negb].
  pose proof (Clean_plain exe He) as Hpe. pose proof (Clean_plain home Hh) as Hph.
  destruct (strip_common (Clean home) (Clean exe)) as [b t] eqn:Es.
  destruct b as [|b0 b].
  - apply strip_common_inv in Es. rewrite Es in *. apply Forall_app in Hpe as [_ Ht].
    destruct t as [|t0 t].
    { cbn. split; [by intros [?|[?|[]]]|]. intros E%(app_inv_head (Clean home) [] _). done. }
    assert (startsWithDotDot (join_slash (t0 :: t)) = false) as ->.
    { apply not_true_iff_false. intros Hd.
      assert (exists rest, components (join_slash (t0 :: t)) = ".." :: rest) as [rest Hc].
      { unfold startsWithDotDot in Hd. apply orb_true_iff in Hd as [Hd|Hd]; [bool_hyps; rewrite Hd; by exists []|].
        apply prefix_spec in Hd as [r ->]. unfold components. fold (lit ("../" +:+ r)). rewrite lit_app.
        change (lit "../" ++ lit r) with ([".";"."]%char ++ "/"%char :: lit r).
        rewrite split_on_app by done. by eexists. }
      rewrite components_join in Hc; [|eapply Forall_impl; [exact Ht|by intros ? (_ & _ & _ & ?)]].
      injection Hc as -> _. apply Forall_cons in Ht as [(_ & _ & ? & _) _]. done. }
    cbn [negb]. split.
    + intros [?|[E|[]]]; [done|]. f_equal.
      assert (join_slash (t0 :: t) = ".sshgate-gate/gate") as Ej by (by injection E).
      rewrite <- (components_join t0 t), Ej; [done|].
      eapply Forall_impl; [exact Ht|by intros ? (_ & _ & _ & ?)].
    + intros ->%app_inv_head. by right; left.
  - assert (Clean exe <> Clean home ++ [".sshgate-gate"; "gate"]) as Hno.
    { intros E%strip_common_inv. rewrite Es in E. done. }
    destruct (b0 =s ".."); [by split; [intros [?|[]]|]|].
    assert (startsWithDotDot (join_slash (List.repeat ".." (List.length (b0 :: b)) ++ t)) = true) as ->.
    { cbn [List.length List.repeat app]. destruct (List.repeat ".." (List.length b) ++ t) as [|c cs]; [done|].
      unfold startsWithDotDot. apply orb_true_iff. right. apply prefix_spec. by eexists. }
    cbn [negb]. by split; [intros [?|[]]|].
Qed.

Lemma candidates_nonempty home exe p :
  rooted exe = true -> In p (gateBinaryCandidates home exe) -> p <> "".
Proof.
  intros He Hin ->. unfold gateBinaryCandidates in Hin.
  destruct (_ || _); [destruct Hin as [->|[]]; done|]. destruct (Rel _ _) as [rel|]; [destruct (negb _)|];
    repeat destruct Hin as [Hin|Hin]; by subst.
Qed.

Section Installed.
Context `{K : SSHKeys} `{!SSHKeysLaws K}.

(** A line that the gate at [exe] takes for one of its own: it has a command option
    with this path, or, below the home directory, with the path from there. *)
Definition names_gate (home exe : string) (l : list ascii) : Prop :=
  contains l (needle exe) = true
  \/ exists rel, home <> "" /\ Rel home exe = Some rel /\ startsWithDotDot rel = false
       /\ contains l (needle ("~/" +:+ rel)) = true.

Lemma matched_candidates home exe l :
  rooted exe = true -> matched (needles (gateBinaryCandidates home exe)) l = true <-> names_gate home exe l.
Proof.
  intros He. assert (exe <> "") as Hne by (by intros ->).
  assert (forall cs, Forall (fun p => p <> "") cs ->
            matched (needles cs) l = true <-> exists p, In p cs /\ contains l (needle p) = true) as Hm.
  { intros cs Hcs. unfold matched, needles. rewrite existsb_exists. split.
    - intros (n & (p & <- & [Hp _]%filter_In)%in_map_iff & Hc). by exists p.
    - intros (p & Hp & Hc). exists (needle p). split; [|done]. apply in_map, filter_In. split; [done|].
      rewrite List.Forall_forall in Hcs. specialize (Hcs _ Hp). by destruct p. }
  rewrite Hm by (apply List.Forall_forall; intros p Hp; by eapply candidates_nonempty).
  unfold names_gate, gateBinaryCandidates. rewrite (proj2 (String.eqb_neq exe "") Hne), orb_false_r.
  destruct (home =s "") eqn:Eh; bool_hyps.
  { split; [intros (p & [<-|[]] & ?); by left|]. intros [?|(? & ? & _)]; [|done]. exists exe. split; [by left|done]. }
  destruct (Rel home exe) as [rel|] eqn:Er.
  - destruct (startsWithDotDot rel) eqn:Ed; cbn [negb]; split.
    + intros (p & [<-|[]] & ?). by left.
    + intros [?|(rel' & _ & [= <-] & ? & _)]; [exists exe; split; [by left|done]|congruence].
    + intros (p & [<-|[<-|[]]] & ?); [by left|right; by exists rel].
    + intros [?|(rel' & _ & [= <-] & _ & ?)]; eexists; (split; [|done]); [by left|by right; left].
  - split; [intros (p & [<-|[]] & ?); by left|].
    intros [?|(? & _ & ? & _)]; [exists exe; split; [by left|done]|done].
Qed.

(** The line the installer wrote is taken for the gate's own exactly in its place. *)
Lemma restricted_taken home exe k :
  rooted home = true -> rooted exe = true ->
  matched (needles (gateBinaryCandidates home exe)) (restricted_line k installed_path)
  = bool_decide (Clean exe = Clean home ++ [".sshgate-gate"; "gate"]).
Proof.
  intros Hh He. apply Bool.eq_iff_eq_true. rewrite bool_decide_eq_true, <- installed_candidate by done.
  unfold matched, needles. rewrite existsb_exists. split.
  - intros (n & (p & <- & [Hp _]%filter_In)%in_map_iff & Hc). apply restricted_names in Hc; [|done]. by subst.
  - intros Hin. exists (needle installed_path). split; [by apply in_map, filter_In|]. by apply restricted_names.
Qed.

(** C33: What the gate's revoke makes of the file the installer wrote, for any home
    directory and executable, as absolute paths.  It removes exactly the lines that
    name the gate, by the executable's path or, when that lies below the home
    directory, by its path from there; it keeps the others in order.  The
    installer's own line is among the removed if the executable is
    .sshgate-gate/gate of the home directory, once both paths are cleaned, and is
    kept otherwise. *)
Theorem install_then_revoke (home exe : string) (existing key body : list ascii)
    (Hhome : rooted home = true) (Hexe : rooted exe = true)
    (Hb : rewriteAuthorizedKeys existing (Some key) installed_path = inl body)
    (Hkey : short (restricted_line key installed_path)) :
  let lines := map dropCR (others existing key) in
  let names := matched (needles (gateBinaryCandidates home exe)) in
  let kept := List.filter (fun l => negb (names l)) lines in
  let gone := List.length (List.filter names lines) in
  text_of body = others existing key ++ [restricted_line key installed_path]
  /\ (forall l, names l = true <-> names_gate home exe l)
  /\ stripGateLines body (gateBinaryCandidates home exe)
     = if bool_decide (Clean exe = Clean home ++ [".sshgate-gate"; "gate"])
       then (unlines kept, S gone)
       else (unlines (kept ++ [restricted_line key installed_path]), gone).
Proof.
  cbv zeta. split; [by apply rewrite_lines in Hb|]. split; [intros l; by apply matched_candidates|].
  rewrite (rewrite_stripped existing key _ body _ Hb Hkey), !List.filter_app, length_app. cbn [List.filter].
  rewrite restricted_taken by done. destruct (bool_decide _); cbn [negb List.length]; f_equal; try lia.
  by rewrite app_nil_r.
Qed.

End Installed.

(** ** What the probes miss

    A line that does not fit the scanner ends the probes, so a plain line of the key
    behind it is not seen: the file counts as set up, though the key still opens a
    shell. *)
Lemma hidden_plain `{SSHKeys} (k long rest : list ascii) (path : string) :
  lineMatchesKey (restricted_line k path) k = true ->
  newline_free (restricted_line k path) -> dropCR (restricted_line k path) = restricted_line k path ->
  short (restricted_line k path) -> newline_free long -> ~ short long ->
  let body := restricted_line k path ++ NL :: long ++ NL :: rest in
  hasRestrictedEntryForKey body (Some k) path = true /\ hasPlainLineForKey body (Some k) path = false.
Proof.
  intros Hm Hn Hd Hs Hln Hlong body.
  assert (is_prefix (commandForcing path) (restricted_line k path) = true) as Hf by apply is_prefix_self.
  assert (Scan body = [restricted_line k path]) as Hscan.
  { unfold Scan, body. rewrite split_on_app, split_on_no_sep by done.
    rewrite split_on_app, split_on_no_sep by done. cbn [app].
    rewrite scan_cons by (by destruct (restricted_line k path)).
    unfold short in *. destruct (maxLine <=? _) eqn:E; bool_hyps; [lia|]. rewrite Hd. f_equal.
    destruct long as [|c long]; [exfalso; apply Hlong, maxLine_pos|].
    rewrite scan_cons by done. destruct (maxLine <=? _) eqn:E2; bool_hyps; [done|lia]. }
  unfold hasRestrictedEntryForKey, hasPlainLineForKey. rewrite Hscan. cbn [existsb].
  by rewrite Hm, Hf.
Qed.

(** ** An instance

    A key is written as a type and the base64 of its bytes, and read back from the
    last word of the line. *)

Fixpoint until_space (l : list ascii) : list ascii :=
  match l with [] => [] | c :: l => if c =c SPACE then [] else c :: until_space l end.

Definition WordKeys : SSHKeys := {|
  ParseAuthorizedKey l := Base64.decode (reverse (until_space (reverse l)));
  MarshalAuthorizedKey k := lit "ssh-ed25519 " ++ Base64.encode k ++ [NL]
|}.
#[export] Existing Instance WordKeys.

Lemma last_word l w :
  Forall (fun c => (c =c SPACE) = false) w -> reverse (until_space (reverse (l ++ SPACE :: w))) = w.
Proof.
  intros Hw. rewrite reverse_app, reverse_cons, <- app_assoc. cbn [app].
  apply Forall_reverse in Hw.
  assert (until_space (reverse w ++ SPACE :: reverse l) = reverse w) as ->; [|by rewrite reverse_involutive].
  induction Hw as [|c r Hc _ IH]; [done|]. cbn [app until_space]. by rewrite Hc, IH.
Qed.

Lemma encode_plain k :
  Forall (fun c => (c =c NL) = false /\ (c =c CR) = false /\ (c =c SPACE) = false) (Base64.encode k).
Proof.
  eapply Forall_impl; [apply Base64.encode_code|]. cbn. intros c (? & ? & ? & _)%Base64.is_code_plain. done.
Qed.

Lemma word_line_free k : newline_free (lit "ssh-ed25519 " ++ Base64.encode k).
Proof.
  apply Forall_app; split; [by repeat constructor|].
  eapply Forall_impl; [apply encode_plain|]. cbn. by intros ? [? _].
Qed.

Lemma dropCR_plain l : Forall (fun c => (c =c CR) = false) l -> dropCR l = l.
Proof.
  induction 1 as [|c l Hc Hl IH]; [done|]. destruct l as [|d l]; [cbn; by rewrite Hc|].
  change (dropCR (c :: d :: l)) with (c :: dropCR (d :: l)). by rewrite IH.
Qed.

#[export] Instance WordKeys_laws : SSHKeysLaws WordKeys.
Proof.
  split.
  - intros k. exists (lit "ssh-ed25519 " ++ Base64.encode k). cbn [MarshalAuthorizedKey WordKeys].
    rewrite app_assoc. split; [done|]. split; [apply word_line_free|]. split; [|done].
    apply dropCR_plain, Forall_app. split; [by repeat constructor|].
    eapply Forall_impl; [apply encode_plain|]. cbn. by intros ? (_ & ? & _).
  - intros k. cbn [MarshalAuthorizedKey WordKeys]. apply Forall_app. split; [by repeat constructor|].
    apply Forall_app. split; [|by repeat constructor].
    eapply Forall_impl; [apply Base64.encode_code|]. intros c Hc. apply not_true_iff_false.
    intros ->%Ascii.eqb_eq. by vm_compute in Hc.
  - intros k path _. cbn [ParseAuthorizedKey WordKeys]. unfold restricted_line.
    cbn [MarshalAuthorizedKey WordKeys]. rewrite app_assoc, trim_newlines_line by apply word_line_free.
    change (lit "ssh-ed25519 ") with (lit "ssh-ed25519" ++ [SPACE]).
    rewrite <- (app_assoc (lit "ssh-ed25519")). cbn [app]. rewrite app_assoc, last_word.
    + apply Base64.decode_encode.
    + eapply Forall_impl; [apply encode_plain|]. cbn. by intros ? (_ & _ & ?).
Qed.

(** Beside alice's line there is one of a second key that forces the same gate. *)
Definition second_line : list ascii :=
  needle "/home/deploy/.sshgate-gate/gate" ++ lit " ssh-ed25519 Qk9C".

Definition sample_existing : list ascii :=
  unlines [lit "ssh-ed25519 QUFB alice"; second_line; trim_newlines (MarshalAuthorizedKey (lit "agent"))].

Definition sample_body : list ascii :=
  unlines [lit "ssh-ed25519 QUFB alice"; second_line; restricted_line (lit "agent") installed_path].

Lemma sample_written :
  rewriteAuthorizedKeys sample_existing (Some (lit "agent")) installed_path = inl sample_body
  /\ short (restricted_line (lit "agent") installed_path)
  /\ map dropCR (others sample_existing (lit "agent")) = [lit "ssh-ed25519 QUFB alice"; second_line].
Proof. split; [by vm_compute|]. split; [apply Nat.ltb_lt|]; by vm_compute. Qed.

(** Both lines go. *)
Lemma install_then_revoke_witness :
  rewriteAuthorizedKeys sample_existing (Some (lit "agent")) installed_path = inl sample_body
  /\ stripGateLines sample_body (gateBinaryCandidates "/home/deploy" "/home/deploy/.sshgate-gate/gate")
     = (unlines [lit "ssh-ed25519 QUFB alice"], 2).
Proof.
  destruct sample_written as (Hb & Hk & Ho). split; [exact Hb|].
  destruct (install_then_revoke "/home/deploy" "/home/deploy/.sshgate-gate/gate" sample_existing (lit "agent")
              sample_body eq_refl eq_refl Hb Hk) as (_ & _ & Hs).
  rewrite Hs, Ho. by vm_compute.
Defined.

(** With a home directory that is a symbolic link the executable's resolved path is
    not below it: the revoke finds no line, and the entry stays in place. *)
Lemma symlinked_home_stays :
  let written := unlines [lit "ssh-ed25519 QUFB alice"; restricted_line (lit "agent") installed_path] in
  stripGateLines written (gateBinaryCandidates "/home/u" "/data/home/u/.sshgate-gate/gate") = (written, 0)
  /\ gateBinaryCandidates "/home/u" "/data/home/u/.sshgate-gate/gate" = ["/data/home/u/.sshgate-gate/gate"].
Proof. by vm_compute. Qed.
