(* ===== verification/McpProvision.v ===== *)
(** * Provisioning a server (src/mcp/tools/provision.go, add_server.go)

    [Provision] with the steps it runs on the target over the first connection.
    The target is the files provisioning touches; every command may stop half-way
    with an error, as when the connection is lost, and [Session] says where.
    net.ParseIP, the SSH library, the dial and the probe after it are given. *)

From S2P Require Import Prelude Sigwire RedactScanner McpRegistry McpKeys.

Module Provision.
Import Bytes Keys Registry.

Definition remoteGateBin : string := "~/.sshgate-gate/gate".

(** ** What the human types *)

Definition lower_digit (c : ascii) : bool := GoStr.is_lower c || GoStr.is_digit c.

(** aliasPattern *)
Definition aliasPattern (s : string) : bool :=
  match lit s with
  | c :: rest => GoStr.is_lower c && forallb (fun c => lower_digit c || (c =c "-")%char) rest
                 && (List.length rest <=? 30)
  | [] => false
  end.

(** One label of hostnamePattern. *)
Definition host_label (l : list ascii) : bool :=
  match l, last l with
  | c :: _, Some d => lower_digit c && lower_digit d && forallb (fun c => lower_digit c || (c =c "-")%char) l
  | _, _ => false
  end.

Definition hostnamePattern (s : string) : bool :=
  forallb host_label (split_on (fun c => (c =c ".")%char) (lit s)).

(** usernamePattern *)
Definition usernamePattern (s : string) : bool :=
  match lit s with
  | c :: rest => (GoStr.is_lower c || (c =c "_")%char)
                 && forallb (fun c => lower_digit c || (c =c "_")%char || (c =c "-")%char) rest
                 && (List.length rest <=? 31)
  | [] => false
  end.

(** validateHost; [ParseIP] says whether net.ParseIP reads its argument. *)
Definition validateHost (ParseIP : string -> bool) (host : string) : bool :=
  let host := GoStr.TrimSpace host in
  if host =s "" then false
  else if 253 <? String.length host then false
  else if ParseIP host then true
  else hostnamePattern (GoStr.ToLower host).

(** validateUser *)
Definition validateUser (user : string) : bool := usernamePattern (GoStr.TrimSpace user).

(** ** The target *)

(** ~/.sshgate-gate, the gate and gate.pub in it, authorized_keys and the backup
    made of it. *)
Record Remote := mkRemote {
  gate_dir : bool;
  gate_bin : option (list ascii);
  gate_pub : option (list ascii);
  auth_keys : option (list ascii);
  keys_backup : option (list ascii)
}.

(** Where a file is uploaded: remoteGateBin, remoteGatePub, remoteAuthKeys. *)
Inductive Dest := ToGateBin | ToGatePub | ToAuthKeys.

(** The commands sent over the session. *)
Inductive Op :=
  | ReadKeys | MakeGateDir | Upload (d : Dest) (body : list ascii)
  | BackupKeys | RestoreKeys | RemoveGateDir.

Definition put (d : Dest) (body : list ascii) (r : Remote) : Remote :=
  match d with
  | ToGateBin => mkRemote (gate_dir r) (Some body) (gate_pub r) (auth_keys r) (keys_backup r)
  | ToGatePub => mkRemote (gate_dir r) (gate_bin r) (Some body) (auth_keys r) (keys_backup r)
  | ToAuthKeys => mkRemote (gate_dir r) (gate_bin r) (gate_pub r) (Some body) (keys_backup r)
  end.

Definition set_backup (b : list ascii) (r : Remote) : Remote :=
  mkRemote (gate_dir r) (gate_bin r) (gate_pub r) (auth_keys r) (Some b).

(** What a copy has written when it stopped: nothing, or a truncated file with its
    first bytes. *)
Definition copied (stop : option nat) (body : list ascii) : option (list ascii) :=
  match stop with None => Some body | Some O => None | Some (S k) => Some (take k body) end.

(** touch authorized_keys, then the copy unless there is a backup. *)
Definition back_up (stop : option nat) (r : Remote) : Remote :=
  match stop with
  | Some O => r
  | _ =>
      let body := default [] (auth_keys r) in
      let r := put ToAuthKeys body r in
      match keys_backup r with
      | Some _ => r
      | None => match copied (option_map pred stop) body with
                | Some b => set_backup b r
                | None => r
                end
      end
  end.

(** The effect of a command that ran, or stopped after some of it. *)
Definition effect (op : Op) (stop : option nat) (r : Remote) : Remote :=
  match op with
  | ReadKeys => r
  | MakeGateDir =>
      match stop with
      | Some O => r
      | _ => mkRemote true (gate_bin r) (gate_pub r) (auth_keys r) (keys_backup r)
      end
  | Upload d body => match copied stop body with Some b => put d b r | None => r end
  | BackupKeys => back_up stop r
  | RestoreKeys =>
      match keys_backup r with
      | Some b => match copied stop b with Some b => put ToAuthKeys b r | None => r end
      | None => r
      end
  | RemoveGateDir =>
      match stop with
      | None => mkRemote false None None (auth_keys r) (keys_backup r)
      | Some k =>
          mkRemote (gate_dir r) (if Nat.testbit k 0 then None else gate_bin r)
            (if Nat.testbit k 1 then None else gate_pub r) (auth_keys r) (keys_backup r)
      end
  end.

(** The first connection: whether and where its n-th command stops, and what the
    cat of authorized_keys prints, a nil slice included; its errors are masked. *)
Record Session := mkSession {
  fault : nat -> option nat;
  reads : option (list ascii) -> option (list ascii)
}.

(** The target, and the commands sent so far. *)
Record St := mkSt { remote : Remote; sent : list Op }.

Section Setup.
Context `{SSHKeys}.
Variable c : Session.

(** bootstrapSession.Run and Upload: no error when the command ran. *)
Definition exec (op : Op) (s : St) : St * bool :=
  let stop := fault c (List.length (sent s)) in
  (mkSt (effect op stop (remote s)) (sent s ++ [op]),
   match stop with None => true | Some _ => false end).

(** ** add_server.go *)

(** rollbackPartial *)
Definition rollbackPartial (original : option (list ascii)) (authKeysRewritten : bool) (s : St) : St :=
  let s := if authKeysRewritten then
             let s := (exec RestoreKeys s).1 in
             match original with Some b => (exec (Upload ToAuthKeys b) s).1 | None => s end
           else s in
  (exec RemoveGateDir s).1.

(** rollback; whether the restore succeeded. *)
Definition rollback (s : St) : St * bool :=
  let '(s, restored) := exec RestoreKeys s in ((exec RemoveGateDir s).1, restored).

Inductive SetupErr :=
  | MkdirFailed | UploadGateFailed | UploadPubFailed | BackupFailed | BuildKeys (why : KeysErr) | WriteKeysFailed.

(** runAutoSetup *)
Definition runAutoSetup (gateBin : list ascii) (gatePub : option (list ascii))
    (sshgatePub : list ascii) (existing : option (list ascii)) (s : St) : St * option SetupErr :=
  let '(s, ok) := exec MakeGateDir s in
  if negb ok then (s, Some MkdirFailed)
  else
    let '(s, ok) := exec (Upload ToGateBin gateBin) s in
    if negb ok then (rollbackPartial existing false s, Some UploadGateFailed)
    else
      let '(s, ok) := match gatePub with
                      | Some pub => exec (Upload ToGatePub pub) s
                      | None => (s, true)
                      end in
      if negb ok then (rollbackPartial existing false s, Some UploadPubFailed)
      else
        let '(s, ok) := exec BackupKeys s in
        if negb ok then (rollbackPartial existing false s, Some BackupFailed)
        else match rewriteAuthorizedKeys (default [] existing) (Some sshgatePub) remoteGateBin with
             | inr why => (rollbackPartial existing false s, Some (BuildKeys why))
             | inl rewritten =>
                 let '(s, ok) := exec (Upload ToAuthKeys rewritten) s in
                 if negb ok then (rollbackPartial existing true s, Some WriteKeysFailed)
                 else (s, None)
             end.

(** ** provision.go *)

Record ProvisionInput := mkInput {
  inAlias : string; inHost : string; inPort : Z; inUser : string; inReadOnly : bool
}.

Record ProvisionOutput := mkOutput {
  oAlias : string; oHost : string; oPort : Z; oUser : string; oFingerprint : string;
  oBinaryPath : string; oVerifiedOK : bool; oIdempotent : bool; oReadOnlyMode : bool
}.

(** What Provision finds: the registry's file when it is opened and when it is
    looked up, and whether its rewrite fails; the local files; whether the key file
    serves as credential and known_hosts is configured; the fingerprint the dial
    captured; what the probe over a new connection prints; and the time. *)
Record Env := mkEnv {
  opened : Stat * Read;
  view : View;
  add_fault : option PersistErr;
  gate_binary : option (list ascii);
  gate_pub_file : option (list ascii);
  sshgate_pub : option (list ascii);
  credential : bool;
  known_hosts : bool;
  dialled : option string;
  probe : Remote -> option (list ascii);
  now : Z
}.

(** Why it fails; [restored] is the outcome of a rollback, where there was one. *)
Inductive ProvisionErr :=
  | InvalidAlias | InvalidHost | InvalidUser | RegistryFailed (why : LoadErr) | AlreadyRegistered
  | NoGateBinary | NoGatePub | NoSSHGatePub | BadSSHGatePub | NoCredential | NoKnownHosts | DialFailed
  | ReadKeysFailed | SetupFailed (why : SetupErr)
  | VerifyFailed (restored : option bool) | RegisterFailed (why : UpdateErr) (restored : option bool).

(** verifyProvision *)
Definition verifyProvision (e : Env) (r : Remote) : bool :=
  match probe e r with Some out => contains out (lit "SSHGATE_OK") | None => false end.

(** The failure of a step after the setup: rolled back unless nothing was set up. *)
Definition abandon (idempotent : bool) (s : St) (err : option bool -> ProvisionErr)
    : St * option (list ascii) * (ProvisionOutput + ProvisionErr) :=
  if idempotent then (s, None, inr (err None))
  else let '(s, restored) := rollback s in (s, None, inr (err (Some restored))).

(** Provision from the first connection on, with the registry in memory: the
    target, the registry's file if it was written, and the result. *)
Definition provision_on (e : Env) (inp : ProvisionInput) (servers : Servers)
    (gateBin : list ascii) (gatePub : option (list ascii)) (key : list ascii) (fp : string) (s : St)
    : St * option (list ascii) * (ProvisionOutput + ProvisionErr) :=
  let '(s, ok) := exec ReadKeys s in
  if negb ok then (s, None, inr ReadKeysFailed)
  else
    let existing := reads c (auth_keys (remote s)) in
    let body := default [] existing in
    let idempotent := hasRestrictedEntryForKey body (Some key) remoteGateBin
                      && negb (hasPlainLineForKey body (Some key) remoteGateBin) in
    let '(s, err) := if idempotent then (s, None) else runAutoSetup gateBin gatePub key existing s in
    match err with
    | Some why => (s, None, inr (SetupFailed why))
    | None =>
        if negb (verifyProvision e (remote s)) then abandon idempotent s VerifyFailed
        else
          let port := if (inPort inp =? 0)%Z then 22%Z else inPort inp in
          let entry := mkEntry (inHost inp) port (inUser inp) (now e) (inReadOnly inp) fp in
          match Add (add_fault e) (inAlias inp) entry servers with
          | (_, _, Some why) => abandon idempotent s (RegisterFailed why)
          | (_, written, None) =>
              (s, written,
               inl (mkOutput (inAlias inp) (inHost inp) port (inUser inp) fp remoteGateBin true
                     idempotent (inReadOnly inp)))
          end
    end.

(** Provision *)
Definition Provision `{Sha256} (ParseIP : string -> bool) (e : Env) (inp : ProvisionInput) (s : St)
    : St * option (list ascii) * (ProvisionOutput + ProvisionErr) :=
  let fails err := (s, None, inr err) in
  if negb (aliasPattern (inAlias inp)) then fails InvalidAlias
  else if negb (validateHost ParseIP (inHost inp)) then fails InvalidHost
  else if negb (validateUser (inUser inp)) then fails InvalidUser
  else match New (opened e).1 (opened e).2 with
       | inr why => fails (RegistryFailed why)
       | inl servers =>
           let '(servers, found) := Get (view e) (inAlias inp) servers in
           match found, gate_binary e with
           | Some _, _ => fails AlreadyRegistered
           | None, None => fails NoGateBinary
           | None, Some gateBin =>
               match (if inReadOnly inp then inl None
                      else match gate_pub_file e with Some b => inl (Some b) | None => inr tt end) with
               | inr _ => fails NoGatePub
               | inl gatePub =>
                   match sshgate_pub e with
                   | None => fails NoSSHGatePub
                   | Some pub =>
                       match ParseAuthorizedKey pub with
                       | None => fails BadSSHGatePub
                       | Some key =>
                           if negb (credential e) then fails NoCredential
                           else if negb (known_hosts e) then fails NoKnownHosts
                           else match dialled e with
                                | None => fails DialFailed
                                | Some fp => provision_on e inp servers gateBin gatePub key fp s
                                end
                       end
                   end
               end
           end
       end.

End Setup.

End Provision.
