(* ===== verification/McpProvisionProps.v ===== *)
(** * What provisioning leaves on the target

    A server that was provisioned has the key locked to the gate; without an older
    backup, whatever fails, the lines that were in authorized_keys can be had back;
    and what an old backup does to that. *)

From S2P Require Import Prelude RedactScanner RedactMatchProps GateRevoke GateRevokeProps McpRegistry McpKeys McpKeysProps McpProvision.
Import Bytes Revoke Keys Registry Provision.

#[local] Opaque maxLine.

(** The bytes of authorized_keys; a missing file has none. *)
Definition keys (r : Remote) : list ascii := default [] (auth_keys r).

Section Ops.
Context `{SSHKeys}.
Variable c : Session.

Lemma exec_ok op s s' :
  exec c op s = (s', true) -> remote s' = effect op None (remote s) /\ fault c (List.length (sent s)) = None.
Proof. unfold exec. destruct (fault _ _); intros [= <-]. by split. Qed.

Lemma exec_remote op s : remote (exec c op s).1 = effect op (fault c (List.length (sent s))) (remote s).
Proof. done. Qed.

(** Only uploads to authorized_keys and restores touch its lines, and nothing
    changes a backup that is there. *)
Definition keeps_auth (op : Op) : bool :=
  match op with Upload ToAuthKeys _ | RestoreKeys => false | _ => true end.

Lemma effect_keys op stop r : keeps_auth op = true -> keys (effect op stop r) = keys r.
Proof.
  unfold keys. destruct op as [| |[]| | |]; try done; intros _; destruct stop as [[|[|k]]|]; cbn; try done;
    by destruct (keys_backup r).
Qed.

Lemma effect_backup op stop r b : keys_backup r = Some b -> keys_backup (effect op stop r) = Some b.
Proof.
  intros Hb. destruct op as [| |[]| | |]; destruct stop as [[|k]|]; cbn; rewrite ?Hb; try done.
Qed.

Lemma backed_up r : keys_backup (effect BackupKeys None r) = Some (default (keys r) (keys_backup r)).
Proof. cbn. by destruct (keys_backup r) eqn:E; cbn. Qed.

(** ** The setup *)

Definition with_pub (gatePub : option (list ascii)) (r : Remote) : option (list ascii) :=
  match gatePub with Some p => Some p | None => gate_pub r end.

Lemma setup_done gateBin gatePub key existing s s' :
  runAutoSetup c gateBin gatePub key existing s = (s', None) ->
  exists body, rewriteAuthorizedKeys (default [] existing) (Some key) remoteGateBin = inl body
    /\ remote s' = mkRemote true (Some gateBin) (with_pub gatePub (remote s)) (Some body)
                     (Some (default (keys (remote s)) (keys_backup (remote s)))).
Proof.
  unfold runAutoSetup. destruct (exec c MakeGateDir s) as [s1 [|]] eqn:E1; [|done].
  apply exec_ok in E1 as [E1 _]. cbn [negb].
  destruct (exec c (Upload ToGateBin gateBin) s1) as [s2 [|]] eqn:E2; [|done].
  apply exec_ok in E2 as [E2 _]. cbn [negb].
  assert (forall s3, (match gatePub with Some pub => exec c (Upload ToGatePub pub) s2 | None => (s2, true) end)
                     = (s3, true) ->
            remote s3 = mkRemote true (Some gateBin) (with_pub gatePub (remote s)) (auth_keys (remote s))
                          (keys_backup (remote s))) as E3.
  { intros s3. destruct gatePub; [intros [-> _]%exec_ok|intros [= <-]]; by rewrite E2, E1. }
  destruct (match gatePub with Some pub => _ | None => _ end) as [s3 [|]]; [|done].
  specialize (E3 s3 eq_refl). cbn [negb].
  destruct (exec c BackupKeys s3) as [s4 [|]] eqn:E4; [|done]. apply exec_ok in E4 as [E4 _]. cbn [negb].
  destruct (rewriteAuthorizedKeys _ _ _) as [body|]; [|done].
  destruct (exec c (Upload ToAuthKeys body) s4) as [s5 [|]] eqn:E5; [|done]. apply exec_ok in E5 as [E5 _].
  intros [= <-]. exists body. split; [done|]. rewrite E5, E4, E3. unfold keys. cbn.
  by destruct (keys_backup (remote s)).
Qed.

Lemma exec_keys op s : keeps_auth op = true -> keys (remote (exec c op s).1) = keys (remote s).
Proof. intros Ho. rewrite exec_remote. by apply effect_keys. Qed.

Lemma exec_backup op s b :
  keys_backup (remote s) = Some b -> keys_backup (remote (exec c op s).1) = Some b.
Proof. intros Hb. rewrite exec_remote. by apply effect_backup. Qed.

Lemma partial_keys existing s : keys (remote (rollbackPartial c existing false s)) = keys (remote s).
Proof. unfold rollbackPartial. by rewrite exec_keys. Qed.

(** A setup that fails before the rewrite is sent has not touched the lines; the
    rewrite is sent with a backup in place. *)
Lemma setup_failed gateBin gatePub key existing s s' why :
  runAutoSetup c gateBin gatePub key existing s = (s', Some why) ->
  keys (remote s') = keys (remote s)
  \/ exists s4 body,
       keys (remote s4) = keys (remote s)
       /\ keys_backup (remote s4) = Some (default (keys (remote s)) (keys_backup (remote s)))
       /\ (exec c (Upload ToAuthKeys body) s4).2 = false
       /\ s' = rollbackPartial c existing true (exec c (Upload ToAuthKeys body) s4).1.
Proof.
  unfold runAutoSetup. pose proof (exec_keys MakeGateDir s eq_refl) as K1.
  destruct (exec c MakeGateDir s) as [s1 [|]] eqn:E1; cbn [negb fst] in *; [|intros [= <- <-]; by left].
  apply exec_ok in E1 as [E1 _].
  pose proof (exec_keys (Upload ToGateBin gateBin) s1 eq_refl) as K2.
  destruct (exec c (Upload ToGateBin gateBin) s1) as [s2 [|]] eqn:E2; cbn [negb fst] in *;
    [|intros [= <- <-]; left; rewrite partial_keys; congruence].
  apply exec_ok in E2 as [E2 _].
  assert (forall s3 ok, (match gatePub with Some pub => exec c (Upload ToGatePub pub) s2 | None => (s2, true) end)
                     = (s3, ok) ->
            keys (remote s3) = keys (remote s) /\ keys_backup (remote s3) = keys_backup (remote s)) as E3.
  { intros s3 ok. destruct gatePub as [pub|]; [|intros [= <- _]; split; [congruence|by rewrite E2, E1]].
    pose proof (exec_keys (Upload ToGatePub pub) s2 eq_refl) as K3. intros Ex. rewrite Ex in K3.
    split; [cbn in K3; congruence|]. apply (f_equal (fun p => remote p.1)) in Ex. cbn [fst] in Ex.
    rewrite <- Ex, exec_remote, E2, E1. by destruct (fault _ _) as [[|]|]. }
  destruct (match gatePub with Some pub => _ | None => _ end) as [s3 [|]]; cbn [negb];
    destruct (E3 _ _ eq_refl) as [K3 B3]; [|intros [= <- <-]; left; by rewrite partial_keys].
  pose proof (exec_keys BackupKeys s3 eq_refl) as K4.
  destruct (exec c BackupKeys s3) as [s4 [|]] eqn:E4; cbn [negb fst] in *;
    [|intros [= <- <-]; left; rewrite partial_keys; congruence].
  apply exec_ok in E4 as [E4 _].
  destruct (rewriteAuthorizedKeys _ _ _) as [body|w];
    [|intros [= <- <-]; left; rewrite partial_keys; congruence].
  destruct (exec c (Upload ToAuthKeys body) s4) as [s5 [|]] eqn:E5; cbn [negb]; [done|].
  intros [= <- <-]. right. exists s4, body. rewrite E5. split; [congruence|]. split; [|done].
  by rewrite E4, backed_up, B3, K3.
Qed.

Lemma rollback_keeps_backup existing rewritten s b :
  keys_backup (remote s) = Some b -> keys_backup (remote (rollbackPartial c existing rewritten s)) = Some b.
Proof.
  intros Hb. unfold rollbackPartial. apply exec_backup. destruct rewritten; [|done].
  destruct existing; repeat apply exec_backup; done.
Qed.

(** At most one command of the session stops. *)
Definition one_fault : Prop := forall i j, fault c i <> None -> fault c j <> None -> i = j.

Lemma runs_later op s s' :
  one_fault -> (exec c op s).2 = false -> List.length (sent s) < List.length (sent s') ->
  forall op', exec c op' s' = (mkSt (effect op' None (remote s')) (sent s' ++ [op']), true).
Proof.
  intros H1 Hf Hl op'. unfold exec in *. cbn [snd] in Hf.
  destruct (fault c (List.length (sent s'))) as [n|] eqn:E'; [|done]. exfalso.
  destruct (fault c (List.length (sent s))) eqn:E; [|done].
  assert (List.length (sent s) = List.length (sent s')) by (apply H1; congruence). lia.
Qed.

(** The rollback of a failed rewrite ends with the lines it was given, or with the
    backup's when it was given none. *)
Lemma restored existing op s b :
  one_fault -> (exec c op s).2 = false -> keys_backup (remote (exec c op s).1) = Some b ->
  keys (remote (rollbackPartial c existing true (exec c op s).1)) = default b existing.
Proof.
  intros H1 Hf Hb. unfold rollbackPartial. rewrite exec_keys by done.
  assert (forall s', List.length (sent s) < List.length (sent s') -> forall op',
            exec c op' s' = (mkSt (effect op' None (remote s')) (sent s' ++ [op']), true)) as Hr
    by (intros; by apply (runs_later op s)).
  assert (List.length (sent s) < List.length (sent (exec c op s).1)) as Hl
    by (unfold exec; cbn; rewrite length_app; cbn; lia).
  generalize dependent (exec c op s).1. intros s1 Hb Hl. rewrite (Hr s1 Hl). cbn [fst].
  destruct existing as [e|]; [|cbn [remote effect]; by rewrite Hb].
  by rewrite Hr by (cbn; rewrite length_app; lia).
Qed.

(** No step of a setup changes a backup that is there. *)
Lemma setup_backup gateBin gatePub key existing s b :
  keys_backup (remote s) = Some b ->
  keys_backup (remote (runAutoSetup c gateBin gatePub key existing s).1) = Some b.
Proof.
  intros Hb. unfold runAutoSetup.
  assert (forall op s, keys_backup (remote s) = Some b ->
            exists s' ok, exec c op s = (s', ok) /\ keys_backup (remote s') = Some b) as He.
  { intros op s0 H0. destruct (exec c op s0) as [s1 ok] eqn:E. exists s1, ok. split; [done|].
    change s1 with (s1, ok).1. rewrite <- E. by apply exec_backup. }
  destruct (He MakeGateDir s Hb) as (s1 & [|] & -> & H1); cbn [negb fst]; [|done].
  destruct (He (Upload ToGateBin gateBin) s1 H1) as (s2 & [|] & -> & H2); cbn [negb fst];
    [|by apply rollback_keeps_backup].
  assert (exists s3 ok, match gatePub with Some pub => exec c (Upload ToGatePub pub) s2 | None => (s2, true) end
            = (s3, ok) /\ keys_backup (remote s3) = Some b) as (s3 & [|] & -> & H3); cbn [negb fst];
    [destruct gatePub; [by apply He|by eexists _, _]| |by apply rollback_keeps_backup].
  destruct (He BackupKeys s3 H3) as (s4 & [|] & -> & H4); cbn [negb fst]; [|by apply rollback_keeps_backup].
  destruct (rewriteAuthorizedKeys _ _ _) as [body|w]; [|by apply rollback_keeps_backup].
  destruct (He (Upload ToAuthKeys body) s4 H4) as (s5 & [|] & -> & H5); cbn [negb fst]; [done|].
  by apply rollback_keeps_backup.
Qed.

End Ops.

(** ** Provision *)

Section Run.
Context `{SSHKeys} `{Sha256}.
Variable c : Session.

(** The cat of authorized_keys printed all of it. *)
Definition reads_all : Prop := forall f, default [] (reads c f) = default [] f.

(** A rollback that could not restore says so. *)
Definition rolled_back (err : ProvisionErr) : Prop :=
  match err with VerifyFailed (Some false) | RegisterFailed _ (Some false) => False | _ => True end.

Lemma rollback_keys s s' ok b :
  rollback c s = (s', ok) -> keys_backup (remote s) = Some b ->
  keys_backup (remote s') = Some b /\ (ok = true -> keys (remote s') = b).
Proof.
  intros Hr Hb. unfold rollback in Hr. destruct (exec c RestoreKeys s) as [s1 ok1] eqn:E.
  apply pair_equal_spec in Hr as [<- <-]. pose proof (exec_backup c RestoreKeys s b Hb) as Hb1.
  rewrite E in Hb1. split.
  - by apply exec_backup.
  - intros ->. apply exec_ok in E as [E _]. rewrite exec_keys, E by done. cbn. by rewrite Hb.
Qed.

Lemma abandon_inv idempotent s err s' w res :
  abandon c idempotent s err = (s', w, res) ->
  (idempotent = true /\ s' = s /\ res = inr (err None))
  \/ exists ok, idempotent = false /\ rollback c s = (s', ok) /\ res = inr (err (Some ok)).
Proof.
  unfold abandon. destruct idempotent; [intros [= <- _ <-]; by left|].
  destruct (rollback c s) as [s1 ok]. intros [= <- _ <-]. right. by exists ok.
Qed.

(** What a restore puts back, once the backup step has run: the lines as they are, or
    those of an older backup. *)
Definition backed_keys (r : Remote) : list ascii := default (keys r) (keys_backup r).

(** The lines a failure leaves that was undone: as they were, but after the
    verification or the registration failed those of the backup. *)
Definition undone (r : Remote) (err : ProvisionErr) : list ascii :=
  match err with
  | VerifyFailed (Some _) | RegisterFailed _ (Some _) => backed_keys r
  | _ => keys r
  end.

Lemma provision_on_backup e inp servers gateBin gatePub key fp s old :
  keys_backup (remote s) = Some old ->
  keys_backup (remote (provision_on c e inp servers gateBin gatePub key fp s).1.1) = Some old.
Proof.
  intros Hb. unfold provision_on. apply (exec_backup c ReadKeys) in Hb.
  destruct (exec c ReadKeys s) as [s1 [|]]; cbn [negb fst] in *; [|done].
  set (existing := reads c _). match goal with |- context [if ?b then (s1, None) else _] => set (idem := b) end.
  assert (exists s2 err, (if idem then (s1, None) else runAutoSetup c gateBin gatePub key existing s1) = (s2, err)
            /\ keys_backup (remote s2) = Some old) as (s2 & err & -> & Hb2).
  { destruct idem; [by eexists _, _|]. pose proof (setup_backup c gateBin gatePub key existing s1 old Hb) as Hs.
    destruct (runAutoSetup _ _ _ _ _ _) as [s2 err]. by eexists _, _. }
  assert (forall idem mk, keys_backup (remote (abandon c idem s2 mk).1.1) = Some old) as Ha.
  { intros [|] mk; unfold abandon, rollback; [done|]. pose proof (exec_backup c RestoreKeys s2 old Hb2) as Hr.
    destruct (exec c RestoreKeys s2) as [s3 ok]. by apply exec_backup. }
  destruct err; [done|]. destruct (verifyProvision e (remote s2)); cbn [negb]; [|apply Ha]. destruct (Add _ _ _ _) as [[? ?] [?|]]; [apply Ha|done].
Qed.

Lemma provision_on_keys e inp servers gateBin gatePub key fp s s' w res :
  reads_all -> provision_on c e inp servers gateBin gatePub key fp s = (s', w, res) ->
  (keys (remote s') = keys (remote s) \/ keys_backup (remote s') = Some (backed_keys (remote s)))
  /\ (one_fault c -> forall err, res = inr err -> rolled_back err ->
        keys (remote s') = undone (remote s) err
        \/ (keys (remote s) = [] /\ keys (remote s') = backed_keys (remote s))).
Proof.
  intros Hreads. unfold provision_on.
  assert (remote (exec c ReadKeys s).1 = remote s) as Hs1 by done.
  destruct (exec c ReadKeys s) as [s1 ok]. cbn [fst] in Hs1. rewrite <- Hs1 in *.
  assert (forall err, undone (remote s1) err = keys (remote s1) ->
            (keys (remote s1) = keys (remote s1) \/ keys_backup (remote s1) = Some (backed_keys (remote s1)))
            /\ (one_fault c -> forall err', @inr ProvisionOutput _ err = inr err' -> rolled_back err' ->
                keys (remote s1) = undone (remote s1) err'
                \/ (keys (remote s1) = [] /\ keys (remote s1) = backed_keys (remote s1)))) as Hsame
    by (intros err He; split; [by left|]; intros _ err' [= <-] _; by left).
  destruct ok; cbn [negb]; [|intros [= <- _ <-]; by apply Hsame].
  pose proof (Hreads (auth_keys (remote s1))) as He. generalize dependent (reads c (auth_keys (remote s1))).
  intros existing He. change (default [] (auth_keys (remote s1))) with (keys (remote s1)) in He.
  destruct (_ && negb _) eqn:Eid.
  { destruct (verifyProvision e (remote s1)); cbn [negb].
    - destruct (Add _ _ _ _) as [[? ?] [why|]]; [|intros [= <- _ <-]; by split; [left|]].
      intros [(_ & -> & ->)|(? & ? & _)]%abandon_inv; [by apply Hsame|done].
    - intros [(_ & -> & ->)|(? & ? & _)]%abandon_inv; [by apply Hsame|done]. }
  destruct (runAutoSetup c gateBin gatePub key existing s1) as [s2 [why|]] eqn:Es.
  { intros [= <- _ <-].
    apply setup_failed in Es as [Hk|(s4 & body & Hk & Hb & Hf & ->)];
      [split; [by left|]; intros _ err [= <-] _; by left|].
    change (default (keys (remote s1)) (keys_backup (remote s1))) with (backed_keys (remote s1)) in Hb.
    apply (exec_backup c (Upload ToAuthKeys body)) in Hb.
    split; [right; by apply rollback_keeps_backup|]. intros H1 err [= <-] _.
    rewrite (restored c existing _ _ (backed_keys (remote s1))) by done.
    destruct existing; [by left|right]. by split. }
  apply setup_done in Es as (body & _ & Hr).
  assert (keys_backup (remote s2) = Some (backed_keys (remote s1))) as Hb by (by rewrite Hr).
  assert (forall mk, abandon c false s2 mk = (s', w, res) ->
            (forall ok, rolled_back (mk (Some ok)) -> ok = true /\ undone (remote s1) (mk (Some ok)) = backed_keys (remote s1)) ->
            (keys (remote s') = keys (remote s1) \/ keys_backup (remote s') = Some (backed_keys (remote s1)))
            /\ (one_fault c -> forall err, res = inr err -> rolled_back err ->
                  keys (remote s') = undone (remote s1) err
                  \/ (keys (remote s1) = [] /\ keys (remote s') = backed_keys (remote s1))))
    as Hgive.
  { intros mk [(? & _)|(ok & _ & Hro & ->)]%abandon_inv Hok; [done|].
    destruct (rollback_keys _ _ _ _ Hro Hb) as [Hb' Hk']. split; [by right|].
    intros _ err' [= <-] Hc. left. destruct (Hok _ Hc) as [-> ->]. by apply Hk'. }
  destruct (verifyProvision e (remote s2)); cbn [negb];
    [|intros Hg; by apply (Hgive VerifyFailed); [|intros []]].
  destruct (Add _ _ _ _) as [[? ?] [why|]].
  - intros Hg. by apply (Hgive (RegisterFailed why)); [|intros []].
  - intros [= <- _ <-]. by split; [right|].
Qed.

(** What a provisioning got through before the first connection did anything. *)
Definition prepared (ParseIP : string -> bool) (e : Env) (inp : ProvisionInput) (servers : Servers)
    (gateBin : list ascii) (gatePub : option (list ascii)) (key : list ascii) (fp : string) : Prop :=
  aliasPattern (inAlias inp) = true /\ validateHost ParseIP (inHost inp) = true
  /\ validateUser (inUser inp) = true /\ data servers !! inAlias inp = None
  /\ gate_binary e = Some gateBin
  /\ gatePub = (if inReadOnly inp then None else gate_pub_file e)
  /\ (inReadOnly inp = false -> gatePub <> None)
  /\ (exists pub, sshgate_pub e = Some pub /\ ParseAuthorizedKey pub = Some key)
  /\ dialled e = Some fp.

Lemma Provision_cases ParseIP e inp s :
  (exists err, Provision c ParseIP e inp s = (s, None, inr err) /\ forall r, undone r err = keys r)
  \/ exists servers gateBin gatePub key fp,
       prepared ParseIP e inp servers gateBin gatePub key fp
       /\ Provision c ParseIP e inp s = provision_on c e inp servers gateBin gatePub key fp s.
Proof.
  unfold Provision, prepared. destruct (aliasPattern _) eqn:E1; [|left; by eexists].
  destruct (validateHost _ _) eqn:E2; [|left; by eexists]. destruct (validateUser _) eqn:E3; [|left; by eexists].
  cbn [negb]. destruct (New _ _) as [servers0|why]; [|left; by eexists].
  destruct (Get _ _ _) as [servers found] eqn:E4.
  assert (found = data servers !! inAlias inp) as Hfound by (unfold Get in E4; by injection E4 as <- <-).
  destruct found; [left; by eexists|]. destruct (gate_binary e) as [gateBin|]; [|left; by eexists].
  assert (exists o, (if inReadOnly inp then inl None
            else match gate_pub_file e with Some b => inl (Some b) | None => inr tt end) = o
          /\ (forall p, o = inl p -> p = (if inReadOnly inp then None else gate_pub_file e)
                /\ (inReadOnly inp = false -> p <> None))) as (o & -> & Ho).
  { eexists. split; [done|]. destruct (inReadOnly inp); [by intros p [= <-]|].
    destruct (gate_pub_file e); [by intros p [= <-]|done]. }
  destruct o as [gatePub|]; [|left; by eexists]. destruct (Ho _ eq_refl) as [-> Hpub].
  destruct (sshgate_pub e) as [pub|] eqn:E5; [|left; by eexists].
  destruct (ParseAuthorizedKey pub) as [key|] eqn:E6; [|left; by eexists].
  destruct (credential e); [|left; by eexists]. destruct (known_hosts e); [|left; by eexists].
  cbn [negb]. destruct (dialled e) as [fp|]; [|left; by eexists]. right.
  exists servers, gateBin, (if inReadOnly inp then None else gate_pub_file e), key, fp.
  split_and!; try done. by exists pub.
Qed.

(** C15: What provisioning keeps of authorized_keys, whatever fails.  A backup that is
    there stays as it is; without one, wherever commands stop or the connection is
    lost, the lines are either still there or in the backup.  When a provisioning
    fails because one command stopped, or because a later step failed and it does
    not report a failed rollback, the lines are as they were: except that on a target
    with a backup from an earlier provisioning, a failure of the verification or of
    the registration leaves the lines of that backup, and so does a failed rewrite
    of a file that had none. *)
Theorem provision_keeps_keys (ParseIP : string -> bool) (e : Env) (inp : ProvisionInput) (s s' : St)
    (w : option (list ascii)) (res : ProvisionOutput + ProvisionErr)
    (Hreads : reads_all) (Hrun : Provision c ParseIP e inp s = (s', w, res)) :
  (forall old, keys_backup (remote s) = Some old -> keys_backup (remote s') = Some old)
  /\ (keys (remote s') = keys (remote s) \/ keys_backup (remote s') = Some (backed_keys (remote s)))
  /\ (one_fault c -> forall err, res = inr err -> rolled_back err ->
        keys (remote s') = undone (remote s) err
        \/ (keys (remote s) = [] /\ keys (remote s') = backed_keys (remote s))).
Proof.
  destruct (Provision_cases ParseIP e inp s) as [(err & E & Hr)|(servers & gateBin & gatePub & key & fp & _ & E)];
    rewrite E in Hrun.
  - injection Hrun as <- _ <-. split; [done|]. split; [by left|].
    intros _ err' [= <-] _. by left.
  - split; [|by eapply provision_on_keys]. intros old Hold.
    pose proof (provision_on_backup e inp servers gateBin gatePub key fp s old Hold) as Hb. by rewrite Hrun in Hb.
Qed.

(** ** Success *)

(** Every line of the key forces the gate, and there is one. *)
Definition locked (key : list ascii) (lines : list (list ascii)) : Prop :=
  (exists l, In l lines /\ lineMatchesKey l key = true)
  /\ forall l, In l lines -> lineMatchesKey l key = true -> is_prefix (commandForcing remoteGateBin) l = true.

Lemma idempotent_locked key body :
  Forall short (file_lines body) ->
  hasRestrictedEntryForKey body (Some key) remoteGateBin
    && negb (hasPlainLineForKey body (Some key) remoteGateBin) = true ->
  locked key (map dropCR (text_of body)).
Proof.
  intros Hs [Hr Hp]%andb_true_iff. unfold hasRestrictedEntryForKey, hasPlainLineForKey in *.
  rewrite scan_text in * by done. apply existsb_exists in Hr as (l & Hl & [_ Hm]%andb_true_iff).
  split; [by exists l|]. intros l' Hl' Hm'. apply not_false_iff_true. intros Hf.
  apply negb_true_iff in Hp. apply not_true_iff_false in Hp. apply Hp, existsb_exists.
  exists l'. by rewrite Hm', Hf.
Qed.

Definition entry_of (e : Env) (inp : ProvisionInput) (fp : string) : Entry :=
  mkEntry (inHost inp) (if inPort inp =? 0 then 22 else inPort inp)%Z (inUser inp) (now e) (inReadOnly inp) fp.

Lemma provision_on_done e inp servers gateBin gatePub key fp s s' w out :
  reads_all -> provision_on c e inp servers gateBin gatePub key fp s = (s', w, inl out) ->
  let body := keys (remote s) in
  let idempotent := hasRestrictedEntryForKey body (Some key) remoteGateBin
                    && negb (hasPlainLineForKey body (Some key) remoteGateBin) in
  verifyProvision e (remote s') = true
  /\ w = MarshalIndent (<[inAlias inp := entry_of e inp fp]> (data servers)) /\ w <> None
  /\ oIdempotent out = idempotent
  /\ if idempotent then remote s' = remote s
     else exists body', rewriteAuthorizedKeys body (Some key) remoteGateBin = inl body'
            /\ keys (remote s') = body' /\ gate_bin (remote s') = Some gateBin
            /\ gate_pub (remote s') = with_pub gatePub (remote s).
Proof.
  intros Hreads. unfold provision_on.
  assert (remote (exec c ReadKeys s).1 = remote s) as Hs1 by done.
  destruct (exec c ReadKeys s) as [s1 [|]]; [|done]. cbn [fst] in Hs1. cbn [negb].
  rewrite <- Hs1. clear s Hs1. rename s1 into s. rewrite Hreads.
  change (default [] (auth_keys (remote s))) with (keys (remote s)). cbv zeta.
  set (idem := _ && negb _).
  assert (forall s2, verifyProvision e (remote s2) = true ->
    match Add (add_fault e) (inAlias inp) (entry_of e inp fp) servers with
    | (_, _, Some why) => abandon c idem s2 (RegisterFailed why)
    | (_, written, None) =>
        (s2, written, inl (mkOutput (inAlias inp) (inHost inp) (Port (entry_of e inp fp)) (inUser inp) fp
           remoteGateBin true idem (inReadOnly inp)))
    end = (s', w, inl out) ->
    s' = s2 /\ verifyProvision e (remote s') = true
    /\ w = MarshalIndent (<[inAlias inp := entry_of e inp fp]> (data servers)) /\ w <> None
    /\ oIdempotent out = idem) as Hend.
  { intros s2 Hv. unfold Add. destruct (inAlias inp =s "").
    { intros [(? & ? & ?)|(? & ? & ? & ?)]%abandon_inv; congruence. }
    unfold persist. destruct (MarshalIndent _) as [body|]; [destruct (add_fault e)|].
    1, 3: intros [(? & ? & ?)|(? & ? & ? & ?)]%abandon_inv; congruence.
    intros [[<- <-]%pair_equal_spec [= <-]]%pair_equal_spec. by split_and!. }
  destruct idem eqn:Eid.
  - destruct (verifyProvision e (remote s)) eqn:Ev; cbn [negb];
      [|by intros [(? & ? & ?)|(? & ? & ? & ?)]%abandon_inv].
    intros Hd. apply (Hend s Ev) in Hd as (-> & ? & ? & ? & ?). by split_and!.
  - destruct (runAutoSetup _ _ _ _ _ _) as [s2 [why|]] eqn:Es; [done|].
    destruct (verifyProvision e (remote s2)) eqn:Ev; cbn [negb];
      [|by intros [(? & ? & ?)|(? & ? & ? & ?)]%abandon_inv].
    intros Hd. apply (Hend s2 Ev) in Hd as (-> & Hd).
    apply setup_done in Es as (body' & Hb & Hr). rewrite Hreads in Hb.
    destruct Hd as (? & ? & ? & ?). split_and!; try done. exists body'. rewrite Hr. by split_and!.
Qed.

(** A target whose key is locked already is registered as it is: the gate.pub of a
    signed install is not uploaded to it. *)
Lemma readd_uploads_nothing ParseIP e inp s s' w out :
  reads_all -> Provision c ParseIP e inp s = (s', w, inl out) -> oIdempotent out = true ->
  gate_pub (remote s') = gate_pub (remote s) /\ gate_bin (remote s') = gate_bin (remote s).
Proof.
  intros Hreads Hrun Hid.
  destruct (Provision_cases ParseIP e inp s) as [(? & E & _)|(? & ? & ? & ? & ? & _ & E)]; rewrite E in Hrun; [done|].
  apply provision_on_done in Hrun as (_ & _ & _ & Hi & Hrest); [|done].
  rewrite Hid in Hi. rewrite <- Hi in Hrest. by rewrite Hrest.
Qed.

(** A read-only install leaves a gate.pub that is there: the gate it reports as
    read-only still runs signed commands. *)
Lemma read_only_keeps_pub ParseIP e inp s s' w out :
  reads_all -> Provision c ParseIP e inp s = (s', w, inl out) -> inReadOnly inp = true ->
  gate_pub (remote s') = gate_pub (remote s).
Proof.
  intros Hreads Hrun Hro.
  destruct (Provision_cases ParseIP e inp s) as [(? & E & _)|(? & ? & gatePub & ? & ? & Hp & E)]; rewrite E in Hrun; [done|].
  destruct Hp as (_ & _ & _ & _ & _ & Hpub & _). rewrite Hro in Hpub. subst gatePub.
  apply provision_on_done in Hrun as (_ & _ & _ & _ & Hrest); [|done].
  destruct (_ && negb _); [by rewrite Hrest|]. by destruct Hrest as (? & _ & _ & _ & ->).
Qed.

Context `{!SSHKeysLaws H}.

(** C14: A provisioned server has the key locked to the gate.  When [Provision]
    succeeds, the target's probe answered, the registry was written with the
    server's host key and nothing else changed in it, and in authorized_keys every
    line of the key forces the gate: either the file was like that before and
    nothing was changed, or the key has exactly one line, behind everybody else's
    lines as they were, and the gate was installed. *)
Theorem provision_locks_down (ParseIP : string -> bool) (e : Env) (inp : ProvisionInput) (s s' : St)
    (w : option (list ascii)) (out : ProvisionOutput)
    (Hreads : reads_all) (Hshort : Forall short (file_lines (keys (remote s))))
    (Hrun : Provision c ParseIP e inp s = (s', w, inl out)) :
  exists servers gateBin gatePub key fp,
    prepared ParseIP e inp servers gateBin gatePub key fp
    /\ verifyProvision e (remote s') = true
    /\ w = MarshalIndent (<[inAlias inp := entry_of e inp fp]> (data servers)) /\ w <> None
    /\ if oIdempotent out
       then remote s' = remote s /\ locked key (map dropCR (text_of (keys (remote s))))
       else List.filter (fun l => lineMatchesKey l key) (text_of (keys (remote s')))
              = [restricted_line key remoteGateBin]
            /\ text_of (keys (remote s'))
               = others (keys (remote s)) key ++ [restricted_line key remoteGateBin]
            /\ gate_bin (remote s') = Some gateBin
            /\ gate_pub (remote s') = with_pub gatePub (remote s).
Proof.
  destruct (Provision_cases ParseIP e inp s) as [(err & E & _)|(servers & gateBin & gatePub & key & fp & Hp & E)];
    rewrite E in Hrun; [done|]. exists servers, gateBin, gatePub, key, fp. split; [exact Hp|].
  apply provision_on_done in Hrun as (Hv & Hw & Hn & -> & Hrest); [|done]. do 3 (split; [done|]).
  destruct (_ && negb _) eqn:Eid.
  - split; [done|]. by apply idempotent_locked.
  - destruct Hrest as (body & Hb & -> & Hbin & Hpub). split; [by apply rewrite_locks with (1 := eq_refl) in Hb|].
    split; [by apply rewrite_lines in Hb|done].
Qed.

(** ** Failures that are not undone *)

(** The rollback restores the oldest backup, not what it found.  On a target
    with a backup from an earlier provisioning, a verification that fails leaves
    authorized_keys as it was then: lines added since are lost, lines removed since
    are back, and the rollback is reported as successful. *)
Theorem stale_backup_restored (e : Env) (inp : ProvisionInput) (servers : Servers) (gateBin : list ascii)
    (gatePub : option (list ascii)) (key : list ascii) (fp : string) (s : St) (old body : list ascii)
    (Hreads : reads_all) (Hsound : forall n, fault c n = None)
    (Hold : keys_backup (remote s) = Some old)
    (Hplain : hasRestrictedEntryForKey (keys (remote s)) (Some key) remoteGateBin = false)
    (Hfits : rewriteAuthorizedKeys (keys (remote s)) (Some key) remoteGateBin = inl body)
    (Hprobe : forall r, verifyProvision e r = false) :
  let '(s', w, res) := provision_on c e inp servers gateBin gatePub key fp s in
  keys (remote s') = old /\ w = None /\ res = inr (VerifyFailed (Some true)).
Proof.
  assert (forall op s, exec c op s = (mkSt (effect op None (remote s)) (sent s ++ [op]), true)) as He
    by (intros op s0; unfold exec; by rewrite Hsound).
  unfold provision_on. rewrite He. cbn [negb remote effect]. rewrite Hreads.
  change (default [] (auth_keys (remote s))) with (keys (remote s)). rewrite Hplain. cbn [andb].
  unfold runAutoSetup. rewrite !He. cbn [negb]. destruct gatePub; rewrite ?He; cbn [negb];
    rewrite Hreads; change (default [] (auth_keys (remote s))) with (keys (remote s)); rewrite Hfits;
    rewrite !He; cbn [negb]; rewrite Hprobe; cbn [negb]; unfold abandon, rollback; rewrite !He;
    cbn [remote effect put back_up copied auth_keys keys_backup gate_dir gate_bin gate_pub option_map];
    rewrite Hold; cbn [remote effect put back_up copied auth_keys keys_backup set_backup]; rewrite ?Hold;
    by split_and!.
Qed.

End Run.

(** ** Runs *)

Definition sample_session : Session := mkSession (fun _ => None) (fun f => Some (default [] f)).
Definition lossy_session : Session :=
  mkSession (fun n => if n =? 5 then Some 4 else None) (fun f => Some (default [] f)).

Definition alice_line : list ascii := lit "ssh-ed25519 QUFB alice".
Definition agent_key : list ascii := lit "agent".
Definition plain_line : list ascii := trim_newlines (MarshalAuthorizedKey agent_key).

Definition sample_target (backup : option (list ascii)) : Remote :=
  mkRemote false None None (Some (unlines [alice_line; plain_line])) backup.

Definition answers : Remote -> option (list ascii) := fun r =>
  match auth_keys r, gate_bin r with Some _, Some _ => Some (lit "SSHGATE_OK" ++ [NL]) | _, _ => None end.

Definition sample_env (probe : Remote -> option (list ascii)) : Env :=
  mkEnv (StatNotExist, ReadNotExist) (mkView ReadNotExist StatNotExist ReadNotExist) None (Some (lit "gate"))
    (Some (lit "pub")) (Some (MarshalAuthorizedKey agent_key)) true true (Some "SHA256:web") probe 0.

Definition sample_input : ProvisionInput := mkInput "web" "web.example.com" 0 "deploy" false.

Definition id_hash : Sha256 := {| Sum256 := fun b => b |}.
#[local] Existing Instance id_hash.

Lemma session_reads : reads_all sample_session /\ reads_all lossy_session.
Proof. by split. Qed.

Lemma sample_short : Forall short (file_lines (keys (sample_target None))).
Proof. apply small_short. vm_compute. lia. Qed.

Definition sample_start (backup : option (list ascii)) : St := mkSt (sample_target backup) [].

Lemma sample_run :
  exists s w out, Provision sample_session (fun _ => false) (sample_env answers) sample_input (sample_start None)
                  = (s, w, inl out) /\ oIdempotent out = false.
Proof. vm_compute. by eexists _, _, _. Qed.

Lemma provision_locks_down_witness :
  exists s w out key,
    Provision sample_session (fun _ => false) (sample_env answers) sample_input (sample_start None) = (s, w, inl out)
    /\ w <> None /\ oIdempotent out = false
    /\ List.filter (fun l => lineMatchesKey l key) (text_of (keys (remote s))) = [restricted_line key remoteGateBin].
Proof.
  destruct sample_run as (s & w & out & E & Hi).
  destruct (provision_locks_down sample_session (fun _ => false) (sample_env answers) sample_input
              (sample_start None) s w out (proj1 session_reads) sample_short E)
    as (servers & gateBin & gatePub & key & fp & _ & _ & _ & Hw & Hl).
  exists s, w, out, key. rewrite Hi in Hl. destruct Hl as [Hl _]. by split_and!.
Defined.

(** The connection is lost in the middle of the rewrite; then it works again.  The
    lines are back, also on a target with an older backup. *)
Lemma provision_keeps_keys_witness :
  Forall (fun backup => exists s err,
    Provision lossy_session (fun _ => false) (sample_env answers) sample_input (sample_start backup) = (s, None, inr err)
    /\ keys (remote s) = unlines [alice_line; plain_line]) [None; Some (lit "old")].
Proof.
  apply List.Forall_forall. intros backup Hbackup.
  destruct (Provision lossy_session (fun _ => false) (sample_env answers) sample_input (sample_start backup))
    as [[s w] res] eqn:E.
  destruct (provision_keeps_keys lossy_session (fun _ => false) (sample_env answers) sample_input (sample_start backup)
              s w res (proj2 session_reads) E) as (_ & _ & Hk).
  assert (w = None /\ res = inr (SetupFailed WriteKeysFailed)) as [-> ->].
  { apply pair_equal_spec in E as [E <-]. apply pair_equal_spec in E as [_ <-].
    destruct Hbackup as [<-|[<-|[]]]; by vm_compute. }
  eexists s, _. split; [done|].
  destruct Hk with (err := SetupFailed WriteKeysFailed) as [Hk'|[Hk' _]]; [|done..|exact Hk'|done].
  intros i j Hi Hj. cbn in *. destruct (i =? 5) eqn:E1; [|done]. destruct (j =? 5) eqn:E2; [|done].
  bool_hyps. congruence.
Defined.

(** Since the backup was made, bob's key was removed and alice's added. *)
Lemma stale_backup_restored_witness :
  let old := unlines [lit "ssh-ed25519 Qk9C bob"; plain_line] in
  let '(s, w, res) :=
    provision_on sample_session (sample_env (fun _ => None)) sample_input (mkServers ∅ zero_hash false false)
      (lit "gate") (Some (lit "pub")) agent_key "SHA256:web" (sample_start (Some old)) in
  keys (remote s) = old /\ w = None /\ res = inr (VerifyFailed (Some true)).
Proof.
  intros old.
  destruct (rewriteAuthorizedKeys (keys (remote (sample_start (Some old)))) (Some agent_key) remoteGateBin)
    as [body|] eqn:Eb; [|vm_compute in Eb; done].
  apply (stale_backup_restored sample_session (sample_env (fun _ => None)) sample_input
           (mkServers ∅ zero_hash false false) (lit "gate") (Some (lit "pub")) agent_key "SHA256:web"
           (sample_start (Some old)) old body (proj1 session_reads) (fun _ => eq_refl) eq_refl).
  - by vm_compute.
  - exact Eb.
  - done.
Defined.
