(* ===== verification/McpRun.v ===== *)
(** * The tools that run commands (src/mcp/tools/run.go, run_batch.go)

    What sshgate.run and sshgate.run_batch send: the one request to the signer
    and the commands to the server, in their order, given what the registry, the
    signer and the server answer.  The server's answers may depend on everything
    that was sent before. *)

From S2P Require Import Prelude ClassifyArgs Classify Base64 Sigwire SignerDaemon SignerWire McpRegistry.

Module Tools.
Import Daemon Wire Registry.

(** A call of the signing client or of the SSH client. *)
Inductive Call :=
  | SignCall (id : string) (cmds : list signRequestCmd)
  | SSHCall (host user : string) (port : Z) (cmd : string).

(** What SSHRunner.Run returns. *)
Record SSHResult := mkSSH {
  sshStdout : string; sshStderr : string; sshExit : Z; sshErr : option string
}.

(** Runner, with what its collaborators and the file system answer. *)
Record Runner := mkRunner {
  Servers : option (string -> option Entry);
  SignC : option (string -> list signRequestCmd -> SignResult + SignErr);
  SSH : option (list Call -> string -> string -> Z -> string -> SSHResult);
  KeyPath : string;
  key_absent : bool;
  WriteTTLSec : Z;
  SignerSockPath : string;
  sock_stat_ok : bool;
  request_random : option (list ascii)
}.

(** How a sign-layer error is explained. *)
Inductive Remedy := VerdictLost | NoAccess | NotAccepting | NoSigner | Plain.

Inductive ToolErr :=
  | ServersNil | SignNil | SSHNil | CommandEmpty | CommandsEmpty (i : nat) | AliasEmpty
  | UnknownAlias (alias : string)
  | RevealNeedsReason
  | Unclassified (cmd : string)
  | ReadOnlyServer (alias : string)
  | NoKey
  | RequestID
  | SignFailure (how : Remedy) (err : SignErr)
  | SignatureMismatch (want got : nat)
  | SSHExec (i : nat) (err : string)
  | GateDenied (note : string).

Record RunInput := mkInput { Alias : string; Cmd : string; Reveal : bool; RunReason : string }.

Record RunOutput := mkOutput {
  Stdout : string; Stderr : string; ExitCode : Z; OutKind : string;
  Approved : bool; Revealed : bool; OutAuthMode : string
}.

Definition no_output (kind : string) : RunOutput := mkOutput "" "" 0 kind false false "".

Definition DefaultWriteTTLSec : Z := 60.
Definition BatchWriteTTLSec : Z := 60.

(** What a tool did, in order, and what it returned. *)
Definition Outcome (A : Type) : Type := list Call * (A * option ToolErr).

(** checkKeyReady *)
Definition checkKeyReady (r : Runner) : option ToolErr :=
  if KeyPath r =s "" then None else if key_absent r then Some NoKey else None.

(** signerSocketPresent *)
Definition signerSocketPresent (r : Runner) : bool :=
  if SignerSockPath r =s "" then false else sock_stat_ok r.

(** remediateSignErr *)
Definition remediateSignErr (r : Runner) (err : SignErr) : ToolErr :=
  SignFailure
    (match err with
     | ErrVerdictUnknown => VerdictLost
     | ErrSignerPermission => NoAccess
     | ErrUnreachable => if signerSocketPresent r then NotAccepting else NoSigner
     | _ => Plain
     end) err.

(** gateDenyNote *)
Definition gateDenyNote (exit : Z) : string :=
  if (exit =? 77)%Z then
    "gate denied this write (exit 77): the server has no signer pubkey (read-only / Tier-1) OR the signature was missing. Check sshgate.status; upgrading the tier is human-only — a person runs /sshgate:setup (if no signer yet), then /sshgate:revoke <alias> and `sshgate add <alias> <user@host>` (without --read-only)."
  else if (exit =? 65)%Z then
    "gate rejected the signature (exit 65): expired or invalid — usually clock skew or a stale approval; retry."
  else "".

(** strings.HasSuffix of a newline *)
Fixpoint ends_line (s : string) : bool :=
  match s with
  | EmptyString => false
  | String c EmptyString => c =c NL
  | String _ s => ends_line s
  end.

(** appendNote *)
Definition appendNote (stderr note : string) : string :=
  if stderr =s "" then note
  else if ends_line stderr then stderr +:+ note
  else stderr +:+ String NL note.

(** newRequestID; [None] is a failing source of randomness. *)
Definition newRequestID (rnd : option (list ascii)) : option string :=
  option_map (fun b => "r_" +:+ Sigwire.str (Base64.encode b)) rnd.

(** ** sshgate.run *)

Section Run.
Variable r : Runner.
Variable sign : string -> list signRequestCmd -> SignResult + SignErr.
Variable ssh : list Call -> string -> string -> Z -> string -> SSHResult.

(** A call of the SSH client after the calls [before]. *)
Definition send (before : list Call) (e : Entry) (cmd : string) : Call * SSHResult :=
  (SSHCall (Host e) (User e) (Port e) cmd, ssh before (Host e) (User e) (Port e) cmd).

(** runRead *)
Definition runRead (e : Entry) (cmd : string) : Outcome RunOutput :=
  match checkKeyReady r with
  | Some err => ([], (no_output "read", Some err))
  | None =>
      let '(call, res) := send [] e cmd in
      ([call],
       (mkOutput (sshStdout res) (sshStderr res) (sshExit res) "read" false false "",
        option_map (SSHExec 0) (sshErr res)))
  end.

(** The lifetime runWrite asks for. *)
Definition write_ttl : Z :=
  if (WriteTTLSec r <=? 0)%Z then DefaultWriteTTLSec else WriteTTLSec r.

(** runWrite, once the request is answered. *)
Definition runSigned (e : Entry) (cmd : string) (reveal : bool) (asked : Call)
    (answer : SignResult + SignErr) : Outcome RunOutput :=
  match answer with
  | inr err => ([asked], (no_output "write", Some (remediateSignErr r err)))
  | inl res =>
      match Signed res with
      | [s] =>
          let '(call, out) := send [asked] e (scSig s +:+ " " +:+ cmd) in
          ([asked; call],
           (mkOutput (sshStdout out) (sshStderr out) (sshExit out) "write" true reveal (AuthMode res),
            match sshErr out with
            | Some err => Some (SSHExec 0 err)
            | None => let note := gateDenyNote (sshExit out) in
                      if negb (note =s "") then Some (GateDenied note) else None
            end))
      | sigs => ([asked], (no_output "write", Some (SignatureMismatch 1 (List.length sigs))))
      end
  end.

(** runWrite *)
Definition runWrite (al : string) (e : Entry) (cmd : string) (reveal : bool) (why : string)
    : Outcome RunOutput :=
  if ReadOnly e then ([], (no_output "write", Some (ReadOnlyServer al)))
  else match checkKeyReady r with
       | Some err => ([], (no_output "write", Some err))
       | None =>
           match newRequestID (request_random r) with
           | None => ([], (no_output "write", Some RequestID))
           | Some id =>
               let cmds := [mkCmd al cmd write_ttl (Fingerprint e) reveal why] in
               runSigned e cmd reveal (SignCall id cmds) (sign id cmds)
           end
       end.

(** The part of Run after the alias is found. *)
Definition runEntry (inp : RunInput) (e : Entry) : Outcome RunOutput :=
  if Reveal inp then
    if GoStr.TrimSpace (RunReason inp) =s "" then ([], (no_output "", Some RevealNeedsReason))
    else runWrite (Alias inp) e (Cmd inp) true (RunReason inp)
  else match Classify (Cmd inp) with
       | KindUnknown => ([], (no_output "", Some (Unclassified (Cmd inp))))
       | KindRead => runRead e (Cmd inp)
       | KindWrite => runWrite (Alias inp) e (Cmd inp) false ""
       end.

End Run.

Definition fails {A} (a : A) (err : ToolErr) : Outcome A := ([], (a, Some err)).

(** Run *)
Definition Run (r : Runner) (inp : RunInput) : Outcome RunOutput :=
  match Servers r, SignC r, SSH r with
  | None, _, _ => fails (no_output "") ServersNil
  | _, None, _ => fails (no_output "") SignNil
  | _, _, None => fails (no_output "") SSHNil
  | Some get, Some sign, Some ssh =>
      if GoStr.TrimSpace (Cmd inp) =s "" then fails (no_output "") CommandEmpty
      else if Alias inp =s "" then fails (no_output "") AliasEmpty
      else match get (Alias inp) with
           | None => fails (no_output "") (UnknownAlias (Alias inp))
           | Some e => runEntry r sign ssh inp e
           end
  end.

(** ** sshgate.run_batch *)

Record RunBatchInput := mkBatch {
  BatchAlias : string; Commands : list string; StopOnError : option bool
}.

Record CommandResult := mkCommandResult {
  resCommand : string; resKind : string; resStdout : string; resStderr : string;
  resExit : Z; Skipped : bool; resRevealed : bool
}.

Record RunBatchOutput := mkBatchOutput {
  BatchServer : string; Results : list CommandResult; BatchApproved : bool;
  Denied : bool; BatchReason : string; BatchAuthMode : string
}.

Definition zero_result : CommandResult := mkCommandResult "" "" "" "" 0 false false.
Definition no_batch (server : string) : RunBatchOutput := mkBatchOutput server [] false false "" "".

(** kindLabel *)
Definition kindLabel (k : ClassifyArgs.Kind) : string :=
  match k with KindRead => "read" | KindWrite => "write" | KindUnknown => "unknown" end.

(** classifySignErr *)
Definition classifySignErr (err : SignErr) : string :=
  match err with
  | ErrDenied => "denied"
  | ErrTimeout => "timeout"
  | ErrSignerPermission => "permission"
  | ErrUnreachable => "unreachable"
  | ErrVerdictUnknown => "verdict_unknown"
  | Other _ => "error"
  end.

(** classifySignErrReason *)
Definition classifySignErrReason (r : Runner) (err : SignErr) : string :=
  match err with
  | ErrVerdictUnknown =>
      "verdict_unknown: the signer reached a decision but the response did not arrive — a human may have DENIED this. Do NOT auto-retry. Check sshgate.status and the Telegram approval thread before resubmitting."
  | ErrSignerPermission =>
      "signer socket " +:+ SignerSockPath r +:+ " is present but not accessible (permission denied) — your shell/session is not yet in the sshgatesigner group. Log out and back in, then relaunch Claude Code, before writes will work."
  | ErrUnreachable =>
      if signerSocketPresent r then
        "signer socket " +:+ SignerSockPath r +:+ " is present but not accepting connections — check `systemctl status sshgate-signer-telegram` and `journalctl -u sshgate-signer-telegram -n 50`."
      else "no signer configured (Tier-1 read-only). Writes need a Telegram signer: a human runs /sshgate:setup, then re-provisions each read-only server via /sshgate:revoke <alias> and `sshgate add <alias> <user@host>`."
  | _ => classifySignErr err
  end.

(** The first blank command. *)
Fixpoint blank_command (i : nat) (cmds : list string) : option nat :=
  match cmds with
  | [] => None
  | c :: cmds => if GoStr.TrimSpace c =s "" then Some i else blank_command (S i) cmds
  end.

(** writeCmds and writeIdx, from index [i]. *)
Fixpoint writes (al fp : string) (i : nat) (cmds : list string) : list (nat * signRequestCmd) :=
  match cmds with
  | [] => []
  | c :: cmds =>
      match Classify c with
      | KindWrite => (i, mkCmd al c BatchWriteTTLSec fp false "") :: writes al fp (S i) cmds
      | _ => writes al fp (S i) cmds
      end
  end.

(** signedByIdx *)
Fixpoint signed_by_idx (ws : list (nat * signRequestCmd)) (sigs : list SignedCmd) : gmap nat string :=
  match ws, sigs with
  | (i, c) :: ws, s :: sigs => <[i := scSig s +:+ " " +:+ Command c]> (signed_by_idx ws sigs)
  | _, _ => ∅
  end.

Section Batch.
Variable ssh : list Call -> string -> string -> Z -> string -> SSHResult.
Variable e : Entry.
Variable signedByIdx : gmap nat string.
Variable stopOnError : bool.

(** The result of one command, as sent. *)
Definition command_result (cmd : string) (res : SSHResult) : CommandResult :=
  let note := match sshErr res, Classify cmd with
              | None, KindWrite => gateDenyNote (sshExit res)
              | _, _ => ""
              end in
  mkCommandResult cmd (kindLabel (Classify cmd)) (sshStdout res)
    (if negb (note =s "") then appendNote (sshStderr res) note else sshStderr res)
    (sshExit res) false false.

(** The loop of RunBatch from command [i]: the calls, the results and the error. *)
Fixpoint batch_loop (before : list Call) (i : nat) (aborted : bool) (cmds : list string)
    : list Call * list CommandResult * option ToolErr :=
  match cmds with
  | [] => ([], [], None)
  | cmd :: cmds =>
      if aborted then
        let '(calls, results, err) := batch_loop before (S i) true cmds in
        (calls, mkCommandResult cmd (kindLabel (Classify cmd)) "" "" 0 true false :: results, err)
      else
        let wire := match signedByIdx !! i with Some w => w | None => cmd end in
        let call := SSHCall (Host e) (User e) (Port e) wire in
        let res := ssh before (Host e) (User e) (Port e) wire in
        match sshErr res with
        | Some err =>
            ([call], command_result cmd res :: repeat zero_result (List.length cmds),
             Some (SSHExec i err))
        | None =>
            let '(calls, results, err) :=
              batch_loop (before ++ [call]) (S i)
                (negb (sshExit res =? 0)%Z && stopOnError) cmds in
            (call :: calls, command_result cmd res :: results, err)
        end
  end.

End Batch.

(** RunBatch, once its writes are signed. *)
Definition batch_run (ssh : list Call -> string -> string -> Z -> string -> SSHResult) (e : Entry)
    (inp : RunBatchInput) (asked : list Call) (signed : gmap nat string) (approved : bool) (mode : string)
    : Outcome RunBatchOutput :=
  let stop := match StopOnError inp with Some b => b | None => true end in
  let '(calls, results, err) := batch_loop ssh e signed stop asked 0 false (Commands inp) in
  (asked ++ calls, (mkBatchOutput (BatchAlias inp) results approved false "" mode, err)).

(** RunBatch, once the alias is found and no command is blank. *)
Definition batch_entry (r : Runner)
    (sign : string -> list signRequestCmd -> SignResult + SignErr)
    (ssh : list Call -> string -> string -> Z -> string -> SSHResult)
    (inp : RunBatchInput) (e : Entry) : Outcome RunBatchOutput :=
  match writes (BatchAlias inp) (Fingerprint e) 0 (Commands inp) with
  | [] => batch_run ssh e inp [] ∅ false ""
  | ws =>
      if ReadOnly e then fails (no_batch "") (ReadOnlyServer (BatchAlias inp))
      else match checkKeyReady r with
           | Some err => fails (no_batch "") err
           | None =>
               match newRequestID (request_random r) with
               | None => fails (no_batch "") RequestID
               | Some id =>
                   let cmds := map snd ws in
                   match sign id cmds with
                   | inr err =>
                       ([SignCall id cmds],
                        (mkBatchOutput (BatchAlias inp) [] false true (classifySignErrReason r err) "",
                         None))
                   | inl res =>
                       if negb (List.length (Signed res) =? List.length cmds) then
                         ([SignCall id cmds],
                          (no_batch "",
                           Some (SignatureMismatch (List.length cmds) (List.length (Signed res)))))
                       else batch_run ssh e inp [SignCall id cmds] (signed_by_idx ws (Signed res))
                              true (AuthMode res)
                   end
               end
           end
  end.

(** RunBatch *)
Definition RunBatch (r : Runner) (inp : RunBatchInput) : Outcome RunBatchOutput :=
  match Servers r, SignC r, SSH r with
  | None, _, _ => fails (no_batch "") ServersNil
  | _, None, _ => fails (no_batch "") SignNil
  | _, _, None => fails (no_batch "") SSHNil
  | Some get, Some sign, Some ssh =>
      if BatchAlias inp =s "" then fails (no_batch "") AliasEmpty
      else match get (BatchAlias inp) with
           | None => fails (no_batch "") (UnknownAlias (BatchAlias inp))
           | Some e =>
               match Commands inp with
               | [] => ([], (no_batch (BatchAlias inp), None))
               | _ =>
                   match blank_command 0 (Commands inp) with
                   | Some i => fails (no_batch "") (CommandsEmpty i)
                   | None => batch_entry r sign ssh inp e
                   end
               end
           end
  end.

End Tools.
