(* ===== verification/McpRunProps.v ===== *)
(** * What the run tools guarantee

    What is sent unsigned, what is signed and by which request, in which order,
    and that the gate of the server runs exactly the commands that were asked
    for. *)

From S2P Require Import Prelude Json ClassifyArgs Classify Base64 Sigwire SigwireProps GateVerify GateVerifyProps RedactScanner RedactWriter GateMain GateMainProps SignerDaemon SignerDaemonProps SignerWire McpRegistry McpRun.
Import Sigwire Verify Daemon Wire Registry Tools.

(** ** sshgate.run *)

Definition to_server (e : Entry) (cmd : string) : Call := SSHCall (Host e) (User e) (Port e) cmd.

(** The signed form of a command. *)
Definition with_sig (s : SignedCmd) (cmd : string) : string := scSig s +:+ " " +:+ cmd.

(** The one command of a request, bound to the server's host key. *)
Definition request_for (r : Runner) (inp : RunInput) (e : Entry) : signRequestCmd :=
  mkCmd (Alias inp) (Cmd inp) (write_ttl r) (Fingerprint e) (Reveal inp)
    (if Reveal inp then RunReason inp else "").

(** What needs a signature: a reveal, which must have a reason, and a write. *)
Definition needs_signature (inp : RunInput) : Prop :=
  if Reveal inp then GoStr.TrimSpace (RunReason inp) <> "" else Classify (Cmd inp) = KindWrite.

(** What one call of run does. *)
Inductive run_outcome (r : Runner) (inp : RunInput) : Outcome RunOutput -> Prop :=
  | run_fails out err :
      Approved out = false -> run_outcome r inp ([], (out, Some err))
  | run_reads get sign ssh e :
      Servers r = Some get -> SignC r = Some sign -> SSH r = Some ssh -> get (Alias inp) = Some e ->
      Classify (Cmd inp) = KindRead -> Reveal inp = false ->
      (let res := ssh [] (Host e) (User e) (Port e) (Cmd inp) in
       run_outcome r inp
         ([to_server e (Cmd inp)],
          (mkOutput (sshStdout res) (sshStderr res) (sshExit res) "read" false false "",
           option_map (SSHExec 0) (sshErr res))))
  | run_refused get sign e id out err :
      Servers r = Some get -> SignC r = Some sign -> get (Alias inp) = Some e ->
      needs_signature inp -> ReadOnly e = false ->
      (forall s mode, sign id [request_for r inp e] <> inl (mkSignResult [s] mode)) ->
      Approved out = false ->
      run_outcome r inp ([SignCall id [request_for r inp e]], (out, Some err))
  | run_writes get sign ssh e id s mode err :
      Servers r = Some get -> SignC r = Some sign -> SSH r = Some ssh -> get (Alias inp) = Some e ->
      needs_signature inp -> ReadOnly e = false ->
      sign id [request_for r inp e] = inl (mkSignResult [s] mode) ->
      (let asked := SignCall id [request_for r inp e] in
       let res := ssh [asked] (Host e) (User e) (Port e) (with_sig s (Cmd inp)) in
       (err = None <-> sshErr res = None /\ sshExit res <> 77%Z /\ sshExit res <> 65%Z) ->
       run_outcome r inp
         ([asked; to_server e (with_sig s (Cmd inp))],
          (mkOutput (sshStdout res) (sshStderr res) (sshExit res) "write" true (Reveal inp) mode, err))).

Lemma gateDenyNote_iff exit : (gateDenyNote exit =s "") = negb ((exit =? 77) || (exit =? 65))%Z.
Proof. unfold gateDenyNote. by destruct (exit =? 77)%Z, (exit =? 65)%Z. Qed.

Lemma runWrite_outcome r inp get sign ssh e rv why :
  Servers r = Some get -> SignC r = Some sign -> SSH r = Some ssh -> get (Alias inp) = Some e ->
  needs_signature inp -> rv = Reveal inp -> why = (if Reveal inp then RunReason inp else "") ->
  run_outcome r inp (runWrite r sign ssh (Alias inp) e (Cmd inp) rv why).
Proof.
  intros Hg Hs Hh He Hn -> ->. unfold runWrite. destruct (ReadOnly e) eqn:Er; [by apply run_fails|].
  destruct (checkKeyReady r); [by apply run_fails|].
  destruct (newRequestID _) as [id|]; [|by apply run_fails].
  change [mkCmd _ _ _ _ _ _] with [request_for r inp e]. unfold runSigned.
  destruct (sign id _) as [res|err] eqn:Es; [|by eapply run_refused; eauto; rewrite Es].
  destruct res as [[|s [|s' l]] mode]; cbn [Signed].
  1,3: by eapply run_refused; eauto; rewrite Es.
  apply (run_writes r inp get sign ssh e id s mode _); try done. cbn zeta.
  set (res := ssh _ _ _ _ _). rewrite gateDenyNote_iff.
  destruct (sshErr res); [split; [done|by intros (? & _)]|].
  destruct (sshExit res =? 77)%Z eqn:E1; destruct (sshExit res =? 65)%Z eqn:E2; cbn [orb negb];
    bool_hyps; (split; [done || (intros _; split; [done|lia])|]); intros (_ & H1 & H2); lia || done.
Qed.

(** C6: What a single run sends: only a command that classifies as a read, and is
    no reveal, goes to the server as it is, and no request is made for it; a
    write or a reveal goes there only after one request for exactly it, bound to
    the host key the registry has for the alias, was answered with one
    signature, and goes behind that signature; and nothing else is ever sent. *)
Theorem run_sends (r : Runner) (inp : RunInput) : run_outcome r inp (Run r inp).
Proof.
  unfold Run. destruct (Servers r) as [get|] eqn:Hg; [|by apply run_fails].
  destruct (SignC r) as [sign|] eqn:Hs; [|by apply run_fails].
  destruct (SSH r) as [ssh|] eqn:Hh; [|by apply run_fails].
  destruct (_ =s ""); [by apply run_fails|]. destruct (Alias inp =s ""); [by apply run_fails|].
  destruct (get (Alias inp)) as [e|] eqn:He; [|by apply run_fails]. unfold runEntry.
  destruct (Reveal inp) eqn:Er.
  - destruct (_ =s "") eqn:Et; [by apply run_fails|]. bool_hyps.
    apply (runWrite_outcome r inp get sign ssh e); rewrite ?Er; try done.
    unfold needs_signature. by rewrite Er.
  - destruct (Classify _) eqn:Ec; [by apply run_fails|..].
    + unfold runRead. destruct (checkKeyReady r); [by apply run_fails|].
      by apply (run_reads r inp get sign ssh e).
    + apply (runWrite_outcome r inp get sign ssh e); rewrite ?Er; try done.
      unfold needs_signature. by rewrite Er.
Qed.

(** ** sshgate.run_batch *)

Definition is_write (c : string) : bool := bool_decide (Classify c = KindWrite).

Definition batch_request (al fp c : string) : signRequestCmd :=
  mkCmd al c BatchWriteTTLSec fp false "".

(** What is sent for each command: the writes behind the signatures, in order. *)
Fixpoint forms (cmds : list string) (sigs : list SignedCmd) : list string :=
  match cmds with
  | [] => []
  | c :: cmds =>
      if is_write c then
        match sigs with
        | s :: sigs => with_sig s c :: forms cmds sigs
        | [] => c :: forms cmds []
        end
      else c :: forms cmds sigs
  end.

Lemma writes_requests al fp cmds : forall i,
  map snd (writes al fp i cmds) = map (batch_request al fp) (List.filter is_write cmds).
Proof.
  induction cmds as [|c cmds IH]; intros i; [done|]. cbn [writes List.filter]. unfold is_write at 1.
  destruct (Classify c); cbn; by rewrite IH.
Qed.

Lemma signed_before al fp cmds : forall i j sigs,
  j < i -> signed_by_idx (writes al fp i cmds) sigs !! j = None.
Proof.
  induction cmds as [|c cmds IH]; intros i j sigs Hj; cbn [writes]; [apply lookup_empty|].
  destruct (Classify c); try (apply IH; lia). destruct sigs as [|s sigs]; [apply lookup_empty|].
  cbn [signed_by_idx]. rewrite lookup_insert_ne by lia. apply IH. lia.
Qed.

(** The map of signatures gives every position its form. *)
Lemma signed_forms al fp cmds : forall i sigs k c,
  cmds !! k = Some c ->
  forms cmds sigs !! k
  = Some (match signed_by_idx (writes al fp i cmds) sigs !! (i + k) with Some w => w | None => c end).
Proof.
  induction cmds as [|c0 cmds IH]; intros i sigs k c Hk; [done|].
  cbn [writes forms]. unfold is_write.
  assert (forall sigs' (m : gmap nat string), (forall j, i < j -> m !! j = signed_by_idx (writes al fp (S i) cmds) sigs' !! j) ->
    forall w, w = match m !! i with Some w => w | None => c0 end ->
    (w :: forms cmds sigs') !! k = Some (match m !! (i + k) with Some w => w | None => c end)) as Hstep.
  { intros sigs' m Hm w Hw. rewrite lookup_cons in Hk |- *. destruct k as [|k].
    - rewrite Nat.add_0_r, Hw. by simplify_eq.
    - rewrite (IH (S i) sigs' k c Hk), Hm by lia. by rewrite Nat.add_succ_r. }
  destruct (Classify c0); cbn [bool_decide decide_rel].
  1,2: apply Hstep; [done|]; by rewrite signed_before by lia.
  destruct sigs as [|s sigs].
  - cbn [signed_by_idx]. apply Hstep; [|by rewrite lookup_empty].
    intros j Hj. cbn. rewrite lookup_empty. by destruct (writes al fp (S i) cmds) as [|[? ?] ?].
  - cbn [signed_by_idx]. apply Hstep; [|by rewrite lookup_insert_eq].
    intros j Hj. by rewrite lookup_insert_ne by lia.
Qed.

(** ** The loop of a batch *)

Section Loop.
Variable ssh : list Call -> string -> string -> Z -> string -> SSHResult.
Variable e : Entry.
Variable stop : bool.

(** What the server answers on the [k]-th of the lines [ws], sent in order after
    the calls [before]. *)
Definition answer (before : list Call) (ws : list string) (k : nat) : option SSHResult :=
  option_map (ssh (before ++ map (to_server e) (take k ws)) (Host e) (User e) (Port e)) (ws !! k).

Lemma answer_S before w ws k : answer before (w :: ws) (S k) = answer (before ++ [to_server e w]) ws k.
Proof. unfold answer. cbn [take map]. by rewrite <- app_assoc. Qed.

(** The batch goes on after this answer; it ends after it. *)
Definition goes_on (a : SSHResult) : Prop := sshErr a = None /\ (stop = true -> sshExit a = 0%Z).
Definition ends_here (a : SSHResult) : Prop := sshErr a <> None \/ stop = true /\ sshExit a <> 0%Z.

(** The lines [ws] of [cmds] were sent up to the first that ended the batch. *)
Record batch_ran (before : list Call) (cmds ws : list string) (calls : list Call)
    (results : list CommandResult) (err : option ToolErr) (n : nat) : Prop := {
  ran_prefix : n <= List.length cmds;
  ran_calls : calls = map (to_server e) (take n ws);
  ran_length : List.length results = List.length cmds;
  ran_results k c a : k < n -> cmds !! k = Some c -> answer before ws k = Some a ->
    results !! k = Some (command_result c a);
  ran_rest k res : n <= k -> results !! k = Some res ->
    resStdout res = "" /\ (err = None -> Skipped res = true);
  ran_on k a : S k < n -> answer before ws k = Some a -> goes_on a;
  ran_end : n < List.length cmds -> exists k a, n = S k /\ answer before ws k = Some a /\ ends_here a;
  ran_err : err = None <-> forall k a, k < n -> answer before ws k = Some a -> sshErr a = None
}.

Lemma aborted_rest m cmds : forall before i,
  exists results, batch_loop ssh e m stop before i true cmds = ([], results, None)
    /\ List.length results = List.length cmds
    /\ Forall (fun r => resStdout r = "" /\ Skipped r = true) results.
Proof.
  induction cmds as [|c cmds IH]; intros before i; cbn [batch_loop]; [by exists []|].
  destruct (IH before (S i)) as (results & -> & Hl & Hr). eexists. split; [done|].
  split; [cbn; by rewrite Hl|]. by constructor.
Qed.

Lemma answer_0 before w ws : answer before (w :: ws) 0 = Some (ssh before (Host e) (User e) (Port e) w).
Proof. unfold answer. cbn. by rewrite app_nil_r. Qed.

(** One more line in front that does not end the batch. *)
Lemma batch_ran_cons before c cmds w ws calls results err n :
  (let res := ssh before (Host e) (User e) (Port e) w in
   goes_on res -> batch_ran (before ++ [to_server e w]) cmds ws calls results err n ->
   batch_ran before (c :: cmds) (w :: ws) (to_server e w :: calls)
     (command_result c res :: results) err (S n)).
Proof.
  intros res [Hn Hx] [Hp -> Hl Hres Hrest Hon Hend Herr]. pose proof (answer_0 before w ws) as H0.
  fold res in H0. split; cbn [List.length]; try done; try lia.
  - intros [|k] c' a Hk Hc Ha.
    + rewrite H0 in Ha. by simplify_eq/=.
    + rewrite answer_S in Ha. apply Hres; [lia|done|done].
  - intros [|k] r Hk Hr; [lia|]. apply (Hrest k); [lia|done].
  - intros [|k] a Hk Ha.
    + rewrite H0 in Ha. by simplify_eq/=.
    + rewrite answer_S in Ha. apply (Hon k); [lia|done].
  - intros Hlt. destruct Hend as (k & a & -> & Ha & He); [lia|]. exists (S k), a. by rewrite answer_S.
  - rewrite Herr. split.
    + intros Ha [|k] a Hk Hka.
      * rewrite H0 in Hka. by simplify_eq.
      * rewrite answer_S in Hka. apply (Ha k); [lia|done].
    + intros Ha k a Hk Hka. apply (Ha (S k)); [lia|]. by rewrite answer_S.
Qed.

Lemma batch_loop_ran m cmds : forall before i ws,
  List.length ws = List.length cmds ->
  (forall k c, cmds !! k = Some c -> ws !! k = Some (match m !! (i + k) with Some w => w | None => c end)) ->
  let '(calls, results, err) := batch_loop ssh e m stop before i false cmds in
  exists n, batch_ran before cmds ws calls results err n.
Proof.
  induction cmds as [|c cmds IH]; intros before i ws Hl Hw; cbn [batch_loop].
  { exists 0. destruct ws; [|done]. split; cbn; try done; try lia. }
  destruct ws as [|w ws]; [done|]. injection Hl as Hl.
  pose proof (Hw 0 c eq_refl) as Hw0. rewrite Nat.add_0_r in Hw0. cbn in Hw0. injection Hw0 as Hw0.
  rewrite <- Hw0. set (res := ssh before _ _ _ w).
  pose proof (answer_0 before w ws) as H0. fold res in H0.
  destruct (sshErr res) as [why|] eqn:Ee.
  - exists 1. split; cbn [List.length]; try done; try lia.
    + by rewrite repeat_length.
    + intros k c' a Hk Hc Ha. assert (k = 0) as -> by lia. rewrite H0 in Ha. cbn in Hc. by simplify_eq/=.
    + intros k r Hk Hr. destruct k as [|k]; [lia|]. rewrite lookup_cons in Hr.
      apply list_elem_of_lookup_2, list_elem_of_In, repeat_spec in Hr as ->. done.
    + intros _. exists 0, res. split; [done|]. split; [done|]. left. congruence.
    + split; [done|]. intros Hk. specialize (Hk 0 res ltac:(lia) H0). congruence.
  - destruct (negb (sshExit res =? 0)%Z && stop) eqn:Ex.
    + destruct (aborted_rest m cmds (before ++ [to_server e w]) (S i)) as (rest & Hb & Hrl & Hr).
      unfold to_server in Hb. rewrite Hb. exists 1. split; cbn [List.length]; try done; try lia.
      * intros k c' a Hk Hc Ha. assert (k = 0) as -> by lia. rewrite H0 in Ha. cbn in Hc. by simplify_eq/=.
      * intros k r Hk Hlk. destruct k as [|k]; [lia|]. rewrite lookup_cons in Hlk.
        rewrite Forall_lookup in Hr. destruct (Hr _ _ Hlk). by split.
      * intros _. exists 0, res. split; [done|]. split; [done|]. right. bool_hyps. by destruct stop.
      * split; [|done]. intros _ k a Hk Ha. assert (k = 0) as -> by lia. rewrite H0 in Ha. by simplify_eq.
    + specialize (IH (before ++ [to_server e w]) (S i) ws Hl) as IH'.
      destruct (batch_loop _ _ _ _ _ _ _ _) as [[calls results] err] eqn:Eb.
      destruct IH' as [n Hran].
      { intros k c' Hk. specialize (Hw (S k) c' Hk). rewrite lookup_cons, Nat.add_succ_r in Hw. done. }
      exists (S n). apply batch_ran_cons; [|done]. split; [done|]. intros Hst. rewrite Hst in Ex.
      destruct (sshExit res =? 0)%Z eqn:E0; [by apply Z.eqb_eq|done].
Qed.

End Loop.

(** What one call of run_batch does. *)
Inductive batch_outcome (r : Runner) (inp : RunBatchInput) : Outcome RunBatchOutput -> Prop :=
  | batch_fails out err :
      Results out = [] -> BatchApproved out = false ->
      err <> None \/ Commands inp = [] -> batch_outcome r inp ([], (out, err))
  | batch_refused get sign e id out err :
      Servers r = Some get -> SignC r = Some sign -> get (BatchAlias inp) = Some e ->
      (let cmds := map (batch_request (BatchAlias inp) (Fingerprint e)) (List.filter is_write (Commands inp)) in
       cmds <> [] -> ReadOnly e = false ->
       (forall res, sign id cmds = inl res -> List.length (Signed res) <> List.length cmds) ->
       Results out = [] -> BatchApproved out = false -> (err <> None \/ Denied out = true) ->
       batch_outcome r inp ([SignCall id cmds], (out, err)))
  | batch_runs get sign ssh e asked sigs mode calls results err n :
      Servers r = Some get -> SignC r = Some sign -> SSH r = Some ssh -> get (BatchAlias inp) = Some e ->
      (let cmds := map (batch_request (BatchAlias inp) (Fingerprint e)) (List.filter is_write (Commands inp)) in
       (cmds = [] /\ asked = [] /\ sigs = [] /\ mode = "")
       \/ (exists id, cmds <> [] /\ ReadOnly e = false /\ asked = [SignCall id cmds]
            /\ sign id cmds = inl (mkSignResult sigs mode) /\ List.length sigs = List.length cmds) ->
       batch_ran ssh e (match StopOnError inp with Some b => b | None => true end) asked
         (Commands inp) (forms (Commands inp) sigs) calls results err n ->
       batch_outcome r inp
         (asked ++ calls,
          (mkBatchOutput (BatchAlias inp) results (negb (is_nil cmds)) false "" mode, err))).

Lemma forms_length cmds : forall sigs, List.length (forms cmds sigs) = List.length cmds.
Proof.
  induction cmds as [|c cmds IH]; intros sigs; [done|]. cbn [forms List.length].
  destruct (is_write c); [destruct sigs|]; cbn [List.length]; by rewrite IH.
Qed.

Lemma batch_run_ran ssh e inp asked sigs approved mode :
  exists calls results err n,
    batch_run ssh e inp asked
      (signed_by_idx (writes (BatchAlias inp) (Fingerprint e) 0 (Commands inp)) sigs) approved mode
    = (asked ++ calls, (mkBatchOutput (BatchAlias inp) results approved false "" mode, err))
    /\ batch_ran ssh e (match StopOnError inp with Some b => b | None => true end) asked
         (Commands inp) (forms (Commands inp) sigs) calls results err n.
Proof.
  unfold batch_run.
  pose proof (batch_loop_ran ssh e (match StopOnError inp with Some b => b | None => true end)
    (signed_by_idx (writes (BatchAlias inp) (Fingerprint e) 0 (Commands inp)) sigs) (Commands inp)
    asked 0 (forms (Commands inp) sigs) (forms_length _ _)) as Hr.
  destruct (batch_loop _ _ _ _ _ _ _ _) as [[calls results] err].
  destruct Hr as [n Hr]; [|by exists calls, results, err, n].
  intros k c Hk. by apply (signed_forms _ _ (Commands inp) 0 sigs k c).
Qed.

Lemma RunBatch_outcome (r : Runner) (inp : RunBatchInput) : batch_outcome r inp (RunBatch r inp).
Proof.
  assert (forall out err, Results out = [] -> BatchApproved out = false ->
    batch_outcome r inp ([], (out, Some err))) as Hfail.
  { intros. apply batch_fails; auto. }
  unfold RunBatch. destruct (Servers r) as [get|] eqn:Hg; [|by apply Hfail].
  destruct (SignC r) as [sign|] eqn:Hs; [|by apply Hfail].
  destruct (SSH r) as [ssh|] eqn:Hh; [|by apply Hfail].
  destruct (_ =s ""); [by apply Hfail|].
  destruct (get _) as [e|] eqn:He; [|by apply Hfail].
  destruct (Commands inp) as [|c0 cs] eqn:Hc; [apply batch_fails; auto|]. rewrite <- Hc. clear Hc c0 cs.
  destruct (blank_command _ _); [by apply Hfail|]. unfold batch_entry.
  pose proof (writes_requests (BatchAlias inp) (Fingerprint e) (Commands inp) 0) as Hw.
  destruct (writes _ _ 0 _) as [|w ws] eqn:Ew.
  - destruct (batch_run_ran ssh e inp [] [] false "") as (calls & results & err & n & Hr & Hran).
    rewrite Ew in Hr. cbn [signed_by_idx] in Hr. rewrite Hr.
    pose proof (batch_runs r inp get sign ssh e [] [] "" calls results err n) as Hb.
    rewrite <- Hw in Hb. apply Hb; auto.
  - set (cmds := map snd (w :: ws)) in *. assert (cmds <> []) as Hne by done.
    destruct (ReadOnly e) eqn:Ero; [by apply Hfail|]. destruct (checkKeyReady r); [by apply Hfail|].
    destruct (newRequestID _) as [id|]; [|by apply Hfail].
    pose proof (batch_refused r inp get sign e id) as Href. rewrite <- Hw in Href.
    destruct (sign id cmds) as [res|err] eqn:Es.
    2: { apply Href; auto. intros res. by rewrite Es. }
    destruct (_ =? _) eqn:El; cbn [negb].
    2: { apply Href; auto. intros res'. rewrite Es. intros [= <-]. by apply Nat.eqb_neq in El. }
    destruct res as [sigs mode]. cbn [Signed AuthMode] in *. apply Nat.eqb_eq in El.
    destruct (batch_run_ran ssh e inp [SignCall id cmds] sigs true mode)
      as (calls & results & err & n & Hr & Hran).
    rewrite Ew in Hr. rewrite Hr.
    pose proof (batch_runs r inp get sign ssh e [SignCall id cmds] sigs mode calls results err n) as Hb.
    rewrite <- Hw in Hb. apply Hb; eauto 10.
Qed.

(** What a batch sends: one request, for all of its writes in their order and
    only for them, bound to the registered host key, and only when there are
    any; when it is not answered with a signature for each, nothing runs; and
    otherwise the commands go to the server in the order given, every write
    behind its own signature and everything else as it is, up to and including
    the first that fails, each result in its command's place. *)
Theorem batch_sends (r : Runner) (inp : RunBatchInput) : batch_outcome r inp (RunBatch r inp).
Proof. apply RunBatch_outcome. Qed.

(** ** From the tools to the server *)

Section EndToEnd.
Context `{Hmac} `{Ed25519} `{PemDecoder}.

Lemma forms_at (P : string -> SignedCmd -> Prop) cmds : forall sigs,
  Forall2 P (List.filter is_write cmds) sigs ->
  forall k c w, cmds !! k = Some c -> forms cmds sigs !! k = Some w ->
  if is_write c then exists s, P c s /\ w = with_sig s c else w = c.
Proof.
  induction cmds as [|c0 cmds IH]; intros sigs Hs k c w Hk Hw; [done|].
  cbn [List.filter forms] in *. destruct (is_write c0) eqn:Ew.
  - apply Forall2_cons_inv_l in Hs as (s & sigs' & Hp & Hs & ->).
    destruct k as [|k]; [|by apply (IH sigs' Hs k)]. cbn in Hk, Hw. simplify_eq. rewrite Ew. eauto.
  - destruct k as [|k]; [|by apply (IH sigs Hs k)]. cbn in Hk, Hw. simplify_eq. by rewrite Ew.
Qed.

(** A host that has the signer's public key and owns the registered one. *)
Definition provisioned (cfg : Config) (fp : string) (e : Gate.Env) : Prop :=
  operational e /\ Keystore.LoadPubKey (Gate.gate_pub e) = inl (Some (ed_public (Key cfg)))
  /\ exists fps, Gate.hostKeyFPsFn e = Some fps /\ In fp fps.

(** What the gate of such a host makes of a signed line. *)
Lemma signed_authorised cfg fp e nonce now_ c w :
  provisioned cfg fp e -> CmdHost c = fp -> fp <> "" -> Command c <> "" ->
  (0 < TTLSec c <= 300)%Z -> utf8_cmd c -> Utf8.valid (bytes nonce) = true -> (0 < now_ < 2 ^ 62)%Z ->
  (Gate.now e < now_ + TTLSec c)%Z -> admin_verb (Command c) = false ->
  w = signed_line (Key cfg) (payload_for now_ nonce c) +:+ String " " (Command c) ->
  Gate.SSH_ORIGINAL_COMMAND e = w ->
  forall cmd reveal, authorised e cmd reveal <-> cmd = Command c /\ reveal = CmdReveal c.
Proof.
  intros (Hop & Hkey & fps & Hfps & Hin) Hh Hne Hc Ht Hu Hn Hnow Hlt Hadm -> He.
  assert (verified e (Command c) (CmdReveal c)) as Hv.
  { apply verified_iff. exists (ed_public (Key cfg)), fps. do 2 (split; [done|]). rewrite He.
    apply payload_accepted_before; try done; [right; by eexists|]. by rewrite Hh. }
  pose proof (verified_signed _ _ _ Hv) as Hs. intros cmd reveal. split.
  - intros (_ & [(Hn' & _)|(_ & Hv' & _)]); [congruence|]. by eapply verified_unique.
  - intros [-> ->]. split; [done|]. by right.
Qed.

(** One line of a batch, at the gate. *)
Lemma form_authorised (cfg : Config) (now_ : Z) (rnd : nat -> option (list ascii))
    (al fp : string) (cmds : list string) (sigs : list SignedCmd) (k : nat) (c w : string) (e : Gate.Env) :
  Forall2 (fun c sg => exists nonce, Utf8.valid (bytes nonce) = true
      /\ scSig sg = signed_line (Key cfg) (payload_for now_ nonce (batch_request al fp c)))
    (List.filter is_write cmds) sigs ->
  cmds !! k = Some c -> forms cmds sigs !! k = Some w ->
  Gate.SSH_ORIGINAL_COMMAND e = w -> provisioned cfg fp e -> fp <> "" ->
  Utf8.valid (bytes c) = true /\ Utf8.valid (bytes fp) = true ->
  (0 < now_ < 2 ^ 62)%Z -> (Gate.now e < now_ + BatchWriteTTLSec)%Z ->
  c <> "" -> admin_verb c = false -> Classify c <> KindUnknown -> IsSigned c = false ->
  forall cmd reveal, authorised e cmd reveal <-> cmd = c /\ reveal = false.
Proof.
  intros Hsig Hk Hw He Hp Hfp Hu Hnow Hlt Hc Hadm Hread Hplain.
  pose proof (forms_at _ _ _ Hsig k c w Hk Hw) as Hf. unfold is_write in Hf. case_bool_decide as Ec.
  - destruct Hf as (s & (nonce & Hn & Hs) & ->).
    apply (signed_authorised cfg fp e nonce now_ (batch_request al fp c)
             (with_sig s c)); try done.
    unfold with_sig. by rewrite Hs.
  - rewrite Hf in He. destruct Hp as (Hop & _). intros cmd reveal. split.
    + intros (_ & [(_ & -> & _ & ->)|(Hs & _)]); rewrite He in *; [done|congruence].
    + intros [-> ->]. split; [done|]. left. rewrite He. do 2 (split; [done|]). split; [|done].
      by destruct (Classify c).
Qed.

(** The signer, as a client of it sees it when it signs everything. *)
Definition signs (cfg : Config) (now_ : Z) (rnd : nat -> option (list ascii)) (mode : string)
    (id : string) (cmds : list signRequestCmd) : SignResult + SignErr :=
  match signAll cfg now_ rnd 0 cmds with
  | Some sigs => inl (mkSignResult sigs mode)
  | None => inr (Other (DaemonError "sign failed"))
  end.

(** The lines a tool sent to a server, in order. *)
Definition lines_sent (calls : list Call) : list string :=
  flat_map (fun c => match c with SSHCall _ _ _ w => [w] | SignCall _ _ => [] end) calls.

Lemma lines_sent_map e ws : lines_sent (map (to_server e) ws) = ws.
Proof. induction ws as [|w ws IH]; [done|]. cbn. by rewrite <- IH at 2. Qed.

(** A command a batch may hold: not blank to the classifier, no administrative
    verb, no line that claims a signature. *)
Definition plain_command (c : string) : Prop :=
  c <> "" /\ Utf8.valid (bytes c) = true /\ Classify c <> KindUnknown /\ admin_verb c = false
  /\ IsSigned c = false.

(** C5: From a batch to the server: when the signer signs what it is asked, the
    [k]-th line a batch sends, read by a gate that has the signer's key and owns
    the registered host key, before the signature ends, makes that gate run
    exactly the [k]-th command of the batch, without a reveal, and nothing
    else. *)
Theorem batch_runs_what_was_asked (cfg : Config) (now_ : Z) (rnd : nat -> option (list ascii))
    (mode : string) (r : Runner) (inp : RunBatchInput) (get : string -> option Entry) (e : Entry)
    (k : nat) (w : string) (g : Gate.Env)
    (Hget : Servers r = Some get) (He : get (BatchAlias inp) = Some e)
    (Hsign : SignC r = Some (signs cfg now_ rnd mode))
    (Hw : lines_sent (RunBatch r inp).1 !! k = Some w)
    (Hg : Gate.SSH_ORIGINAL_COMMAND g = w) (Hp : provisioned cfg (Fingerprint e) g)
    (Hfp : Fingerprint e <> "" /\ Utf8.valid (bytes (Fingerprint e)) = true)
    (Hnow : (0 < now_ < 2 ^ 62)%Z) (Hlt : (Gate.now g < now_ + BatchWriteTTLSec)%Z)
    (Hplain : Forall plain_command (Commands inp)) :
  exists c, Commands inp !! k = Some c
    /\ forall cmd reveal, authorised g cmd reveal <-> cmd = c /\ reveal = false.
Proof.
  pose proof (RunBatch_outcome r inp) as Ho. destruct Hfp as [Hfp Hfpu].
  destruct Ho as [out err _ _ _|get' sign e' id out err _ _ _ cmds _ _ _ _ _ _
    |get' sign ssh e' asked sigs mode' calls results err n Hg' Hs' _ He' cmds Hask Hran]; [done|done|].
  assert (get' = get) as -> by congruence. assert (e' = e) as -> by congruence.
  cbn [fst] in Hw. destruct Hran as [Hn Hcalls _ _ _ _ _ _].
  assert (lines_sent (asked ++ calls) = take n (forms (Commands inp) sigs)) as Hlines.
  { unfold lines_sent. rewrite flat_map_app, Hcalls. fold (lines_sent (map (to_server e) (take n (forms (Commands inp) sigs)))).
    rewrite lines_sent_map. by destruct Hask as [(_ & -> & _)|(id & _ & _ & -> & _)]. }
  rewrite Hlines in Hw. apply lookup_take_Some in Hw as [Hw Hkn].
  destruct (Commands inp !! k) as [c|] eqn:Ec.
  2: { apply lookup_ge_None in Ec. apply lookup_lt_Some in Hw. rewrite forms_length in Hw. lia. }
  exists c. split; [done|]. rewrite Forall_lookup in Hplain.
  destruct (Hplain _ _ Ec) as (Hc & Hu & Hk & Hadm & Hpl).
  eapply (form_authorised cfg now_ rnd (BatchAlias inp) (Fingerprint e) (Commands inp) sigs k c w g); try done.
  destruct Hask as [(Hnil & _ & -> & _)|(id & _ & _ & _ & Hsg & _)].
  - apply map_eq_nil in Hnil. rewrite Hnil. constructor.
  - assert (sign = signs cfg now_ rnd mode) as -> by congruence. unfold signs in Hsg.
    destruct (signAll _ _ _ _ _) as [sigs'|] eqn:Es; [|done]. injection Hsg as -> _.
    apply signAll_lines in Es. unfold cmds in Es. apply Forall2_fmap_l in Es.
    eapply Forall2_impl; [exact Es|]. cbn. intros c' sg (nonce & _ & Hnonce & Hsc). by exists nonce.
Qed.

End EndToEnd.

(** ** What the guards do not cover *)

(** A command the classifier has no verdict on need not be blank: run refuses it,
    but a batch sends it, unsigned and labelled unknown, and reports success. *)
Lemma unclassified_sent (get : string -> option Entry) (e : Entry)
    (sign : string -> list signRequestCmd -> SignResult + SignErr)
    (ssh : list Call -> string -> string -> Z -> string -> SSHResult) (al : string) :
  al <> "" -> get al = Some e ->
  let r := mkRunner (Some get) (Some sign) (Some ssh) "" false 60 "" false None in
  Run r (mkInput al ";" false "") = fails (no_output "") (Unclassified ";")
  /\ (RunBatch r (mkBatch al [";"] None)).1 = [to_server e ";"].
Proof.
  intros Hal He r. unfold Run, RunBatch, r. cbn [Servers SignC SSH Tools.Alias BatchAlias Cmd Commands].
  change (GoStr.TrimSpace ";" =s "") with false. rewrite (proj2 (String.eqb_neq al "")), He by done.
  split.
  - unfold runEntry. cbn [Reveal Cmd]. by replace (Classify ";") with KindUnknown by (by vm_compute).
  - cbn [blank_command]. change (GoStr.TrimSpace ";" =s "") with false. unfold batch_entry.
    cbn [writes Commands]. replace (Classify ";") with KindUnknown by (by vm_compute).
    unfold batch_run. cbn [Commands batch_loop]. rewrite lookup_empty.
    by destruct (sshErr _).
Qed.

(** A batch of reads goes out without the check for the key that a single read
    makes first. *)
Lemma read_batch_unchecked (get : string -> option Entry) (e : Entry)
    (sign : string -> list signRequestCmd -> SignResult + SignErr)
    (ssh : list Call -> string -> string -> Z -> string -> SSHResult) (al : string) :
  al <> "" -> get al = Some e ->
  let r := mkRunner (Some get) (Some sign) (Some ssh) "/k" true 60 "" false None in
  Run r (mkInput al "ls" false "") = ([], (no_output "read", Some NoKey))
  /\ (RunBatch r (mkBatch al ["ls"] None)).1 = [to_server e "ls"].
Proof.
  intros Hal He r. unfold Run, RunBatch, r. cbn [Servers SignC SSH Tools.Alias BatchAlias Cmd Commands].
  change (GoStr.TrimSpace "ls" =s "") with false. rewrite (proj2 (String.eqb_neq al "")), He by done.
  split.
  - unfold runEntry. cbn [Reveal Cmd]. by replace (Classify "ls") with KindRead by (by vm_compute).
  - cbn [blank_command]. change (GoStr.TrimSpace "ls" =s "") with false. unfold batch_entry.
    cbn [writes Commands]. replace (Classify "ls") with KindRead by (by vm_compute).
    unfold batch_run. cbn [Commands batch_loop]. rewrite lookup_empty.
    by destruct (sshErr _).
Qed.

(** ** A witness *)

#[local] Instance run_hmac : Hmac := {| mac salt s := s ++ salt |}.
#[local] Instance run_pem : PemDecoder := {| pem_decode _ := None |}.

Definition sample_batch : list string := ["ls"; "reboot"; "df -h"].
Definition sample_entry : Entry := mkEntry "h" 22 "u" 0 false "SHA256:a".
Definition sample_signer : Config := mkConfig _ gate_key [] [].
Definition sample_random : nat -> option (list ascii) := fun _ => Some (bytes "0123456789abcdef").

Definition sample_runner : Runner :=
  mkRunner (Some (fun _ => Some sample_entry)) (Some (signs sample_signer 100 sample_random "human"))
    (Some (fun _ _ _ _ _ => mkSSH "" "" 0 None)) "" false 60 "" false (Some (bytes "123456789012")).

(** The write of a batch, at the gate. *)
Lemma batch_runs_what_was_asked_witness :
  exists w, lines_sent (RunBatch sample_runner (mkBatch "web" sample_batch None)).1 !! 1 = Some w
    /\ forall cmd reveal, authorised (gate_env w) cmd reveal <-> cmd = "reboot" /\ reveal = false.
Proof.
  destruct (lines_sent (RunBatch sample_runner (mkBatch "web" sample_batch None)).1 !! 1) as [w|] eqn:Ew;
    [|by vm_compute in Ew].
  exists w. split; [done|].
  assert (w <> "") as Hne by (intros ->; by vm_compute in Ew).
  assert (provisioned sample_signer "SHA256:a" (gate_env w)) as Hp.
  { split; [by apply gate_operational|]. split; [reflexivity|]. exists ["SHA256:a"]. split; [done|by left]. }
  assert (Forall plain_command sample_batch) as Hpl.
  { unfold sample_batch. repeat constructor; try discriminate; vm_compute; (reflexivity || discriminate). }
  destruct (batch_runs_what_was_asked sample_signer 100 sample_random "human" sample_runner
      (mkBatch "web" sample_batch None) (fun _ => Some sample_entry) sample_entry 1 w (gate_env w)
      eq_refl eq_refl eq_refl Ew eq_refl Hp) as (c & Hc & Ha).
  - split; [discriminate|reflexivity].
  - by split.
  - reflexivity.
  - exact Hpl.
  - injection Hc as <-. exact Ha.
Defined.
