(* ===== verification/McpHost.v ===== *)
(** * Host keys and the SSH client (src/hostkey, src/mcp/ssh)

    The fingerprint that both ends compute, the gate's own list of them, the
    known_hosts file that pins a server's key on first use, and one run of the SSH
    client.  x/crypto/ssh and its knownhosts package are interfaces; what the
    network and the server answer are arguments. *)

From S2P Require Import Prelude Base64 Sigwire GoTime RedactScanner McpRegistry McpKeys McpRun.

(** A file of keys, loaded and asked about a host: it accepts the key, it has these
    other keys for the host (none, for a host it does not know), or it fails. *)
Inductive Verdict := Accepts | KeyError (want : list (list ascii)) | CheckFails.

(** knownhosts.New with the callback it returns ([None]: the file does not load), and
    knownhosts.Line.  A key is its wire form. *)
Class KnownHosts := {
  kh_check : list ascii -> string -> list ascii -> option Verdict;
  kh_line : string -> list ascii -> list ascii
}.

Module HostKey.
Import Bytes.

(** The standard alphabet, from the URL-safe one. *)
Definition std_char (c : ascii) : ascii :=
  if (c =c "-")%char then "+"%char else if (c =c "_")%char then "/"%char else c.

(** RawStdEncoding.EncodeToString *)
Definition std_encode (l : list ascii) : list ascii := map std_char (Base64.encode l).

(** Fingerprint *)
Definition Fingerprint `{Sha256} (key : list ascii) : string :=
  "SHA256:" +:+ Sigwire.str (std_encode (Sum256 key)).

(** fingerprintFile; [None] is a file that cannot be read. *)
Definition fingerprintFile `{Sha256, SSHKeys} (data : option (list ascii)) : option string :=
  match data with
  | None => None
  | Some data => option_map Fingerprint (ParseAuthorizedKey data)
  end.

(** The loop of LoadHostFingerprintsFromGlob, having [seen] these. *)
Fixpoint load_loop `{Sha256, SSHKeys} (seen : list string) (files : list (option (list ascii))) : list string :=
  match files with
  | [] => []
  | f :: files =>
      match fingerprintFile f with
      | None => load_loop seen files
      | Some fp =>
          if existsb (String.eqb fp) seen then load_loop seen files
          else fp :: load_loop (seen ++ [fp]) files
      end
  end.

(** LoadHostFingerprintsFromGlob; [None] is a glob that fails. *)
Definition LoadHostFingerprintsFromGlob `{Sha256, SSHKeys} (matches : option (list (option (list ascii))))
    : option (list string) := option_map (load_loop []) matches.

(** net.JoinHostPort; IPv6 addresses are bracketed. *)
Definition JoinHostPort (host : string) (port : Z) : string :=
  let p := GoTime.itoa port in
  if existsb (fun c => (c =c ":")%char) (lit host) then "[" +:+ host +:+ "]:" +:+ p
  else host +:+ ":" +:+ p.

End HostKey.

Module Tofu.
Import Bytes HostKey.

Record File := mkFile { mode : Z; data : list ascii }.

(** The step of appendKnownHost that fails; a failing write stops after some bytes. *)
Inductive Fault := MkdirFails | OpenFails | ChmodFails | WriteStops (n : nat) | SyncFails.

Inductive TofuErr :=
  | StatKnownHosts | LoadKnownHosts
  | HostKeyChanged (host presented expected : string)
  | VerifyFailed | PinFailed (f : Fault).

Section Tofu.
Context `{Sha256, KnownHosts}.

(** fingerprintFromKnown *)
Definition fingerprintFromKnown (want : list (list ascii)) : string :=
  match want with [] => "(none)" | k :: _ => Fingerprint k end.

(** appendKnownHost *)
Definition appendKnownHost (fault : option Fault) (hostname : string) (key : list ascii) (file : option File)
    : option File * option Fault :=
  let old := match file with Some f => data f | None => [] end in
  let created := Some (mkFile (match file with Some f => mode f | None => 384 end) old) in
  let line := kh_line hostname key ++ [NL] in
  match fault with
  | Some MkdirFails | Some OpenFails => (file, fault)
  | Some ChmodFails => (created, fault)
  | Some (WriteStops n) => (Some (mkFile 384 (old ++ take n line)), fault)
  | Some SyncFails | None => (Some (mkFile 384 (old ++ line)), fault)
  end.

(** The append of TOFU, for a host that is not recorded. *)
Definition pin (fault : option Fault) (hostname : string) (key : list ascii) (file : option File)
    : option File * option TofuErr :=
  let '(file, err) := appendKnownHost fault hostname key file in (file, option_map PinFailed err).

(** TOFU's callback *)
Definition TOFU (stat_fails : bool) (fault : option Fault) (hostname : string) (key : list ascii)
    (file : option File) : option File * option TofuErr :=
  if stat_fails then (file, Some StatKnownHosts)
  else match file with
       | None => pin fault hostname key file
       | Some f =>
           match kh_check (data f) hostname key with
           | None => (file, Some LoadKnownHosts)
           | Some Accepts => (file, None)
           | Some (KeyError []) => pin fault hostname key file
           | Some (KeyError want) =>
               (file, Some (HostKeyChanged hostname (Fingerprint key) (fingerprintFromKnown want)))
           | Some CheckFails => (file, Some VerifyFailed)
           end
       end.

End Tofu.

End Tofu.

Module SSHClient.
Import HostKey Tofu Tools.
#[local] Open Scope Z_scope.

Record Client := mkClient { KeyPath : string; KnownHostsPath : string }.

Inductive ClientErr :=
  | KeyPathEmpty | KnownHostsPathEmpty | HostEmpty | UserEmpty
  | KeyMissing | KeyStat | KeyMode | KeyRead | KeyParse
  | DialFailed | HandshakeFailed | HostKeyRefused (err : TofuErr) | AuthFailed
  | SessionFailed | RunFailed | ContextDone.

(** The key file: not there, not to be looked at, or with this mode and contents;
    [parses] is ssh.ParsePrivateKey. *)
Inductive KeyFile := NoKeyFile | KeyStatFails | KeyPresent (mode : Z) (body : option (list ascii)).

(** loadKey *)
Definition loadKey (parses : list ascii -> bool) (f : KeyFile) : option ClientErr :=
  match f with
  | NoKeyFile => Some KeyMissing
  | KeyStatFails => Some KeyStat
  | KeyPresent mode body =>
      if negb (Z.land (Z.land mode 511) 63 =? 0) then Some KeyMode
      else match body with
           | None => Some KeyRead
           | Some body => if parses body then None else Some KeyParse
           end
  end.

(** How sess.Run ends: with status zero, another status, none at all, or an error. *)
Inductive RunEnd := RanOK | ExitStatus (n : Z) | ExitMissing | RunError.

(** The server at an address, as one connection finds it. *)
Record Peer := mkPeer {
  answers : bool;
  host_key : option (list ascii);
  auth_ok : bool;
  session_ok : bool;
  execute : string -> string * string * RunEnd
}.

(** What the process finds at one run. *)
Record Env := mkEnv {
  key_file : KeyFile; parses : list ascii -> bool;
  stat_fails : bool; fault : option Fault;
  peer : string -> Peer;
  cancelled : bool
}.

Record Ran := mkRan {
  ranStdout : string; ranStderr : string; ranExit : Z; ranErr : option ClientErr
}.

Definition failed (e : ClientErr) : Ran := mkRan "" "" 0 (Some e).

(** The exit code and the error of a finished session. *)
Definition exit_of (r : RunEnd) : Z * option ClientErr :=
  match r with
  | RanOK => (0, None)
  | ExitStatus n => (n, None)
  | ExitMissing => (-1, None)
  | RunError => (0, Some RunFailed)
  end.

Section Client.
Context `{Sha256, KnownHosts}.

(** The session of Run. *)
Definition session (env : Env) (p : Peer) (cmd : string) : Ran :=
  if negb (session_ok p) then failed SessionFailed
  else
    let '(out, err_text, ended) := execute p cmd in
    let '(exit, err) := exit_of ended in
    match err with
    | Some e => mkRan out err_text exit (Some e)
    | None => mkRan out err_text exit (if cancelled env then Some ContextDone else None)
    end.

(** Run: the known_hosts file it leaves, the address the command was sent to, if it
    was, and the result. *)
Definition Run (c : Client) (env : Env) (host user : string) (port : Z) (cmd : string) (file : option File)
    : option File * option string * Ran :=
  if String.eqb (KeyPath c) "" then (file, None, failed KeyPathEmpty)
  else if String.eqb (KnownHostsPath c) "" then (file, None, failed KnownHostsPathEmpty)
  else if String.eqb host "" then (file, None, failed HostEmpty)
  else if String.eqb user "" then (file, None, failed UserEmpty)
  else
    let port := if port =? 0 then 22 else port in
    match loadKey (parses env) (key_file env) with
    | Some err => (file, None, failed err)
    | None =>
        let addr := JoinHostPort host port in
        let p := peer env addr in
        if negb (answers p) then (file, None, failed DialFailed)
        else match host_key p with
             | None => (file, None, failed HandshakeFailed)
             | Some key =>
                 let '(file, refused) := TOFU (stat_fails env) (fault env) addr key file in
                 match refused with
                 | Some err => (file, None, failed (HostKeyRefused err))
                 | None =>
                     if negb (auth_ok p) then (file, None, failed AuthFailed)
                     else (file, if session_ok p then Some addr else None, session env p cmd)
                 end
             end
    end.

(** As the tools see it; [text] is the wording of an error. *)
Definition to_result (text : ClientErr -> string) (r : Ran) : SSHResult :=
  mkSSH (ranStdout r) (ranStderr r) (ranExit r) (option_map text (ranErr r)).

(** dialBootstrap: the known_hosts file it leaves, and the fingerprint it captured. *)
Definition dialBootstrap (stat_fails : bool) (fault : option Fault) (peer : string -> Peer) (host : string)
    (port : Z) (file : option File) : option File * (string + ClientErr) :=
  let addr := JoinHostPort host port in
  let p := peer addr in
  if negb (answers p) then (file, inr DialFailed)
  else match host_key p with
       | None => (file, inr HandshakeFailed)
       | Some key =>
           let '(file, refused) := TOFU stat_fails fault addr key file in
           match refused with
           | Some err => (file, inr (HostKeyRefused err))
           | None => (file, if auth_ok p then inl (Fingerprint key) else inr AuthFailed)
           end
       end.

End Client.

End SSHClient.
