(* ===== verification/McpTools.v ===== *)
(** * The other tools of the agent (src/mcp/tools)

    request_grant, revoke_grant, list_grants, list_servers and revoke_server, with
    the calls they make.  The signing client, the SSH client and the registry are
    what they answer, as in [McpRun]. *)

From stdpp Require Import sorting.
From S2P Require Import Prelude Base64 Sigwire GoTime SignerDaemon SignerWire McpRegistry McpRun.

Module GrantTools.
Import Daemon Wire Registry Tools.

Inductive GrantErr :=
  | NoServers | NoSign | NoAlias | NotRegistered (alias : string)
  | AllWithCommands | CommandsMissing | CommandEmptyAt (i : nat) | BadScope (scope : string)
  | BadDuration (hours : Z) | NoRandom | Client (err : SignErr).

(** RequestGrantInput *)
Record RequestGrantInput := mkGrantInput {
  giAlias : string; giScope : string; giCommands : list string; giDurationHours : Z; giReason : string
}.

Record RequestGrantOutput := mkGrantOutput {
  goAlias : string; goScope : string; goCommands : list string; goGrantID : string; goExpiryUnix : Z
}.

(** The first empty command. *)
Fixpoint empty_at (i : nat) (cmds : list string) : option nat :=
  match cmds with
  | [] => None
  | c :: cmds => if c =s "" then Some i else empty_at (S i) cmds
  end.

(** The switch over the scope. *)
Definition check_scope (inp : RequestGrantInput) : option GrantErr :=
  if giScope inp =s "all" then
    match giCommands inp with [] => None | _ => Some AllWithCommands end
  else if giScope inp =s "commands" then
    match giCommands inp with
    | [] => Some CommandsMissing
    | cmds => option_map CommandEmptyAt (empty_at 0 cmds)
    end
  else Some (BadScope (giScope inp)).

(** RequestGrant: what it asks the signer, and its result. *)
Definition RequestGrant (servers : option (string -> option Entry))
    (sign : option (grantRequest -> (string * Z) + SignErr)) (rnd : option (list ascii))
    (inp : RequestGrantInput) : list grantRequest * (RequestGrantOutput + GrantErr) :=
  match servers, sign with
  | None, _ => ([], inr NoServers)
  | _, None => ([], inr NoSign)
  | Some get, Some sign =>
      if giAlias inp =s "" then ([], inr NoAlias)
      else match get (giAlias inp), check_scope inp with
           | None, _ => ([], inr (NotRegistered (giAlias inp)))
           | Some _, Some err => ([], inr err)
           | Some _, None =>
               if (giDurationHours inp <? 1)%Z || (24 <? giDurationHours inp)%Z
               then ([], inr (BadDuration (giDurationHours inp)))
               else match newRequestID rnd with
                    | None => ([], inr NoRandom)
                    | Some id =>
                        let req := mkGrantReq id (giAlias inp) (giScope inp) (giCommands inp)
                                     (giDurationHours inp * 3600) in
                        ([req],
                         match sign req with
                         | inr err => inr (Client err)
                         | inl (gid, expiry) =>
                             inl (mkGrantOutput (giAlias inp) (giScope inp) (giCommands inp) gid expiry)
                         end)
                    end
           end
  end.

(** RevokeGrant: the request sent, whether the grant was revoked, the error. *)
Definition RevokeGrant (sign : option (aliasRequest -> unit + SignErr)) (rnd : option (list ascii))
    (alias : string) : list aliasRequest * ((string * bool) * option GrantErr) :=
  match sign with
  | None => ([], (("", false), Some NoSign))
  | Some sign =>
      if alias =s "" then ([], (("", false), Some NoAlias))
      else match newRequestID rnd with
           | None => ([], ((alias, false), Some NoRandom))
           | Some id =>
               let req := mkAliasReq id alias in
               ([req], match sign req with
                       | inr err => ((alias, false), Some (Client err))
                       | inl _ => ((alias, true), None)
                       end)
           end
  end.

(** ListGrants *)
Definition ListGrants (sign : option (aliasRequest -> list grantInfo + SignErr)) (rnd : option (list ascii))
    (alias : string) : list aliasRequest * (list grantInfo + GrantErr) :=
  match sign with
  | None => ([], inr NoSign)
  | Some sign =>
      match newRequestID rnd with
      | None => ([], inr NoRandom)
      | Some id =>
          let req := mkAliasReq id alias in
          ([req], match sign req with inr err => inr (Client err) | inl grants => inl grants end)
      end
  end.

(** ServerInfo; last_seen is never set. *)
Record ServerInfo := mkServerInfo {
  siAlias : string; siHost : string; siPort : Z; siUser : string; siAddedAt : string; siLastSeen : string
}.

(** ListServers, on what the registry lists: the rows and their number. *)
Definition ListServers (listed : option (gmap string Entry)) : option (list ServerInfo * nat) :=
  match listed with
  | None => None
  | Some raw =>
      let rows := map (fun kv => mkServerInfo kv.1 (Host kv.2) (Port kv.2) (User kv.2)
                                   (GoTime.RFC3339 (AddedAt kv.2)) "")
                    (merge_sort key_le (map_to_list raw)) in
      Some (rows, List.length rows)
  end.

End GrantTools.

Module ServerTools.
Import Daemon Wire Registry Tools.

(** RevokeServerOutput *)
Record RevokeServerOutput := mkRevoked {
  rvAlias : string; RemoteCleaned : bool; RegistryRemoved : bool; Message : string
}.

Definition RevokeTTLSec : Z := 60.
Definition revokeStdoutMarker : string := "SSHGATE_REVOKED".

Inductive RevokeErr :=
  | RServersNil | RSignNil | RSSHNil | RAliasEmpty | RUnknownAlias (alias : string) | RNoRandom
  | RSign (err : SignErr) | RMismatch (got : nat) | RSSH (err : string)
  | NotConfirmed (stdout stderr : string) (exit : Z) | RRemove (err : UpdateErr).

(** RevokeServer: the calls it made, the alias it removed from the registry, if it
    came to that, and its result; [remove] is the registry's Remove. *)
Definition RevokeServer (r : Runner) (remove : string -> option UpdateErr) (alias : string)
    : list Call * option string * (RevokeServerOutput * option RevokeErr) :=
  let fails a err := ([], None, (mkRevoked a false false "", Some err)) in
  match Servers r, SignC r, SSH r with
  | None, _, _ => fails "" RServersNil
  | _, None, _ => fails "" RSignNil
  | _, _, None => fails "" RSSHNil
  | Some get, Some sign, Some ssh =>
      if alias =s "" then fails "" RAliasEmpty
      else match get alias with
           | None => fails "" (RUnknownAlias alias)
           | Some e =>
               match newRequestID (request_random r) with
               | None => fails alias RNoRandom
               | Some id =>
                   let cmds := [mkCmd alias "SSHGATE_REVOKE" RevokeTTLSec (Fingerprint e) false ""] in
                   let asked := SignCall id cmds in
                   let failed calls err := (calls, None, (mkRevoked alias false false "", Some err)) in
                   match sign id cmds with
                   | inr err => failed [asked] (RSign err)
                   | inl res =>
                       match Signed res with
                       | [s] =>
                           let '(call, out) := send ssh [asked] e (scSig s +:+ " SSHGATE_REVOKE") in
                           match sshErr out with
                           | Some err => failed [asked; call] (RSSH err)
                           | None =>
                               if negb (GoStr.Contains (sshStdout out) revokeStdoutMarker) then
                                 failed [asked; call]
                                   (NotConfirmed (GoStr.TrimSpace (sshStdout out))
                                      (GoStr.TrimSpace (sshStderr out)) (sshExit out))
                               else
                                 let message := GoStr.TrimSpace (sshStdout out) in
                                 ([asked; call], Some alias,
                                  match remove alias with
                                  | Some err => (mkRevoked alias true false message, Some (RRemove err))
                                  | None => (mkRevoked alias true true message, None)
                                  end)
                           end
                       | sigs => failed [asked] (RMismatch (List.length sigs))
                       end
                   end
               end
           end
  end.

End ServerTools.
