(* ===== verification/McpLive.v ===== *)
(** * The live log and the tool handlers
    (src/mcp/livelog, src/mcp/server.go)

    What the MCP server makes of each tool call: the entries it appends to the
    rolling live log and the text it shows.  The log's file is its bytes; the
    steps of the file system that may fail are given at each call.  The JSON-RPC
    library, which reads the calls and writes the results, is not modelled. *)

From S2P Require Import Prelude Json JsonValue Sigwire GoTime RedactScanner RedactWriter SignerDaemon SignerWire McpRun McpTools.

Module LiveLog.
Import JsonValue Wire.
#[local] Open Scope Z_scope.

(** Entry *)
Record Entry := mkEntry {
  TS : Z; Server : string; Command : string; Classification : string; ExitCode : Z;
  Approved : bool; AuthMode : string; Revealed : bool; Stdout : string; Stderr : string; Seq : Z
}.

Definition set_ts (ts : Z) (e : Entry) : Entry :=
  mkEntry ts (Server e) (Command e) (Classification e) (ExitCode e) (Approved e) (AuthMode e)
    (Revealed e) (Stdout e) (Stderr e) (Seq e).

(** Entry as json.Marshal writes it. *)
Definition entry_value (e : Entry) : value :=
  VObj (member "ts" (vint (TS e)) ++ member "server" (vstr (Server e))
        ++ member "command" (vstr (Command e)) ++ member "classification" (vstr (Classification e))
        ++ member "exit_code" (vint (ExitCode e)) ++ member "approved" (VBool (Approved e))
        ++ omitempty (AuthMode e =s "") "auth_mode" (vstr (AuthMode e))
        ++ omitempty (negb (Revealed e)) "revealed" (VBool (Revealed e))
        ++ omitempty (Stdout e =s "") "stdout" (vstr (Stdout e))
        ++ omitempty (Stderr e =s "") "stderr" (vstr (Stderr e))
        ++ omitempty (Seq e =? 0) "seq" (vint (Seq e))).

(** splitKeepNewline, from the segment collected so far. *)
Fixpoint split_from (segment data : list ascii) : list (list ascii) :=
  match data with
  | [] => match segment with [] => [] | _ => [segment] end
  | c :: data =>
      if c =c NL then (segment ++ [c]) :: split_from [] data else split_from (segment ++ [c]) data
  end.

Definition splitKeepNewline (data : list ascii) : list (list ascii) := split_from [] data.

Definition size (l : list ascii) : Z := Z.of_nat (List.length l).

(** The walk of rollIfNeeded, from the newest line back; [kept] is lines[startIdx:]. *)
Fixpoint walk (capBytes total : Z) (newest_first kept : list (list ascii)) : list (list ascii) :=
  match newest_first with
  | [] => kept
  | l :: older =>
      if (capBytes <? total + size l) && (match kept with [] => false | _ => true end)
      then kept
      else walk capBytes (total + size l) older (l :: kept)
  end.

(** What the file system refuses during one Log: the open; the write, after some
    bytes; and any step of the roll. *)
Record Faults := mkFaults { open_fails : bool; write_stops : option nat; roll_fails : bool }.

(** rollIfNeeded *)
Definition rollIfNeeded (capBytes : Z) (f : Faults) (data : list ascii) : list ascii :=
  if roll_fails f || (size data <=? capBytes) then data
  else List.concat (walk capBytes 0 (rev (splitKeepNewline data)) []).

(** Log; [capBytes] is [None] for a nil log, and [now] what its clock says. *)
Definition Log (capBytes : option Z) (now : Z) (f : Faults) (e : Entry) (file : option (list ascii))
    : option (list ascii) :=
  match capBytes with
  | None => file
  | Some capBytes =>
      if capBytes <=? 0 then file
      else
        let e := if TS e =? 0 then set_ts now e else e in
        let b := line (entry_value e) in
        if open_fails f then file
        else match write_stops f with
             | Some k => Some (default [] file ++ take k b)
             | None => Some (rollIfNeeded capBytes f (default [] file ++ b))
             end
  end.

End LiveLog.

Module Front.
Import Daemon Wire Tools.

(** Server, without its logger: the salt and the rules for commands. *)
Record Server := mkServer { RedactSalt : list ascii; RedactRules : list Scanner.Rule }.

Section Front.
Context `{Hmac}.

(** redactCommand *)
Definition redactCommand (s : Server) (cmd : string) : string :=
  let '(red, ok) := Writer.RedactString cmd (RedactSalt s) (RedactRules s) in
  if negb ok then cmd else red.

Definition newline : string := String NL EmptyString.
Definition show_bool (b : bool) : string := if b then "true" else "false".
Definition show_int (n : Z) : string := GoTime.itoa n.

(** truncate *)
Definition truncate (s : string) (max : nat) : string :=
  if String.length s <=? max then s
  else substring 0 max s +:+ newline +:+ "[...truncated]".

(** formatRunSummary *)
Definition formatRunSummary (out : RunOutput) : string :=
  OutKind out +:+ " exit=" +:+ show_int (ExitCode out)
  +:+ (if OutKind out =s "write" then " approved=" +:+ show_bool (Approved out) else "")
  +:+ (if negb (Stdout out =s "") then newline +:+ "--- stdout ---" +:+ newline +:+ truncate (Stdout out) 2000 else "")
  +:+ (if negb (Stderr out =s "") then newline +:+ "--- stderr ---" +:+ newline +:+ truncate (Stderr out) 2000 else "").

(** The log entry of a single run. *)
Definition run_entry (s : Server) (inp : RunInput) (out : RunOutput) : LiveLog.Entry :=
  let show text := if Revealed out then "" else text in
  LiveLog.mkEntry 0 (Alias inp) (redactCommand s (Cmd inp)) (OutKind out) (ExitCode out)
    (Approved out) (OutAuthMode out) (Revealed out) (show (Stdout out)) (show (Stderr out)) 0.

(** What a handler does: the entries it logs, and the text and result it returns,
    or the error. *)
Definition Handled (A : Type) : Type := list LiveLog.Entry * (string * A + ToolErr).

(** runHandler, on what Run returned. *)
Definition runHandler (s : Server) (inp : RunInput) (ran : Outcome RunOutput) : Handled RunOutput :=
  match ran with
  | (_, (_, Some err)) => ([], inr err)
  | (_, (out, None)) => ([run_entry s inp out], inl (formatRunSummary out, out))
  end.

(** gateDenyNoteFor *)
Definition gateDenyNoteFor (r : CommandResult) : string :=
  if negb (resKind r =s "write") then ""
  else if (resExit r =? 77)%Z then
    "gate denied (exit 77): no signer pubkey (read-only / Tier-1) or missing signature — a human upgrades the tier with /sshgate:setup (if needed) then /sshgate:revoke <alias> and `sshgate add <alias> <user@host>` (without --read-only)."
  else if (resExit r =? 65)%Z then
    "gate rejected the signature (exit 65): expired or invalid — usually clock skew or a stale approval; retry."
  else "".

Fixpoint batch_lines (i : nat) (rs : list CommandResult) : string :=
  match rs with
  | [] => ""
  | r :: rs =>
      newline +:+ "[" +:+ show_int (Z.of_nat i) +:+ "] " +:+ resKind r +:+ " exit=" +:+ show_int (resExit r)
      +:+ (if Skipped r then " (skipped)" else "")
      +:+ (let note := gateDenyNoteFor r in
           if negb (note =s "") then newline +:+ "     " +:+ note else "")
      +:+ batch_lines (S i) rs
  end.

(** formatRunBatchSummary *)
Definition formatRunBatchSummary (out : RunBatchOutput) : string :=
  if Denied out then "batch denied (" +:+ BatchReason out +:+ ") on " +:+ BatchServer out
  else "batch on " +:+ BatchServer out +:+ ": " +:+ show_int (Z.of_nat (List.length (Results out)))
       +:+ " command(s), approved=" +:+ show_bool (BatchApproved out) +:+ batch_lines 0 (Results out).

(** The log entry of one result of a batch. *)
Definition batch_entry_of (s : Server) (out : RunBatchOutput) (r : CommandResult) : LiveLog.Entry :=
  let show text := if resRevealed r then "" else text in
  let write := resKind r =s "write" in
  LiveLog.mkEntry 0 (BatchServer out) (redactCommand s (resCommand r)) (resKind r) (resExit r)
    (BatchApproved out && write) (if write then BatchAuthMode out else "") (resRevealed r)
    (show (resStdout r)) (show (resStderr r)) 0.

(** runBatchHandler, on what RunBatch returned. *)
Definition runBatchHandler (s : Server) (ran : Outcome RunBatchOutput) : Handled RunBatchOutput :=
  match ran with
  | (_, (_, Some err)) => ([], inr err)
  | (_, (out, None)) =>
      (map (batch_entry_of s out) (List.filter (fun r => negb (Skipped r)) (Results out)),
       inl (formatRunBatchSummary out, out))
  end.

(** ** The other tools' texts *)

(** formatRevokeServerSummary *)
Definition formatRevokeServerSummary (out : ServerTools.RevokeServerOutput) : string :=
  "revoked " +:+ ServerTools.rvAlias out +:+ ": remote_cleaned=" +:+ show_bool (ServerTools.RemoteCleaned out)
  +:+ " registry_removed=" +:+ show_bool (ServerTools.RegistryRemoved out)
  +:+ (if negb (ServerTools.Message out =s "") then newline +:+ "gate: " +:+ ServerTools.Message out else "").

Definition command_list (indent : string) (cmds : list string) : string :=
  fold_right (fun c text => newline +:+ indent +:+ "- " +:+ c +:+ text) "" cmds.

(** formatRequestGrantSummary *)
Definition formatRequestGrantSummary (out : GrantTools.RequestGrantOutput) : string :=
  "standing grant minted on " +:+ GrantTools.goAlias out +:+ ": scope=" +:+ GrantTools.goScope out
  +:+ " grant_id=" +:+ GrantTools.goGrantID out
  +:+ (if GrantTools.goScope out =s "commands" then command_list "  " (GrantTools.goCommands out) else "")
  +:+ newline +:+ "expires_unix=" +:+ show_int (GrantTools.goExpiryUnix out)
  +:+ " (auto-signs matching writes until then; dies on signer restart)".

(** formatListGrantsSummary *)
Definition formatListGrantsSummary (grants : list grantInfo) : string :=
  match grants with
  | [] => "no live standing grants"
  | _ =>
      show_int (Z.of_nat (List.length grants)) +:+ " live grant(s):"
      +:+ fold_right (fun g text =>
            newline +:+ "  " +:+ iAlias g +:+ "  scope=" +:+ iScope g +:+ " grant_id=" +:+ iID g
            +:+ " expires_unix=" +:+ show_int (iExpiry g)
            +:+ (if iScope g =s "commands" then command_list "    " (iCommands g) else "") +:+ text) "" grants
  end.

(** formatListServersSummary *)
Definition formatListServersSummary (listed : list GrantTools.ServerInfo * nat) : string :=
  let '(rows, total) := listed in
  if (total =? 0) then "no registered servers"
  else show_int (Z.of_nat total) +:+ " server(s):"
       +:+ fold_right (fun s text =>
             newline +:+ "  " +:+ GrantTools.siAlias s +:+ "  " +:+ GrantTools.siUser s +:+ "@"
             +:+ GrantTools.siHost s +:+ ":" +:+ show_int (GrantTools.siPort s) +:+ text) "" rows.

End Front.

End Front.
