(* ===== verification/McpLiveProps.v ===== *)
(** * What the live log keeps and shows

    The rolling file is the newest part of the history that fits, whatever the
    file system refuses short of tearing a write; no output of a reveal reaches
    it; and it has one entry for each command of a batch that was sent. *)

From S2P Require Import Prelude Json JsonProps JsonValue JsonValueProps ClassifyArgs Classify Sigwire RedactScanner RedactWriter SignerDaemon SignerDaemonProps SignerWire McpRegistry McpRun McpRunProps McpTools McpLive.
Import JsonValue Daemon Wire Registry Tools.
#[local] Open Scope Z_scope.

(** ** Lines *)

(** A record of the file: one line with its newline. *)
Definition record (l : list ascii) : Prop := exists r, no_newline r /\ l = r ++ [NL].

Lemma split_one_line r : forall segment rest,
  no_newline r ->
  LiveLog.split_from segment (r ++ NL :: rest) = (segment ++ r ++ [NL]) :: LiveLog.split_from [] rest.
Proof.
  induction r as [|c r IH]; intros segment rest Hr; cbn [app LiveLog.split_from].
  - by rewrite Ascii.eqb_refl.
  - inversion Hr as [|? ? Hc Hr']; subst. rewrite (proj2 (Ascii.eqb_neq c NL)) by done.
    rewrite IH by done. by rewrite <- !app_assoc.
Qed.

Lemma split_records ls : Forall record ls -> LiveLog.splitKeepNewline (List.concat ls) = ls.
Proof.
  induction 1 as [|l ls (r & Hr & ->) _ IH]; [done|]. cbn [List.concat]. unfold LiveLog.splitKeepNewline in *.
  rewrite <- app_assoc. cbn [app]. by rewrite split_one_line, IH.
Qed.

Lemma entry_integral e : integral (LiveLog.entry_value e).
Proof.
  apply foldr_and. unfold LiveLog.entry_value, omitempty.
  repeat case_match; cbn [member app]; repeat (constructor; [try done; by eexists|]); constructor.
Qed.

Lemma entry_record e : record (line (LiveLog.entry_value e)).
Proof. eexists. split; [|done]. apply write_value_no_newline, entry_integral. Qed.

(** ** The walk back from the newest line *)

Lemma size_app a b : LiveLog.size (a ++ b) = LiveLog.size a + LiveLog.size b.
Proof. unfold LiveLog.size. rewrite length_app. lia. Qed.

Lemma size_nonneg l : 0 <= LiveLog.size l.
Proof. unfold LiveLog.size. lia. Qed.

(** [ks] are the newest lines of [history], at least one, and the line before them
    would not have fitted. *)
Record newest (cap : Z) (history ks : list (list ascii)) : Prop := {
  newest_suffix : exists old, history = old ++ ks;
  newest_some : history <> [] -> ks <> [];
  newest_full old l : history = (old ++ [l]) ++ ks -> cap < LiveLog.size (List.concat (l :: ks))
}.

(** They fit, but for a single line that does not. *)
Definition fits (cap : Z) (ks : list (list ascii)) : Prop :=
  LiveLog.size (List.concat ks) <= cap \/ exists l, ks = [l].

Lemma walk_newest cap older : forall kept,
  (kept <> [] -> fits cap kept) ->
  let ks := LiveLog.walk cap (LiveLog.size (List.concat kept)) older kept in
  newest cap (rev older ++ kept) ks /\ (ks <> [] -> fits cap ks).
Proof.
  induction older as [|l older IH]; intros kept Hk; cbn [LiveLog.walk rev].
  - split; [|done]. split; [by exists []|done|]. intros old l Hl. exfalso.
    apply (f_equal List.length) in Hl. rewrite !length_app in Hl. cbn in Hl. lia.
  - destruct (_ && _) eqn:E.
    + apply andb_prop in E as [E1 E2]. split; [|done]. split; [by eexists| |].
      * intros _ ->. done.
      * intros old l' Hl. apply app_inv_tail, app_inj_tail in Hl as [_ <-].
        cbn [List.concat]. rewrite size_app. lia.
    + rewrite <- app_assoc. cbn [app]. specialize (IH (l :: kept)). cbn [List.concat] in IH.
      rewrite size_app, Z.add_comm in IH. apply IH. intros _. destruct kept as [|k kept].
      * right. by exists l.
      * left. cbn [List.concat]. rewrite !size_app. cbn [List.concat] in E. rewrite size_app in E. lia.
Qed.

(** A longer history only moves the old end. *)
Lemma newest_grow cap history ks more ks' :
  newest cap history ks -> newest cap (ks ++ more) ks' -> newest cap (history ++ more) ks'.
Proof.
  intros [[old ->] Hne Hfull] [[old' Hold'] Hne' Hfull']. split.
  - exists (old ++ old'). by rewrite <- app_assoc, Hold', app_assoc.
  - intros Hh. apply Hne'. intros [-> ->]%app_eq_nil. rewrite !app_nil_r in *. by apply Hne in Hh.
  - intros o l Hl. destruct (decide (old' = [])) as [->|Hold].
    + cbn [app] in Hold'. subst ks'. rewrite app_assoc in Hl. apply app_inv_tail in Hl.
      apply Z.lt_le_trans with (LiveLog.size (List.concat (l :: ks))); [by apply (Hfull o)|].
      cbn [List.concat]. rewrite !size_app, concat_app, size_app.
      pose proof (size_nonneg (List.concat more)). lia.
    + destruct (exists_last Hold) as (old'' & x & ->).
      rewrite <- (app_assoc old), Hold', (app_assoc old) in Hl. apply app_inv_tail in Hl.
      rewrite app_assoc in Hl. apply app_inj_tail in Hl as [_ <-]. by apply (Hfull' old'').
Qed.

(** The whole of a history is the newest of it. *)
Lemma newest_all cap ks : newest cap ks ks.
Proof.
  split; [by exists []|done|]. intros old l Hl. exfalso.
  apply (f_equal List.length) in Hl. rewrite !length_app in Hl. cbn in Hl. lia.
Qed.

Lemma roll_newest cap f ks :
  Forall record ks -> exists ks',
    LiveLog.rollIfNeeded cap f (List.concat ks) = List.concat ks' /\ newest cap ks ks'
    /\ (LiveLog.roll_fails f = false -> ks' <> [] -> fits cap ks').
Proof.
  intros Hr. unfold LiveLog.rollIfNeeded. destruct (LiveLog.roll_fails f); cbn [orb].
  { exists ks. split; [done|]. split; [apply newest_all|done]. }
  destruct (_ <=? _) eqn:E.
  - exists ks. split; [done|]. split; [apply newest_all|]. left. lia.
  - rewrite split_records by done. eexists. split; [done|].
    pose proof (walk_newest cap (rev ks) []) as H. cbn in H. rewrite rev_involutive, app_nil_r in H.
    destruct H as [H1 H2]; [done|]. by split.
Qed.

(** ** A run of the log *)

(** One call: the clock, what the file system refuses, the entry. *)
Definition call : Type := Z * LiveLog.Faults * LiveLog.Entry.

Definition log_one (cap : Z) (file : option (list ascii)) (c : call) : option (list ascii) :=
  let '(now, f, e) := c in LiveLog.Log (Some cap) now f e file.

(** The line a call writes, unless the file cannot be opened. *)
Definition written (c : call) : list (list ascii) :=
  let '(now, f, e) := c in
  if LiveLog.open_fails f then []
  else [line (LiveLog.entry_value (if LiveLog.TS e =? 0 then LiveLog.set_ts now e else e))].

(** The write itself is whole. *)
Definition untorn (c : call) : Prop := let '(_, f, _) := c in LiveLog.write_stops f = None.

Definition rolled (c : call) : Prop :=
  let '(_, f, _) := c in LiveLog.open_fails f = false /\ LiveLog.roll_fails f = false.

Lemma written_records c : Forall record (written c).
Proof.
  destruct c as [[now f] e]. unfold written. destruct (LiveLog.open_fails f); [done|].
  constructor; [apply entry_record|done].
Qed.

Lemma newest_records cap history ks : Forall record history -> newest cap history ks -> Forall record ks.
Proof. intros Hr [[old ->] _ _]. by apply Forall_app in Hr as [_ ?]. Qed.

Lemma concat_snoc {A} (ks : list (list A)) b : List.concat ks ++ b = List.concat (ks ++ [b]).
Proof. rewrite concat_app. cbn. by rewrite app_nil_r. Qed.

Lemma log_one_newest cap history ks c :
  0 < cap -> untorn c -> Forall record history -> newest cap history ks ->
  exists ks', default [] (log_one cap (Some (List.concat ks)) c) = List.concat ks'
    /\ newest cap (history ++ written c) ks' /\ (rolled c -> fits cap ks').
Proof.
  intros Hc Hu Hr Hn. pose proof (written_records c) as Hw. pose proof (newest_records _ _ _ Hr Hn) as Hk.
  destruct c as [[now f] e]. unfold log_one, LiveLog.Log, written, untorn, rolled in *.
  replace (cap <=? 0) with false by lia. destruct (LiveLog.open_fails f).
  { exists ks. rewrite app_nil_r. split; [done|]. split; [done|]. by intros [? _]. }
  rewrite Hu. set (b := line _) in *. clearbody b. cbn [from_option]. unfold Datatypes.id. rewrite concat_snoc.
  destruct (roll_newest cap f (ks ++ [b])) as (ks' & Heq & Hn' & Hf); [by apply Forall_app|].
  exists ks'. split; [done|]. split; [by apply newest_grow with ks|].
  intros [_ Hroll]. apply Hf; [done|]. apply Hn'. by destruct ks.
Qed.

Lemma log_nofile cap c : default [] (log_one cap None c) = default [] (log_one cap (Some []) c).
Proof.
  destruct c as [[now f] e]. unfold log_one, LiveLog.Log. destruct (cap <=? 0); [done|].
  destruct (LiveLog.open_fails f); [done|]. by destruct (LiveLog.write_stops f).
Qed.

Lemma log_default cap file c : default [] (log_one cap file c) = default [] (log_one cap (Some (default [] file)) c).
Proof. destruct file; [done|]. apply log_nofile. Qed.

(** C24: The live log is its abstract buffer.  From a file of complete records, or
    none, and whatever calls follow, of which the file system may refuse the open
    or the roll but tears no write, the file is the newest of all the records ever
    written: whole records, in order, the last one always there, and none dropped
    that would still have fitted under the cap; and when the last call could roll,
    they fit, unless one record alone is over the cap. *)
Theorem live_log_rolls (cap : Z) (start : list (list ascii)) (file : option (list ascii)) (calls : list call)
    (Hcap : 0 < cap) (Hstart : Forall record start) (Hfile : default [] file = List.concat start)
    (Hu : Forall untorn calls) :
  exists ks, default [] (foldl (log_one cap) file calls) = List.concat ks
    /\ newest cap (start ++ List.concat (map written calls)) ks
    /\ (forall c before, calls = before ++ [c] -> rolled c -> fits cap ks).
Proof.
  induction calls as [|c calls IH] using rev_ind.
  - exists start. cbn. rewrite app_nil_r. split; [done|]. split; [apply newest_all|]. by intros c [].
  - apply Forall_app in Hu as [Hu Hc]. destruct (IH Hu) as (ks & Hks & Hn & _).
    rewrite foldl_app. cbn [foldl]. rewrite log_default, Hks.
    destruct (log_one_newest cap (start ++ List.concat (map written calls)) ks c) as (ks' & Heq & Hn' & Hf);
      [done|by inversion Hc| |done|].
    { apply Forall_app. split; [done|]. apply Forall_concat, Forall_map, Forall_forall. intros. apply written_records. }
    exists ks'. split; [done|]. rewrite map_app, concat_app, app_assoc. cbn [map List.concat]. rewrite app_nil_r.
    split; [done|]. intros c' before [_ <-]%app_inj_tail. done.
Qed.

(** A write that stops short of its newline spoils the next record too: the two
    become one line. *)
Lemma torn_write_joins cap now f e next (k : nat) start :
  0 < cap -> LiveLog.open_fails f = false -> LiveLog.write_stops f = Some k ->
  LiveLog.TS e <> 0 -> (k < List.length (line (LiveLog.entry_value e)))%nat -> Forall record start -> record next ->
  exists file, LiveLog.Log (Some cap) now f e (Some (List.concat start)) = Some file
    /\ LiveLog.splitKeepNewline (file ++ next)
       = start ++ [take k (line (LiveLog.entry_value e)) ++ next].
Proof.
  intros Hc Ho Hw Ht Hk Hs (r & Hr & ->). unfold LiveLog.Log.
  replace (cap <=? 0) with false by lia. replace (LiveLog.TS e =? 0) with false by lia.
  rewrite Ho, Hw. eexists. split; [done|]. cbn [from_option]. unfold Datatypes.id.
  unfold line in *. rewrite length_app in Hk. cbn [List.length] in Hk.
  rewrite take_app_le by lia. set (v := write_value _) in *.
  replace ((List.concat start ++ take k v) ++ r ++ [NL])
    with (List.concat (start ++ [take k v ++ r ++ [NL]])) by (rewrite <- concat_snoc, <- app_assoc; done).
  apply split_records, Forall_app. split; [done|]. constructor; [|done].
  exists (take k v ++ r). rewrite <- app_assoc. split; [|done]. apply no_newline_app; [|done].
  apply Forall_take, write_value_no_newline, entry_integral.
Qed.

(** ** What a run leaves in the log *)

(** The same server, whose SSH client answers by [ssh]. *)
Definition with_ssh (r : Runner) (ssh : list Call -> string -> string -> Z -> string -> SSHResult) : Runner :=
  mkRunner (Servers r) (SignC r) (Some ssh) (KeyPath r) (key_absent r) (WriteTTLSec r)
    (SignerSockPath r) (sock_stat_ok r) (request_random r).

(** Two SSH clients that differ only in the text of the output. *)
Definition same_but_text (f g : list Call -> string -> string -> Z -> string -> SSHResult) : Prop :=
  forall before h u p c, sshExit (f before h u p c) = sshExit (g before h u p c)
    /\ sshErr (f before h u p c) = sshErr (g before h u p c).

(** Two outcomes that show the same but for output that was revealed. *)
Definition same_shown {A B} (a b : list Call * (RunOutput * option ToolErr))
    (handle : Outcome RunOutput -> list A * (B + ToolErr)) : Prop :=
  a.1 = b.1 /\ (handle a).1 = (handle b).1 /\ a.2.2 = b.2.2.

Section Entries.
Context `{Hmac}.
Variable s : Front.Server.
Variable inp : RunInput.

Lemma signed_same r f g e asked answer :
  same_but_text f g ->
  same_shown (runSigned (with_ssh r f) f e (Cmd inp) true asked answer)
    (runSigned (with_ssh r g) g e (Cmd inp) true asked answer) (Front.runHandler s inp).
Proof.
  intros Hfg. unfold same_shown, runSigned, send. destruct answer as [[sigs mode]|err]; [|done]. cbn [Signed].
  destruct sigs as [|sg [|]]; [done| |done].
  pose proof (Hfg [asked] (Host e) (User e) (Port e) (scSig sg +:+ " " +:+ Cmd inp)) as Hxe. revert Hxe.
  generalize (f [asked] (Host e) (User e) (Port e) (scSig sg +:+ " " +:+ Cmd inp)),
    (g [asked] (Host e) (User e) (Port e) (scSig sg +:+ " " +:+ Cmd inp)).
  intros [o1 o2 ox oe] [o1' o2' ox' oe'] [[= <-] [= <-]]. cbn [fst snd sshExit sshErr].
  split; [done|]. split; [|done]. unfold Front.runHandler. destruct oe; [done|]. by destruct (negb _).
Qed.

Lemma reveal_same (r : Runner) f g :
  Reveal inp = true -> same_but_text f g ->
  same_shown (Run (with_ssh r f) inp) (Run (with_ssh r g) inp) (Front.runHandler s inp).
Proof.
  intros Hr Hfg.
  unfold Run. cbn [Servers SignC SSH with_ssh]. destruct (Servers r) as [get|]; [|done].
  destruct (SignC r) as [sign|]; [|done]. destruct (_ =s ""); [done|]. destruct (_ =s ""); [done|].
  destruct (get _) as [e|]; [|done]. unfold runEntry. rewrite Hr. destruct (_ =s ""); [done|].
  unfold runWrite. destruct (ReadOnly e); [done|]. unfold checkKeyReady. cbn [KeyPath key_absent with_ssh].
  destruct (KeyPath r =s ""), (key_absent r); try done; cbn [request_random with_ssh];
    destruct (newRequestID _); try done; by apply signed_same.
Qed.

(** Every record of a reveal says so, and holds no output. *)
Lemma reveal_recorded (r : Runner) e :
  Reveal inp = true -> In e (Front.runHandler s inp (Run r inp)).1 ->
  LiveLog.Revealed e = true /\ LiveLog.Stdout e = "" /\ LiveLog.Stderr e = ""
  /\ LiveLog.Command e = Front.redactCommand s (Cmd inp) /\ LiveLog.Approved e = true.
Proof.
  intros Hr. pose proof (run_sends r inp) as Ho. revert Ho. set (o := Run r inp). clearbody o.
  destruct 1; cbn [Front.runHandler fst]; try done.
  - congruence.
  - subst res. destruct err; [done|]. intros [<-|[]]. unfold Front.run_entry. cbn. by rewrite Hr.
Qed.

(** C22: What a reveal shows stays out of the log: on two servers that answer with
    the same exit codes and errors and any output whatever, a reveal makes the same
    calls, fails the same way and leaves the same records in the live log; and every
    record it leaves is marked as a reveal of an approved write, with the command
    redacted and no output. *)
Theorem reveal_not_logged (r : Runner) (f g : list Call -> string -> string -> Z -> string -> SSHResult)
    (Hr : Reveal inp = true) (Hfg : same_but_text f g) :
  same_shown (Run (with_ssh r f) inp) (Run (with_ssh r g) inp) (Front.runHandler s inp)
  /\ forall e, In e (Front.runHandler s inp (Run (with_ssh r f) inp)).1 ->
       LiveLog.Revealed e = true /\ LiveLog.Stdout e = "" /\ LiveLog.Stderr e = ""
       /\ LiveLog.Command e = Front.redactCommand s (Cmd inp) /\ LiveLog.Approved e = true.
Proof. split; [by apply reveal_same|]. intros e. by apply reveal_recorded. Qed.

(** A signed command that itself exits 77 or 65 has run, and is reported as denied
    by the gate; its output is dropped and the log has no record of it. *)
Lemma executed_reported_denied (r : Runner) get sign ssh e id sg mode :
  Servers r = Some get -> SignC r = Some sign -> SSH r = Some ssh -> get (Alias inp) = Some e ->
  Alias inp <> "" -> GoStr.TrimSpace (Cmd inp) <> "" -> Classify (Cmd inp) = KindWrite ->
  Reveal inp = false -> ReadOnly e = false -> checkKeyReady r = None ->
  newRequestID (request_random r) = Some id ->
  sign id [request_for r inp e] = inl (mkSignResult [sg] mode) ->
  (let res := ssh [SignCall id [request_for r inp e]] (Host e) (User e) (Port e) (with_sig sg (Cmd inp)) in
   sshErr res = None -> sshExit res = 77 \/ sshExit res = 65 ->
   (Run r inp).1 = [SignCall id [request_for r inp e]; to_server e (with_sig sg (Cmd inp))]
   /\ exists note, Front.runHandler s inp (Run r inp) = ([], inr (GateDenied note))).
Proof.
  intros Hg Hs Hh He Ha Hc Hk Hr Hro Hkey Hid Hsign res Herr Hx.
  assert (Run r inp = runSigned r ssh e (Cmd inp) false (SignCall id [request_for r inp e])
            (inl (mkSignResult [sg] mode))) as ->.
  { unfold Run. rewrite Hg, Hs, Hh, He. apply String.eqb_neq in Ha, Hc. rewrite Ha, Hc.
    unfold runEntry. rewrite Hr, Hk. unfold runWrite. rewrite Hro, Hkey, Hid.
    unfold request_for in *. rewrite Hr in *. by rewrite Hsign. }
  unfold runSigned, send. cbn [Signed]. fold (with_sig sg (Cmd inp)). fold res. rewrite Herr. split; [done|].
  exists (gateDenyNote (sshExit res)). unfold Front.runHandler.
  by destruct Hx as [-> | ->].
Qed.

(** ** The records of a batch *)

Lemma filter_skipped k : forall results,
  (forall i r, results !! i = Some r -> Skipped r = bool_decide (k <= i)%nat) ->
  List.filter (fun r => negb (Skipped r)) results = take k results.
Proof.
  induction k as [|k IH]; intros [|r results] Hr; [done| |done|].
  - cbn [List.filter]. rewrite (Hr 0%nat r eq_refl). cbn [bool_decide decide_rel negb take].
    induction results as [|r' results IHr]; [done|]. cbn [List.filter].
    rewrite (Hr 1%nat r' eq_refl). cbn. apply IHr. intros [|i] x Hx; [by apply (Hr 0%nat)|].
    rewrite (Hr (S (S i)) x Hx). by case_bool_decide.
  - cbn [List.filter take]. rewrite (Hr 0%nat r eq_refl). rewrite bool_decide_false by lia. cbn [negb].
    f_equal. apply IH. intros i x Hx. rewrite (Hr (S i) x Hx). apply bool_decide_ext. lia.
Qed.

(** The record of the command [c]. *)
Definition records (c : string) (e : LiveLog.Entry) : Prop :=
  LiveLog.Command e = Front.redactCommand s c /\ LiveLog.Classification e = kindLabel (Classify c)
  /\ LiveLog.Approved e = is_write c /\ LiveLog.Revealed e = false
  /\ (LiveLog.AuthMode e <> "" -> is_write c = true).

Lemma batch_entry_records out c a :
  BatchApproved out = true \/ is_write c = false ->
  records c (Front.batch_entry_of s out (command_result c a)).
Proof.
  intros Ha. unfold records, Front.batch_entry_of, is_write in *. cbn.
  destruct (Classify c); cbn in *; rewrite ?andb_false_r, ?andb_true_r; split_and!; try done.
  by destruct Ha as [-> | ?].
Qed.

Lemma ran_kept ssh e stop before cmds ws calls results n :
  List.length ws = List.length cmds -> batch_ran ssh e stop before cmds ws calls results None n ->
  List.length (lines_sent calls) = n
  /\ Forall2 (fun c r => In c cmds /\ exists a, r = command_result c a) (take n cmds)
       (List.filter (fun r => negb (Skipped r)) results).
Proof.
  intros Hws [Hp -> Hl Hres Hrest _ _ _].
  assert (forall k c, (k < n)%nat -> cmds !! k = Some c -> exists a, results !! k = Some (command_result c a)) as Hat.
  { intros k c Hk Hc. destruct (ws !! k) as [w|] eqn:Hw.
    - eexists. eapply Hres; [done|done|]. unfold answer. by rewrite Hw.
    - apply lookup_ge_None in Hw. lia. }
  split; [rewrite lines_sent_map, length_take; lia|]. rewrite (filter_skipped n).
  - apply Forall2_same_length_lookup. split; [rewrite !length_take; lia|].
    intros k c r [Hc Hk]%lookup_take_Some [Hr _]%lookup_take_Some.
    split; [by eapply list_elem_of_In, list_elem_of_lookup_2|].
    destruct (Hat k c Hk Hc) as [a Ha]. exists a. by simplify_eq.
  - intros k r Hr. case_bool_decide as Hk; [by eapply Hrest|].
    destruct (lookup_lt_is_Some_2 cmds k) as [c Hc]; [lia|].
    destruct (Hat k c) as [a Ha]; [lia|done|]. by simplify_eq.
Qed.

(** A batch that returns leaves one record for each command that was sent, in
    the order sent, and none for a command that was skipped: the command itself,
    redacted, with its class, and as approved (and with the way it was approved)
    exactly when it is a write. *)
Theorem batch_logged (r : Runner) (binp : RunBatchInput) shown
    (Hret : (Front.runBatchHandler s (RunBatch r binp)).2 = inl shown) :
  let sent := lines_sent (RunBatch r binp).1 in
  Forall2 records (take (List.length sent) (Commands binp))
    (Front.runBatchHandler s (RunBatch r binp)).1.
Proof.
  pose proof (RunBatch_outcome r binp) as Ho. revert Hret Ho. generalize (RunBatch r binp). intros o Hret Ho.
  destruct Ho as [out err Hout _ _|get sign e id out err _ _ _ cmds _ _ _ Hout _ _
                 |get sign ssh e asked sigs mode calls results err n _ _ _ _ cmds Hasked Hran];
    destruct err as [?|]; cbn [Front.runBatchHandler fst snd] in *; try done.
  1,2: by rewrite Hout.
  apply ran_kept in Hran as [Hn Hkept]; [|apply forms_length]. cbn [Results].
  assert (lines_sent (asked ++ calls) = lines_sent calls) as ->.
  { by destruct Hasked as [(_ & -> & _)|(id & _ & _ & -> & _)]. }
  rewrite Hn. clear Hret Hasked. apply Forall2_fmap_r. eapply Forall2_impl; [exact Hkept|].
  intros c res [Hc [a ->]]. apply batch_entry_records. cbn [BatchApproved].
  destruct cmds as [|w cmds'] eqn:Ec; [right|by left]. apply map_eq_nil in Ec.
  destruct (is_write c) eqn:Hw; [|done]. exfalso.
  eapply (in_nil (a := c)). rewrite <- Ec. by apply filter_In.
Qed.

End Entries.

(** ** Witnesses *)

#[local] Instance live_hmac : Hmac := {| mac salt s := s ++ salt |}.

Definition sample_call (now : Z) (roll_fails : bool) (cmd : string) : call :=
  (now, LiveLog.mkFaults false None roll_fails,
   LiveLog.mkEntry 0 "web" cmd "read" 0 false "" false "x" "" 0).

Definition sample_calls : list call :=
  [sample_call 1 true "uptime"; sample_call 2 false "df"; sample_call 3 false "free"].

(** Three records under a cap for two, after one old line. *)
Lemma live_log_rolls_witness :
  exists ks, default [] (foldl (log_one 220) (Some (bytes "old" ++ [NL])) sample_calls) = List.concat ks
    /\ newest 220 ([bytes "old" ++ [NL]] ++ List.concat (map written sample_calls)) ks
    /\ fits 220 ks.
Proof.
  destruct (live_log_rolls 220 [bytes "old" ++ [NL]] (Some (bytes "old" ++ [NL])) sample_calls)
    as (ks & Hks & Hn & Hf).
  - lia.
  - repeat constructor. exists (bytes "old"). split; [|done]. repeat (constructor; [discriminate|]). constructor.
  - reflexivity.
  - repeat constructor.
  - exists ks. split; [exact Hks|]. split; [exact Hn|].
    apply (Hf (sample_call 3 false "free") [sample_call 1 true "uptime"; sample_call 2 false "df"]); [done|].
    split; reflexivity.
Defined.

Definition sample_front : Front.Server := Front.mkServer [] [].
Definition says (text : string) : list Call -> string -> string -> Z -> string -> SSHResult :=
  fun _ _ _ _ _ => mkSSH text "" 0 None.
Definition sample_reveal : RunInput := mkInput "web" "cat /etc/app.key" true "rotate the key".

Lemma reveal_not_logged_witness :
  same_shown (Run (with_ssh sample_runner (says "k3y")) sample_reveal)
    (Run (with_ssh sample_runner (says "")) sample_reveal) (Front.runHandler sample_front sample_reveal)
  /\ exists e, (Front.runHandler sample_front sample_reveal
                  (Run (with_ssh sample_runner (says "k3y")) sample_reveal)).1 = [e]
       /\ LiveLog.Revealed e = true /\ LiveLog.Stdout e = "".
Proof.
  destruct (reveal_not_logged sample_front sample_reveal sample_runner (says "k3y") (says ""))
    as [Hs He]; [reflexivity|done|].
  split; [exact Hs|].
  destruct (Front.runHandler _ _ _).1 as [|e [|]] eqn:E; [by vm_compute in E| |by vm_compute in E].
  exists e. split; [done|]. destruct (He e) as (? & ? & _); [by left|done].
Defined.

Lemma batch_logged_witness :
  Forall2 (records sample_front) (take 3 sample_batch)
    (Front.runBatchHandler sample_front (RunBatch sample_runner (mkBatch "web" sample_batch None))).1.
Proof.
  destruct (Front.runBatchHandler sample_front (RunBatch sample_runner (mkBatch "web" sample_batch None))).2
    as [shown|err] eqn:E; [|by vm_compute in E].
  apply (batch_logged sample_front sample_runner (mkBatch "web" sample_batch None) shown E).
Defined.
