(* ===== verification/McpHostProps.v ===== *)
(** * Host keys: what is pinned stays pinned

    After the dial that registers a server, commands for its address go only to a
    machine with the same host key; the gate that has this key lists the registered
    fingerprint, and a list with the fingerprint has the key, up to collisions of
    SHA-256. *)

From S2P Require Import Prelude Base64 Json JsonProps Sigwire SigwireProps GoTime RedactScanner McpRegistry McpKeys McpKeysProps McpRun McpLive McpLiveProps McpHost.
Import Bytes HostKey Tofu SSHClient.

(** ** Fingerprints *)

Lemma std_char_code c d :
  Base64.is_code c = true -> Base64.is_code d = true -> std_char c = std_char d -> c = d.
Proof.
  intros Hc Hd. unfold std_char.
  destruct (c =c "-")%char eqn:E1, (d =c "-")%char eqn:E2, (c =c "_")%char eqn:E3, (d =c "_")%char eqn:E4;
    bool_hyps; subst; try done; intros H; subst; try done; by vm_compute in Hc, Hd.
Qed.

Lemma std_encode_inj a b : std_encode a = std_encode b -> a = b.
Proof.
  intros H. assert (Base64.encode a = Base64.encode b) as He.
  { unfold std_encode in H. pose proof (Base64.encode_code a) as Ha. pose proof (Base64.encode_code b) as Hb.
    revert Ha Hb H. generalize (Base64.encode a), (Base64.encode b). clear a b.
    induction l as [|c l IH]; intros [|d l'] Ha Hb; [done..|]. cbn [map]. inversion Ha; inversion Hb; subst.
    intros [= ? ?]. f_equal; [by apply std_char_code|by apply IH]. }
  pose proof (Base64.decode_encode a) as Ha. rewrite He, Base64.decode_encode in Ha. congruence.
Qed.

(** Two keys with one fingerprint are a collision of SHA-256. *)
Lemma Fingerprint_sum `{Sha256} k k' : Fingerprint k = Fingerprint k' -> Sum256 k = Sum256 k'.
Proof.
  unfold Fingerprint. generalize (Sum256 k), (Sum256 k'). intros a b Hab. apply std_encode_inj.
  injection Hab as Hab. apply (f_equal Sigwire.bytes) in Hab. change ("" +:+ ?x) with x in Hab. by rewrite !bytes_str in Hab.
Qed.

Section Load.
Context `{Sha256, SSHKeys}.

Lemma load_loop_in files fp : forall seen,
  In fp (load_loop seen files) <-> ~ In fp seen /\ In (Some fp) (map fingerprintFile files).
Proof.
  induction files as [|f files IH]; intros seen; cbn [load_loop map In]; [tauto|].
  destruct (fingerprintFile f) as [fp'|] eqn:E; [|rewrite IH; intuition congruence].
  destruct (existsb (String.eqb fp') seen) eqn:Es.
  - apply existsb_exists in Es as (x & Hx & ->%String.eqb_eq). rewrite IH. intuition congruence.
  - assert (~ In fp' seen) as Hn.
    { intros Hx. apply not_true_iff_false in Es. apply Es, existsb_exists. exists fp'.
      split; [done|]. apply String.eqb_refl. }
    cbn [In]. rewrite IH, in_app_iff. cbn [In]. destruct (string_dec fp' fp) as [->|Hne]; [tauto|].
    intuition congruence.
Qed.

Lemma load_loop_nodup files : forall seen, NoDup (load_loop seen files).
Proof.
  induction files as [|f files IH]; intros seen; cbn [load_loop]; [constructor|].
  destruct (fingerprintFile f) as [fp|]; [|done]. destruct (existsb _ _); [done|]. constructor; [|done].
  rewrite list_elem_of_In, load_loop_in, in_app_iff. cbn [In]. tauto.
Qed.

(** The gate's list: the fingerprints of the key files that can be read and parsed,
    each once, whatever the others hold. *)
Lemma loaded files fps fp :
  LoadHostFingerprintsFromGlob (Some files) = Some fps ->
  NoDup fps
  /\ (In fp fps <-> exists data k, In (Some data) files /\ ParseAuthorizedKey data = Some k /\ Fingerprint k = fp).
Proof.
  intros [= <-]. split; [apply load_loop_nodup|]. rewrite load_loop_in, in_map_iff. cbn [In]. split.
  - intros (_ & [data|] & Hf & Hin); [|done]. cbn in Hf.
    destruct (ParseAuthorizedKey data) as [k|] eqn:E; [|done]. exists data, k. cbn in Hf.
    split; [done|]. split; [done|]. congruence.
  - intros (data & k & Hin & Hp & <-). split; [tauto|]. exists (Some data). split; [|done].
    cbn. by rewrite Hp.
Qed.
End Load.

(** ** The known_hosts file *)

(** Ends with a newline, if it holds anything. *)
Definition whole (f : list ascii) : Prop := f = [] \/ exists g, f = g ++ [NL].

(** A character of a host name or of an address, which the code takes unbracketed. *)
Definition host_char (c : ascii) : bool :=
  GoStr.is_upper c || GoStr.is_lower c || GoStr.is_digit c || existsb (Ascii.eqb c) (lit ".-_:").

(** What the client passes to the callback: a plain host with a port. *)
Definition address (a : string) : Prop :=
  exists host port, a = JoinHostPort host port /\ host <> "" /\ Forall (fun c => host_char c = true) (lit host)
    /\ (0 < port)%Z.

(** What knownhosts documents: an empty file knows no host; a line written for a host
    that was not known makes its key the only one accepted for it; and it changes
    nothing for other hosts. *)
Class KnownHostsLaws (K : KnownHosts) := {
  kh_empty h k : address h -> kh_check [] h k = Some (KeyError []);
  kh_pinned f h k k' :
    address h -> whole f -> (forall k, kh_check f h k = Some (KeyError [])) ->
    kh_check (f ++ kh_line h k ++ [NL]) h k' = Some (if bool_decide (k' = k) then Accepts else KeyError [k]);
  kh_others f h h' k k' :
    address h -> address h' -> h <> h' -> whole f ->
    kh_check (f ++ kh_line h' k' ++ [NL]) h k = kh_check f h k
}.

Section Pins.
Context `{Sha256, KnownHostsLaws}.

(** What the file says of a host: nothing, or exactly this key. *)
Definition says (file : option File) (h : string) (o : option (list ascii)) : Prop :=
  match file with
  | None => o = None
  | Some f => whole (data f) /\ forall k',
      kh_check (data f) h k'
      = Some match o with
             | None => KeyError []
             | Some k => if bool_decide (k' = k) then Accepts else KeyError [k]
             end
  end.

Definition untorn_fault (fault : option Fault) : Prop := forall n, fault <> Some (WriteStops n).

(** The entry of a host, once there, stays. *)
Definition keeps (o o' : option (list ascii)) : Prop := forall k, o = Some k -> o' = Some k.

Lemma says_whole file h o : says file h o -> whole (match file with Some f => data f | None => [] end).
Proof. destruct file; [by intros [? _]|]. by left. Qed.

Lemma says_check file h o k' :
  address h -> says file h o ->
  kh_check (match file with Some f => data f | None => [] end) h k'
  = Some match o with
         | None => KeyError []
         | Some k => if bool_decide (k' = k) then Accepts else KeyError [k]
         end.
Proof. intros Ha. destruct file; [by intros [_ ->]|]. intros ->. by apply kh_empty. Qed.

(** Nothing changed, and nothing was accepted. *)
Ltac unchanged o := solve [exists o; split_and!; [done|by intros ?|try done; by intros ? []]].

(** A line for a host. *)
Lemma says_line file h o h' k md :
  address h -> address h' -> says file h o -> (h = h' -> o = None) ->
  says (Some (mkFile md ((match file with Some f => data f | None => [] end) ++ kh_line h' k ++ [NL]))) h
    (if bool_decide (h = h') then Some k else o).
Proof.
  intros Ha Ha' Hs Ho. pose proof (says_whole _ _ _ Hs) as Hw. set (f := match file with Some f => data f | None => [] end) in *.
  split; cbn [data]; [right; exists (f ++ kh_line h' k); by rewrite <- app_assoc|].
  intros k'. case_bool_decide as Hh.
  - subst h'. specialize (Ho eq_refl). subst o. apply kh_pinned; [done|done|].
    intros k0. by apply (says_check file h None).
  - rewrite kh_others by done. by apply says_check.
Qed.

Lemma append_says fault h k file h0 o :
  address h -> address h0 -> untorn_fault fault -> says file h0 o -> (h0 = h -> o = None) ->
  let '(file', err) := appendKnownHost fault h k file in
  exists o', says file' h0 o' /\ keeps o o' /\ (h0 = h -> err = None -> o' = Some k).
Proof.
  intros Ha Ha0 Hu Hs Ho. unfold appendKnownHost.
  pose proof (says_line file h0 o h k 384 Ha0 Ha Hs Ho) as Hline.
  assert (keeps o (if bool_decide (h0 = h) then Some k else o)) as Hk.
  { intros k0 ->. rewrite bool_decide_false; [done|]. intros Heq. by specialize (Ho Heq). }
  assert (h0 = h -> (if bool_decide (h0 = h) then Some k else o) = Some k) as Hk'.
  { intros Heq. by rewrite bool_decide_true. }
  assert (keeps o o) as Hid by (by intros ?).
  destruct fault as [[| | |n|]|]; [by exists o; split_and!|by exists o; split_and!|exists o; split_and!; try done| | |].
  - split; cbn [data]; [by apply (says_whole _ _ _ Hs)|]. intros k'. by apply says_check.
  - by destruct (Hu n).
  - eauto.
  - eauto.
Qed.

(** One callback: what a file says of a host stays, and a key that is accepted is, from
    then on, the one key of its host. *)
Lemma tofu_says st fault h k file h0 o :
  address h -> address h0 -> untorn_fault fault -> says file h0 o ->
  let '(file', err) := TOFU st fault h k file in
  exists o', says file' h0 o' /\ keeps o o' /\ (h0 = h -> err = None -> o' = Some k).
Proof.
  intros Ha Ha0 Hu Hs. unfold TOFU, pin. destruct st; [unchanged o|].
  pose proof (append_says fault h k file h0 o Ha Ha0 Hu Hs) as Happ.
  destruct (appendKnownHost fault h k file) as [file' err].
  assert ((h0 = h -> o = None) -> exists o', says file' h0 o' /\ keeps o o'
    /\ (h0 = h -> option_map PinFailed err = None -> o' = Some k)) as Hpin.
  { intros Ho. destruct (Happ Ho) as (o' & ? & ? & Hk). exists o'. split_and!; [done|done|].
    intros Hh He. apply Hk; [done|]. by destruct err. }
  destruct file as [f|]; [|apply Hpin; intros _; exact Hs].
  destruct (kh_check (data f) h k) as [[|want|]|] eqn:Ec; [| |unchanged o..].
  - exists o. split_and!; [done|by intros ?|]. intros -> _. destruct Hs as [_ Hs]. rewrite Hs in Ec.
    destruct o as [k0|]; [|done]. by case_bool_decide; subst.
  - destruct want as [|w want]; [|unchanged o]. apply Hpin. intros ->. destruct Hs as [_ Hs]. rewrite Hs in Ec.
    destruct o as [k0|]; [|done]. by case_bool_decide.
Qed.

(** ** Runs of the client *)

(** One run, with the file system and the network as it finds them. *)
Record Attempt := mkAttempt { env : Env; host : string; user : string; port : Z; cmd : string }.

Definition normal_port (p : Z) : Z := if (p =? 0)%Z then 22%Z else p.

Definition usual (a : Attempt) : Prop :=
  (host a <> "" -> address (JoinHostPort (host a) (normal_port (port a)))) /\ untorn_fault (fault (env a)).

(** The address a run sent its command to, and the host key of the machine there. *)
Definition sent_to (a : Attempt) (sent : option string) : list (string * list ascii) :=
  match sent with
  | Some addr => match host_key (peer (env a) addr) with Some k => [(addr, k)] | None => [] end
  | None => []
  end.

Variable c : Client.

(** Runs in order: the file they leave and where their commands went. *)
Fixpoint runs (file : option File) (todo : list Attempt) : option File * list (string * list ascii) :=
  match todo with
  | [] => (file, [])
  | a :: todo =>
      let '(file, sent, _) := SSHClient.Run c (env a) (host a) (user a) (port a) (cmd a) file in
      let '(file, rest) := runs file todo in (file, sent_to a sent ++ rest)
  end.

Lemma run_says a file h0 o :
  usual a -> address h0 -> says file h0 o ->
  let '(file', sent, _) := SSHClient.Run c (env a) (host a) (user a) (port a) (cmd a) file in
  exists o', says file' h0 o' /\ keeps o o' /\ forall k, In (h0, k) (sent_to a sent) -> o' = Some k.
Proof.
  intros [Ha Hu] Ha0 Hs. unfold SSHClient.Run. fold (normal_port (port a)).
  assert (exists o', says file h0 o' /\ keeps o o' /\ forall k, In (h0, k) (sent_to a None) -> o' = Some k) as Hsame
    by unchanged o.
  destruct (String.eqb (KeyPath c) ""); [done|]. destruct (String.eqb (KnownHostsPath c) ""); [done|].
  destruct (String.eqb_spec (host a) ""); [done|]. specialize (Ha n).
  destruct (String.eqb (user a) ""); [done|]. destruct (loadKey _ _); [done|].
  set (addr := JoinHostPort _ _) in *. destruct (answers _); [|done]. cbn [negb].
  destruct (host_key _) as [k|] eqn:Ek; [|done].
  pose proof (tofu_says (stat_fails (env a)) (fault (env a)) addr k file h0 o Ha Ha0 Hu Hs) as Ht.
  destruct (TOFU _ _ _ _ _) as [file' err]. destruct Ht as (o' & Hs' & Hk & Hacc).
  assert (forall sent, (forall x, sent = Some x -> x = addr /\ err = None) ->
    exists o'', says file' h0 o'' /\ keeps o o'' /\ forall k', In (h0, k') (sent_to a sent) -> o'' = Some k') as Hd.
  { intros sent Hsent. exists o'. split_and!; [done|done|]. intros k' Hin.
    destruct sent as [x|]; [|done]. destruct (Hsent x eq_refl) as [-> He]. cbn [sent_to] in Hin.
    rewrite Ek in Hin. destruct Hin as [[= <- <-]|[]]. by apply Hacc. }
  destruct err; [by apply Hd|]. destruct (auth_ok _); [|by apply Hd]. cbn [negb].
  apply Hd. by destruct (session_ok _); [intros x [= <-]|].
Qed.

Lemma runs_say todo h0 : forall file o,
  Forall usual todo -> address h0 -> says file h0 o ->
  exists o', says (runs file todo).1 h0 o' /\ keeps o o'
    /\ forall k, In (h0, k) (runs file todo).2 -> o' = Some k.
Proof.
  induction todo as [|a todo IH]; intros file o Hu Ha Hs; cbn [runs]; [unchanged o|].
  inversion Hu as [|? ? Hua Hut]; subst. pose proof (run_says a file h0 o Hua Ha Hs) as Hr.
  destruct (SSHClient.Run _ _ _ _ _ _ _) as [[file1 sent] res]. destruct Hr as (o1 & Hs1 & Hk1 & Hin1).
  destruct (IH file1 o1 Hut Ha Hs1) as (o2 & Hs2 & Hk2 & Hin2).
  destruct (runs file1 todo) as [file2 rest]. exists o2. cbn [fst snd] in *. split; [done|].
  split; [intros k Hk; by apply Hk2, Hk1|]. intros k [Hin|Hin]%in_app_iff; [|by apply Hin2].
  by apply Hk2, Hin1.
Qed.

(** C13: The machine a server was registered with is the machine its commands go to.
    Take the dial that captured a fingerprint for a host and port that the
    known_hosts file did not contradict, and any later runs of the client, for this
    host or others, with whatever machines answering and whatever the file system
    refuses short of tearing a write.  Every command sent to the address went to a
    machine with the one key that was pinned, whose fingerprint is the registered
    one; a gate that has this key among its host key files lists that fingerprint,
    once; and whichever gate lists it has a key file with the same SHA-256. *)
Theorem runs_reach_pinned_host `{SSHKeys}
    (st : bool) (ft : option Fault) (pr : string -> Peer) (h : string) (p : Z) (file file1 : option File)
    (fp : string) (todo : list Attempt) (o : option (list ascii))
    (Hstart : says file (JoinHostPort h p) o)
    (Haddr : address (JoinHostPort h p)) (Hft : untorn_fault ft) (Htodo : Forall usual todo)
    (Hdial : dialBootstrap st ft pr h p file = (file1, inl fp)) :
  exists key, Fingerprint key = fp
    /\ (forall k, In (JoinHostPort h p, k) (runs file1 todo).2 -> k = key)
    /\ forall files fps, LoadHostFingerprintsFromGlob (Some files) = Some fps ->
         NoDup fps
         /\ (forall data, In (Some data) files -> ParseAuthorizedKey data = Some key -> In fp fps)
         /\ (In fp fps -> exists data k, In (Some data) files /\ ParseAuthorizedKey data = Some k
               /\ Sum256 k = Sum256 key).
Proof.
  unfold dialBootstrap in Hdial. destruct (answers _); [|done]. cbn [negb] in Hdial.
  destruct (host_key _) as [key|]; [|done].
  pose proof (tofu_says st ft (JoinHostPort h p) key file (JoinHostPort h p) o Haddr Haddr Hft Hstart) as Ht.
  destruct (TOFU _ _ _ _ _) as [file' err]. destruct err; [done|]. destruct (auth_ok _); [|done].
  injection Hdial as -> <-. destruct Ht as (o' & Hs & _ & Hacc). rewrite (Hacc eq_refl eq_refl) in Hs.
  exists key. split; [done|]. split.
  - intros k Hk. destruct (runs_say todo (JoinHostPort h p) file1 (Some key) Htodo Haddr Hs) as (o2 & _ & Hk2 & Hin).
    specialize (Hin k Hk). specialize (Hk2 key eq_refl). congruence.
  - intros files fps Hl. destruct (loaded files fps (Fingerprint key) Hl) as [Hn Hin]. split; [done|]. split.
    + intros data Hd Hp. apply Hin. by exists data, key.
    + intros (data & k & ? & ? & Hf)%Hin. exists data, k. split; [done|]. split; [done|]. by apply Fingerprint_sum.
Qed.

End Pins.

(** ** A witness: a file with one line for a host and its key *)

Definition host_tag (h : string) : list ascii := Base64.encode (lit h) ++ [SPACE].

Definition file_keys (f : list ascii) (h : string) : list (list ascii) :=
  omap (fun l => if is_prefix (host_tag h) l
                 then Base64.decode (removelast (drop (List.length (host_tag h)) l)) else None)
    (LiveLog.splitKeepNewline f).

Definition LineHosts : KnownHosts := {|
  kh_check f h k :=
    Some (if existsb (fun k' => bool_decide (k' = k)) (file_keys f h) then Accepts else KeyError (file_keys f h));
  kh_line h k := host_tag h ++ Base64.encode k
|}.
#[export] Existing Instance LineHosts.

Lemma split_app f : forall seg rest,
  LiveLog.split_from seg ((f ++ [NL]) ++ rest) = LiveLog.split_from seg (f ++ [NL]) ++ LiveLog.split_from [] rest.
Proof.
  induction f as [|x f IH]; intros seg rest; cbn [app LiveLog.split_from].
  - by rewrite Ascii.eqb_refl.
  - destruct (x =c NL); [|apply IH]. cbn [app]. f_equal. apply IH.
Qed.

Lemma line_record h k : record (host_tag h ++ Base64.encode k ++ [NL]).
Proof.
  exists (host_tag h ++ Base64.encode k). split; [|by rewrite <- app_assoc].
  assert (forall l, no_newline (Base64.encode l)) as He.
  { intros l. eapply Forall_impl; [apply encode_plain|]. cbn. intros x [Hx _] ->. by vm_compute in Hx. }
  apply no_newline_app; [|apply He]. apply no_newline_app; [apply He|]. by constructor; [discriminate|].
Qed.

Lemma prefix_word (a b r : list ascii) :
  Forall (fun x => x <> SPACE) a -> Forall (fun x => x <> SPACE) b ->
  is_prefix (a ++ [SPACE]) (b ++ SPACE :: r) = true -> a = b.
Proof.
  revert b. induction a as [|x a IH]; intros [|y b] Ha Hb; cbn [app is_prefix]; [done| | |].
  - inversion Hb. intros [E%Ascii.eqb_eq _]%andb_prop. congruence.
  - inversion Ha. intros [E%Ascii.eqb_eq _]%andb_prop. congruence.
  - inversion Ha. inversion Hb. intros [->%Ascii.eqb_eq ?]%andb_prop. f_equal. by apply IH.
Qed.

Lemma host_tag_inj h h' r : is_prefix (host_tag h) (host_tag h' ++ r) = true -> h = h'.
Proof.
  unfold host_tag. rewrite <- (app_assoc (Base64.encode (lit h'))). cbn [app]. intros Hp.
  assert (forall l, Forall (fun x => x <> SPACE) (Base64.encode l)) as Hs.
  { intros l. eapply Forall_impl; [apply encode_plain|]. cbn. intros x (_ & _ & Hx) ->. by vm_compute in Hx. }
  apply prefix_word in Hp; [|done|done]. pose proof (Base64.decode_encode (lit h)) as Hd.
  rewrite Hp, Base64.decode_encode in Hd. injection Hd as Hd. apply (f_equal string_of_list_ascii) in Hd.
  unfold lit in Hd. by rewrite !string_of_list_ascii_of_string in Hd.
Qed.

Lemma file_keys_line f h h' k :
  whole f ->
  file_keys (f ++ kh_line h' k ++ [NL]) h = file_keys f h ++ (if bool_decide (h = h') then [k] else []).
Proof.
  intros Hf. assert (LiveLog.splitKeepNewline (f ++ kh_line h' k ++ [NL])
    = LiveLog.splitKeepNewline f ++ [kh_line h' k ++ [NL]]) as Hsplit.
  { pose proof (split_records [kh_line h' k ++ [NL]]) as Hr. cbn [List.concat] in Hr. rewrite app_nil_r in Hr.
    destruct Hf as [->|[g ->]]; [apply Hr|unfold LiveLog.splitKeepNewline in *; rewrite split_app; f_equal; apply Hr];
      (constructor; [|done]); cbn [kh_line LineHosts]; rewrite <- app_assoc; apply line_record. }
  unfold file_keys. rewrite Hsplit, omap_app. f_equal. cbn [omap list_omap].
  change (kh_line h' k) with (host_tag h' ++ Base64.encode k). rewrite <- app_assoc. case_bool_decide as Hh.
  - subst h'. rewrite is_prefix_self, drop_app_length, removelast_app by done. cbn [removelast].
    by rewrite app_nil_r, Base64.decode_encode.
  - destruct (is_prefix (host_tag h) _) eqn:E; [|done]. by apply host_tag_inj in E.
Qed.

#[export] Instance LineHosts_laws : KnownHostsLaws LineHosts.
Proof.
  split; [done| |].
  - intros f h k k' _ Hw Hf. assert (file_keys f h = []) as Hk.
    { specialize (Hf []). cbn [kh_check LineHosts] in Hf. destruct (existsb _ _); congruence. }
    unfold kh_check. cbn [LineHosts]. rewrite file_keys_line, Hk, bool_decide_true by done. cbn [app existsb].
    rewrite orb_false_r. f_equal. repeat case_bool_decide; congruence.
  - intros f h h' k k' _ _ Hh Hw. unfold kh_check. cbn [LineHosts].
    by rewrite file_keys_line, bool_decide_false, app_nil_r by done.
Qed.

#[local] Instance host_sha : Sha256 := {| Sum256 l := l |}.

Definition sample_peer (key : string) : string -> Peer := fun _ =>
  mkPeer true (Some (lit key)) true true (fun cmd => (cmd, "", RanOK)).
Definition sample_run (key : string) : Attempt :=
  mkAttempt (mkEnv (KeyPresent 384 (Some [])) (fun _ => true) false None (sample_peer key) false)
    "web" "root" 0 "uptime".
Definition sample_store : option File := (dialBootstrap false None (sample_peer "K1") "web" 22 None).1.

(** The second run meets another machine. *)
Lemma runs_reach_pinned_host_witness :
  (runs (mkClient "k" "kh") sample_store [sample_run "K1"; sample_run "K2"]).2 = [("web:22", lit "K1")]
  /\ exists key, Fingerprint key = "SHA256:SzE"
      /\ forall k, In ("web:22", k) (runs (mkClient "k" "kh") sample_store [sample_run "K1"; sample_run "K2"]).2 -> k = key.
Proof.
  split; [vm_compute; reflexivity|].
  assert (address "web:22") as Ha.
  { exists "web", 22%Z. split; [reflexivity|]. split; [discriminate|]. split; [|lia]. repeat constructor. }
  destruct (runs_reach_pinned_host (mkClient "k" "kh") false None (sample_peer "K1") "web" 22 None sample_store
      "SHA256:SzE" [sample_run "K1"; sample_run "K2"] None) as (key & Hfp & Hk & _).
  - reflexivity.
  - exact Ha.
  - intros n. discriminate.
  - repeat constructor; try (intros _; exact Ha); intros n; discriminate.
  - vm_compute. reflexivity.
  - exists key. split; [exact Hfp|exact Hk].
Defined.
