(* ===== verification/McpToolsProps.v ===== *)
(** * What the other tools ask for

    A grant the tool asks for passes the signer's own checks; a server leaves the
    registry only after its gate confirmed; and a server that was provisioned
    read-only cannot be upgraded the way the tools say. *)

From S2P Require Import Prelude RedactScanner Sigwire SigwireProps GateVerify GateVerifyProps GateMain GateMainProps SignerDaemon SignerDaemonProps SignerWire McpRegistry McpKeys McpKeysProps McpProvision McpProvisionProps McpRun McpRunProps McpTools.
Import Bytes Sigwire Daemon Wire Registry Tools GrantTools ServerTools.

(** ** Grants *)

Lemma empty_at_same cmds : forall i, empty_at i cmds = empty_command i cmds.
Proof. induction cmds as [|c cmds IH]; intros i; [done|]. cbn. by destruct (c =s ""). Qed.

(** What the tool asks for is what the agent gave, for a registered server; and the
    signer's checks let it through, so nothing is refused after the human was
    asked. *)
Lemma grant_asked servers sign rnd inp req :
  In req (GrantTools.RequestGrant servers sign rnd inp).1 ->
  gAlias req = giAlias inp /\ gScope req = giScope inp /\ gCommands req = giCommands inp
  /\ gDurationSec req = (giDurationHours inp * 3600)%Z
  /\ (exists get e, servers = Some get /\ get (giAlias inp) = Some e)
  /\ newRequestID rnd = Some (gID req)
  /\ gAlias req <> "" /\ check_grant req = None.
Proof.
  unfold GrantTools.RequestGrant. destruct servers as [get|]; [|done]. destruct sign as [sign|]; [|done].
  destruct (giAlias inp =s "") eqn:Ea; [done|]. destruct (get (giAlias inp)) as [e|] eqn:He; [|done].
  destruct (check_scope inp) eqn:Es; [done|]. destruct (_ || _) eqn:Ed; [done|].
  destruct (newRequestID rnd) as [id|] eqn:Ei; [|done]. intros [<-|[]]. bool_hyps.
  split_and!; try done; [by exists get, e|].
  unfold check_grant, check_scope in *. cbn [gScope gCommands gDurationSec].
  assert ((giDurationHours inp * 3600 <=? 0)%Z = false) as -> by lia.
  assert ((MaxGrantDuration / Sigwire.Second <? giDurationHours inp * 3600)%Z = false) as ->
    by (change (MaxGrantDuration / Sigwire.Second)%Z with 86400%Z; lia).
  destruct (giScope inp =s "all"); [by destruct (giCommands inp)|].
  destruct (giScope inp =s "commands"); [|done]. destruct (giCommands inp); [done|].
  by rewrite <- empty_at_same; destruct (empty_at _ _).
Qed.

(** ** revoke_server *)

(** The registry is asked to drop an alias only when the signer signed the revoke
    for that server's host key, the line went to that server, and the gate's marker
    came back. *)
Lemma removed_after_confirmation r remove alias calls dropped out :
  RevokeServer r remove alias = (calls, Some dropped, out) ->
  dropped = alias
  /\ exists get e id s res, Servers r = Some get /\ get alias = Some e
    /\ calls = [SignCall id [mkCmd alias "SSHGATE_REVOKE" RevokeTTLSec (Fingerprint e) false ""];
                SSHCall (Host e) (User e) (Port e) (scSig s +:+ " SSHGATE_REVOKE")]
    /\ GoStr.Contains (sshStdout res) revokeStdoutMarker = true
    /\ out.1 = mkRevoked alias true (match remove alias with None => true | _ => false end)
                 (GoStr.TrimSpace (sshStdout res)).
Proof.
  unfold RevokeServer. destruct (Servers r) as [get|]; [|done]. destruct (SignC r) as [sign|]; [|done].
  destruct (SSH r) as [ssh|]; [|done]. destruct (alias =s ""); [done|].
  destruct (get alias) as [e|] eqn:He; [|done]. destruct (newRequestID _) as [id|]; [|done].
  destruct (sign _ _) as [res|]; [|done]. destruct (Signed res) as [|s [|]]; [done| |done].
  unfold send. set (o := ssh _ _ _ _ _). destruct (sshErr o); [done|].
  destruct (GoStr.Contains (sshStdout o) revokeStdoutMarker) eqn:Ec; [|done]. cbn [negb].
  intros Hd. apply pair_equal_spec in Hd as [[= <- <-] <-]. split; [done|].
  exists get, e, id, s, o. split_and!; try done. by destruct (remove alias).
Qed.

(** ** The upgrade of a read-only server *)

Section Upgrade.
Context `{Hmac} `{Ed25519} `{PemDecoder} `{Sha256} `{SSHKeys}.

(** A gate without gate.pub prints nothing on stdout for a signed line. *)
Lemma read_only_silent (g : Gate.Env) (w : Gate.World) :
  Gate.gate_pub g = Keystore.NotExist -> Sigwire.IsSigned (Gate.SSH_ORIGINAL_COMMAND g) = true ->
  Gate.stdout (Gate.run g w).2 = Gate.stdout w.
Proof.
  intros Hk Hs. unfold Gate.run. destruct (Gate.random_salt g); [|done].
  destruct (Gate.SSH_ORIGINAL_COMMAND g =s "") eqn:E; bool_hyps; [by rewrite E in Hs|].
  destruct (Gate.gateDirFn g) as [[dir bin]|]; [|done]. rewrite Hk. cbn [Keystore.LoadPubKey].
  unfold Gate.run_read_only. by rewrite Hs.
Qed.

Lemma signed_prefix s t : Sigwire.IsSigned s = true -> Sigwire.IsSigned (s +:+ t) = true.
Proof.
  unfold Sigwire.IsSigned. intros [r ->]%prefix_spec. apply prefix_spec. exists (r +:+ t).
  by rewrite str_app_assoc.
Qed.

(** A read-only server cannot be upgraded the way the tools tell a person to.
    On a server without gate.pub, revoke_server always fails, whatever the signer
    signs and whoever approves it, and leaves the alias registered; and as long as
    it is registered, [sshgate add] refuses the alias before it has contacted the
    target, without --read-only too. *)
Theorem upgrade_path_dead (r : Runner) (remove : string -> option UpdateErr) (alias : string)
    (ssh : list Call -> string -> string -> Z -> string -> SSHResult) (w : Gate.World)
    (gate : string -> Gate.Env)
    (Hssh : SSH r = Some ssh)
    (Hgate : forall before host user port line,
       sshStdout (ssh before host user port line)
       = string_of_list_ascii (Gate.stdout (Gate.run (gate line) w).2))
    (Hline : forall line, Gate.SSH_ORIGINAL_COMMAND (gate line) = line)
    (Hro : forall line, Gate.gate_pub (gate line) = Keystore.NotExist) (Hw : Gate.stdout w = [])
    (Hsign : forall sign id cmds res s, SignC r = Some sign -> sign id cmds = inl res -> In s (Signed res) ->
       Sigwire.IsSigned (scSig s) = true)
    (c : Provision.Session) (ParseIP : string -> bool) (e : Provision.Env) (inp : Provision.ProvisionInput)
    (s0 : Provision.St) (servers : Registry.Servers) (entry : Entry)
    (Hopen : New (Provision.opened e).1 (Provision.opened e).2 = inl servers)
    (Hreg : (Get (Provision.view e) alias servers).2 = Some entry)
    (Hinp : Provision.inAlias inp = alias) :
  (let '(_, dropped, (out, err)) := RevokeServer r remove alias in
   dropped = None /\ err <> None /\ RemoteCleaned out = false)
  /\ exists why, Provision.Provision c ParseIP e inp s0 = (s0, None, inr why).
Proof.
  split.
  - unfold RevokeServer. destruct (Servers r) as [get|]; [|done]. destruct (SignC r) as [sign|] eqn:Hs; [|done].
    rewrite Hssh. destruct (alias =s ""); [done|]. destruct (get alias); [|done].
    destruct (newRequestID _); [|done]. destruct (sign _ _) as [res|] eqn:Er; [|done].
    destruct (Signed res) as [|sg [|]] eqn:Esg; [done| |done]. unfold send.
    destruct (sshErr _); [done|].
    assert (Sigwire.IsSigned (scSig sg) = true) as Hp
      by (apply (Hsign _ _ _ _ sg eq_refl Er); rewrite Esg; by left).
    rewrite !Hgate, read_only_silent, Hw; [done|done|]. rewrite Hline. by apply signed_prefix.
  - unfold Provision.Provision. rewrite Hinp. destruct (Provision.aliasPattern alias); [|by eexists].
    destruct (Provision.validateHost _ _); [|by eexists]. destruct (Provision.validateUser _); [|by eexists].
    cbn [negb]. rewrite Hopen. destruct (Get _ _ _) as [servers' found] eqn:Eg. cbn [snd] in Hreg.
    subst found. by eexists.
Qed.

End Upgrade.

(** ** A read-only server *)

#[local] Existing Instance id_hash.
#[local] Instance tools_hmac : Hmac := {| mac salt s := s ++ salt |}.
#[local] Instance tools_pem : PemDecoder := {| pem_decode _ := None |}.

Definition bare_gate (line : string) : Gate.Env :=
  let g := gate_env line in
  Gate.mkEnv (Gate.random_salt g) line (Gate.gateDirFn g) Keystore.NotExist (Gate.hostKeyFPsFn g)
    (Gate.now g) (Gate.record_now g) (Gate.homeDirFn g) (Gate.rules g) (Gate.faults g) (Gate.child g)
    (Gate.error_text g).

Definition bare_world : Gate.World := gate_world.

Definition bare_ssh (before : list Call) (host user : string) (port : Z) (line : string) : SSHResult :=
  mkSSH (string_of_list_ascii (Gate.stdout (Gate.run (bare_gate line) bare_world).2)) "" 0 None.

Definition bare_runner : Runner :=
  mkRunner (Servers sample_runner) (SignC sample_runner) (Some bare_ssh) "" false 60 "" false
    (Some (bytes "123456789012")).

(** The sample registry's file. *)
Definition web_file : list ascii := default [] (MarshalIndent {[ "web" := sample_entry ]}).

Definition again_env : Provision.Env :=
  Provision.mkEnv (StatMode 384, ReadBody web_file)
    (mkView (ReadBody web_file) (StatMode 384) (ReadBody web_file)) None (Some (lit "gate"))
    (Some (lit "pub")) (Some (MarshalAuthorizedKey agent_key)) true true (Some "SHA256:a") answers 0.

Lemma sample_signatures id cmds res s :
  signs sample_signer 100 sample_random "human" id cmds = inl res -> In s (Signed res) ->
  Sigwire.IsSigned (scSig s) = true.
Proof.
  unfold signs. destruct (signAll _ _ _ _ _) as [sigs|] eqn:E; [|done]. intros [= <-] Hs.
  apply signAll_lines in E. cbn [Signed] in Hs. apply list_elem_of_In in Hs.
  apply list_elem_of_lookup in Hs as [i Hi]. destruct (Forall2_lookup_r _ _ _ _ _ E Hi) as (c & _ & n & _ & _ & ->).
  unfold Sigwire.IsSigned. apply prefix_spec. by eexists.
Qed.

Lemma web_registered :
  exists servers entry, New (Provision.opened again_env).1 (Provision.opened again_env).2 = inl servers
    /\ (Get (Provision.view again_env) "web" servers).2 = Some entry.
Proof.
  set (opens := New _ _).
  assert (match opens with
          | inl s => match (Get (Provision.view again_env) "web" s).2 with Some _ => true | None => false end
          | inr _ => false
          end = true) as Hg by (by vm_compute).
  destruct opens as [servers|]; [|done]. exists servers.
  destruct (Get _ _ _).2 as [entry|]; [by exists entry|done].
Qed.

(** The signer signs the revoke of a read-only server, and adding it again, with
    gate.pub this time, gets nowhere. *)
Lemma upgrade_path_dead_witness :
  (let '(calls, dropped, (out, err)) := RevokeServer bare_runner (fun _ => None) "web" in
   dropped = None /\ err <> None /\ RemoteCleaned out = false)
  /\ exists why, Provision.Provision sample_session (fun _ => false) again_env sample_input (sample_start None)
                 = (sample_start None, None, inr why).
Proof.
  destruct web_registered as (servers & entry & Es & Eg).
  exact (upgrade_path_dead bare_runner (fun _ => None) "web" bare_ssh bare_world bare_gate eq_refl
           (fun _ _ _ _ _ => eq_refl) (fun _ => eq_refl) (fun _ => eq_refl) eq_refl
           (fun sign id cmds res s Hs => ltac:(injection Hs as <-; apply sample_signatures))
           sample_session (fun _ => false) again_env sample_input (sample_start None) servers entry Es Eg eq_refl).
Defined.
