(* ===== verification/McpStatus.v ===== *)
(** * The status tool (src/mcp/tools/status.go)

    The probe of the signer's socket, the probe of every registered server by a pool
    of workers, and the text a person reads (formatStatusSummary of
    src/mcp/server.go).  The file system, the dial and the SSH client answer as they
    please. *)

From stdpp Require Import sorting relations.
From S2P Require Import Prelude RedactScanner GoTime McpRegistry.

Module Status.
Import Bytes Registry.

(** SignerStatus *)
Record SignerStatus := mkSigner {
  sPath : string; sReachable : bool; Configured : bool; Permission : bool; sError : string
}.

(** ServerStatus *)
Record ServerStatus := mkServer { Alias : string; Reachable : bool; PingMS : Z; Error : string }.

Definition zero_status : ServerStatus := mkServer "" false 0 "".

(** A failed dial: its text, and whether errors.Is finds fs.ErrPermission. *)
Record DialError := mkDialError { dial_text : string; is_permission : bool }.

(** probeSignerSocket *)
Definition probeSignerSocket (path : string) (stat_ok : bool) (dial : option DialError) : SignerStatus :=
  if path =s "" then mkSigner path false false false "signer socket path not configured"
  else
    match dial with
    | Some err => mkSigner path false stat_ok (stat_ok && is_permission err) (dial_text err)
    | None => mkSigner path true stat_ok false ""
    end.

(** registryRow *)
Record registryRow := mkRow { rAlias : string; rHost : string; rUser : string; rPort : Z }.

(** snapshotRegistry *)
Definition snapshotRegistry (raw : gmap string Entry) : list registryRow :=
  map (fun kv => mkRow kv.1 (Host kv.2) (User kv.2) (Port kv.2)) (merge_sort key_le (map_to_list raw)).

(** What the SSH client answers a probe: stdout or an error, and after how long. *)
Record Probe := mkProbe { answer : list ascii + string; elapsed : Z }.

(** probeServer *)
Definition probeServer (row : registryRow) (p : Probe) : ServerStatus :=
  match answer p with
  | inr err => mkServer (rAlias row) false 0 err
  | inl out =>
      if contains out (lit "SSHGATE_OK") then mkServer (rAlias row) true (elapsed p ÷ 1000000) ""
      else mkServer (rAlias row) false 0 "probe response did not contain SSHGATE_OK"
  end.

(** ** The pool *)

Definition statusServerProbeWorkers : nat := 4.

Inductive Worker := Idle | Probing (i : nat) | Exited.

Record Pool := mkPool {
  unsent : list nat;
  jobs : list nat;
  jobs_closed : bool;
  workers : list Worker;
  statuses : list ServerStatus;
  signer : option SignerStatus;
  called : list nat
}.

Section Pool.
Variable rows : list registryRow.
Variable probe : nat -> Probe.
Variable signer_probe : SignerStatus.

(** What the probe of the [i]-th server gives. *)
Definition row_status (i : nat) : ServerStatus :=
  match rows !! i with Some row => probeServer row (probe i) | None => zero_status end.

Definition started : Pool :=
  let n := List.length rows in
  mkPool (seq 0 n) [] false (replicate (Nat.min statusServerProbeWorkers n) Idle) (replicate n zero_status) None [].

(** The main goroutine sends the next index or closes the channel; a worker takes an
    index and calls its server, stores the result, or leaves the loop; the other
    goroutine stores the signer's probe. *)
Inductive step : Pool -> Pool -> Prop :=
  | Sends i u q c ws st sg ca :
      step (mkPool (i :: u) q c ws st sg ca) (mkPool u (q ++ [i]) c ws st sg ca)
  | Closes q ws st sg ca :
      step (mkPool [] q false ws st sg ca) (mkPool [] q true ws st sg ca)
  | Takes u i q c ws w st sg ca :
      ws !! w = Some Idle ->
      step (mkPool u (i :: q) c ws st sg ca) (mkPool u q c (<[w := Probing i]> ws) st sg (ca ++ [i]))
  | Stores u q c ws w i st sg ca :
      ws !! w = Some (Probing i) ->
      step (mkPool u q c ws st sg ca) (mkPool u q c (<[w := Idle]> ws) (<[i := row_status i]> st) sg ca)
  | Leaves u ws w st sg ca :
      ws !! w = Some Idle ->
      step (mkPool u [] true ws st sg ca) (mkPool u [] true (<[w := Exited]> ws) st sg ca)
  | SignerProbed u q c ws st ca :
      step (mkPool u q c ws st None ca) (mkPool u q c ws st (Some signer_probe) ca).

(** Both waits are over. *)
Definition finished (s : Pool) : Prop :=
  jobs_closed s = true /\ (forall w, w ∈ workers s -> w = Exited) /\ signer s <> None.

End Pool.

(** Why Status itself fails. *)
Inductive StatusErr := NoServers | NoSSH.

(** Status, once its goroutines are done with the state [s]. *)
Definition Status (has_servers has_ssh : bool) (s : Pool) : (SignerStatus * list ServerStatus) + StatusErr :=
  if negb has_servers then inr NoServers
  else if negb has_ssh then inr NoSSH
  else inl (from_option id (mkSigner "" false false false "") (signer s), statuses s).

(** formatStatusSummary *)
Definition signer_line (s : SignerStatus) : string :=
  if sReachable s then "signer: reachable (" +:+ sPath s +:+ ")"
  else if negb (Configured s) then
    "signer: not configured (" +:+ sPath s +:+ ") — read-only / Tier 1; writes are denied at the gate. Run /sshgate:setup to add a Telegram signer."
  else if Permission s then
    "signer: socket present but NOT ACCESSIBLE (" +:+ sPath s +:+ ") — permission denied; your shell/session is not in the sshgatesigner group. Log out and back in, relaunch Claude Code (a side-terminal newgrp is not enough), then run /mcp to confirm. This is NOT a dead daemon."
  else "signer: UNREACHABLE (" +:+ sPath s +:+ "): " +:+ sError s.

Definition server_line (s : ServerStatus) : string :=
  String NL ("  " +:+ Alias s +:+
    (if Reachable s then ": ok " +:+ GoTime.itoa (PingMS s) +:+ "ms" else ": DOWN " +:+ Error s)).

Definition formatStatusSummary (out : SignerStatus * list ServerStatus) : string :=
  signer_line out.1 +:+ fold_right (fun s text => server_line s +:+ text) "" out.2.

End Status.
