(* ===== verification/McpStatusProps.v ===== *)
(** * What the status tool reports

    However its goroutines interleave, it ends, and has probed every registered
    server once; and what it says of the signer. *)

From stdpp Require Import sorting relations.
From S2P Require Import Prelude RedactScanner GoTime McpRegistry McpRegistryProps GateVerify GateAudit GateMain McpStatus.
Import Bytes Registry Status.

Section Pool.
Variable rows : list registryRow.
Variable probe : nat -> Probe.
Variable signer_probe : SignerStatus.

Abbreviation n := (List.length rows).
Abbreviation row_status := (row_status rows probe).
Abbreviation started := (started rows).
Abbreviation step := (step rows probe signer_probe).

(** Worker [w] is at the [i]-th server. *)
Definition at_ (ws : list Worker) (w i : nat) : Prop := ws !! w = Some (Probing i).

(** Every index is called once and in order, its result is there once no worker has
    it, and nobody leaves while there is work. *)
Record pool_ok (s : Pool) : Prop := {
  calls_in_order : called s ++ jobs s ++ unsent s = seq 0 n;
  one_each w w' i : at_ (workers s) w i -> at_ (workers s) w' i -> w = w';
  probing_called w i : at_ (workers s) w i -> i ∈ called s;
  stored i : i ∈ called s -> (forall w, ~ at_ (workers s) w i) -> statuses s !! i = Some (row_status i);
  statuses_length : List.length (statuses s) = n;
  workers_length : List.length (workers s) = Nat.min statusServerProbeWorkers n;
  closed_after : jobs_closed s = true -> unsent s = [];
  exited_after w : workers s !! w = Some Exited -> jobs_closed s = true /\ jobs s = [];
  signer_is : signer s = None \/ signer s = Some signer_probe
}.

Lemma started_ok : pool_ok started.
Proof.
  assert (forall w x, replicate (Nat.min statusServerProbeWorkers n) Idle !! w = Some x -> x = Idle) as Hi.
  { intros w x Hw. by apply lookup_replicate in Hw as [-> _]. }
  split; unfold at_; cbn; try by intros ? Hw%Hi.
  - done.
  - by intros w w' i Hw%Hi.
  - by intros w i Hw%Hi.
  - by intros i Hin%elem_of_nil.
  - apply length_replicate.
  - apply length_replicate.
  - done.
  - by left.
Qed.

(** Another worker's place after one worker moved. *)
Lemma at_insert ws w w' x i : at_ (<[w := x]> ws) w' i <->
  (w = w' /\ w < List.length ws /\ x = Probing i) \/ (w <> w' /\ at_ ws w' i).
Proof. unfold at_. rewrite list_lookup_insert_Some. naive_solver. Qed.

Lemma lookup_insert_exited (ws : list Worker) (w : nat) x (w' : nat) : <[w := x]> ws !! w' = Some Exited ->
  x = Exited \/ ws !! w' = Some Exited.
Proof. rewrite list_lookup_insert_Some. naive_solver. Qed.

(** A called index comes once, so it is not waiting. *)
Lemma waiting_not_called s i q : pool_ok s -> jobs s = i :: q -> i ∉ called s.
Proof.
  intros Hk Hq Hin. pose proof (NoDup_seq 0 n) as Hn. rewrite <- (calls_in_order s Hk), Hq in Hn.
  apply NoDup_app in Hn as (_ & Hn & _). eapply Hn; [done|]. by left.
Qed.

Lemma called_below s i : pool_ok s -> i ∈ called s -> i < n.
Proof.
  intros Hk Hin. assert (i ∈ seq 0 n) as Hs by (rewrite <- (calls_in_order s Hk); set_solver).
  apply elem_of_seq in Hs. lia.
Qed.

Lemma takes_ok u i q c ws w st sg ca : ws !! w = Some Idle ->
  pool_ok (mkPool u (i :: q) c ws st sg ca) ->
  pool_ok (mkPool u q c (<[w := Probing i]> ws) st sg (ca ++ [i])).
Proof.
  intros Hw Hk. pose proof (waiting_not_called _ i q Hk eq_refl) as Hni.
  destruct Hk as [Hc H1 Hp Hs Hl Hwl Hcl He Hsg]. cbn in *.
  assert (forall w', ~ at_ ws w' i) as Hna by (intros w' Ha; by apply Hni, (Hp w')).
  split; cbn; [by rewrite <- app_assoc|..|done|by rewrite length_insert|done| |done].
  - intros w1 w2 j Ha Hb. apply at_insert in Ha as [(<- & _ & [= <-])|[Hn1 Ha]];
      apply at_insert in Hb as [(<- & _ & E)|[Hn2 Hb]].
    + done.
    + by apply Hna in Hb.
    + injection E as <-. by apply Hna in Ha.
    + by apply (H1 _ _ j).
  - intros w' j [(_ & _ & [= <-])|[_ Ha]]%at_insert; [set_solver|]. apply elem_of_app. left. by apply (Hp w').
  - intros j [Hj| ->%list_elem_of_singleton]%elem_of_app Hn.
    + apply Hs; [done|]. intros w' Ha. destruct (decide (w = w')) as [<-|Hne].
      * unfold at_ in Ha. congruence.
      * apply (Hn w'), at_insert. by right.
    + destruct (Hn w). apply at_insert. left. split; [done|]. split; [by apply lookup_lt_Some in Hw|done].
  - intros w' [?|Hx]%lookup_insert_exited; [done|]. by apply He in Hx as [_ ?].
Qed.

Lemma stores_ok u q c ws w i st sg ca : ws !! w = Some (Probing i) ->
  pool_ok (mkPool u q c ws st sg ca) ->
  pool_ok (mkPool u q c (<[w := Idle]> ws) (<[i := row_status i]> st) sg ca).
Proof.
  intros Hw Hk. pose proof (called_below _ i Hk (probing_called _ Hk w i Hw)) as Hi.
  destruct Hk as [Hc H1 Hp Hs Hl Hwl Hcl He Hsg]. cbn in *.
  split; cbn; [done|..|by rewrite length_insert|by rewrite length_insert|done| |done].
  - intros w1 w2 j Ha Hb. apply at_insert in Ha as [(_ & _ & ?)|[_ Ha]]; [done|].
    apply at_insert in Hb as [(_ & _ & ?)|[_ Hb]]; [done|]. by apply (H1 _ _ j).
  - intros w' j [(_ & _ & ?)|[_ Ha]]%at_insert; [done|]. by apply (Hp w').
  - intros j Hj Hn. destruct (decide (i = j)) as [<-|Hne].
    + apply list_lookup_insert_eq. lia.
    + rewrite list_lookup_insert_ne by done. apply Hs; [done|]. intros w' Ha.
      apply (Hn w'), at_insert. right. split; [|done]. intros <-. unfold at_ in Ha. congruence.
  - intros w' [?|Hx]%lookup_insert_exited; [done|]. by apply He in Hx.
Qed.

Lemma leaves_ok u w ws st sg ca : ws !! w = Some Idle ->
  pool_ok (mkPool u [] true ws st sg ca) -> pool_ok (mkPool u [] true (<[w := Exited]> ws) st sg ca).
Proof.
  intros Hw [Hc H1 Hp Hs Hl Hwl Hcl He Hsg]. cbn in *.
  split; cbn; [done|..|done|by rewrite length_insert|done|done|done].
  - intros w1 w2 j Ha Hb. apply at_insert in Ha as [(_ & _ & ?)|[_ Ha]]; [done|].
    apply at_insert in Hb as [(_ & _ & ?)|[_ Hb]]; [done|]. by apply (H1 _ _ j).
  - intros w' j [(_ & _ & ?)|[_ Ha]]%at_insert; [done|]. by apply (Hp w').
  - intros j Hj Hn. apply Hs; [done|]. intros w' Ha. apply (Hn w'), at_insert. right. split; [|done].
    intros <-. unfold at_ in Ha. congruence.
Qed.

Lemma step_ok s s' : step s s' -> pool_ok s -> pool_ok s'.
Proof.
  intros Hst Hk. destruct Hst; [| |by eapply takes_ok|by apply stores_ok|by apply leaves_ok|].
  all: destruct Hk as [Hc H1 Hp Hs Hl Hwl Hcl He Hsg]; cbn in *; split; cbn; try done.
  - by rewrite <- app_assoc.
  - intros E%Hcl. done.
  - intros w Hx. apply He in Hx as [E%Hcl _]. done.
  - intros w Hx. by apply He in Hx as [? _].
  - by right.
Qed.

Lemma steps_ok s : rtc step started s -> pool_ok s.
Proof.
  intros Hr. assert (forall s0, rtc step s0 s -> pool_ok s0 -> pool_ok s) as Hg.
  { intros s0. induction 1; eauto using step_ok. }
  apply (Hg started); [done|apply started_ok].
Qed.

(** ** It ends *)

(** What is left to do. *)
Definition worker_todo (w : Worker) : nat := match w with Idle => 1 | Probing _ => 3 | Exited => 0 end.
Definition todo (s : Pool) : nat :=
  4 * List.length (unsent s) + 3 * List.length (jobs s) + (if jobs_closed s then 0 else 1)
  + sum_list_with worker_todo (workers s) + match signer s with None => 1 | Some _ => 0 end.

Lemma todo_insert ws w x y : ws !! w = Some x ->
  sum_list_with worker_todo (<[w := y]> ws) + worker_todo x = sum_list_with worker_todo ws + worker_todo y.
Proof.
  revert w. induction ws as [|z ws IH]; intros [|w] Hw; cbn in Hw |- *; try done.
  - injection Hw as ->. lia.
  - rewrite <- !Nat.add_assoc. f_equal. by apply IH.
Qed.

Lemma step_todo s s' : step s s' -> todo s' < todo s.
Proof.
  intros Hst. destruct Hst as [| |? ? ? ? ? ? ? ? ? Hw|? ? ? ? ? ? ? ? ? Hw|? ? ? ? ? ? Hw|]; unfold todo; cbn;
    rewrite ?length_app; cbn; try lia.
  - pose proof (todo_insert _ _ _ (Probing i) Hw). cbn in *. lia.
  - pose proof (todo_insert _ _ _ Idle Hw). cbn in *. lia.
  - pose proof (todo_insert _ _ _ Exited Hw). cbn in *. lia.
Qed.

Lemma steps_bounded k s s' : nsteps step k s s' -> k + todo s' <= todo s.
Proof. induction 1 as [|k s1 s2 s3 Hs Hr IH]; [lia|]. apply step_todo in Hs. lia. Qed.

Lemma busy_or_done (ws : list Worker) :
  (exists w x, ws !! w = Some x /\ x <> Exited) \/ (forall x, x ∈ ws -> x = Exited).
Proof.
  induction ws as [|x ws [(w & y & Hw & Hy)|IH]].
  - right. by intros x Hx%elem_of_nil.
  - left. by exists (S w), y.
  - destruct x; [left; by exists 0, Idle|left; by exists 0, (Probing i)|right].
    intros y [->|Hy]%elem_of_cons; [done|by apply IH].
Qed.

(** Nobody waits for anybody for ever. *)
Lemma not_stuck_or_step s : finished s \/ exists s', step s s'.
Proof.
  destruct s as [u q c ws st sg ca]. unfold finished. cbn.
  destruct u as [|i u]; [|right; eexists; apply Sends].
  destruct c; [|right; eexists; apply Closes].
  destruct sg; [|right; eexists; apply SignerProbed].
  destruct (busy_or_done ws) as [(w & x & Hw & Hx)|Hd]; [right|by left].
  destruct x as [|i|]; [|by eexists; eapply Stores|done].
  destruct q; eexists; [by eapply Leaves|by eapply Takes].
Qed.

Lemma finished_result s : pool_ok s -> finished s ->
  signer s = Some signer_probe /\ called s = seq 0 n /\ statuses s = imap (fun i row => probeServer row (probe i)) rows.
Proof.
  intros Hk (Hcl & Hex & Hsg). split; [by destruct (signer_is s Hk)|].
  assert (called s = seq 0 n) as Hca.
  { pose proof (calls_in_order s Hk) as Hc. rewrite (closed_after s Hk Hcl) in Hc.
    pose proof (workers_length s Hk) as Hl. destruct (workers s) as [|w ws] eqn:Ew.
    - destruct n eqn:En; [|done]. cbn in Hc. by destruct (called s).
    - destruct (exited_after s Hk 0) as [_ Hj].
      { rewrite Ew. cbn. f_equal. apply Hex. by left. }
      by rewrite Hj, app_nil_r in Hc. }
  split; [done|]. apply list_eq. intros i. rewrite list_lookup_imap.
  destruct (rows !! i) as [row|] eqn:Er; cbn.
  - rewrite (stored s Hk i).
    + unfold Status.row_status. by rewrite Er.
    + rewrite Hca. apply elem_of_seq. apply lookup_lt_Some in Er. lia.
    + intros w Hw. apply list_elem_of_lookup_2, Hex in Hw. done.
  - apply lookup_ge_None. apply lookup_ge_None in Er. by rewrite (statuses_length s Hk).
Qed.

End Pool.

(** ** The answer *)

#[local] Instance string_leb_trans : Transitive (fun a b : string => String.leb a b = true).
Proof.
  assert (forall a b, String.leb a b = true <-> String.compare a b <> Gt) as Hle.
  { intros a b. unfold String.leb. by destruct (String.compare a b). }
  intros a b c. rewrite !Hle. revert b c.
  induction a as [|x a IH]; intros [|y b] [|z c]; cbn; try done.
  unfold Ascii.compare. destruct (N.compare_spec (N_of_ascii x) (N_of_ascii y)) as [Hxy|Hxy|Hxy];
    destruct (N.compare_spec (N_of_ascii y) (N_of_ascii z)) as [Hyz|Hyz|Hyz];
    destruct (N.compare_spec (N_of_ascii x) (N_of_ascii z)) as [Hxz|Hxz|Hxz]; try done; try lia.
  apply IH.
Qed.

#[local] Instance key_le_total : Total key_le.
Proof. intros a b. apply String.leb_total. Qed.

#[local] Instance key_le_trans : Transitive key_le.
Proof. intros a b c. unfold key_le. apply string_leb_trans. Qed.

Lemma probeServer_alias row p : Alias (probeServer row p) = rAlias row.
Proof. unfold probeServer. destruct (answer p) as [out|]; [|done]. by destruct (contains out _). Qed.

Lemma snapshot_alias raw : map rAlias (snapshotRegistry raw) = (merge_sort key_le (map_to_list raw)).*1.
Proof. unfold snapshotRegistry. rewrite map_map. apply map_ext. done. Qed.

Lemma snapshot_in raw a : a ∈ map rAlias (snapshotRegistry raw) <-> a ∈ dom raw.
Proof.
  rewrite snapshot_alias. destruct (sorted_entries raw) as (_ & _ & ->).
  rewrite elem_of_dom, list_elem_of_fmap. split.
  - intros ([k v] & -> & Hin%elem_of_map_to_list). by exists v.
  - intros [v Hv]. exists (a, v). split; [done|]. by apply elem_of_map_to_list.
Qed.

Lemma snapshot_sorted raw :
  StronglySorted (fun a b => String.leb a b = true) (map rAlias (snapshotRegistry raw))
  /\ NoDup (map rAlias (snapshotRegistry raw)).
Proof.
  rewrite snapshot_alias. split; [|by destruct (sorted_entries raw) as (_ & ? & _)].
  pose proof (StronglySorted_merge_sort key_le (map_to_list raw)) as Hs.
  induction Hs as [|x l Hl IH Hx]; cbn; constructor; [done|]. by apply Forall_fmap.
Qed.

Lemma statuses_alias (rows : list registryRow) (probe : nat -> Probe) :
  map Alias (imap (fun i row => probeServer row (probe i)) rows) = map rAlias rows.
Proof.
  apply list_eq. intros i. rewrite !list_lookup_fmap, list_lookup_imap.
  destruct (rows !! i); cbn; [|done]. by rewrite probeServer_alias.
Qed.

(** C36: The status tool's answer.  However the main goroutine, the workers and the
    signer's probe interleave, the call ends within a number of steps linear in the
    number of servers, and never waits for ever; at most four servers are probed at a
    time; at the end every registered server was called exactly once, in alphabetical
    order, and the answer is the signer's probe and one row per server, each the
    server's own, sorted by alias. *)
Theorem status_reports (raw : gmap string Entry) (probe : nat -> Probe) (signer_probe : SignerStatus) (s : Pool)
    (Hrun : rtc (step (snapshotRegistry raw) probe signer_probe) (started (snapshotRegistry raw)) s) :
  let rows := snapshotRegistry raw in
  let n := List.length rows in
  (forall k s', nsteps (step rows probe signer_probe) k (started rows) s' -> k <= 5 * n + 2)
  /\ (finished s \/ exists s', step rows probe signer_probe s s')
  /\ List.length (workers s) <= 4
  /\ (finished s ->
      called s = seq 0 n
      /\ exists sts, Status true true s = inl (signer_probe, sts)
         /\ sts = imap (fun i row => probeServer row (probe i)) rows
         /\ StronglySorted (fun a b => String.leb a b = true) (map Alias sts) /\ NoDup (map Alias sts)
         /\ forall a, In a (map Alias sts) <-> a ∈ dom raw).
Proof.
  intros rows n. pose proof (steps_ok _ _ _ _ Hrun) as Hk. split_and!.
  - intros k s' Hs%steps_bounded. unfold todo, started in Hs. cbn [unsent jobs jobs_closed workers signer List.length] in Hs.
    rewrite length_seq in Hs. fold n in Hs.
    assert (forall m, sum_list_with worker_todo (replicate m Idle) = m) as Hm.
    { induction m as [|m IH]; cbn; [done|]. by rewrite IH. }
    rewrite Hm in Hs. unfold statusServerProbeWorkers in Hs. lia.
  - destruct (not_stuck_or_step rows probe signer_probe s) as [Hf|Hs]; [by left|by right].
  - rewrite (workers_length _ _ _ s Hk). unfold statusServerProbeWorkers. lia.
  - intros Hf. destruct (finished_result _ _ _ s Hk Hf) as (Hsg & Hca & Hst). split; [done|].
    exists (statuses s). unfold Status. cbn [negb]. rewrite Hsg, Hst, statuses_alias. split; [done|].
    split; [done|]. destruct (snapshot_sorted raw) as [Hso Hnd]. split; [done|]. split; [done|].
    intros a. by rewrite <- list_elem_of_In, snapshot_in.
Qed.

(** A row says reachable exactly when the gate's greeting came back; a gate asked for
    nothing prints it. *)
Lemma reachable_iff row p :
  Reachable (probeServer row p) = true <-> exists out, answer p = inl out /\ contains out (lit "SSHGATE_OK") = true.
Proof.
  unfold probeServer. destruct (answer p) as [out|err]; [|naive_solver].
  destruct (contains out _) eqn:E; cbn; naive_solver.
Qed.

(** Any gate process that has its salt greets a probe. *)
Lemma gate_reachable `{Hm : Hmac, Ed : Ed25519, Pd : PemDecoder} (e : Gate.Env) (w : Gate.World) row t :
  Gate.random_salt e <> None -> Gate.SSH_ORIGINAL_COMMAND e = "" -> Gate.stdout w = [] ->
  Reachable (probeServer row (mkProbe (inl (Gate.stdout (Gate.run e w).2)) t)) = true.
Proof.
  intros Hs He Hw. apply reachable_iff. eexists. split; [reflexivity|].
  unfold Gate.run. destruct (Gate.random_salt e); [|done]. rewrite He. cbn [String.eqb snd Gate.stdout Gate.Println].
  by rewrite Hw.
Qed.

(** ** What it says of the signer *)

(** The socket as the kernel shows it to this process: stat and connect need search
    permission on its directory, and connect needs write permission on it. *)
Record Access := mkAccess { searchable : bool; present : bool; writable : bool; accepting : bool }.

Definition unix_stat (a : Access) : bool := searchable a && present a.

Definition unix_dial (path : string) (a : Access) : option DialError :=
  let err text perm := Some (mkDialError ("dial unix " +:+ path +:+ ": connect: " +:+ text) perm) in
  if negb (searchable a) then err "permission denied" true
  else if negb (present a) then err "no such file or directory" false
  else if negb (writable a) then err "permission denied" true
  else if accepting a then None else err "connection refused" false.

(** As the installer leaves it: directory 0750, socket 0660, both of one group. *)
Definition installed (in_group listens : bool) : Access := mkAccess in_group true in_group listens.

(** The permission case needs a socket that may be found and not written. *)
Lemma permission_iff path a : path <> "" ->
  Permission (probeSignerSocket path (unix_stat a) (unix_dial path a)) = true
  <-> searchable a = true /\ present a = true /\ writable a = false.
Proof.
  intros Hp%String.eqb_neq. unfold probeSignerSocket, unix_stat, unix_dial. rewrite Hp.
  destruct (searchable a), (present a), (writable a), (accepting a); cbn; naive_solver.
Qed.

(** On an installed host nobody is ever told so: who is not in the group is told that
    no signer is configured. *)
Lemma outsider_told_unconfigured path in_group listens : path <> "" ->
  let s := probeSignerSocket path (unix_stat (installed in_group listens)) (unix_dial path (installed in_group listens)) in
  Permission s = false
  /\ (in_group = false ->
      Configured s = false /\ exists tail,
      signer_line s = "signer: not configured (" +:+ path +:+ tail).
Proof.
  intros Hp%String.eqb_neq. unfold probeSignerSocket, unix_stat, unix_dial. rewrite Hp.
  destruct in_group, listens; cbn; (split; [done|]); intros E; try done; split; try done;
    by eexists.
Qed.

(** ** Witness *)

Definition two_servers : gmap string Entry :=
  {[ "web" := mkEntry "h1" 22 "u" 0 true ""; "db" := mkEntry "h2" 22 "u" 0 true "" ]}.

Definition probes (i : nat) : Probe :=
  if i =? 0 then mkProbe (inl (lit "SSHGATE_OK" ++ [NL])) 3500000 else mkProbe (inr "timeout") 0.

Definition no_signer : SignerStatus := probeSignerSocket "/run/sshgatesigner/sock" false None.

(** A run in which the second worker is done first. *)
Lemma status_reports_witness :
  exists s, rtc (step (snapshotRegistry two_servers) probes no_signer) (started (snapshotRegistry two_servers)) s
  /\ finished s
  /\ Status true true s = inl (no_signer,
       [mkServer "db" true 3 ""; mkServer "web" false 0 "timeout"]).
Proof.
  set (rows := snapshotRegistry two_servers).
  assert (exists s, rtc (step rows probes no_signer) (started rows) s /\ finished s) as (s & Hr & Hf).
  { eexists. split.
    - eapply rtc_l; [apply Sends|]. eapply rtc_l; [apply (Takes _ _ _ _ _ _ _ _ 0); reflexivity|].
      eapply rtc_l; [apply Sends|]. eapply rtc_l; [apply (Takes _ _ _ _ _ _ _ _ 1); reflexivity|].
      eapply rtc_l; [apply (Stores _ _ _ _ _ _ _ 1); reflexivity|].
      eapply rtc_l; [apply SignerProbed|]. eapply rtc_l; [apply Closes|].
      eapply rtc_l; [apply (Stores _ _ _ _ _ _ _ 0); reflexivity|].
      eapply rtc_l; [apply (Leaves _ _ _ _ _ 0); reflexivity|].
      eapply rtc_l; [apply (Leaves _ _ _ _ _ 1); reflexivity|]. apply rtc_refl.
    - split; [done|]. split; [|done]. cbn. intros w Hw. set_solver. }
  exists s. split; [done|]. split; [done|].
  destruct (status_reports two_servers probes no_signer s Hr) as (_ & _ & _ & Hfin).
  destruct (Hfin Hf) as (_ & sts & -> & -> & _). vm_compute. reflexivity.
Defined.
