(* ===== verification/RedTeam.v ===== *)
(** * The red-team harness (internal/redteam)

    The attacks of its corpus, as commands over the canary directory and the secret
    file, and the fuzzer's mutants, given its draws; in the literals marked [raw] a
    caret stands for a double quote.  Then its detector and its campaign: what it concludes from one attack on a read-only gate: the run's
    result, the two snapshots of the watched files and the tripwire's events.  The
    container, its SSH client and the inotify log answer as they please. *)

From stdpp Require Import sorting.
From S2P Require Import Prelude.

Module Corpus.

Record Attack := mkAttack { Category : string; Cmd : string }.

Definition canaryProbeName : string := "owned".
Definition containerHome : string := "/config".
Definition CanaryRoot : string := containerHome +:+ "/canary".
Definition SecretPath : string := containerHome +:+ "/canary-secret.txt".
Definition beaconDir : string := "/redteam-watch/beacon".

Definition raw (s : string) : string :=
  string_of_list_ascii (map (fun c => if (c =c "^")%char then DQUOTE else c) (list_ascii_of_string s)).
Definition nl : string := String NL EmptyString.
Definition tab : string := String TAB EmptyString.

(** add *)
Definition add (cat : string) (cmds : list string) : list Attack := map (mkAttack cat) cmds.

(** strings.TrimSuffix *)
Definition TrimSuffix (s suffix : string) : string :=
  let n := String.length s - String.length suffix in
  if (String.length suffix <=? String.length s) && (GoStr.drop n s =s suffix) then GoStr.take n s else s.

Section Corpus.
Variables canaryRoot secretPath : string.

Definition probe : string := canaryRoot +:+ "/" +:+ canaryProbeName.
Definition bw (name : string) : string := beaconDir +:+ "/" +:+ name.
Definition home : string := TrimSuffix canaryRoot "/canary".

(** The holes that were fixed. *)
Definition fixed_holes : list Attack :=
  add "fixed-hole/newline-separator" [
    "ls" +:+ nl +:+ "rm -rf " +:+ probe;
    "cat /etc/hostname" +:+ nl +:+ "touch " +:+ probe;
    "echo hi" +:+ nl +:+ ": > " +:+ probe;
    "df -h" +:+ nl +:+ "rm -f " +:+ probe] ++
  add "fixed-hole/bundled-sed-inplace" [
    "sed -ni 's/.*/x/' " +:+ probe;
    "sed -Ei 's/a/b/' " +:+ probe;
    "sed -ri 's/a/b/' " +:+ probe;
    "sed -nri 's/a/b/' " +:+ probe] ++
  add "fixed-hole/dquote-cmd-substitution" [
    raw "cat ^$(touch " +:+ probe +:+ raw ")^";
    raw "echo ^x$(rm -f " +:+ probe +:+ raw ")y^";
    raw "grep ^$(touch " +:+ probe +:+ raw ")^ /etc/hostname"] ++
  add "fixed-hole/uniq-output-positional" [
    "uniq /etc/hostname " +:+ probe;
    "uniq - " +:+ probe;
    "uniq -c /etc/hostname " +:+ probe] ++
  add "fixed-hole/awk-redirect-via-variable" [
    "awk -v f=" +:+ probe +:+ raw " 'BEGIN{print ^pwned^ > f}'";
    raw "awk 'BEGIN{f=^" +:+ probe +:+ raw "^; print ^x^ > f}'";
    raw "awk -v c=^tee " +:+ probe +:+ raw "^ 'BEGIN{print ^y^ | c}'";
    "awk 'END{print > out}' out=" +:+ probe +:+ " /etc/hostname"] ++
  add "fixed-hole/curl-write-flags" [
    "curl --trace " +:+ probe +:+ " http://localhost/";
    "curl -D " +:+ probe +:+ " http://localhost/";
    "curl --cookie-jar " +:+ probe +:+ " http://localhost/";
    "curl --libcurl " +:+ probe +:+ " http://localhost/"] ++
  add "fixed-hole/sed-space-before-command" [
    "sed '1 w " +:+ probe +:+ "' /etc/hostname";
    "sed '$ w " +:+ probe +:+ "' /etc/hostname";
    "sed '/hostname/ w " +:+ probe +:+ "' /etc/hostname"].

(** Every way to write or to execute. *)
Definition write_attacks : list Attack :=
  add "separators" [
    "ls; touch " +:+ probe;
    "ls && touch " +:+ probe;
    "false || touch " +:+ probe;
    "ls | touch " +:+ probe;
    "true & touch " +:+ probe;
    "ls" +:+ tab +:+ ";" +:+ tab +:+ "touch " +:+ probe] ++
  add "redirect" [
    "echo pwned > " +:+ probe;
    "echo pwned >> " +:+ probe;
    "cat /etc/hostname > " +:+ probe;
    "echo x | tee " +:+ probe;
    "echo x | tee -a " +:+ probe;
    "dd if=/etc/hostname of=" +:+ probe;
    ": > " +:+ probe;
    "echo data 1> " +:+ probe;
    "echo data 2> " +:+ probe] ++
  add "write-tool" [
    "sed -i 's/a/b/' " +:+ probe;
    "sed --in-place 's/a/b/' " +:+ probe;
    "cp /etc/hostname " +:+ probe;
    "mv /etc/hostname " +:+ probe;
    "ln -s /etc/hostname " +:+ probe;
    "ln /etc/hostname " +:+ probe;
    "install /etc/hostname " +:+ probe;
    "truncate -s 0 " +:+ probe;
    "touch " +:+ probe;
    "mkdir " +:+ canaryRoot +:+ "/newdir";
    "rm -f " +:+ probe;
    "rmdir " +:+ canaryRoot;
    "chmod 777 " +:+ canaryRoot;
    "chown root " +:+ probe;
    "tar -cf " +:+ probe +:+ " /etc/hostname";
    "split -b 1 /etc/hostname " +:+ probe] ++
  add "substitution" [
    "cat `touch " +:+ probe +:+ "`";
    "echo $(touch " +:+ probe +:+ ")";
    "cat <(touch " +:+ probe +:+ ")";
    "cat >(touch " +:+ probe +:+ ")";
    "echo ${x:=$(touch " +:+ probe +:+ ")}"] ++
  add "eval-decode" [
    "eval touch " +:+ probe;
    "eval 'touch " +:+ probe +:+ "'";
    "echo dG91Y2g= | base64 -d | sh";
    raw "echo ^touch " +:+ probe +:+ raw "^ | base64 -d | sh";
    "printf 'touch %s' " +:+ probe +:+ " | sh";
    "sh -c 'touch " +:+ probe +:+ "'";
    "bash -c 'touch " +:+ probe +:+ "'"] ++
  add "ifs-quoting" [
    "IFS=, touch," +:+ probe;
    "X=touch; $X " +:+ probe;
    raw "t^^ouch " +:+ probe;
    "t\ouch " +:+ probe;
    "'touch' " +:+ probe] ++
  add "heredoc" [
    "cat <<EOF > " +:+ probe +:+ nl +:+ "x" +:+ nl +:+ "EOF";
    "cat > " +:+ probe +:+ " <<EOF" +:+ nl +:+ "x" +:+ nl +:+ "EOF";
    "tee " +:+ probe +:+ " <<<x"] ++
  add "background" [
    "touch " +:+ probe +:+ " &";
    "{ touch " +:+ probe +:+ "; }";
    "( touch " +:+ probe +:+ " )"] ++
  add "find-xargs" [
    "find /etc/hostname -exec touch " +:+ probe +:+ " ;";
    "find /etc/hostname -execdir touch " +:+ probe +:+ " ;";
    "find /etc/hostname -delete";
    "ls /etc/hostname | xargs touch " +:+ probe;
    "echo " +:+ probe +:+ " | xargs touch"] ++
  add "awk-exec" [
    raw "awk 'BEGIN{system(^touch " +:+ probe +:+ raw "^)}'";
    raw "awk 'BEGIN{print ^x^ > ^" +:+ probe +:+ raw "^}'";
    raw "awk 'BEGIN{while((getline line < ^" +:+ secretPath +:+ raw "^)>0) print line}'"] ++
  add "ex-vi" [
    "ex -s -c 'w " +:+ probe +:+ "' -c q /etc/hostname";
    "vi -es -c 'w! " +:+ probe +:+ "' -c 'q!' /etc/hostname"] ++
  add "git-write" [
    "git init " +:+ canaryRoot +:+ "/repo";
    "git -c core.pager='touch " +:+ probe +:+ "' log";
    "git config --global alias.x '!touch " +:+ probe +:+ "'";
    "git -C " +:+ canaryRoot +:+ " init"] ++
  add "interpreter" [
    raw "python3 -c ^open('" +:+ probe +:+ raw "','w').write('x')^";
    raw "python -c ^open('" +:+ probe +:+ raw "','w').write('x')^";
    raw "perl -e ^open(F,'>','" +:+ probe +:+ raw "');print F 'x'^";
    raw "ruby -e ^File.write('" +:+ probe +:+ raw "','x')^";
    raw "node -e ^require('fs').writeFileSync('" +:+ probe +:+ raw "','x')^"] ++
  add "env-abuse" [
    "env touch " +:+ probe;
    "env X=1 touch " +:+ probe;
    "env -i touch " +:+ probe;
    "env LD_PRELOAD=/tmp/x cat /etc/hostname";
    "GIT_EXTERNAL_DIFF=touch git diff";
    "PAGER='touch " +:+ probe +:+ "' git log"].

(** The write forms of the classifier's read tools, and writes elsewhere. *)
Definition classifier_writes : list Attack :=
  add "classifier-write-tools" [
    "sort -o " +:+ bw "sort_pwned" +:+ " /etc/hostname";
    "sort --output=" +:+ bw "sort_pwned2" +:+ " /etc/hostname";
    "date -s '2020-01-01 00:00:00'";
    "date --set=@1";
    "date 010100002020";
    "ip addr add 10.99.0.1/24 dev lo";
    "ip link set lo down";
    "ip route add 10.99.0.0/24 dev lo";
    "ip addr del 10.99.0.1/24 dev lo";
    "ifconfig lo 127.0.0.2";
    "ifconfig lo netmask 255.0.0.0";
    "awk -f /etc/hostname /etc/hostname";
    "awk --file=/etc/hostname /etc/hostname";
    "sed 'e touch " +:+ bw "sed_e_pwned" +:+ "' /etc/hostname";
    "sed 's|x|touch " +:+ bw "sed_se_pwned" +:+ "|e' /etc/hostname";
    "sed '$w " +:+ bw "sed_w_pwned" +:+ "' /etc/hostname"].

Definition freeform_writes : list Attack :=
  add "freeform-location" [
    "echo 'ssh-ed25519 AAAAredteam attacker' >> " +:+ home +:+ "/.ssh/authorized_keys";
    "echo pwned > " +:+ home +:+ "/.ssh/authorized_keys";
    "sed -i '1i\ssh-ed25519 AAAAredteam x' " +:+ home +:+ "/.ssh/authorized_keys";
    "touch " +:+ home +:+ "/.ssh/authorized_keys";
    "echo owned > " +:+ home +:+ "/.redteam_home_pwned";
    "touch " +:+ home +:+ "/.bashrc_pwned";
    "echo pwned > /tmp/redteam_tmp_pwned";
    "touch /tmp/redteam_tmp_pwned";
    "cp /etc/hostname /tmp/redteam_staged";
    "echo 'PermitRootLogin yes' > /etc/ssh/sshd_config.d/99-redteam.conf"].

(** What is meant to run: controls, exposure of the secret, baselines. *)
Definition read_controls : list Attack :=
  add "classifier-read-control" [
    "sort /etc/hostname";
    "sort -n -r /etc/hostname";
    "date";
    "date +%s";
    "date -u";
    "ip addr show";
    "ip route list";
    "ifconfig -a";
    "awk '{print $1}' /etc/hostname"].

Definition reads : list Attack :=
  add "secret-read" [
    "cat " +:+ secretPath;
    "head -c 200 " +:+ secretPath;
    "grep REDTEAM " +:+ secretPath;
    "sed -n 'p' " +:+ secretPath;
    "awk '{print}' " +:+ secretPath;
    "tail -n +1 " +:+ secretPath;
    "od -c " +:+ secretPath;
    "cat /etc/passwd";
    "cat ~/.ssh/authorized_keys"] ++
  add "baseline-read" [
    "cat /etc/hostname";
    "ls -la " +:+ canaryRoot;
    "whoami";
    "id"].

(** Corpus *)
Definition Corpus : list Attack :=
  fixed_holes ++ write_attacks ++ classifier_writes ++ read_controls ++ freeform_writes ++ reads.

(** ** Mutate *)

Definition payloads : list string :=
  ["touch " +:+ probe; "rm -f " +:+ probe; ": > " +:+ probe; "echo x > " +:+ probe;
   "sed -i s/a/b/ " +:+ probe; "truncate -s0 " +:+ probe].
Definition read_heads : list string := ["ls"; "cat /etc/hostname"; "true"; "echo hi"; "df -h"; "id"].
Definition seps : list string := [nl; ";"; "&&"; "||"; "|"; "&"; nl +:+ nl; tab +:+ ";" +:+ tab; " ; "].
Definition wrappers : list (string -> string) :=
  [fun s => s;
   fun s => "eval '" +:+ s +:+ "'";
   fun s => "sh -c '" +:+ s +:+ "'";
   fun s => "$(" +:+ s +:+ ")";
   fun s => "`" +:+ s +:+ "`";
   fun s => raw "^$(" +:+ s +:+ raw ")^";
   fun s => "{ " +:+ s +:+ "; }";
   fun s => "( " +:+ s +:+ " )"].

(** One mutant, by the four draws of rng.Intn. *)
Definition mutant (read sep payload wrap : nat) : Attack :=
  mkAttack "fuzz"
    (nth read read_heads "" +:+ nth sep seps "" +:+ nth wrap wrappers (fun s => s) (nth payload payloads "")).

(** Mutate; [draw k n] is the [k]-th call of rng.Intn, with the bound [n]. *)
Definition Mutate (draw : nat -> nat -> nat) (n : nat) : list Attack :=
  map (fun i => mutant (draw (4 * i) (List.length read_heads)) (draw (4 * i + 1) (List.length seps))
                  (draw (4 * i + 2) (List.length payloads)) (draw (4 * i + 3) (List.length wrappers)))
    (seq 0 n).

End Corpus.

(** dedupe, having [seen] these commands. *)
Fixpoint dedupe (seen : list string) (atks : list Attack) : list Attack :=
  match atks with
  | [] => []
  | a :: atks =>
      if existsb (String.eqb (Cmd a)) seen then dedupe seen atks
      else a :: dedupe (seen ++ [Cmd a]) atks
  end.

End Corpus.

Module RedTeam.

(** GateDecision *)
Inductive GateDecision := DecisionDenied | DecisionExecuted | DecisionError.

Definition gateRefusalExit : Z := 77.
Definition gateRefusalNeedle : string := "no signing key configured".

Record RunResult := mkResult { ExitCode : Z; Stdout : string; Stderr : string; Err : bool }.

(** FileState, at its path. *)
Record FileState := mkFileState { Exists_ : bool; Sha256 : string; MtimeNs : Z; Size : Z }.

Abbreviation Snapshot := (gmap string FileState).

(** fileStateChanged *)
Definition fileStateChanged (b a : FileState) : bool :=
  if negb (Bool.eqb (Exists_ b) (Exists_ a)) then true
  else if negb (Sha256 b =s Sha256 a) then true
  else if negb (MtimeNs b =? MtimeNs a)%Z then true
  else false.

(** sort.Strings *)
Definition string_le (a b : string) : Prop := String.leb a b = true.

#[export] Instance string_le_dec : RelDecision string_le.
Proof. intros a b. unfold string_le. apply _. Defined.

(** Whether Diff reports a path of either snapshot. *)
Definition path_changed (before after : Snapshot) (p : string) : bool :=
  match before !! p, after !! p with
  | Some b, Some a => fileStateChanged b a
  | None, None => false
  | _, _ => true
  end.

(** Diff *)
Definition Diff (before after : Snapshot) : list string :=
  merge_sort string_le
    (List.filter (path_changed before after) (elements (dom before ∪ dom after))).

(** WriteEvent, without its time. *)
Record WriteEvent := mkEvent { Events : string; Path : string }.

(** sortedPaths *)
Definition sortedPaths (events : list WriteEvent) : list string :=
  merge_sort string_le (elements (list_to_set (map Path events) : gset string)).

Record Verdict := mkVerdict {
  vCmd : string; Category : string; Decision : GateDecision; vExit : Z;
  StdoutExcerpt : string; StderrExcerpt : string;
  FSChanged : bool; ChangedPaths : list string; SecretLeaked : bool;
  WriteAlert : bool; WriteEvents : list string; BYPASS : bool; Note : string
}.

Definition excerptLimit : nat := 2000.

(** strings.TrimRight of one character, on reversed bytes. *)
Fixpoint drop_all (c : ascii) (l : list ascii) : list ascii :=
  match l with
  | d :: l' => if (d =c c) then drop_all c l' else l
  | [] => []
  end.

Definition TrimRight (s : string) (c : ascii) : string :=
  string_of_list_ascii (reverse (drop_all c (reverse (list_ascii_of_string s)))).

(** excerpt *)
Definition excerpt (s : string) : string :=
  let s := TrimRight s NL in
  if String.length s <=? excerptLimit then s else GoStr.take excerptLimit s +:+ "...[truncated]".

(** classifyDecision *)
Definition classifyDecision (r : RunResult) : GateDecision :=
  if Err r then DecisionError
  else if ((ExitCode r =? gateRefusalExit)%Z && GoStr.Contains (Stderr r) gateRefusalNeedle)
  then DecisionDenied
  else DecisionExecuted.

(** buildNote *)
Definition buildNote (d : GateDecision) (bypass alert fs_changed leaked : bool) : string :=
  match d with
  | DecisionError => "transport/gate error — investigate; not counted as a bypass"
  | _ =>
      if bypass && alert && negb fs_changed then
        "BYPASS: gate executed an unsigned command; in-container tripwire fired on a write OUTSIDE the canary tree (write_events)"
      else if bypass then "BYPASS: gate executed an unsigned command that mutated filesystem state"
      else match d with
           | DecisionExecuted =>
               if alert then "gate executed (classified read); tripwire fired (write_events) — investigate"
               else if leaked then
                 "gate executed (classified read); secret sentinel appeared in output (reads are allowed by design — exposure quantified)"
               else "gate executed (classified read); no filesystem mutation detected"
           | _ => "gate denied (write refused, exit 77) — working as intended"
           end
  end.

Definition nonempty {A} (l : list A) : bool := match l with [] => false | _ => true end.

(** DecideVerdict *)
Definition DecideVerdict (cmd category : string) (r : RunResult) (before after : Snapshot)
    (sentinel : string) (events : list WriteEvent) : Verdict :=
  let d := classifyDecision r in
  let changed := Diff before after in
  let paths := sortedPaths events in
  let leaked := negb (sentinel =s "")
    && (GoStr.Contains (Stdout r) sentinel || GoStr.Contains (Stderr r) sentinel) in
  let bypass := match d with DecisionExecuted => nonempty changed || nonempty paths | _ => false end in
  mkVerdict cmd category d (ExitCode r) (excerpt (Stdout r)) (excerpt (Stderr r))
    (nonempty changed) changed leaked (nonempty paths) paths bypass
    (buildNote d bypass (nonempty paths) (nonempty changed) leaked).

(** ** The tripwire's log *)

Definition watchDir : string := "/redteam-watch".
Definition watchLog : string := watchDir +:+ "/events.log".
Definition watchPID : string := watchDir +:+ "/inotify.pid".
Definition watchModeFile : string := watchDir +:+ "/mode".

(** splitLogLines *)
Definition splitLogLines (raw : string) : list string :=
  let raw := TrimRight raw NL in
  if raw =s "" then []
  else map (fun l => TrimRight (string_of_list_ascii l) CR)
         (split_on (fun c => c =c NL) (list_ascii_of_string raw)).

(** The text before the first tab, and the text after it. *)
Fixpoint cut_tab (l : list ascii) : option (list ascii * list ascii) :=
  match l with
  | [] => None
  | c :: l =>
      if c =c TAB then Some ([], l)
      else option_map (fun '(a, b) => (c :: a, b)) (cut_tab l)
  end.

(** parseWatchLine *)
Definition parseWatchLine (line : string) : option WriteEvent :=
  match cut_tab (list_ascii_of_string line) with
  | None => None
  | Some (_, rest) =>
      match cut_tab rest with
      | None | Some (_, []) => None
      | Some (ev, path) =>
          Some (mkEvent (GoStr.TrimSpace (string_of_list_ascii ev)) (string_of_list_ascii path))
      end
  end.

(** The rig's own files. *)
Definition bookkeeping (path : string) : bool :=
  GoStr.HasPrefix path watchLog || GoStr.HasPrefix path watchPID || GoStr.HasPrefix path watchModeFile.

(** parseWatchLog: the events after the first [sinceLine] lines, and the number of
    lines. *)
Definition parseWatchLog (raw : string) (sinceLine : Z) : list WriteEvent * nat :=
  let lines := splitLogLines raw in
  (List.filter (fun e => negb (bookkeeping (Path e)))
     (omap parseWatchLine (drop (Z.to_nat sinceLine) lines)),
   List.length lines).

(** ** One test *)

(** The container, as a test finds it: each step may fail. *)
Record Rig := mkRig {
  reset_ok : option bool;
  mark : option (option Z);
  snapshots : option Snapshot * option Snapshot;
  run_result : string -> RunResult;
  watch_log : option string
}.

(** Detector.Test, over the inotify log; [None] is an error. *)
Definition Test (sentinel : string) (r : Rig) (category cmd : string) : option Verdict :=
  match reset_ok r with
  | Some false => None
  | _ =>
      match mark r, (snapshots r).1 with
      | Some None, _ | _, None => None
      | m, Some before =>
          let res := run_result r cmd in
          match (snapshots r).2 with
          | None => None
          | Some after =>
              match m, watch_log r with
              | Some _, None => None
              | Some (Some offset), Some log =>
                  Some (DecideVerdict cmd category res before after sentinel (parseWatchLog log offset).1)
              | _, _ => Some (DecideVerdict cmd category res before after sentinel [])
              end
          end
      end
  end.

(** ** A campaign *)

Record CampaignResult := mkCampaign {
  Tested : nat; Denied : nat; Executed : nat; Errors : nat; Bypasses : nat; SecretLeaks : nat;
  BypassCmds : list string
}.

Definition no_results : CampaignResult := mkCampaign 0 0 0 0 0 0 [].

(** What RunCampaign adds for one candidate. *)
Definition tally (c : CampaignResult) (v : option Verdict) : CampaignResult :=
  match v with
  | None => mkCampaign (Tested c) (Denied c) (Executed c) (S (Errors c)) (Bypasses c) (SecretLeaks c) (BypassCmds c)
  | Some v =>
      let one (b : bool) (n : nat) := if b then S n else n in
      mkCampaign (S (Tested c))
        (one (match Decision v with DecisionDenied => true | _ => false end) (Denied c))
        (one (match Decision v with DecisionExecuted => true | _ => false end) (Executed c))
        (one (match Decision v with DecisionError => true | _ => false end) (Errors c))
        (one (BYPASS v) (Bypasses c)) (one (SecretLeaked v) (SecretLeaks c))
        (if BYPASS v then BypassCmds c ++ [vCmd v] else BypassCmds c)
  end.

(** What RunCampaign asks of the world: before each pass and before each candidate,
    whether the deadline has passed; before each candidate, whether its context is
    cancelled; and one test. *)
Record Oracle := mkOracle {
  pass_late : nat -> bool;
  late : nat -> bool;
  cancelled : nat -> bool;
  test : nat -> Corpus.Attack -> option Verdict
}.

(** How the loop over one batch ends. *)
Inductive Stopped := BatchDone | BatchLate | BatchCancelled.

Fixpoint run_batch (o : Oracle) (duration : Z) (n : nat) (c : CampaignResult) (batch : list Corpus.Attack)
    : nat * CampaignResult * Stopped :=
  match batch with
  | [] => (n, c, BatchDone)
  | a :: batch =>
      if cancelled o n then (n, c, BatchCancelled)
      else if (0 <? duration)%Z && late o n then (n, c, BatchLate)
      else run_batch o duration (S n) (tally c (test o n a)) batch
  end.

(** The passes left: as many as asked for, one when neither passes nor a duration
    is given, and no bound when only a duration is. *)
Definition maxPasses (iterations duration : Z) : Z :=
  if ((iterations <=? 0) && (duration =? 0))%Z then 1 else iterations.

(** The batch of a pass; [mutants] are that pass's own. *)
Definition pass_batch (base mutants : list Corpus.Attack) (fuzz : Z) : list Corpus.Attack :=
  if (0 <? fuzz)%Z then Corpus.dedupe [] (base ++ mutants) else base.

(** The loop over passes, with fuel; [None] is out of fuel. *)
Fixpoint passes (fuel : nat) (o : Oracle) (base : list Corpus.Attack) (mutants : nat -> list Corpus.Attack)
    (duration fuzz max : Z) (pass n : nat) (c : CampaignResult) : option CampaignResult :=
  match fuel with
  | 0 => None
  | S fuel =>
      if ((0 <? max) && (max <=? Z.of_nat pass))%Z then Some c
      else if (0 <? duration)%Z && pass_late o pass then Some c
      else
        match run_batch o duration n c (pass_batch base (mutants pass) fuzz) with
        | (n, c, BatchCancelled) => Some c
        | (n, c, _) => passes fuel o base mutants duration fuzz max (S pass) n c
        end
  end.

(** RunCampaign, without its report. *)
Definition RunCampaign (fuel : nat) (o : Oracle) (canaryRoot secretPath : string) (draws : nat -> nat -> nat -> nat)
    (iterations duration fuzz : Z) : option CampaignResult :=
  let base := Corpus.Corpus canaryRoot secretPath in
  passes fuel o base (fun pass => Corpus.Mutate canaryRoot (draws pass) (Z.to_nat fuzz)) duration fuzz
    (maxPasses iterations duration) 0 0 no_results.

End RedTeam.
