(* ===== verification/RedTeamProps.v ===== *)
(** * The red-team harness against the gate

    Every attack of the corpus and every mutant the fuzzer can make is refused by
    any gate, but for one, which runs; and what the detector's verdict means. *)

From stdpp Require Import sorting.
From S2P Require Import Prelude ClassifyArgs Classify Sigwire GateVerify GateVerifyProps RedactScanner GateAudit GateRevoke GateExec GateMain GateMainProps RedTeam.
Import RedTeam Verify Gate.

(** ** The detector *)

Lemma in_elements (p : string) (X : gset string) : In p (elements X) <-> p ∈ X.
Proof. by rewrite <- list_elem_of_In, elem_of_elements. Qed.

Lemma Diff_in before after p : In p (Diff before after) <-> path_changed before after p = true.
Proof.
  unfold Diff. rewrite <- list_elem_of_In, merge_sort_Permutation, list_elem_of_In, filter_In, in_elements.
  split; [by intros [_ ?]|]. intros Hp. split; [|done]. unfold path_changed in Hp.
  rewrite elem_of_union, !elem_of_dom. destruct (before !! p), (after !! p); try done; eauto.
Qed.

Lemma sortedPaths_in events p : In p (sortedPaths events) <-> exists e, In e events /\ Path e = p.
Proof.
  unfold sortedPaths. rewrite <- list_elem_of_In, merge_sort_Permutation, list_elem_of_In, in_elements.
  rewrite elem_of_list_to_set, list_elem_of_In, in_map_iff. naive_solver.
Qed.

Lemma nonempty_in {A} (l : list A) : nonempty l = true <-> exists x, In x l.
Proof. destruct l as [|x l]; cbn; [|naive_solver]. split; [done|]. by intros [? []]. Qed.

(** What a verdict says. *)
Lemma verdict_bypass cmd cat r before after sentinel events :
  BYPASS (DecideVerdict cmd cat r before after sentinel events) = true <->
  Err r = false
  /\ ~ (ExitCode r = gateRefusalExit /\ GoStr.Contains (Stderr r) gateRefusalNeedle = true)
  /\ ((exists p, path_changed before after p = true) \/ events <> []).
Proof.
  unfold DecideVerdict. cbn [BYPASS]. unfold classifyDecision.
  assert (nonempty (Diff before after) || nonempty (sortedPaths events) = true
    <-> (exists p, path_changed before after p = true) \/ events <> []) as Hc.
  { rewrite orb_true_iff, !nonempty_in. setoid_rewrite Diff_in. setoid_rewrite sortedPaths_in.
    destruct events as [|e events]; [naive_solver|]. split; [by right|]. intros _. right. exists (Path e), e.
    split; [by left|done]. }
  destruct (Err r); [naive_solver|].
  destruct (ExitCode r =? gateRefusalExit)%Z eqn:Ee, (GoStr.Contains _ _) eqn:En; cbn [andb].
  1: split; [done|]; intros (_ & Hn & _); exfalso; apply Hn; split; [lia|done].
  all: rewrite Hc; split; [|naive_solver]; intros Hx; split; [done|]; split; [|done]; intros [? ?]; (lia || done).
Qed.

(** A command that ran, and itself says what the gate says when it refuses, hides
    every write it made. *)
Lemma refusal_mimicked cmd cat out before after sentinel events err :
  GoStr.Contains err gateRefusalNeedle = true ->
  let v := DecideVerdict cmd cat (mkResult gateRefusalExit out err false) before after sentinel events in
  Decision v = DecisionDenied /\ BYPASS v = false.
Proof.
  intros He v. unfold v, DecideVerdict, classifyDecision. cbn [Err ExitCode Stderr Decision BYPASS].
  by rewrite He, Z.eqb_refl.
Qed.

(** ** A campaign's counts *)

(** What the counts of a campaign mean: every tested command was denied or run, or
    is one of the errors, and the commands listed are the bypasses. *)
Definition consistent (c : CampaignResult) : Prop :=
  Tested c <= Denied c + Executed c + Errors c
  /\ Bypasses c = List.length (BypassCmds c) /\ Bypasses c <= Executed c.

(** Only what ran is a bypass. *)
Definition sound (v : option Verdict) : Prop :=
  match v with Some v => BYPASS v = true -> Decision v = DecisionExecuted | None => True end.

Lemma verdict_sound cmd cat r before after sentinel events :
  sound (Some (DecideVerdict cmd cat r before after sentinel events)).
Proof. unfold sound, DecideVerdict. cbn [BYPASS Decision]. by destruct (classifyDecision r). Qed.

Lemma tally_consistent c v : sound v -> consistent c -> consistent (tally c v).
Proof.
  unfold consistent, tally, sound. destruct v as [v|]; cbn; [|lia]. intros Hs (Ht & Hb & Hx).
  destruct (BYPASS v) eqn:Eb; [rewrite Hs by done|destruct (Decision v)]; cbn; rewrite ?length_app; cbn;
    split_and!; try done; lia.
Qed.

(** Every count a campaign prints is consistent, however it ends. *)
Lemma campaign_consistent fuel o root secret draws iterations duration fuzz c :
  (forall n a, sound (test o n a)) ->
  RunCampaign fuel o root secret draws iterations duration fuzz = Some c -> consistent c.
Proof.
  intros Hs. unfold RunCampaign.
  generalize (maxPasses iterations duration) as max, (Corpus.Corpus root secret) as base. intros max base.
  generalize (fun pass => Corpus.Mutate root (draws pass) (Z.to_nat fuzz)) as mutants. intros mutants.
  assert (forall batch n c, consistent c -> consistent (run_batch o duration n c batch).1.2) as Hb.
  { intros batch. induction batch as [|a batch IH]; intros n c0 Hc; cbn; [done|].
    destruct (cancelled o n), ((0 <? duration)%Z && late o n); try done. by apply IH, tally_consistent. }
  assert (forall fuel pass n c0, consistent c0 ->
    passes fuel o base mutants duration fuzz max pass n c0 = Some c -> consistent c) as Hp.
  { intros f. induction f as [|f IH]; intros pass n c0 Hc; cbn [passes]; [done|].
    destruct ((0 <? max)%Z && _); [by intros [= <-]|].
    destruct ((0 <? duration)%Z && _); [by intros [= <-]|].
    specialize (Hb (pass_batch base (mutants pass) fuzz) n c0 Hc).
    destruct (run_batch _ _ _ _ _) as [[n' c'] []]; cbn in Hb; [by apply IH..|by intros [= <-]]. }
  apply Hp. unfold consistent. cbn. lia.
Qed.

(** A batch that nothing stops tests all its candidates in order. *)
Lemma run_batch_all o batch : (forall n, cancelled o n = false) -> forall n c,
  run_batch o 0 n c batch =
  (n + List.length batch, foldl tally c (imap (fun i a => test o (n + i) a) batch), BatchDone).
Proof.
  intros Hc. induction batch as [|a batch IH]; intros n c; cbn; [by rewrite Nat.add_0_r|].
  rewrite Hc, IH. cbn. do 2 f_equal; [lia|]. f_equal; [by rewrite Nat.add_0_r|].
  apply imap_ext. intros i x _. cbn. f_equal. lia.
Qed.

Lemma passes_S fuel o base mutants duration fuzz max pass n c :
  passes (S fuel) o base mutants duration fuzz max pass n c =
  if ((0 <? max) && (max <=? Z.of_nat pass))%Z then Some c
  else if (0 <? duration)%Z && pass_late o pass then Some c
  else match run_batch o duration n c (pass_batch base (mutants pass) fuzz) with
       | (_, c, BatchCancelled) => Some c
       | (n, c, _) => passes fuel o base mutants duration fuzz max (S pass) n c
       end.
Proof. reflexivity. Qed.

(** A campaign of [k] passes with no deadline, left alone, ends having tested every
    candidate of every pass once and in order; and what it counts is those tests. *)
Lemma campaign_complete o root secret draws k fuzz :
  (forall n, cancelled o n = false) -> 0 < k ->
  RunCampaign (S k) o root secret draws (Z.of_nat k) 0 fuzz =
  Some (foldl tally no_results (imap (test o) (concat (map (fun pass =>
    pass_batch (Corpus.Corpus root secret) (Corpus.Mutate root (draws pass) (Z.to_nat fuzz)) fuzz) (seq 0 k))))).
Proof.
  intros Hc Hk. unfold RunCampaign, maxPasses. replace (Z.of_nat k <=? 0)%Z with false by lia. cbn [andb].
  generalize (Corpus.Corpus root secret) as base. intros base.
  set (mutants := fun pass => Corpus.Mutate root (draws pass) (Z.to_nat fuzz)).
  assert (forall m pass n c, pass + m = k ->
    passes (S m) o base mutants 0 fuzz (Z.of_nat k) pass n c =
    Some (foldl tally c (imap (fun i a => test o (n + i) a)
      (concat (map (fun pass => pass_batch base (mutants pass) fuzz) (seq pass m)))))) as Hm.
  { intros m. induction m as [|m IH]; intros pass n c Hp; rewrite passes_S.
    - replace ((0 <? Z.of_nat k)%Z && _) with true by lia. done.
    - replace ((0 <? Z.of_nat k)%Z && _) with false by lia. cbn [Z.ltb Z.compare andb].
      rewrite run_batch_all by done. rewrite IH by lia. cbn [seq map concat]. rewrite imap_app, foldl_app.
      do 2 f_equal. apply imap_ext. intros i x _. cbn. f_equal. lia. }
  by rewrite (Hm k 0 0) by lia.
Qed.

(** One pass, the default of the command, is one pass whatever the duration. *)
Lemma duration_overrides_nothing o root secret draws duration fuzz :
  exists c, RunCampaign 2 o root secret draws 1 duration fuzz = Some c.
Proof.
  unfold RunCampaign, maxPasses. rewrite passes_S. cbn [Z.leb Z.compare andb Z.ltb Z.of_nat].
  destruct ((0 <? duration)%Z && _); [by eexists|].
  destruct (run_batch _ _ _ _ _) as [[n' c'] []]; rewrite ?passes_S; by eexists.
Qed.

(** What a batch leaves out, it tests under another category. *)
Lemma dedupe_keeps atks : forall seen a, In a atks -> ~ In (Corpus.Cmd a) seen ->
  exists a', In a' (Corpus.dedupe seen atks) /\ Corpus.Cmd a' = Corpus.Cmd a.
Proof.
  induction atks as [|b atks IH]; intros seen a; [done|]. cbn [Corpus.dedupe].
  intros Hin Hs. destruct (existsb (String.eqb (Corpus.Cmd b)) seen) eqn:Eb.
  - destruct Hin as [<-|Hin]; [|by apply IH]. exfalso. apply Hs.
    apply existsb_exists in Eb as (x & Hx & ->%String.eqb_eq). done.
  - destruct (decide (Corpus.Cmd b = Corpus.Cmd a)) as [He|He]; [exists b; split; [by left|done]|].
    destruct Hin as [<-|Hin]; [done|]. destruct (IH (seen ++ [Corpus.Cmd b]) a Hin) as (a' & Ha & Hc).
    + rewrite in_app_iff. cbn. naive_solver.
    + exists a'. split; [by right|done].
Qed.

(** ** The corpus at the gate *)

Section Gate.
Context `{Hmac} `{Ed25519} `{PemDecoder}.

(** The attacks that write, and the one of them that runs. *)
Definition write_corpus : list Corpus.Attack :=
  Corpus.fixed_holes Corpus.CanaryRoot ++ Corpus.write_attacks Corpus.CanaryRoot Corpus.SecretPath
  ++ Corpus.classifier_writes ++ Corpus.freeform_writes Corpus.CanaryRoot.

Definition git_config_line : string := "git config --global alias.x '!touch /config/canary/owned'".

(** What is meant to run, and the one command of it that does not. *)
Definition read_corpus : list Corpus.Attack :=
  Corpus.read_controls ++ Corpus.reads Corpus.CanaryRoot Corpus.SecretPath.

Definition od_line : string := "od -c /config/canary-secret.txt".

Definition is_read (line : string) : bool :=
  negb (Sigwire.IsSigned line) && match Classify line with KindRead => true | _ => false end.

Definition is_refused (line : string) : bool :=
  negb (Sigwire.IsSigned line) && match Classify line with KindRead => false | _ => true end.

Lemma read_authorised e : is_read (SSH_ORIGINAL_COMMAND e) = true -> operational e ->
  authorised e (SSH_ORIGINAL_COMMAND e) false.
Proof.
  unfold is_read. intros [Hs Hc]%andb_true_iff Ho. split; [done|]. left. split; [by apply negb_true_iff|].
  split; [done|]. split; [|done]. by destruct (Classify _).
Qed.

Lemma refused_runs_nothing e w : is_refused (SSH_ORIGINAL_COMMAND e) = true ->
  executed (run e w).2 = executed w.
Proof.
  unfold is_refused. intros [Hs Hc]%andb_true_iff.
  destruct (run_adds e w) as [(c & r & Ha & _)|[_ He]]; [|done].
  destruct (not_read_unsigned e) with (c := c) (r := r); [by apply negb_true_iff| |done].
  intros Hk. by rewrite Hk in Hc.
Qed.

(** The classifier's verdicts, one evaluation for each list. *)
Lemma write_corpus_refused a :
  In a write_corpus -> Corpus.Cmd a <> git_config_line -> is_refused (Corpus.Cmd a) = true.
Proof.
  assert (forallb (fun a => is_refused (Corpus.Cmd a) || (Corpus.Cmd a =s git_config_line)) write_corpus = true)
    as Hall by (vm_compute; reflexivity).
  intros Hin Hne. rewrite forallb_forall in Hall. apply Hall, orb_true_iff in Hin as [?|He%String.eqb_eq]; done.
Qed.

Lemma read_corpus_read a :
  In a read_corpus -> Corpus.Cmd a <> od_line -> is_read (Corpus.Cmd a) = true.
Proof.
  assert (forallb (fun a => is_read (Corpus.Cmd a) || (Corpus.Cmd a =s od_line)) read_corpus = true)
    as Hall by (vm_compute; reflexivity).
  intros Hin Hne. rewrite forallb_forall in Hall. apply Hall, orb_true_iff in Hin as [?|He%String.eqb_eq]; done.
Qed.

Lemma below_seq m n : m < n -> In m (seq 0 n).
Proof. intros. apply in_seq. lia. Qed.

Lemma mutant_refused i j k l :
  i < 6 -> j < 9 -> k < 6 -> l < 8 -> is_refused (Corpus.Cmd (Corpus.mutant Corpus.CanaryRoot i j k l)) = true.
Proof.
  assert (forallb (fun i => forallb (fun j => forallb (fun k => forallb (fun l =>
    is_refused (Corpus.Cmd (Corpus.mutant Corpus.CanaryRoot i j k l))) (seq 0 8)) (seq 0 6)) (seq 0 9)) (seq 0 6)
    = true) as Hall by (vm_compute; reflexivity).
  intros Hi%below_seq Hj%below_seq Hk%below_seq Hl%below_seq.
  rewrite forallb_forall in Hall. apply Hall in Hi. rewrite forallb_forall in Hi. apply Hi in Hj.
  rewrite forallb_forall in Hj. apply Hj in Hk. rewrite forallb_forall in Hk. by apply Hk in Hl.
Qed.

Lemma Mutate_refused draw n a :
  (forall k m, 0 < m -> draw k m < m) -> In a (Corpus.Mutate Corpus.CanaryRoot draw n) ->
  is_refused (Corpus.Cmd a) = true.
Proof.
  intros Hd. unfold Corpus.Mutate. rewrite in_map_iff. intros (i & <- & _).
  apply mutant_refused; apply Hd; cbn; lia.
Qed.

(** C8: The harness's corpus against the gate.  On any gate, in any state, every
    attack of the corpus that writes runs nothing, but for one, and nor does any of
    the fuzzer's mutants, whatever its draws; on a gate that works the controls and
    the reads are authorised, but for [od], and so is the one attack left: to set an
    alias with [git config] passes for a read. *)
Theorem corpus_at_gate (e : Env) (w : World) (a : Corpus.Attack) (draw : nat -> nat -> nat) (n : nat)
    (Hdraw : forall k m, 0 < m -> draw k m < m) (Hline : SSH_ORIGINAL_COMMAND e = Corpus.Cmd a) :
  (In a write_corpus -> Corpus.Cmd a <> git_config_line -> executed (run e w).2 = executed w)
  /\ (In a (Corpus.Mutate Corpus.CanaryRoot draw n) -> executed (run e w).2 = executed w)
  /\ (operational e -> In a read_corpus -> Corpus.Cmd a <> od_line -> authorised e (Corpus.Cmd a) false)
  /\ (operational e -> Corpus.Cmd a = git_config_line -> authorised e (Corpus.Cmd a) false).
Proof.
  rewrite <- Hline. split_and!.
  - intros Hin Hne. apply refused_runs_nothing. rewrite Hline in Hne |- *. by apply write_corpus_refused.
  - intros Hin. apply refused_runs_nothing. rewrite Hline. by apply (Mutate_refused draw n).
  - intros Ho Hin Hne. apply read_authorised; [|done]. rewrite Hline in Hne |- *. by apply read_corpus_read.
  - intros Ho He. apply read_authorised; [|done]. rewrite He. vm_compute. reflexivity.
Qed.

End Gate.

(** ** Witnesses *)

#[local] Existing Instance gate_hmac.
#[local] Existing Instance gate_pem.

(** A gate that gets the alias runs it; one that gets an attack does not. *)
Lemma corpus_at_gate_witness :
  executed (run (gate_env "echo pwned > /config/canary/owned") gate_world).2 = []
  /\ authorised (gate_env git_config_line) git_config_line false.
Proof.
  split.
  - refine (proj1 (corpus_at_gate (gate_env "echo pwned > /config/canary/owned") gate_world
             (Corpus.mkAttack "redirect" "echo pwned > /config/canary/owned") (fun _ _ => 0) 0 _ _) _ _).
    + by intros k m Hm.
    + vm_compute; reflexivity.
    + vm_compute. repeat first [left; reflexivity|right].
    + vm_compute. discriminate.
  - apply (corpus_at_gate (gate_env git_config_line) gate_world
             (Corpus.mkAttack "git-write" git_config_line) (fun _ _ => 0) 0).
    + by intros k m Hm.
    + vm_compute; reflexivity.
    + apply gate_operational. vm_compute. discriminate.
    + vm_compute; reflexivity.
Defined.
