(* ===== verification/SignerKeys.v ===== *)
(** * The signer's key files (src/signer/keystore.go)

    The master key pair on disk, written by temporary files and renames whose every
    step may fail or be the last before a crash. *)

From S2P Require Import Prelude Sigwire GateMain.

Module KeyFile.

Record File := mkFile { mode : Z; data : list ascii }.

(** The paths of the disk, and their files. *)
Abbreviation FS := (gmap string File).

Definition PrivateKeySize : nat := 64.

Inductive LoadError := StatKey | InsecureMode | ReadKey | WrongSize.

(** LoadKey; [stat_fails] and [read_fails] are errors other than a missing file. *)
Definition LoadKey (fs : FS) (stat_fails read_fails : bool) (path : string) : list ascii + LoadError :=
  match (if stat_fails then None else fs !! path) with
  | None => inr StatKey
  | Some info =>
      if negb (Z.land (Z.land (mode info) 511) 63 =? 0)%Z then inr InsecureMode
      else if read_fails then inr ReadKey
      else if negb (List.length (data info) =? PrivateKeySize) then inr WrongSize
      else inl (data info)
  end.

(** ** atomicWrite *)

Inductive Step := CreateTemp | Chmod | Write | Sync | Close | Rename | OpenDir | SyncDir.

#[export] Instance Step_eq_dec : EqDecision Step.
Proof. solve_decision. Defined.

(** One write of [data]: the name CreateTemp picked, the step that fails, if one
    does, and what a failing Write leaves in the file. *)
Record Attempt := mkAttempt { tmp : string; fails : option Step; short : list ascii }.

Section Atomic.
Variables (path : string) (bytes : list ascii) (md : Z) (a : Attempt).

(** What a step that succeeds makes of the disk. *)
Definition effect (s : Step) (fs : FS) : FS :=
  match s with
  | CreateTemp => <[tmp a := mkFile 384 []]> fs
  | Chmod => alter (fun f => mkFile md (data f)) (tmp a) fs
  | Write => alter (fun f => mkFile (mode f) bytes) (tmp a) fs
  | Sync | Close | OpenDir | SyncDir => fs
  | Rename =>
      match fs !! tmp a with
      | Some f => <[path := f]> (delete (tmp a) fs)
      | None => fs
      end
  end.

(** A step that fails changes nothing, but for a write that stops short. *)
Definition failed_effect (s : Step) (fs : FS) : FS :=
  match s with
  | Write => alter (fun f => mkFile (mode f) (short a)) (tmp a) fs
  | _ => fs
  end.

(** The steps before a failure: the disks they pass through, the last first, and the
    step that failed. *)
Fixpoint steps (todo : list Step) (fs : FS) (passed : list FS) : list FS * FS * option Step :=
  match todo with
  | [] => (passed, fs, None)
  | s :: todo =>
      if bool_decide (fails a = Some s) then (passed, failed_effect s fs, Some s)
      else steps todo (effect s fs) (fs :: passed)
  end.

Definition all_steps : list Step := [CreateTemp; Chmod; Write; Sync; Close; Rename; OpenDir; SyncDir].

(** atomicWrite: the disks it passes through (a crash leaves one of them), the disk
    it leaves, and the step it fails with.  The temporary file is removed unless
    there is none or it was renamed. *)
Definition atomicWrite (fs : FS) : list FS * FS * option Step :=
  let '(passed, fs', failed) := steps all_steps fs [] in
  match failed with
  | None | Some CreateTemp => (fs' :: passed, fs', failed)
  | Some OpenDir | Some SyncDir => (fs' :: passed, fs', failed)
  | Some _ => (delete (tmp a) fs' :: fs' :: passed, delete (tmp a) fs', failed)
  end.

End Atomic.

(** ** GenerateKeyPair *)

Inductive GenError := Overwrite (p : string) | StatFailed (p : string) | NoKeyPair | WritePrivate (s : Step) | WritePublic (s : Step).

(** The first of the two paths that is taken, or cannot be looked at. *)
Definition preflight (fs : FS) (stat_fails : string -> bool) (p : string) : option GenError :=
  if stat_fails p then Some (StatFailed p)
  else match fs !! p with Some _ => Some (Overwrite p) | None => None end.

(** GenerateKeyPair; [generated] is the public and the private key, and
    [remove_fails] the removal of the private one. *)
Definition GenerateKeyPair (privPath pubPath : string) (stat_fails : string -> bool)
    (generated : option (list ascii * list ascii)) (priv_write pub_write : Attempt) (remove_fails : bool)
    (fs : FS) : list FS * FS * option GenError :=
  match preflight fs stat_fails privPath, preflight fs stat_fails pubPath with
  | Some err, _ | None, Some err => ([fs], fs, Some err)
  | None, None =>
      match generated with
      | None => ([fs], fs, Some NoKeyPair)
      | Some (pub, priv) =>
          let '(passed, fs1, failed) := atomicWrite privPath priv 384 priv_write fs in
          match failed with
          | Some s => (passed, fs1, Some (WritePrivate s))
          | None =>
              let '(passed', fs2, failed) := atomicWrite pubPath pub 420 pub_write fs1 in
              match failed with
              | Some s =>
                  let fs3 := if remove_fails then fs2 else delete privPath fs2 in
                  (fs3 :: passed' ++ passed, fs3, Some (WritePublic s))
              | None => (passed' ++ passed, fs2, None)
              end
          end
      end
  end.

(** What the gate finds at a path of this disk, copied to its host as it is. *)
Definition gate_file (fs : FS) (path : string) : Keystore.PubFile :=
  match fs !! path with
  | None => Keystore.NotExist
  | Some f => Keystore.Present (mode f) (Some (data f))
  end.

End KeyFile.
