(* ===== verification/SignerKeysProps.v ===== *)
(** * The key pair on disk

    Whatever step fails and wherever the process dies, a key file is whole or not
    there; a pair that was generated is the one the signer and the gate load; and
    the failures after which half a pair stays. *)

From S2P Require Import Prelude GateMain SignerKeys.
Import KeyFile.

(** ** atomicWrite *)

(** The disk [d] is [fs] but for the whole file [f] at [path], or not even that; the
    temporary file apart. *)
Definition at_most (fs : FS) (t path : string) (f : File) (d : FS) : Prop :=
  forall p, p <> t -> d !! p = fs !! p \/ p = path /\ d !! p = Some f.

Ltac look := repeat first
  [ rewrite lookup_insert_eq | rewrite lookup_insert_ne by congruence
  | rewrite lookup_alter_eq | rewrite lookup_alter_ne by congruence
  | rewrite lookup_delete_eq | rewrite lookup_delete_ne by congruence
  | progress cbn [fmap option_fmap option_map data mode] ].

Section Atomic.
Variables (path : string) (bytes : list ascii) (md : Z) (a : Attempt) (fs : FS).
Hypothesis Hnew : fs !! tmp a = None.

(** The temporary file, written. *)
Lemma renamed : <[path := mkFile md bytes]> (delete (tmp a)
    (alter (fun f => mkFile (mode f) bytes) (tmp a)
      (alter (fun f => mkFile md (data f)) (tmp a) (<[tmp a := mkFile 384 []]> fs))))
  = <[path := mkFile md bytes]> fs.
Proof.
  apply map_eq. intros p. destruct (decide (p = path)) as [->|Hp]; [by look|]. look.
  destruct (decide (p = tmp a)) as [->|Ht]; by look.
Qed.

Lemma temporary_gone (g h : File -> File) :
  delete (tmp a) (<[tmp a := mkFile 384 []]> fs) = fs
  /\ delete (tmp a) (alter g (tmp a) (<[tmp a := mkFile 384 []]> fs)) = fs
  /\ delete (tmp a) (alter h (tmp a) (alter g (tmp a) (<[tmp a := mkFile 384 []]> fs))) = fs.
Proof.
  split_and!; apply map_eq; intros p; (destruct (decide (p = tmp a)) as [->|Ht]; by look).
Qed.

(** The file is in place exactly when nothing failed, or only the sync of the
    directory behind it. *)
Definition placed (failed : option Step) : bool :=
  match failed with None | Some OpenDir | Some SyncDir => true | _ => false end.

Lemma rename_effect :
  effect path bytes md a Rename (effect path bytes md a Write (effect path bytes md a Chmod
    (effect path bytes md a CreateTemp fs))) = <[path := mkFile md bytes]> fs.
Proof.
  cbn [effect]. rewrite lookup_alter_eq, lookup_alter_eq, lookup_insert_eq. cbn [fmap option_fmap option_map mode].
  apply renamed.
Qed.

Lemma atomicWrite_final :
  let '(_, d, failed) := atomicWrite path bytes md a fs in
  failed = fails a /\ d = if placed failed then <[path := mkFile md bytes]> fs else fs.
Proof.
  pose proof rename_effect as Hren. unfold atomicWrite, all_steps.
  destruct (fails a) as [s|] eqn:Hf; [destruct s|]; cbn [steps]; rewrite ?Hf;
    repeat (rewrite bool_decide_false by congruence); rewrite ?bool_decide_true by done;
    cbn [placed failed_effect]; (split; [done|]); try done; try exact Hren; cbn [effect];
    first [apply (proj1 (temporary_gone id id))
          |apply (proj1 (proj2 (temporary_gone _ id)))|apply (proj2 (proj2 (temporary_gone _ _)))].
Qed.

(** Only the temporary file differs. *)
Definition only_temporary (d : FS) : Prop := forall p, p <> tmp a -> d !! p = fs !! p.

Lemma only_at_most d : only_temporary d -> at_most fs (tmp a) path (mkFile md bytes) d.
Proof. intros H p Hp. left. by apply H. Qed.

Lemma only_start : only_temporary fs.
Proof. done. Qed.

Lemma only_step s d : s <> Rename -> only_temporary d -> only_temporary (effect path bytes md a s d).
Proof. intros Hs H p Hp. specialize (H p Hp). destruct s; cbn [effect]; try done; by look. Qed.

Lemma only_failed s d : only_temporary d -> only_temporary (failed_effect a s d).
Proof. intros H p Hp. specialize (H p Hp). destruct s; cbn [failed_effect]; try done; by look. Qed.

Lemma only_removed d : only_temporary d -> only_temporary (delete (tmp a) d).
Proof. intros H p Hp. specialize (H p Hp). by look. Qed.

Lemma in_place : at_most fs (tmp a) path (mkFile md bytes)
  (effect path bytes md a Rename (effect path bytes md a Close (effect path bytes md a Sync
    (effect path bytes md a Write (effect path bytes md a Chmod (effect path bytes md a CreateTemp fs)))))).
Proof.
  change (effect path bytes md a Close (effect path bytes md a Sync ?d)) with d. rewrite rename_effect.
  intros p Hp. destruct (decide (p = path)) as [->|Hne]; [right|left]; by look.
Qed.

Lemma atomicWrite_passed :
  Forall (at_most fs (tmp a) path (mkFile md bytes)) (atomicWrite path bytes md a fs).1.1.
Proof.
  pose proof in_place as Hin. unfold atomicWrite, all_steps.
  destruct (fails a) as [s|] eqn:Hf; [destruct s|]; cbn [steps]; rewrite ?Hf;
    repeat (rewrite bool_decide_false by congruence); rewrite ?bool_decide_true by done;
    cbn [fst]; repeat (apply Forall_cons; split); try apply Forall_nil_2; try exact Hin; apply only_at_most;
    repeat first [apply only_start | apply only_removed | apply only_failed | apply only_step; [done|]].
Qed.
End Atomic.

(** ** The pair *)

Definition private_file (priv : list ascii) : File := mkFile 384 priv.
Definition public_file (pub : list ascii) : File := mkFile 420 pub.

Section Pair.
Context `{PemDecoder}.
Variables (privPath pubPath : string) (stat_fails : string -> bool) (pub priv : list ascii).
Variables (pw bw : Attempt) (remove_fails : bool) (fs : FS).
Hypothesis Hpaths : privPath <> pubPath.
Hypothesis Hpw : tmp pw <> privPath /\ tmp pw <> pubPath /\ fs !! tmp pw = None.
Hypothesis Hbw : tmp bw <> privPath /\ tmp bw <> pubPath /\ fs !! tmp bw = None.

(** What a disk on the way may be. *)
Definition on_the_way (d : FS) : Prop :=
  forall p, p <> tmp pw -> p <> tmp bw ->
  d !! p = fs !! p
  \/ p = privPath /\ d !! p = Some (private_file priv)
  \/ p = pubPath /\ d !! p = Some (public_file pub).

(** What stays, by the error. *)
Definition leaves (err : option GenError) : FS :=
  match err with
  | None => <[pubPath := public_file pub]> (<[privPath := private_file priv]> fs)
  | Some (WritePrivate s) => if placed (Some s) then <[privPath := private_file priv]> fs else fs
  | Some (WritePublic s) =>
      let fs1 := if remove_fails then <[privPath := private_file priv]> fs else fs in
      if placed (Some s) then <[pubPath := public_file pub]> fs1 else fs1
  | Some _ => fs
  end.

Definition generate : list FS * FS * option GenError :=
  GenerateKeyPair privPath pubPath stat_fails (Some (pub, priv)) pw bw remove_fails fs.

Lemma removed (d : FS) s :
  fs !! privPath = None -> fs !! pubPath = None ->
  d = (if placed (Some s) then <[pubPath := public_file pub]> (<[privPath := private_file priv]> fs)
       else <[privPath := private_file priv]> fs) ->
  (if remove_fails then d else delete privPath d) = leaves (Some (WritePublic s)).
Proof.
  intros H1 H2 ->. cbn [leaves]. destruct remove_fails; [done|].
  destruct (placed (Some s)); apply map_eq; intros p;
    (destruct (decide (p = privPath)) as [->|]; [by look|]); look; [|done].
  destruct (decide (p = pubPath)) as [->|]; by look.
Qed.

Lemma generated :
  let '(passed, d, err) := generate in
  Forall on_the_way passed /\ d = leaves err
  /\ (fs !! privPath <> None \/ fs !! pubPath <> None -> err <> None /\ d = fs).
Proof.
  unfold generate, GenerateKeyPair, preflight.
  assert (on_the_way fs) as Hfs by (intros p _ _; by left).
  destruct (stat_fails privPath), (fs !! privPath) as [f|] eqn:Ef; try by (split_and!; [by repeat constructor| |]).
  destruct (stat_fails pubPath), (fs !! pubPath) as [g|] eqn:Eg; try by (split_and!; [by repeat constructor| |]).
  destruct Hpw as (Hp1 & Hp2 & Hp3). destruct Hbw as (Hb1 & Hb2 & Hb3).
  pose proof (atomicWrite_passed privPath priv 384 pw fs Hp3) as Hpass.
  pose proof (atomicWrite_final privPath priv 384 pw fs Hp3) as Hfin.
  destruct (atomicWrite privPath priv 384 pw fs) as [[passed fs1] failed]. destruct Hfin as [_ Hfs1]. cbn [fst] in Hpass.
  assert (Forall on_the_way passed) as Hway.
  { eapply Forall_impl; [exact Hpass|]. intros d Hd p Hne _. destruct (Hd p Hne) as [?|?]; auto. }
  destruct failed as [s|]; [by split_and!; [|rewrite Hfs1|intros [?|?]]|]. cbn [placed] in Hfs1.
  assert (fs1 !! tmp bw = None) as Hb1' by (subst; by look).
  pose proof (atomicWrite_passed pubPath pub 420 bw fs1 Hb1') as Hpass'.
  pose proof (atomicWrite_final pubPath pub 420 bw fs1 Hb1') as Hfin.
  destruct (atomicWrite pubPath pub 420 bw fs1) as [[passed' fs2] failed]. destruct Hfin as [_ Hfs2]. cbn [fst] in Hpass'.
  assert (Forall on_the_way passed') as Hway'.
  { eapply Forall_impl; [exact Hpass'|]. intros d Hd p Hn1 Hn2. destruct (Hd p Hn2) as [->|?]; [|auto].
    rewrite Hfs1. destruct (decide (p = privPath)) as [->|]; [right; left|left]; by look. }
  rewrite Hfs1 in Hfs2. destruct failed as [s|].
  - rewrite (removed fs2 s Ef Eg Hfs2). split_and!; [|done|by intros [?|?]].
    constructor; [|by apply Forall_app].
    intros p _ _. cbn [leaves]. destruct (decide (p = privPath)) as [->|]; [|destruct (decide (p = pubPath)) as [->|]];
      destruct (placed _), remove_fails; look; auto.
  - split_and!; [by apply Forall_app|done|by intros [?|?]].
Qed.

(** The two files of the pair are read back as the two keys. *)
Lemma pair_loads :
  List.length pub = 32 -> List.length priv = 64 -> pem_decode pub = None ->
  LoadKey (leaves None) false false privPath = inl priv
  /\ Keystore.LoadPubKey (gate_file (leaves None) pubPath) = inl (Some pub).
Proof.
  intros Hpub Hpriv Hpem. unfold LoadKey, gate_file, leaves. look. unfold Keystore.LoadPubKey.
  cbn [mode data private_file public_file]. rewrite Hpem, Hpub, Hpriv. done.
Qed.

(** C31: Generating the master key.  A file that is at either path is never touched,
    and refuses the call.  Wherever a step fails or the process dies, each of the two
    files is as it was or whole, with its mode.  A call that succeeds leaves exactly
    the pair, and the signer loads the private key and the gate the public one it was
    given a copy of; a call that fails leaves what its error says, nothing unless the
    file behind the failing step was already renamed into place. *)
Theorem key_pair_written
    (Hpub : List.length pub = 32) (Hpriv : List.length priv = 64) (Hpem : pem_decode pub = None) :
  let '(passed, d, err) := generate in
  Forall on_the_way passed /\ d = leaves err
  /\ (fs !! privPath <> None \/ fs !! pubPath <> None -> err <> None /\ d = fs)
  /\ (err = None -> LoadKey d false false privPath = inl priv
        /\ Keystore.LoadPubKey (gate_file d pubPath) = inl (Some pub)).
Proof.
  pose proof generated as Hg. destruct generate as [[passed d] err]. destruct Hg as (H1 & -> & H3).
  split_and!; [done|done|done|]. intros ->. by apply pair_loads.
Qed.

(** A directory that cannot be synced after the private key is in place: the call
    fails, leaves the private key without its public key, and is refused ever
    after. *)
Lemma half_pair_stuck (s : Step) (again : option (list ascii * list ascii)) pw' bw' rm :
  s = OpenDir \/ s = SyncDir -> fails pw = Some s ->
  (forall p, stat_fails p = false) -> fs !! privPath = None -> fs !! pubPath = None ->
  let '(_, d, err) := generate in
  err = Some (WritePrivate s) /\ d !! privPath = Some (private_file priv) /\ d !! pubPath = None
  /\ GenerateKeyPair privPath pubPath stat_fails again pw' bw' rm d = ([d], d, Some (Overwrite privPath)).
Proof.
  intros Hs Hf Hst H1 H2. unfold generate, GenerateKeyPair, preflight.
  rewrite !Hst, H1, H2. destruct Hpw as (Hp1 & Hp2 & Hp3).
  pose proof (atomicWrite_final privPath priv 384 pw fs Hp3) as Hfin.
  destruct (atomicWrite privPath priv 384 pw fs) as [[passed fs1] failed]. destruct Hfin as [-> Hd].
  rewrite Hf in *. assert (placed (Some s) = true) as Hpl by (by destruct Hs as [-> | ->]). rewrite Hpl in Hd.
  subst fs1. split_and!; [done|by look|by look; rewrite H2|]. by rewrite lookup_insert_eq.
Qed.

End Pair.

(** ** A witness *)

#[local] Instance keys_pem : PemDecoder := {| pem_decode _ := None |}.

Definition sample_pub : list ascii := repeat "p"%char 32.
Definition sample_priv : list ascii := repeat "s"%char 64.

Lemma key_pair_written_witness :
  let '(_, d, err) := generate "k/priv" "k/pub" (fun _ => false) sample_pub sample_priv
    (mkAttempt "k/priv.tmp-1" None []) (mkAttempt "k/pub.tmp-2" None []) false ∅ in
  err = None /\ LoadKey d false false "k/priv" = inl sample_priv
  /\ Keystore.LoadPubKey (gate_file d "k/pub") = inl (Some sample_pub).
Proof.
  pose proof (key_pair_written "k/priv" "k/pub" (fun _ => false) sample_pub sample_priv
    (mkAttempt "k/priv.tmp-1" None []) (mkAttempt "k/pub.tmp-2" None []) false ∅) as H.
  destruct (generate _ _ _ _ _ _ _ _ _) as [[passed d] err] eqn:E.
  destruct H as (_ & _ & _ & H); [discriminate|done|done|reflexivity|reflexivity|reflexivity|].
  assert (err = None) as -> by (vm_compute in E; congruence). split; [done|]. by apply H.
Defined.
