(* ===== verification/SignerSocket.v ===== *)
(** * The signer's socket (src/signer/socket.go)

    The start of the server of the daemon's Unix socket, its accept loop as a
    transition system of events, and the times of one connection with the Telegram
    backend's Request in it.  The peer, the file system, the network and the human
    are what the events and arguments say. *)

From S2P Require Import Prelude Sigwire.

Module Socket.
Import Sigwire.
#[local] Open Scope Z_scope.

(** ** The start *)

(** What os.Stat and the dial find at the path. *)
Inductive Peer := NoFile | Stale | Live.

Inductive ListenError :=
  | HandlerNil | PathEmpty | InUse | RemoveStale | ListenFailed | FchmodFailed | ChmodFailed
  | AcceptFailed.

(** What the steps of the start answer. *)
Record Start := mkStart {
  has_handler : bool; Path : string; peer : Peer;
  remove_ok : bool; listen_ok : bool; fchmod_ok : bool; chmod_ok : bool
}.

(** The mode of the socket. *)
Definition socket_mode : Z := 432.

(** Listen, up to the accept loop: the mode of the socket it listens on. *)
Definition bind (s : Start) : Z + ListenError :=
  if negb (has_handler s) then inr HandlerNil
  else if String.eqb (Path s) "" then inr PathEmpty
  else match peer s with
       | Live => inr InUse
       | p =>
           if (match p with Stale => negb (remove_ok s) | _ => false end) then inr RemoveStale
           else if negb (listen_ok s) then inr ListenFailed
           else if negb (fchmod_ok s) then inr FchmodFailed
           else if negb (chmod_ok s) then inr ChmodFailed
           else inl socket_mode
       end.

(** ** The accept loop *)

(** The loop accepts; it waits for the handlers, having seen this error or the
    cancellation; it has returned. *)
Inductive Phase := Accepting | Draining (err : option ListenError) | Returned (err : option ListenError).

Record State := mkState {
  phase : Phase;
  ctx_done : bool;
  listening : bool;
  socket_file : bool;
  inflight : list nat;
  closed : list nat
}.

Definition started : State := mkState Accepting false true true [] [].

(** A connection comes; a handler is done with it, or panicked; the context is
    cancelled; the watcher closes the listener; Accept fails; the loop has no
    handler left to wait for. *)
Inductive Event :=
  | Connects (c : nat) | HandlerEnds (c : nat) | Cancel | WatcherCloses | AcceptFails | Drained.

(** One event, if it can happen.  Closing the listener unlinks its file. *)
Definition step (e : Event) (s : State) : option State :=
  match e with
  | Connects c =>
      match phase s with
      | Accepting =>
          if listening s && bool_decide (c ∉ inflight s ++ closed s)
          then Some (mkState Accepting (ctx_done s) true (socket_file s) (c :: inflight s) (closed s))
          else None
      | _ => None
      end
  | HandlerEnds c =>
      if bool_decide (c ∈ inflight s)
      then Some (mkState (phase s) (ctx_done s) (listening s) (socket_file s)
                   (List.filter (fun c' => negb (c' =? c)%nat) (inflight s)) (c :: closed s))
      else None
  | Cancel => Some (mkState (phase s) true (listening s) (socket_file s) (inflight s) (closed s))
  | WatcherCloses =>
      if ctx_done s
      then Some (mkState (phase s) true false false (inflight s) (closed s))
      else None
  | AcceptFails =>
      match phase s with
      | Accepting =>
          Some (mkState (Draining (if ctx_done s then None else Some AcceptFailed))
                  (ctx_done s) (listening s) (socket_file s) (inflight s) (closed s))
      | _ => None
      end
  | Drained =>
      match phase s, inflight s with
      | Draining err, [] => Some (mkState (Returned err) (ctx_done s) false false [] (closed s))
      | _, _ => None
      end
  end.

Fixpoint run (es : list Event) (s : State) : option State :=
  match es with
  | [] => Some s
  | e :: es => match step e s with Some s => run es s | None => None end
  end.

(** ** One connection *)

Definition handler_timeout (HandlerTimeout : Z) : Z :=
  if HandlerTimeout =? 0 then 30 * Second else HandlerTimeout.

(** waitBudget of serveOne *)
Definition waitBudget (timeout : Z) : Z :=
  let w := timeout - ResponseWriteGrace in if w <=? 0 then timeout else w.

(** What Request does before the window opens: the explainer's timeout and how long
    its endpoint takes, when there is one; how long the message takes to send, and
    whether it is sent. *)
Record Delays := mkDelays {
  explainer : option (Z * Z);
  send : Z;
  sent_ok : bool
}.

(** runExplainer: its default timeout. *)
Definition explainer_timeout (ExplainerTimeout : Z) : Z :=
  if ExplainerTimeout =? 0 then 5 * Second else ExplainerTimeout.

(** When the explainer is done with: its timeout and the context's deadline cut it
    short. *)
Definition explained (deadline read : Z) (d : Delays) : Z :=
  match explainer d with
  | Some (timeout, took) => Z.min (read + took) (Z.min (read + explainer_timeout timeout) deadline)
  | None => read
  end.

(** When the request is pending and its timer starts: bot.Send has no timeout and
    does not see the context. *)
Definition window_opens (deadline read : Z) (d : Delays) : Z := explained deadline read d + send d.

(** How the handler's wait ends. *)
Inductive Ended := ReadFailed | SendFailed | Tapped | WindowClosed | Cancelled.

(** Request for a request read at [read], and the wait on its channel: the first tap
    at the pending request counts when it comes before the window closes and before
    the context's deadline.  Of a tap and a timer at the same instant the tap is
    taken; a tap before the request is pending finds nothing to resolve. *)
Definition wait_ends (deadline read : Z) (d : Delays) (window : Z) (tap : option Z) : Z * Ended :=
  let opened := window_opens deadline read d in
  if negb (sent_ok d) then (opened, SendFailed)
  else
    let limit := Z.min (opened + window) deadline in
    let late := if opened + window <=? deadline then (opened + window, WindowClosed)
                else (Z.max opened deadline, Cancelled) in
    match tap with
    | Some t => if (opened <=? t) && (t <=? limit) then (t, Tapped) else late
    | None => late
    end.

(** serveOne with setWriteGrace, for a connection accepted at [accepted] whose
    request is read at [read]: when the verdict is there, how, and until when it may
    be written. *)
Definition serveOne (timeout accepted : Z) (read : option Z) (d : Delays) (window : Z)
    (tap : option Z) : Z * Ended * Z :=
  let deadline := accepted + waitBudget timeout in
  let '(at_, how) :=
    match read with
    | Some r => if r <=? deadline then wait_ends deadline r d window tap else (deadline, ReadFailed)
    | None => (deadline, ReadFailed)
    end in
  (at_, how, at_ + ResponseWriteGrace).

End Socket.
