(* ===== verification/SignerSocketProps.v ===== *)
(** * What the signer's socket guarantees

    A verdict is there in time for the client, if the message to the human was, and a
    tap inside the window that is left counts; and the accept loop returns only when no handler is left. *)

From S2P Require Import Prelude Sigwire SignerSocket.
Import Sigwire Socket.
#[local] Open Scope Z_scope.

(** ** The times of a connection *)

Lemma waitBudget_pos timeout : 0 < timeout -> 0 < waitBudget timeout <= timeout.
Proof. unfold waitBudget, ResponseWriteGrace, Second. intros H. case_match; lia. Qed.

Lemma explained_bounds deadline read d :
  read <= deadline -> (forall timeout took, explainer d = Some (timeout, took) -> 0 <= timeout /\ 0 <= took) ->
  read <= explained deadline read d <= deadline.
Proof.
  unfold explained, explainer_timeout, Second. intros Hr Hd.
  destruct (explainer d) as [[timeout took]|]; [|lia].
  destruct (Hd timeout took eq_refl). destruct (timeout =? 0) eqn:E; lia.
Qed.

(** Where the wait ends, from the opening of the window. *)
Lemma wait_ends_cases deadline read d window tap :
  0 <= window -> sent_ok d = true ->
  let opened := window_opens deadline read d in
  let limit := Z.min (opened + window) deadline in
  let '(at_, how) := wait_ends deadline read d window tap in
  (how = Tapped /\ tap = Some at_ /\ opened <= at_ <= limit)
  \/ ((forall t, tap = Some t -> t < opened \/ limit < t)
      /\ ((how = WindowClosed /\ at_ = opened + window /\ at_ <= deadline)
          \/ (how = Cancelled /\ at_ = Z.max opened deadline /\ deadline < opened + window))).
Proof.
  intros Hw Hs. cbv zeta. unfold wait_ends. rewrite Hs. cbn [negb].
  destruct tap as [t|]; [destruct (_ && _) eqn:Et|].
  - left. split_and!; try done; lia.
  - destruct (_ + window <=? deadline) eqn:E; right; (split; [intros t' [= <-]; lia|]);
      [left|right]; split_and!; try done; lia.
  - destruct (_ + window <=? deadline) eqn:E; right; (split; [by intros t'|]); [left|right];
      split_and!; try done; lia.
Qed.

(** C25: The three timeouts fit together, as long as the message to the human goes out
    in time.  On a connection of the daemon accepted within thirty seconds of the
    client's start: without a request, or when the request's message was sent, or
    given up, before the wait budget was over, a verdict is there with its time to be
    written before the handler's timeout is over and before the client gives up.  And
    when the message was sent a tap counts if and only if it comes after that, no later
    than the approval window and than the budget, 325 seconds from the accept:
    within the whole window when the message was sent within twenty-five seconds of
    the accept, which the window's end then ends, and never the budget; otherwise
    within what is left of it. *)
Theorem verdict_in_time (start accepted : Z) (read : option Z) (d : Delays) (tap : option Z)
    (Haccept : start <= accepted <= start + 30 * Second)
    (Hread : forall r, read = Some r -> accepted <= r)
    (Hsend : 0 <= send d)
    (Hexplain : forall timeout took, explainer d = Some (timeout, took) -> 0 <= timeout /\ 0 <= took) :
  let budget := accepted + 325 * Second in
  let '(at_, how, last) :=
    serveOne (handler_timeout SignerHandlerTimeout) accepted read d ApprovalWindow tap in
  ((forall r, read = Some r -> window_opens budget r d <= budget) ->
     at_ < last <= accepted + SignerHandlerTimeout /\ last <= start + ClientSignTimeout)
  /\ (forall r, read = Some r -> r <= budget -> sent_ok d = true ->
        let opened := window_opens budget r d in
        (how = Tapped <-> exists t, tap = Some t /\ opened <= t <= Z.min (opened + ApprovalWindow) budget)
        /\ (how = Tapped -> tap = Some at_)
        /\ (how = WindowClosed <-> how <> Tapped /\ opened <= accepted + 25 * Second)
        /\ (how = WindowClosed -> at_ = opened + ApprovalWindow)
        /\ (how = Cancelled <-> how <> Tapped /\ accepted + 25 * Second < opened)
        /\ (how = Cancelled -> at_ = Z.max opened budget)).
Proof.
  cbv zeta. change (handler_timeout SignerHandlerTimeout) with SignerHandlerTimeout.
  destruct (serveOne _ _ _ _ _ _) as [[at_ how] last] eqn:E. unfold serveOne in E.
  change (waitBudget SignerHandlerTimeout) with (325 * Second) in E.
  change ResponseWriteGrace with (5 * Second) in *. change SignerHandlerTimeout with (330 * Second) in *.
  change ClientSignTimeout with (360 * Second). change ApprovalWindow with (300 * Second) in *.
  assert (Second = 1000000000) as HS by done.
  split.
  - intros Hopen. enough (at_ <= accepted + 325 * Second /\ last = at_ + 5 * Second) by lia.
    destruct read as [r|]; [|injection E as <- <- <-; lia].
    destruct (r <=? _) eqn:Er; [|injection E as <- <- <-; lia]. specialize (Hopen r eq_refl).
    pose proof (wait_ends_cases (accepted + 325 * Second) r d (300 * Second) tap) as Hc.
    cbv zeta in Hc. unfold wait_ends in E, Hc. destruct (sent_ok d); cbn [negb] in *; [|injection E as <- <- <-; lia].
    specialize (Hc ltac:(lia) eq_refl). destruct (match tap with Some _ => _ | None => _ end) as [a h].
    injection E as <- <- <-. lia.
  - intros r -> Hr Hs. replace (r <=? _) with true in E by lia.
    pose proof (wait_ends_cases (accepted + 325 * Second) r d (300 * Second) tap ltac:(lia) Hs) as Hc.
    cbv zeta in Hc. destruct (wait_ends _ _ _ _ _) as [a h]. injection E as <- <- <-.
    generalize dependent (window_opens (accepted + 325 * Second) r d). intros opened Hc.
    destruct Hc as [(-> & -> & ?)|(Hno & [(-> & ? & ?)|(-> & ? & ?)])].
    + split_and!; try done; [split; [intros _; eexists; split; [done|lia]|done]| |];
        (split; [done|by intros [? _]]).
    + split_and!; try done; [split; [done|]|split; [intros _; split; [done|lia]|done]|split; [done|lia]].
      intros (t & -> & ?). destruct (Hno t eq_refl); lia.
    + split_and!; try done; [split; [done|]|split; [done|lia]|split; [intros _; split; [done|lia]|done]].
      intros (t & -> & ?). destruct (Hno t eq_refl); lia.
Qed.

(** A request read at three seconds whose explainer takes its five seconds, and whose
    message takes one. *)
Lemma verdict_in_time_witness :
  let '(at_, how, last) :=
    serveOne (handler_timeout SignerHandlerTimeout) (2 * Second) (Some (3 * Second))
      (mkDelays (Some (0, 20 * Second)) Second true) ApprovalWindow (Some (308 * Second)) in
  last <= 0 + ClientSignTimeout /\ how = Tapped.
Proof.
  pose proof (verdict_in_time 0 (2 * Second) (Some (3 * Second)) (mkDelays (Some (0, 20 * Second)) Second true)
                (Some (308 * Second))) as H.
  cbv zeta in H. destruct (serveOne _ _ _ _ _ _) as [[at_ how] last]. unfold Second in *.
  destruct H as (Hc & Hr); [lia|intros r [= <-]; lia|cbn; lia|intros ? ? [= <- <-]; lia|].
  split; [apply Hc; intros r [= <-]; by vm_compute|].
  apply (Hr (3 * 1000000000) eq_refl ltac:(lia) eq_refl).
  exists (308 * 1000000000). split; [done|]. split; by vm_compute.
Defined.

Definition prompt : Delays := mkDelays None 0 true.

(** A request that takes longer to read loses the end of its window: the deadline of
    the connection ends the wait while the message still offers the buttons. *)
Lemma slow_request_cut :
  exists read tap, read < 325 * Second /\ tap < read + ApprovalWindow
    /\ (serveOne SignerHandlerTimeout 0 (Some read) prompt ApprovalWindow (Some tap)).1.2 = Cancelled.
Proof. exists (60 * Second), (340 * Second). by vm_compute. Qed.

(** So does one whose explainer is given a minute: the message promises five minutes
    from then on. *)
Lemma slow_explainer_cut :
  let d := mkDelays (Some (60 * Second, 55 * Second)) Second true in
  exists tap, tap < window_opens (325 * Second) 0 d + ApprovalWindow
    /\ (serveOne SignerHandlerTimeout 0 (Some 0) d ApprovalWindow (Some tap)).1.2 = Cancelled.
Proof. exists (340 * Second). by vm_compute. Qed.

(** Nothing bounds the send: one that hangs outlasts the handler's timeout, and the
    client has given up before there is a verdict. *)
Lemma slow_send_outlasts n :
  ClientSignTimeout <= n ->
  let '(at_, how, _) := serveOne SignerHandlerTimeout 0 (Some 0) (mkDelays None n true) ApprovalWindow None in
  at_ = n /\ how = Cancelled.
Proof.
  change ClientSignTimeout with 360000000000. intros Hn. unfold serveOne, wait_ends, window_opens, explained.
  change (waitBudget SignerHandlerTimeout) with 325000000000. change ApprovalWindow with 300000000000.
  cbn [explainer send sent_ok negb Z.add]. cbv zeta. replace (0 <=? _) with true by done.
  replace (0 + n + _ <=? _) with false by lia. split; [lia|done].
Qed.

(** Without a timeout of its own the server cuts a human off before half a minute. *)
Lemma default_cuts_approval :
  (serveOne (handler_timeout 0) 0 (Some 0) prompt ApprovalWindow (Some (26 * Second))).1.2 = Cancelled.
Proof. by vm_compute. Qed.

(** ** The accept loop *)

(** The connections that came. *)
Definition accepted_in (es : list Event) : list nat :=
  flat_map (fun e => match e with Connects c => [c] | _ => [] end) es.

(** What holds between events. *)
Record loop_inv (s : State) : Prop := {
  inv_file : socket_file s = listening s;
  inv_open : listening s = false -> ctx_done s = true \/ exists err, phase s = Returned err;
  inv_ended err : phase s = Returned err -> inflight s = [] /\ listening s = false;
  inv_clean : phase s = Draining None \/ phase s = Returned None -> ctx_done s = true
}.

Lemma step_inv e s s' : loop_inv s -> step e s = Some s' -> loop_inv s'.
Proof.
  intros [Hf Ho He Hc] Hs. destruct s as [ph cd ls sf infl cl], e as [c|c| | | |];
    cbn [step phase ctx_done listening socket_file inflight closed] in *.
  - destruct ph; [|done..]. destruct ls; [|done]. cbn [andb] in Hs. case_bool_decide; [|done].
    injection Hs as <-. split; cbn; done.
  - case_bool_decide as Hin; [|done]. injection Hs as <-. split; cbn; try done.
    intros err ->. destruct (He err eq_refl) as [-> ?]. by apply not_elem_of_nil in Hin.
  - injection Hs as <-. split; cbn; try done; by left.
  - destruct cd; [|done]. injection Hs as <-. split; cbn; try (done || by left).
    intros err Hp. by destruct (He err Hp).
  - destruct ph; [|done..]. injection Hs as <-. split; cbn; try done.
    + intros Hl. destruct (Ho Hl) as [?|[??]]; [by left|done].
    + destruct cd; [done|]. by intros [?|?].
  - destruct ph as [|err|]; [done| |done]. destruct infl; [|done]. injection Hs as <-.
    split; cbn; try done; [intros _; right; by exists err|]. intros [?|[= ->]]; [done|]. apply Hc. by left.
Qed.

Lemma run_inv es : forall s s', loop_inv s -> run es s = Some s' -> loop_inv s'.
Proof.
  induction es as [|e es IH]; intros s s' Hs; cbn [run]; [by intros [= <-]|].
  destruct (step e s) as [s1|] eqn:E; [|done]. apply IH. by eapply step_inv.
Qed.

Lemma started_inv : loop_inv started.
Proof. split; cbn; try done. by intros [?|?]. Qed.

(** A handler that ends is the one of its connection. *)
Lemma filter_one c (l : list nat) :
  NoDup l -> c ∈ l -> l ≡ₚ c :: List.filter (fun c' => negb (c' =? c)%nat) l.
Proof.
  induction 1 as [|x l Hx Hl IH]; [by intros ?%not_elem_of_nil|]. intros [->|Hc]%elem_of_cons.
  - cbn [List.filter]. rewrite Nat.eqb_refl. cbn [negb]. f_equiv.
    clear IH Hl. induction l as [|y l IH]; [done|]. apply not_elem_of_cons in Hx as [Hxy Hx].
    cbn [List.filter]. rewrite (proj2 (Nat.eqb_neq y x)) by congruence. cbn [negb]. f_equiv. by apply IH.
  - cbn [List.filter]. rewrite (proj2 (Nat.eqb_neq x c)) by congruence. cbn [negb].
    rewrite (IH Hc) at 1. apply Permutation_swap.
Qed.

(** Each step keeps every connection, handled or closed, once. *)
Lemma step_connections e s s' :
  step e s = Some s' -> NoDup (inflight s ++ closed s) ->
  inflight s' ++ closed s' ≡ₚ accepted_in [e] ++ inflight s ++ closed s /\ NoDup (inflight s' ++ closed s').
Proof.
  intros Hs Hn. destruct s as [ph cd ls sf infl cl], e as [c|c| | | |];
    cbn [step phase ctx_done listening socket_file inflight closed accepted_in flat_map app] in *.
  - destruct ph; [|done..]. destruct ls; [|done]. cbn [andb] in Hs. case_bool_decide; [|done].
    injection Hs as <-. split; [done|]. cbn. by constructor.
  - case_bool_decide as Hin; [|done]. injection Hs as <-. cbn [inflight closed].
    assert (List.filter (fun c' => negb (c' =? c)%nat) infl ++ c :: cl ≡ₚ infl ++ cl) as Hp.
    { rewrite <- Permutation_middle, app_comm_cons. f_equiv. symmetry. apply filter_one; [|done].
      by apply NoDup_app in Hn as [? _]. }
    split; [done|]. by rewrite Hp.
  - by injection Hs as <-.
  - destruct cd; [|done]. by injection Hs as <-.
  - destruct ph; [|done..]. by injection Hs as <-.
  - destruct ph; [done| |done]. destruct infl; [|done]. by injection Hs as <-.
Qed.

Lemma run_connections es : forall s s',
  run es s = Some s' -> NoDup (inflight s ++ closed s) ->
  inflight s' ++ closed s' ≡ₚ accepted_in es ++ inflight s ++ closed s /\ NoDup (inflight s' ++ closed s').
Proof.
  induction es as [|e es IH]; intros s s'; cbn [run]; [by intros [= <-]|].
  destruct (step e s) as [s1|] eqn:E; [|done]. intros Hr Hn.
  apply step_connections in E as [Hp Hn1]; [|done]. destruct (IH s1 s' Hr Hn1) as [Hp' Hn'].
  split; [|done]. rewrite Hp', Hp.
  replace (accepted_in (e :: es)) with (accepted_in [e] ++ accepted_in es)
    by (unfold accepted_in; cbn [flat_map]; by rewrite app_nil_r).
  rewrite <- !app_assoc. by rewrite Permutation_app_swap_app.
Qed.

(** C37: The server stops cleanly.  From its start, over any sequence of connections,
    ends of handlers, cancellation and failures of Accept: when the loop has
    returned, no handler is left and every connection that came is closed, each
    once, the listener is closed and its file is gone; it returns without an error
    only after a cancellation; and while it listens the file is there. *)
Theorem server_drains (es : list Event) (s : State) (Hrun : run es started = Some s) :
  inflight s ++ closed s ≡ₚ accepted_in es /\ NoDup (accepted_in es)
  /\ socket_file s = listening s
  /\ forall err, phase s = Returned err ->
       inflight s = [] /\ listening s = false /\ closed s ≡ₚ accepted_in es
       /\ (err = None -> ctx_done s = true).
Proof.
  pose proof (run_inv es started s started_inv Hrun) as [Hf Ho He Hc].
  destruct (run_connections es started s Hrun) as [Hp Hn]; [constructor|].
  rewrite app_nil_r in Hp. split_and!; [done|by rewrite <- Hp|done|].
  intros err Herr. destruct (He err Herr) as [Hi Hl]. rewrite Hi in Hp. split_and!; [done|done|done|].
  intros ->. apply Hc. by right.
Qed.

Definition sample_events : list Event :=
  [Connects 1; Connects 2; HandlerEnds 1; Cancel; WatcherCloses; AcceptFails; HandlerEnds 2; Drained].

Definition sample_end : State := mkState (Returned None) true false false [] [2%nat; 1%nat].

Lemma sample_runs : run sample_events started = Some sample_end.
Proof. by vm_compute. Qed.

Lemma server_drains_witness :
  run sample_events started = Some sample_end
  /\ inflight sample_end = [] /\ closed sample_end ≡ₚ accepted_in sample_events.
Proof.
  split; [exact sample_runs|].
  destruct (server_drains sample_events sample_end sample_runs) as (_ & _ & _ & H).
  destruct (H None eq_refl) as (Hi & _ & Hc & _). split; [exact Hi|exact Hc].
Defined.
