(* ===== verification/GoUrl.v ===== *)
(** * URLs and paths as the Go library reads them

    What the main programs use of net/url (Parse as far as scheme and host, and
    Hostname) and of path/filepath (Clean, Dir, Join, IsAbs), and strconv.Atoi. *)

From S2P Require Import Prelude RedactScanner GateVerify GateRevoke.

Module GoUrl.

Import Bytes.

Abbreviation bytes := (list ascii).

Definition is_letter (c : ascii) : bool := GoStr.is_lower c || GoStr.is_upper c.
Definition is_alnum (c : ascii) : bool := is_letter c || GoStr.is_digit c.
Definition is_hex (c : ascii) : bool :=
  GoStr.is_digit c || GoStr.in_range "a" "f" c || GoStr.in_range "A" "F" c.

Definition unhex (c : ascii) : Z :=
  if GoStr.is_digit c then byte_val c - 48
  else if GoStr.is_lower c then byte_val c - 87 else byte_val c - 55.

Definition one_of_bytes (c : ascii) (s : string) : bool := existsb (Ascii.eqb c) (list_ascii_of_string s).

(** strings.Cut at a byte. *)
Fixpoint cut (c : ascii) (l : bytes) : option (bytes * bytes) :=
  match l with
  | [] => None
  | d :: l => if d =c c then Some ([], l) else option_map (fun '(a, b) => (d :: a, b)) (cut c l)
  end.

(** The text around the last such byte. *)
Definition cut_last (c : ascii) (l : bytes) : option (bytes * bytes) :=
  option_map (fun '(a, b) => (reverse b, reverse a)) (cut c (reverse l)).

Inductive mode := EncodeOther | EncodeHost | EncodeZone.

(** shouldEscape in a host or a zone. *)
Definition host_escapes (c : ascii) : bool :=
  negb (is_alnum c || one_of_bytes c "!$&'()*+,;=:[]<>-_.~" || (c =c DQUOTE)).

(** unescape; [None] is an error. *)
Fixpoint unescape (m : mode) (l : bytes) : option bytes :=
  match l with
  | [] => Some []
  | c :: l' =>
      if (c =c "%")%char then
        match l' with
        | a :: b :: rest =>
            let v := (unhex a * 16 + unhex b)%Z in
            if negb (is_hex a && is_hex b) then None
            else
              let refused :=
                match m with
                | EncodeOther => false
                | EncodeHost => (unhex a <? 8)%Z && negb (v =? 37)%Z
                | EncodeZone => negb (v =? 37)%Z && negb (v =? 32)%Z && host_escapes (byte_of v)
                end in
              if refused then None else option_map (cons (byte_of v)) (unescape m rest)
        | _ => None
        end
      else
        let refused :=
          match m with
          | EncodeOther => false
          | _ => (byte_val c <? 128)%Z && host_escapes c
          end in
        if refused then None else option_map (cons c) (unescape m l')
  end.

(** validOptionalPort *)
Definition validOptionalPort (l : bytes) : bool :=
  match l with [] => true | c :: l => (c =c ":")%char && forallb GoStr.is_digit l end.

(** parseHost *)
Definition parseHost (l : bytes) : option bytes :=
  match l with
  | c :: _ =>
      if (c =c "[")%char then
        match cut_last "]" l with
        | None => None
        | Some (inside, port) =>
            if negb (validOptionalPort port) then None
            else match index inside (lit "%25") with
                 | Some z =>
                     match unescape EncodeHost (take z inside), unescape EncodeZone (drop z inside),
                           unescape EncodeHost ("]"%char :: port) with
                     | Some a, Some b, Some c => Some (a ++ b ++ c)
                     | _, _, _ => None
                     end
                 | None => unescape EncodeHost l
                 end
        end
      else
        match cut_last ":" l with
        | Some (_, port) => if validOptionalPort (":"%char :: port) then unescape EncodeHost l else None
        | None => unescape EncodeHost l
        end
  | [] => Some []
  end.

(** Whether what is not a host unescapes. *)
Definition unescapes (l : bytes) : bool := match unescape EncodeOther l with Some _ => true | None => false end.

(** validUserinfo *)
Definition validUserinfo (l : bytes) : bool := forallb (fun c => is_alnum c || one_of_bytes c "-._:~!$&'()*+,;=%@") l.

(** parseAuthority, its host. *)
Definition parseAuthority (l : bytes) : option bytes :=
  match cut_last "@" l with
  | None => parseHost l
  | Some (user, host) =>
      match parseHost host with
      | None => None
      | Some h => if validUserinfo user && unescapes user then Some h else None
      end
  end.

(** getScheme: the scheme, empty where there is none, and the rest. *)
Fixpoint scheme_from (first : bool) (l : bytes) : option (option (bytes * bytes)) :=
  match l with
  | [] => Some None
  | c :: l' =>
      let more := option_map (option_map (fun '(a, b) => (c :: a, b))) (scheme_from false l') in
      if is_letter c then more
      else if GoStr.is_digit c || one_of_bytes c "+-." then if first then Some None else more
      else if (c =c ":")%char then if first then None else Some (Some ([], l'))
      else Some None
  end.

Definition getScheme (l : bytes) : option (bytes * bytes) :=
  match scheme_from true l with
  | None => None
  | Some (Some (sch, rest)) => Some (sch, rest)
  | Some None => Some ([], l)
  end.

Definition is_ctl (c : ascii) : bool := (byte_val c <? 32)%Z || (byte_val c =? 127)%Z.

(** The rest without its query. *)
Definition cut_query (l : bytes) : bytes := match cut "?" l with Some (a, _) => a | None => l end.

Record URL := mkURL { Scheme : bytes; Host : bytes }.

(** parse, after the scheme. *)
Definition parse_rest (scheme rest : bytes) : option URL :=
  match rest with
  | c1 :: rest1 =>
      if (c1 =c "/")%char then
        match rest1 with
        | c2 :: auth =>
            if (c2 =c "/")%char && (negb (List.length scheme =? 0) || negb (is_prefix (lit "/") auth)) then
              let '(authority, path) := match cut "/" auth with Some (a, b) => (a, "/"%char :: b) | None => (auth, []) end in
              match parseAuthority authority with
              | Some h => if unescapes path then Some (mkURL scheme h) else None
              | None => None
              end
            else if unescapes rest then Some (mkURL scheme []) else None
        | [] => Some (mkURL scheme [])
        end
      else if negb (List.length scheme =? 0) then Some (mkURL scheme [])
      else
        let segment := match cut "/" rest with Some (a, _) => a | None => rest end in
        if existsb (Ascii.eqb ":") segment then None
        else if unescapes rest then Some (mkURL scheme []) else None
  | [] => Some (mkURL scheme [])
  end.

(** url.Parse; [None] is an error.  Bracketed hosts are taken as Go 1.25.0 takes
    them, without a look at the address inside. *)
Definition Parse (raw : string) : option URL :=
  let l := list_ascii_of_string raw in
  let '(u, frag) := match cut "#" l with Some (a, b) => (a, b) | None => (l, []) end in
  if existsb is_ctl u then None
  else match getScheme u with
       | None => None
       | Some (scheme, rest) =>
           match parse_rest (map GoStr.lower_byte scheme) (cut_query rest) with
           | Some url => if unescapes frag then Some url else None
           | None => None
           end
       end.

(** URL.Hostname *)
Definition Hostname (u : URL) : bytes :=
  let host := match cut_last ":" (Host u) with
              | Some (h, port) => if validOptionalPort (":"%char :: port) then h else Host u
              | None => Host u
              end in
  match host with
  | c :: h => if (c =c "[")%char && has_suffix host (lit "]") then take (List.length h - 1) h else host
  | [] => []
  end.

(** ** Paths *)

(** filepath.Clean *)
Definition Clean (p : string) : string :=
  let cs := Revoke.Clean p in
  if Revoke.rooted p then "/" +:+ Revoke.join_slash cs
  else match cs with [] => "." | _ => Revoke.join_slash cs end.

Definition IsAbs (p : string) : bool := GoStr.HasPrefix p "/".

(** filepath.Dir *)
Definition Dir (p : string) : string :=
  match cut_last "/" (list_ascii_of_string p) with
  | Some (d, _) => Clean (string_of_list_ascii (d ++ ["/"%char]))
  | None => "."
  end.

(** filepath.Join *)
Definition Join (elems : list string) : string :=
  match List.filter (fun e => negb (e =s "")) elems with
  | [] => ""
  | es => Clean (Revoke.join_slash es)
  end.

(** ** Numbers *)

(** The value of a run of digits. *)
Definition digits_value (l : bytes) : Z := fold_left (fun v c => (v * 10 + (byte_val c - 48))%Z) l 0%Z.

(** strconv.Atoi and ParseInt(s, 10, 64); [None] is an error. *)
Definition Atoi (s : string) : option Z :=
  let '(negative, l) :=
    match list_ascii_of_string s with
    | c :: l => if (c =c "-")%char then (true, l) else if (c =c "+")%char then (false, l) else (false, c :: l)
    | [] => (false, [])
    end in
  match l with
  | [] => None
  | _ =>
      if forallb GoStr.is_digit l then
        let v := if negative then (- digits_value l)%Z else digits_value l in
        if (- 2 ^ 63 <=? v)%Z && (v <? 2 ^ 63)%Z then Some v else None
      else None
  end.

End GoUrl.

Import Bytes GoUrl.

Example parse_port : Parse "https://h.example:8443/x?y#z" = Some (mkURL (lit "https") (lit "h.example:8443")).
Proof. vm_compute. reflexivity. Qed.

Example parse_userinfo : option_map Hostname (Parse "HTTP://localhost:80@evil.example:1/") = Some (lit "evil.example").
Proof. vm_compute. reflexivity. Qed.

Example parse_six : option_map Hostname (Parse "http://[::1]:8080") = Some (lit "::1").
Proof. vm_compute. reflexivity. Qed.

Example parse_bad : map Parse [":x"; "http://h:p"; "https://h/%zz"; "a b:c"; "https://h h/"] = [None; None; None; None; None].
Proof. vm_compute. reflexivity. Qed.

Example paths : (Dir "/a/b/../c/d.toml", Dir "x", Dir "/x", Join ["/r"; ""; "keys"; "k"], Join ["a"; "../.."])
  = ("/a/c", ".", "/", "/r/keys/k", "..").
Proof. vm_compute. reflexivity. Qed.
