(* ===== verification/SignerMain.v ===== *)
(** * The signer's main program (src/signer/cmd/sshgate-signer-telegram/main.go)

    Configuration, the lock that keeps a second daemon out, the start of the daemon
    with its backend, and --init.  The TOML parser, the user id, the files read and
    Telegram's answer to getMe are given. *)

From S2P Require Import Prelude GateVerify RedactScanner GateRevoke GoUrl Sigwire SignerDaemon SignerHosted SignerExplainer SignerKeys SignerSocket.

Module Main.

(** ** Configuration *)

Record explainerConfig := mkExplainerConfig {
  Enabled : bool; Endpoint : string; Model : string; APIKeyPath : string; exTimeoutSec : Z
}.

Record telegramConfig := mkTelegramConfig {
  TokenPath : string; AllowedUserID : Z; ChatStorePath : string; APIBaseURL : string; exBlock : explainerConfig
}.

Record hostedConfig := mkHostedConfig {
  BaseURL : string; APIKeyFile : string; ClientID : string; PollWaitSec : Z; TimeoutSec : Z
}.

Record pathsConfig := mkPaths { Key : string; PubKey : string; AuditLog : string; Socket : string }.

Record tomlConfig := mkConfig {
  Paths : pathsConfig; Type_ : string; TelegramBlock : telegramConfig; HostedBlock : hostedConfig
}.

(** Blocks that are absent. *)
Definition no_explainer : explainerConfig := mkExplainerConfig false "" "" "" 0.
Definition no_telegram : telegramConfig := mkTelegramConfig "" 0 "" "" no_explainer.
Definition no_hosted : hostedConfig := mkHostedConfig "" "" "" 0 0.

Inductive ConfigErr := DecodeFailed | NoKey | NoAuditLog | NoSocket | NoBackendType.

(** loadConfig; [decoded] is what toml.DecodeFile gives. *)
Definition loadConfig (decoded : option tomlConfig) : tomlConfig + ConfigErr :=
  match decoded with
  | None => inr DecodeFailed
  | Some cfg =>
      if Key (Paths cfg) =s "" then inr NoKey
      else if AuditLog (Paths cfg) =s "" then inr NoAuditLog
      else if Socket (Paths cfg) =s "" then inr NoSocket
      else if Type_ cfg =s "" then inr NoBackendType
      else inl cfg
  end.

(** ** The Bot-API endpoint (src/signer/backend/telegram.go) *)

Inductive EndpointErr := NotURL | MissingHost | PlainRemote | BadScheme (scheme : string).

(** validateAPIBaseURL *)
Definition validateAPIBaseURL (base : string) : option EndpointErr :=
  match GoUrl.Parse base with
  | None => Some NotURL
  | Some u =>
      let scheme := string_of_list_ascii (GoUrl.Scheme u) in
      match GoUrl.Host u with
      | [] => Some MissingHost
      | _ =>
          if scheme =s "https" then None
          else if scheme =s "http" then
            if GoStr.one_of (string_of_list_ascii (GoUrl.Hostname u)) ["localhost"; "127.0.0.1"; "::1"]
            then None else Some PlainRemote
          else Some (BadScheme scheme)
      end
  end.

(** strings.TrimSuffix of a slash. *)
Definition trim_slash (s : string) : string :=
  let n := String.length s - 1 in
  if GoStr.drop n s =s "/" then GoStr.take n s else s.

(** APIEndpointForBase *)
Definition APIEndpointForBase (base : string) : string + EndpointErr :=
  let base := GoStr.TrimSpace base in
  if base =s "" then inl ""
  else match validateAPIBaseURL base with
       | Some err => inr err
       | None => inl (trim_slash base +:+ "/bot%s/%s")
       end.

(** ** Backends *)

(** A Telegram backend as it starts to poll. *)
Record TelegramSetup := mkTelegramSetup {
  BotToken : string; allowedUserID : Z; chatStore : string; APIEndpoint : string;
  reqTimeout : Z; pollTimeout : Z; Explainer : option Explain.Explainer; ExplainerTimeout : Z
}.

Inductive Backend :=
  | StubBackend
  | TelegramBackend (t : TelegramSetup)
  | HostedBackend (h : Hosted.HostedServerBackend).

(** StubBackend.Request and RequestGrant: the result that is on the channel at once
    (src/signer/backend/stub.go); the other two ask elsewhere. *)
Definition answer_at_once (bk : Backend) : option Daemon.Result :=
  match bk with StubBackend => Some (Daemon.mkRes Daemon.StatusDenied "" []) | _ => None end.

Inductive BackendErr :=
  | UnknownType (t : string)
  | HostedMissing (field : string) | HostedKeyUnreadable | HostedKeyEmpty
  | TelegramMissing (field : string) | TokenUnreadable | TokenEmpty | BadEndpoint (why : EndpointErr)
  | ExplainerMissing (field : string) | ExplainerKeyUnreadable | ExplainerKeyEmpty
  | GetMeFailed.

(** What a start finds in files, in the environment and at Telegram; [url_ok] is
    whether the URLs built from a base parse. *)
Record Outside := mkOutside {
  read_file : string -> option string;
  api_env : string;
  get_me : string -> string -> bool;
  url_ok : string -> bool
}.

(** time.Duration(n) * time.Second *)
Definition seconds (n : Z) : Z := Verify.wrap64 (n * Sigwire.Second).

(** The defaults for a zero duration. *)
Definition or_default (d def : Z) : Z := if (d =? 0)%Z then def else d.

(** buildHostedBackend *)
Definition buildHostedBackend (o : Outside) (c : hostedConfig) : Backend + BackendErr :=
  if BaseURL c =s "" then inr (HostedMissing "base_url")
  else if APIKeyFile c =s "" then inr (HostedMissing "api_key_file")
  else if ClientID c =s "" then inr (HostedMissing "client_id")
  else match read_file o (APIKeyFile c) with
       | None => inr HostedKeyUnreadable
       | Some raw =>
           let key := GoStr.TrimSpace raw in
           if key =s "" then inr HostedKeyEmpty
           else inl (HostedBackend (Hosted.mkHosted (BaseURL c) key (ClientID c)
                       (or_default (seconds (PollWaitSec c)) (30 * Sigwire.Second))
                       (or_default (seconds (TimeoutSec c)) (60 * Sigwire.Second)) (url_ok o (BaseURL c))))
       end.

(** buildExplainer *)
Definition buildExplainer (o : Outside) (c : explainerConfig) : Explain.Explainer + BackendErr :=
  if Endpoint c =s "" then inr (ExplainerMissing "endpoint")
  else if Model c =s "" then inr (ExplainerMissing "model")
  else if APIKeyPath c =s "" then inr (ExplainerMissing "api_key_path")
  else match read_file o (APIKeyPath c) with
       | None => inr ExplainerKeyUnreadable
       | Some raw =>
           let key := GoStr.TrimSpace raw in
           if key =s "" then inr ExplainerKeyEmpty
           else inl (Explain.mkExplainer (Endpoint c) (Model c) key
                       (if (0 <? exTimeoutSec c)%Z then seconds (exTimeoutSec c) else 5 * Sigwire.Second))
       end.

(** NewTelegramBackend, for the options the main program gives; an empty endpoint
    is the library's own. *)
Definition NewTelegramBackend (o : Outside) (token : string) (user : Z) (store endpoint : string)
    : TelegramSetup + BackendErr :=
  if token =s "" then inr TokenEmpty
  else if (user =? 0)%Z then inr (TelegramMissing "allowed_user_id")
  else if get_me o token endpoint then
    inl (mkTelegramSetup token user store endpoint Sigwire.ApprovalWindow 30 None 0)
  else inr GetMeFailed.

(** buildTelegramBackend; Run cannot fail on a fresh backend. *)
Definition buildTelegramBackend (o : Outside) (c : telegramConfig) : Backend + BackendErr :=
  if TokenPath c =s "" then inr (TelegramMissing "token_path")
  else if (AllowedUserID c =? 0)%Z then inr (TelegramMissing "allowed_user_id")
  else if ChatStorePath c =s "" then inr (TelegramMissing "chatstore_path")
  else match read_file o (TokenPath c) with
       | None => inr TokenUnreadable
       | Some raw =>
           let token := GoStr.TrimSpace raw in
           if token =s "" then inr TokenEmpty
           else
             let env := GoStr.TrimSpace (api_env o) in
             let base := if env =s "" then GoStr.TrimSpace (APIBaseURL c) else env in
             match APIEndpointForBase base with
             | inr why => inr (BadEndpoint why)
             | inl endpoint =>
                 match NewTelegramBackend o token (AllowedUserID c) (ChatStorePath c) endpoint with
                 | inr err => inr err
                 | inl t =>
                     if Enabled (exBlock c) then
                       match buildExplainer o (exBlock c) with
                       | inr err => inr err
                       | inl ex =>
                           inl (TelegramBackend (mkTelegramSetup (BotToken t) (allowedUserID t) (chatStore t)
                                  (APIEndpoint t) (reqTimeout t) (pollTimeout t) (Some ex)
                                  (if (0 <? exTimeoutSec (exBlock c))%Z then seconds (exTimeoutSec (exBlock c)) else 0)))
                       end
                     else inl (TelegramBackend t)
                 end
             end
       end.

(** buildBackend *)
Definition buildBackend (o : Outside) (cfg : tomlConfig) : Backend + BackendErr :=
  if Type_ cfg =s "stub" then inl StubBackend
  else if Type_ cfg =s "telegram" then buildTelegramBackend o (TelegramBlock cfg)
  else if Type_ cfg =s "hosted" then buildHostedBackend o (HostedBlock cfg)
  else inr (UnknownType (Type_ cfg)).

(** ** The start *)

Inductive StartErr :=
  | RunsAsRoot | BadConfig (why : ConfigErr) | LockDir | LockOpen | LockHeld | FlockFailed
  | BadKey (why : KeyFile.LoadError) | NoAudit | NoSalt | BadBackend (why : BackendErr).

(** What the process finds until it has the lock: its user, its configuration, and
    the file at the lock's path. *)
Record Before := mkBefore {
  geteuid : Z;
  decode_file : string -> option tomlConfig;
  lock_dir_ok : bool;
  lock_file : string -> option nat;
  flock_fails : bool
}.

Definition assertNonRoot (euid : Z) : option StartErr := if (euid =? 0)%Z then Some RunsAsRoot else None.

(** flockOrFail, on the locks that are held. *)
Definition flockOrFail (b : Before) (held : gmap nat nat) (lockPath : string) : nat + StartErr :=
  if negb (lock_dir_ok b) then inr LockDir
  else match lock_file b lockPath with
       | None => inr LockOpen
       | Some f =>
           if flock_fails b then inr FlockFailed
           else match held !! f with Some _ => inr LockHeld | None => inl f end
       end.

(** run, up to the lock. *)
Definition acquire (b : Before) (held : gmap nat nat) (configPath : string) : (tomlConfig * nat) + StartErr :=
  match assertNonRoot (geteuid b) with
  | Some err => inr err
  | None =>
      match loadConfig (decode_file b configPath) with
      | inr why => inr (BadConfig why)
      | inl cfg =>
          match flockOrFail b held (Socket (Paths cfg) +:+ ".lock") with
          | inr err => inr err
          | inl f => inl (cfg, f)
          end
      end
  end.

(** What it finds once it has the lock: the disk with the key, whether it can be
    looked up and read, and the rest. *)
Record After := mkAfter {
  key_disk : KeyFile.FS; key_stat_fails : bool; key_read_fails : bool;
  audit_opens : string -> bool;
  salt : option (list ascii);
  outside : Outside
}.

(** The daemon that serves, and the timeout of its handlers. *)
Record Running := mkDaemon {
  dConfig : tomlConfig; dKey : list ascii; dSalt : list ascii; dBackend : Backend; HandlerTimeout : Z
}.

(** run, from the lock to the server. *)
Definition prepare (a : After) (cfg : tomlConfig) : Running + StartErr :=
  match KeyFile.LoadKey (key_disk a) (key_stat_fails a) (key_read_fails a) (Key (Paths cfg)) with
  | inr why => inr (BadKey why)
  | inl key =>
      if negb (audit_opens a (AuditLog (Paths cfg))) then inr NoAudit
      else match salt a with
           | None => inr NoSalt
           | Some s =>
               match buildBackend (outside a) cfg with
               | inr why => inr (BadBackend why)
               | inl bk => inl (mkDaemon cfg key s bk Sigwire.SignerHandlerTimeout)
               end
           end
  end.

(** The exit code of run after a start that failed, and after Listen returned. *)
Definition exit_of_start (e : StartErr) : Z := 1.
Definition exit_of_listen (err : option Socket.ListenError) : Z := 0.

(** ** Processes *)

Inductive Proc := Locked (cfg : tomlConfig) (f : nat) | Serving (d : Running) (f : nat).

Record Machine := mkMachine { held : gmap nat nat; procs : gmap nat Proc }.

Definition no_process : Machine := mkMachine ∅ ∅.

Definition lock_of (p : Proc) : nat := match p with Locked _ f | Serving _ f => f end.

(** A process gets the lock; it goes on to serve; it ends, by itself or killed, and
    the kernel releases its lock.  One that fails before it has the lock, or for it,
    changes nothing. *)
Inductive step (m : Machine) : Machine -> Prop :=
  | Acquires pid b path cfg f :
      procs m !! pid = None -> acquire b (held m) path = inl (cfg, f) ->
      step m (mkMachine (<[f := pid]> (held m)) (<[pid := Locked cfg f]> (procs m)))
  | Serves pid a cfg f d :
      procs m !! pid = Some (Locked cfg f) -> prepare a cfg = inl d ->
      step m (mkMachine (held m) (<[pid := Serving d f]> (procs m)))
  | Ends pid p :
      procs m !! pid = Some p ->
      step m (mkMachine (delete (lock_of p) (held m)) (delete pid (procs m))).

(** defaultConfigPath *)
Definition defaultConfigPath (env : string) : string :=
  if env =s "" then "/var/lib/sshgatesigner/config/config.toml" else env.

(** ** --init *)

Record initPaths := mkInitPaths {
  Root : string; KeyPath : string; PubPath : string; AuditPath : string; SockPath : string; ConfigPath : string
}.

(** The environment of --init --dev. *)
Record DevEnv := mkDevEnv { xdg_runtime : string; temp_dir : string; getpid : string }.

(** resolveInitPaths; [None] is its error. *)
Definition resolveInitPaths (v : DevEnv) (configPath : string) (dev : bool) : option initPaths :=
  if dev then
    let root :=
      if negb (configPath =s "") && GoUrl.IsAbs configPath then GoUrl.Dir configPath
      else
        let runtime := if xdg_runtime v =s "" then GoUrl.Join [temp_dir v; "signer-dev"] else xdg_runtime v in
        GoUrl.Join [runtime; "signer-" +:+ getpid v] in
    Some (mkInitPaths root (GoUrl.Join [root; "gate.key"]) (GoUrl.Join [root; "gate.pub"])
            (GoUrl.Join [root; "approvals.log"]) (GoUrl.Join [root; "sock"]) configPath)
  else if (configPath =s "") || negb (GoUrl.IsAbs configPath) then None
  else
    let root := GoUrl.Dir (GoUrl.Dir configPath) in
    Some (mkInitPaths root (GoUrl.Join [root; "keys"; "gate.key"]) (GoUrl.Join [root; "keys"; "gate.pub"])
            (GoUrl.Join [root; "log"; "approvals.log"]) "/run/sshgatesigner/sock" configPath).

Definition hex_digit (n : N) : ascii := ascii_of_N (if (n <? 10)%N then 48 + n else 87 + n).

(** %q, of ASCII text; the bytes of other runes are left as they are. *)
Fixpoint quoted (s : string) : string :=
  match s with
  | EmptyString => ""
  | String c s =>
      let n := N_of_ascii c in
      let esc (d : ascii) := String BACKSLASH (String d (quoted s)) in
      if (c =c DQUOTE) || (c =c BACKSLASH) then esc c
      else if (n =? 7)%N then esc "a"%char else if (n =? 8)%N then esc "b"%char else if (n =? 12)%N then esc "f"%char
      else if (n =? 10)%N then esc "n"%char else if (n =? 13)%N then esc "r"%char else if (n =? 9)%N then esc "t"%char
      else if (n =? 11)%N then esc "v"%char
      else if (n <? 32)%N || (n =? 127)%N
      then String BACKSLASH (String "x"%char (String (hex_digit (n / 16)) (String (hex_digit (n mod 16)) (quoted s))))
      else String c (quoted s)
  end.

Definition Quote (s : string) : string := String DQUOTE (quoted s +:+ String DQUOTE "").

Definition line (s : string) : string := s +:+ String NL "".

(** A word in double quotes. *)
Definition dq (s : string) : string := String DQUOTE (s +:+ String DQUOTE "").

(** The configuration that --init writes. *)
Definition init_body (p : initPaths) : string :=
  line "# signer v1.4 configuration" +:+ line "" +:+ line "[paths]"
  +:+ line ("key       = " +:+ Quote (KeyPath p)) +:+ line ("pubkey    = " +:+ Quote (PubPath p))
  +:+ line ("audit_log = " +:+ Quote (AuditPath p)) +:+ line ("socket    = " +:+ Quote (SockPath p))
  +:+ line "" +:+ line "[backend]"
  +:+ line ("# " +:+ dq "stub" +:+ " denies every request; used by the phase-1 e2e test that proves")
  +:+ line "# the cryptographic loop without a human in the loop. Switch to"
  +:+ line ("# " +:+ dq "telegram" +:+ " once task 2.1 lands.")
  +:+ line ("type = " +:+ dq "stub").

Inductive InitErr :=
  | NeedsAbsolute | MkdirFailed (d : string) | KeysFailed (why : KeyFile.GenError) | ConfigExists | StatConfig | WriteConfig.

(** The first directory that cannot be made. *)
Fixpoint mkdirs (fails : string -> bool) (ds : list string) : option string :=
  match ds with
  | [] => None
  | d :: ds =>
      if (d =s "") || (d =s ".") then mkdirs fails ds
      else if fails d then Some d else mkdirs fails ds
  end.

(** What --init meets: directories and files that cannot be made or looked up, the
    new keys and the steps of their writes, and what a failed write of the
    configuration leaves there. *)
Record InitEnv := mkInitEnv {
  dev_env : DevEnv;
  mkdir_fails : string -> bool;
  stat_fails : string -> bool;
  generated : option (list ascii * list ascii);
  key_writes : KeyFile.Attempt * KeyFile.Attempt;
  remove_fails : bool;
  config_fault : option (option (list ascii))
}.

(** doInitFlow *)
Definition doInitFlow (e : InitEnv) (configPath : string) (dev : bool) (fs : KeyFile.FS) : KeyFile.FS * option InitErr :=
  match resolveInitPaths (dev_env e) configPath dev with
  | None => (fs, Some NeedsAbsolute)
  | Some p =>
      match mkdirs (mkdir_fails e)
              [GoUrl.Dir (KeyPath p); GoUrl.Dir (AuditPath p); GoUrl.Dir (SockPath p); GoUrl.Dir configPath] with
      | Some d => (fs, Some (MkdirFailed d))
      | None =>
          match KeyFile.GenerateKeyPair (KeyPath p) (PubPath p) (stat_fails e) (generated e)
                  (key_writes e).1 (key_writes e).2 (remove_fails e) fs with
          | (_, fs, Some why) => (fs, Some (KeysFailed why))
          | (_, fs, None) =>
              if stat_fails e configPath then (fs, Some StatConfig)
              else match fs !! configPath with
                   | Some _ => (fs, Some ConfigExists)
                   | None =>
                       match config_fault e with
                       | None => (<[configPath := KeyFile.mkFile 416 (Bytes.lit (init_body p))]> fs, None)
                       | Some None => (fs, Some WriteConfig)
                       | Some (Some bytes) => (<[configPath := KeyFile.mkFile 416 bytes]> fs, Some WriteConfig)
                       end
                   end
          end
      end
  end.

End Main.
