(* ===== verification/SignerMainProps.v ===== *)
(** * What a running signer is

    At most one serves for a lock file, and it is configured; what --init leaves is
    what a daemon starts on; and where its own words are not kept. *)

From stdpp Require Import relations.
From S2P Require Import Prelude GateVerify RedactScanner GateRevoke GateMain GoUrl Sigwire SignerDaemon SignerHosted SignerExplainer SignerKeys SignerKeysProps SignerSocket SignerMain.
Import Main.

(** ** The Bot-API endpoint *)

Lemma cut_app c l a b : GoUrl.cut c l = Some (a, b) -> l = a ++ c :: b.
Proof.
  revert a b. induction l as [|d l IH]; intros a b; cbn; [done|].
  destruct (d =c c) eqn:E; [apply Ascii.eqb_eq in E as ->; by intros [= <- <-]|].
  destruct (GoUrl.cut c l) as [[x y]|]; [|done]. intros [= <- <-]. cbn. f_equal. by apply IH.
Qed.

Lemma scheme_app first l a b : GoUrl.scheme_from first l = Some (Some (a, b)) -> l = a ++ ":"%char :: b.
Proof.
  revert first a b. induction l as [|c l IH]; intros first a b; cbn [GoUrl.scheme_from]; [done|].
  assert (forall r, option_map (option_map (fun '(a, b) => (c :: a, b))) (GoUrl.scheme_from false l) = Some (Some (a, b)) ->
    r = a ++ ":"%char :: b \/ c :: l = a ++ ":"%char :: b) as Hm.
  { intros r. destruct (GoUrl.scheme_from false l) as [[[x y]|]|] eqn:E; cbn; [|done|done].
    intros [= <- <-]. right. cbn. f_equal. by apply (IH false). }
  destruct (GoUrl.is_letter c); [intros Ha; by destruct (Hm (c :: l) Ha)|].
  destruct (GoStr.is_digit c || GoUrl.one_of_bytes c "+-.").
  { destruct first; [done|]. intros Ha. by destruct (Hm (c :: l) Ha). }
  destruct (c =c ":")%char eqn:E; [|done]. apply Ascii.eqb_eq in E as ->.
  destruct first; [done|]. by intros [= <- <-].
Qed.

(** Every way through a parse step. *)
Ltac every_way H :=
  repeat match type of H with
  | context [match ?x with [] => _ | _ :: _ => _ end] => destruct x
  | context [let '(_, _) := ?x in _] => destruct x
  | context [if ?b then _ else _] => destruct b
  | context [match ?x with Some _ => _ | None => _ end] => destruct x
  end; try done; injection H as <-; try done.

(** A URL with a host is a scheme, a colon, two slashes and the rest. *)
Lemma parse_shape raw u : GoUrl.Parse raw = Some u -> GoUrl.Host u <> [] ->
  exists sch rest, GoUrl.Scheme u = map GoStr.lower_byte sch
  /\ (sch <> [] -> list_ascii_of_string raw = sch ++ Bytes.lit "://" ++ rest).
Proof.
  unfold GoUrl.Parse. set (l := list_ascii_of_string raw).
  assert (exists frag, forall x f, (match GoUrl.cut "#" l with Some (a, b) => (a, b) | None => (l, []) end) = (x, f) ->
    l = x ++ frag) as [frag Hfrag].
  { destruct (GoUrl.cut "#" l) as [[x y]|] eqn:E.
    - exists ("#"%char :: y). intros ? ? [= <- <-]. by apply cut_app.
    - exists []. intros ? ? [= <- <-]. by rewrite app_nil_r. }
  destruct (match GoUrl.cut "#" l with Some _ => _ | None => _ end) as [x f]. specialize (Hfrag x f eq_refl).
  destruct (existsb GoUrl.is_ctl x); [done|].
  unfold GoUrl.getScheme. destruct (GoUrl.scheme_from true x) as [[[sch r]|]|] eqn:Es; [| |done].
  - apply scheme_app in Es. intros Hp Hh. exists sch.
    destruct (GoUrl.parse_rest _ (GoUrl.cut_query r)) as [v|] eqn:Er; [|done].
    assert (v = u) as -> by (destruct (GoUrl.unescapes f); congruence). clear Hp.
    assert (exists q, r = GoUrl.cut_query r ++ q) as [q Hq].
    { unfold GoUrl.cut_query. destruct (GoUrl.cut "?" r) as [[a b]|] eqn:E.
      - exists ("?"%char :: b). by apply cut_app.
      - exists []. by rewrite app_nil_r. }
    destruct (GoUrl.cut_query r) as [|c1 [|c2 auth]]; cbn in Er.
    + injection Er as <-. done.
    + exfalso. every_way Er.
    + destruct (c1 =c "/")%char eqn:E1; cycle 1.
      { exfalso. every_way Er. }
      destruct ((c2 =c "/")%char && _) eqn:E2; cycle 1.
      { exfalso. every_way Er. }
      apply andb_true_iff in E2 as [E2 _]. apply Ascii.eqb_eq in E1 as ->, E2 as ->.
      exists (auth ++ q ++ frag). split.
      * every_way Er.
      * intros _. rewrite Hfrag, Es, Hq, <- app_assoc. f_equal. cbn. do 3 f_equal. by rewrite <- app_assoc.
  - intros Hp Hh. exists [], []. split; [|done].
    destruct (GoUrl.parse_rest _ _) as [v|] eqn:Er; [|done].
    assert (v = u) as -> by (destruct (GoUrl.unescapes f); congruence). clear Hp.
    unfold GoUrl.parse_rest in Er. cbn in Er.
    every_way Er.
Qed.

(** A base in use goes over TLS, or to this host. *)
Definition base_safe (base : string) : Prop :=
  exists u sch rest, GoUrl.Parse base = Some u /\ GoUrl.Host u <> []
  /\ list_ascii_of_string base = sch ++ Bytes.lit "://" ++ rest
  /\ (map GoStr.lower_byte sch = Bytes.lit "https"
      \/ map GoStr.lower_byte sch = Bytes.lit "http"
         /\ In (string_of_list_ascii (GoUrl.Hostname u)) ["localhost"; "127.0.0.1"; "::1"]).

Lemma bytes_eq l s : string_of_list_ascii l = s -> l = Bytes.lit s.
Proof. intros <-. unfold Bytes.lit. by rewrite list_ascii_of_string_of_list_ascii. Qed.

(** The endpoint is the library's own or made of a safe base. *)
Lemma endpoint_safe base ep : APIEndpointForBase base = inl ep ->
  ep = "" \/ base_safe (GoStr.TrimSpace base) /\ ep = trim_slash (GoStr.TrimSpace base) +:+ "/bot%s/%s".
Proof.
  unfold APIEndpointForBase. destruct (_ =s "") eqn:E; [intros [= <-]; by left|].
  unfold validateAPIBaseURL. destruct (GoUrl.Parse _) as [u|] eqn:Hp; [|done].
  destruct (GoUrl.Host u) as [|h hs] eqn:Hh; [done|].
  assert (GoUrl.Host u <> []) as Hne by congruence.
  destruct (parse_shape _ _ Hp Hne) as (sch & rest & Hs & Hl).
  assert (forall s, String.eqb (string_of_list_ascii (GoUrl.Scheme u)) s = true -> s <> "" ->
    map GoStr.lower_byte sch = Bytes.lit s /\ sch <> []) as Hsch.
  { intros s Hq%String.eqb_eq Hn. apply bytes_eq in Hq. rewrite <- Hs. split; [done|].
    intros ->. rewrite Hs in Hq. by destruct s. }
  destruct (_ =s "https") eqn:E1; [|destruct (_ =s "http") eqn:E2; [|done]].
  - apply Hsch in E1 as [H1 H2]; [|done]. intros [= <-]. right. split; [|done].
    exists u, sch, rest. split_and!; try done; [by apply Hl|by left].
  - apply Hsch in E2 as [H1 H2]; [|done].
    destruct (GoStr.one_of _ _) eqn:E3; [|done]. intros [= <-]. right. split; [|done].
    exists u, sch, rest. split_and!; try done; [by apply Hl|right]. split; [done|].
    unfold GoStr.one_of in E3. apply existsb_exists in E3 as (x & Hx & <-%String.eqb_eq). done.
Qed.

(** ** A daemon that serves *)

(** What the backend of a configuration may be. *)
Definition backend_ready (cfg : tomlConfig) (bk : Backend) : Prop :=
  match bk with
  | StubBackend => Type_ cfg = "stub"
  | TelegramBackend t =>
      Type_ cfg = "telegram" /\ BotToken t <> "" /\ allowedUserID t = AllowedUserID (TelegramBlock cfg)
      /\ allowedUserID t <> 0%Z /\ reqTimeout t = Sigwire.ApprovalWindow
      /\ (APIEndpoint t = "" \/ exists base, base_safe base /\ APIEndpoint t = trim_slash base +:+ "/bot%s/%s")
  | HostedBackend h => Type_ cfg = "hosted" /\ Hosted.validate h = None /\ Hosted.PollWait h <> 0%Z /\ Hosted.Timeout h <> 0%Z
  end.

Lemma or_default_nonzero d def : def <> 0%Z -> or_default d def <> 0%Z.
Proof. unfold or_default. destruct (d =? 0)%Z eqn:E; [done|]. lia. Qed.

Lemma hosted_ready o cfg bk : Type_ cfg = "hosted" ->
  buildHostedBackend o (HostedBlock cfg) = inl bk -> backend_ready cfg bk.
Proof.
  unfold buildHostedBackend. intros Ht.
  destruct (BaseURL _ =s "") eqn:E1; [done|]. destruct (APIKeyFile _ =s ""); [done|].
  destruct (ClientID _ =s "") eqn:E2; [done|]. destruct (read_file o _) as [raw|]; [|done].
  destruct (GoStr.TrimSpace raw =s "") eqn:E3; [done|]. intros [= <-]. split; [done|].
  unfold Hosted.validate. cbn. rewrite E1, E2, E3. split; [done|].
  split; by apply or_default_nonzero.
Qed.

Lemma telegram_ready o cfg bk : Type_ cfg = "telegram" ->
  buildTelegramBackend o (TelegramBlock cfg) = inl bk -> backend_ready cfg bk.
Proof.
  unfold buildTelegramBackend, NewTelegramBackend. intros Ht.
  destruct (TokenPath _ =s ""); [done|]. destruct (AllowedUserID _ =? 0)%Z eqn:Eu; [done|].
  destruct (ChatStorePath _ =s ""); [done|]. destruct (read_file o _) as [raw|]; [|done].
  destruct (GoStr.TrimSpace raw =s "") eqn:E3; [done|].
  destruct (APIEndpointForBase _) as [ep|] eqn:Eep; [|done]. destruct (get_me o _ ep); [|done].
  assert (ep = "" \/ exists base, base_safe base /\ ep = trim_slash base +:+ "/bot%s/%s") as Hep.
  { apply endpoint_safe in Eep as [?|[? ?]]; [by left|right; by eexists]. }
  bool_hyps.
  destruct (Enabled _); [destruct (buildExplainer o _); [|done]|]; intros [= <-]; cbn; split_and!; try done.
Qed.

Lemma backend_built o cfg bk : buildBackend o cfg = inl bk -> backend_ready cfg bk.
Proof.
  unfold buildBackend. destruct (Type_ cfg =s "stub") eqn:E1; [bool_hyps; by intros [= <-]|].
  destruct (Type_ cfg =s "telegram") eqn:E2; [bool_hyps; by apply telegram_ready|].
  destruct (Type_ cfg =s "hosted") eqn:E3; [bool_hyps; by apply hosted_ready|done].
Qed.

(** Its configuration is complete, its key whole and only its owner's. *)
Definition daemon_ready (d : Running) : Prop :=
  Key (Paths (dConfig d)) <> "" /\ AuditLog (Paths (dConfig d)) <> "" /\ Socket (Paths (dConfig d)) <> ""
  /\ List.length (dKey d) = KeyFile.PrivateKeySize
  /\ backend_ready (dConfig d) (dBackend d) /\ HandlerTimeout d = Sigwire.SignerHandlerTimeout.

Definition complete (cfg : tomlConfig) : Prop :=
  Key (Paths cfg) <> "" /\ AuditLog (Paths cfg) <> "" /\ Socket (Paths cfg) <> "" /\ Type_ cfg <> "".

Lemma loadConfig_complete d cfg : loadConfig d = inl cfg -> d = Some cfg /\ complete cfg.
Proof.
  unfold loadConfig. destruct d as [c|]; [|done].
  destruct (Key _ =s "") eqn:E1; [done|]. destruct (AuditLog _ =s "") eqn:E2; [done|].
  destruct (Socket _ =s "") eqn:E3; [done|]. destruct (Type_ _ =s "") eqn:E4; [done|].
  intros [= ->]. bool_hyps. by split_and!.
Qed.

Lemma prepare_ready a cfg d : complete cfg -> prepare a cfg = inl d -> dConfig d = cfg /\ daemon_ready d.
Proof.
  intros (H1 & H2 & H3 & _). unfold prepare.
  destruct (KeyFile.LoadKey _ _ _ _) as [key|] eqn:Ek; [|done].
  destruct (negb (audit_opens a _)); [done|]. destruct (salt a); [|done].
  destruct (buildBackend _ cfg) as [bk|] eqn:Eb; [|done]. intros [= <-]. split; [done|].
  split_and!; try done; [|by eapply backend_built].
  unfold KeyFile.LoadKey in Ek. destruct (if key_stat_fails a then None else _) as [f|]; [|done].
  destruct (negb (_ =? 0)%Z); [done|]. destruct (key_read_fails a); [done|].
  destruct (negb (List.length _ =? _)) eqn:El; [done|]. injection Ek as <-. cbn. by bool_hyps.
Qed.

(** ** One signer for a lock *)

(** Whoever lives holds its lock, and what it runs on is complete. *)
Definition machine_ok (m : Machine) : Prop :=
  forall pid p, procs m !! pid = Some p ->
  held m !! lock_of p = Some pid
  /\ match p with Locked cfg _ => complete cfg | Serving d _ => daemon_ready d end.

Lemma acquire_free b h path cfg f : acquire b h path = inl (cfg, f) -> h !! f = None /\ complete cfg /\ geteuid b <> 0%Z.
Proof.
  unfold acquire, assertNonRoot. destruct (geteuid b =? 0)%Z eqn:Eu; [done|].
  destruct (loadConfig _) as [c|] eqn:Ec; [|done]. apply loadConfig_complete in Ec as [_ Hc].
  unfold flockOrFail. destruct (negb (lock_dir_ok b)); [done|]. destruct (lock_file b _); [|done].
  destruct (flock_fails b); [done|]. destruct (h !! n) eqn:Eh; [done|]. intros [= <- <-].
  split; [done|]. split; [done|]. lia.
Qed.

Lemma step_machine m m' : step m m' -> machine_ok m -> machine_ok m'.
Proof.
  intros Hs Hm. destruct Hs as [pid b path cfg f Hn Ha|pid a cfg f d Hp Hd|pid p Hp]; intros q r Hq; cbn in *.
  - apply acquire_free in Ha as (Hf & Hc & _). apply lookup_insert_Some in Hq as [[<- <-]|[Hne Hq]].
    + cbn. by rewrite lookup_insert_eq.
    + destruct (Hm q r Hq) as [Hl Ho]. split; [|done]. rewrite lookup_insert_ne; [done|]. congruence.
  - apply lookup_insert_Some in Hq as [[<- <-]|[Hne Hq]]; [|by apply Hm].
    destruct (Hm _ _ Hp) as [Hl Hc]. split; [done|]. by apply (prepare_ready a cfg).
  - apply lookup_delete_Some in Hq as [Hne Hq]. destruct (Hm q r Hq) as [Hl Ho], (Hm pid p Hp) as [Hl' _].
    split; [|done]. rewrite lookup_delete_ne; [done|]. congruence.
Qed.

Lemma reachable_ok m : rtc step no_process m -> machine_ok m.
Proof.
  intros Hr. assert (forall m0, rtc step m0 m -> machine_ok m0 -> machine_ok m) as Hg.
  { intros m0. induction 1; eauto using step_machine. }
  apply (Hg no_process); [done|]. intros pid p Hp. cbn [procs no_process] in Hp. by rewrite lookup_empty in Hp.
Qed.

(** C19: At most one signer serves for a lock file.  Whatever starts, ends and crashes
    in any order, two processes with the same lock are one; a start that finds the
    lock of a live process, before or after that process serves, gives up; and every
    process that serves has a complete configuration, a whole private key and the
    backend its configuration names: the one that denies, or a Telegram bot with a
    token, a user whose taps count and an endpoint under TLS or on this host, or the
    hosted one with nothing missing. *)
Theorem one_signer (m : Machine) (Hrun : rtc step no_process m) :
  (forall pid pid' p p', procs m !! pid = Some p -> procs m !! pid' = Some p' -> lock_of p = lock_of p' -> pid = pid')
  /\ (forall pid p b path cfg, procs m !! pid = Some p ->
      geteuid b <> 0%Z -> loadConfig (decode_file b path) = inl cfg -> lock_dir_ok b = true -> flock_fails b = false ->
      lock_file b (Socket (Paths cfg) +:+ ".lock") = Some (lock_of p) ->
      acquire b (held m) path = inr LockHeld)
  /\ (forall pid d f, procs m !! pid = Some (Serving d f) -> daemon_ready d).
Proof.
  pose proof (reachable_ok m Hrun) as Hm. split_and!.
  - intros pid pid' p p' Hp Hp' He. destruct (Hm _ _ Hp) as [Hl _], (Hm _ _ Hp') as [Hl' _]. congruence.
  - intros pid p b path cfg Hp Hu Hc Hd Hf Hl. destruct (Hm _ _ Hp) as [Hh _].
    unfold acquire, assertNonRoot. apply Z.eqb_neq in Hu. rewrite Hu, Hc. unfold flockOrFail.
    by rewrite Hd, Hl, Hf, Hh.
  - intros pid d f Hp. by destruct (Hm _ _ Hp).
Qed.

(** ** What --init leaves *)

Lemma join_slash_snoc cs c : cs <> [] -> Revoke.join_slash (cs ++ [c]) = Revoke.join_slash cs +:+ "/" +:+ c.
Proof.
  induction cs as [|x [|y cs] IH]; intros Hn; [done|done|].
  change (Revoke.join_slash ((x :: y :: cs) ++ [c])) with (x +:+ "/" +:+ Revoke.join_slash ((y :: cs) ++ [c])).
  rewrite IH by done. cbn [Revoke.join_slash]. by rewrite !str_app_assoc.
Qed.

Lemma clean_snoc r c cs : (c =s "") || (c =s ".") = false -> (c =s "..") = false -> forall acc,
  Revoke.clean_components r acc (cs ++ [c]) = c :: Revoke.clean_components r acc cs.
Proof.
  intros H1 H2. induction cs as [|x cs IH]; intros acc; cbn [app Revoke.clean_components]; [by rewrite H1, H2|].
  destruct ((x =s "") || _); [apply IH|]. destruct (x =s ".."); [|apply IH].
  destruct acc as [|a acc]; [apply IH|]. destruct (a =s ".."); apply IH.
Qed.

(** A path joined to a plain name ends in that name. *)
Lemma Join_last root dir c : dir <> "" -> Revoke.components c = [c] ->
  (c =s "") || (c =s ".") = false -> (c =s "..") = false ->
  exists pre, GoUrl.Join [root; dir; c] = pre +:+ c.
Proof.
  intros Hd Hc H1 H2. pose proof H1 as [H3 _]%orb_false_iff. unfold GoUrl.Join.
  apply String.eqb_neq in Hd.
  assert (exists es, es <> [] /\ List.filter (fun e => negb (e =s "")) [root; dir; c] = es ++ [c]) as (es & Hne & ->).
  { cbn. rewrite Hd, H3. cbn. destruct (root =s ""); [by exists [dir]|by exists [root; dir]]. }
  assert (exists es', Revoke.Clean (Revoke.join_slash (es ++ [c])) = es' ++ [c]) as [es' He].
  { unfold Revoke.Clean. rewrite join_slash_snoc by done. unfold Revoke.components at 1.
    rewrite !list_ascii_of_app. cbn [list_ascii_of_string app]. rewrite split_on_app by done.
    rewrite map_app. fold (Revoke.components (Revoke.join_slash es)). fold (Revoke.components c). rewrite Hc.
    rewrite clean_snoc, reverse_cons by done. by eexists. }
  destruct (es ++ [c]) as [|e es1] eqn:E; [by destruct es|]. rewrite <- E in He |- *. clear E.
  unfold GoUrl.Clean. rewrite He. destruct es' as [|x es'].
  - cbn [app Revoke.join_slash]. destruct (Revoke.rooted _); [by exists "/"|by exists ""].
  - pose proof (join_slash_snoc (x :: es') c ltac:(done)) as Hj. destruct (Revoke.rooted _); cbn [app]; cbn [app] in Hj; rewrite Hj.
    + exists ("/" +:+ Revoke.join_slash (x :: es') +:+ "/"). by rewrite <- !str_app_assoc.
    + exists (Revoke.join_slash (x :: es') +:+ "/"). by rewrite <- str_app_assoc.
Qed.

Lemma ends_apart a b x y : a +:+ String.append x "y" = b +:+ String.append y "b" -> False.
Proof.
  intros He%(f_equal list_ascii_of_string). rewrite !list_ascii_of_app in He. cbn [list_ascii_of_string] in He.
  rewrite !app_assoc in He. by apply app_inj_tail in He as [_ ?].
Qed.

Lemma init_key_paths v path p : resolveInitPaths v path false = Some p -> KeyPath p <> PubPath p.
Proof.
  unfold resolveInitPaths. destruct ((path =s "") || _); [done|]. intros [= <-]. cbn [KeyPath PubPath].
  destruct (Join_last (GoUrl.Dir (GoUrl.Dir path)) "keys" "gate.key") as [a ->]; [done..|].
  destruct (Join_last (GoUrl.Dir (GoUrl.Dir path)) "keys" "gate.pub") as [b ->]; [done..|].
  exact (ends_apart a b "gate.ke" "gate.pu").
Qed.

(** What the configuration of --init says. *)
Definition skeleton (p : initPaths) : tomlConfig :=
  mkConfig (mkPaths (KeyPath p) (PubPath p) (AuditPath p) (SockPath p)) "stub" no_telegram no_hosted.

Lemma nonempty_end pre c : c <> "" -> pre +:+ c <> "".
Proof. intros Hc. destruct pre; [done|discriminate]. Qed.

Lemma skeleton_loads v path p : resolveInitPaths v path false = Some p -> loadConfig (Some (skeleton p)) = inl (skeleton p).
Proof.
  unfold resolveInitPaths. destruct ((path =s "") || _); [done|]. intros [= <-].
  set (root := GoUrl.Dir (GoUrl.Dir path)).
  destruct (Join_last root "keys" "gate.key") as [a Ha]; [done..|].
  destruct (Join_last root "log" "approvals.log") as [b Hb]; [done..|].
  unfold loadConfig. cbn [skeleton Paths Key AuditLog Socket Type_ KeyPath AuditPath SockPath].
  rewrite Ha, Hb, !(proj2 (String.eqb_neq _ _)) by (by apply nonempty_end). done.
Qed.

Section Init.
Context `{PemDecoder}.
Variables (e : InitEnv) (configPath : string) (fs : KeyFile.FS) (p : initPaths) (pub priv : list ascii).
Hypothesis Hp : resolveInitPaths (dev_env e) configPath false = Some p.
Hypothesis Hgen : generated e = Some (pub, priv).
Hypothesis Hpw : KeyFile.tmp (key_writes e).1 <> KeyPath p /\ KeyFile.tmp (key_writes e).1 <> PubPath p
  /\ fs !! KeyFile.tmp (key_writes e).1 = None.
Hypothesis Hbw : KeyFile.tmp (key_writes e).2 <> KeyPath p /\ KeyFile.tmp (key_writes e).2 <> PubPath p
  /\ fs !! KeyFile.tmp (key_writes e).2 = None.

(** The disk with the new pair. *)
Definition with_pair : KeyFile.FS := leaves (KeyPath p) (PubPath p) pub priv (remove_fails e) fs None.

(** How --init ends: before the keys, or with them in place. *)
Lemma init_outcome :
  let '(d, err) := doInitFlow e configPath false fs in
  (err <> None /\ exists w, err = Some (KeysFailed w) \/ exists q, err = Some (MkdirFailed q))
  \/ (fs !! KeyPath p = None /\ fs !! PubPath p = None
      /\ ((err <> None /\ d !! KeyPath p = with_pair !! KeyPath p)
          \/ (err = None /\ with_pair !! configPath = None
              /\ d = <[configPath := KeyFile.mkFile 416 (Bytes.lit (init_body p))]> with_pair))).
Proof.
  unfold doInitFlow. rewrite Hp, Hgen. destruct (mkdirs _ _) as [q|]; [left; split; [done|]; exists KeyFile.NoKeyPair; eauto|].
  pose proof (init_key_paths _ _ _ Hp) as Hne.
  pose proof (SignerKeysProps.generated (KeyPath p) (PubPath p) (stat_fails e) pub priv (key_writes e).1 (key_writes e).2
    (remove_fails e) fs Hne Hpw Hbw) as Hg.
  unfold generate in Hg. destruct (KeyFile.GenerateKeyPair _ _ _ _ _ _ _ _) as [[passed d] [w|]].
  { left. split; [done|]. exists w. by left. }
  destruct Hg as (_ & -> & Hold). fold with_pair.
  assert (fs !! KeyPath p = None /\ fs !! PubPath p = None) as [H1 H2].
  { split; [destruct (fs !! KeyPath p); [|done]; destruct Hold; [by left|done]
           |destruct (fs !! PubPath p); [|done]; destruct Hold; [by right|done]]. }
  destruct (stat_fails e configPath); [right; split_and!; [done..|]; by left|].
  destruct (with_pair !! configPath) eqn:Ec; [right; split_and!; [done..|]; by left|].
  assert (configPath <> KeyPath p) as Hk.
  { intros ->. unfold with_pair, leaves in Ec. rewrite lookup_insert_ne in Ec by done. by rewrite lookup_insert_eq in Ec. }
  destruct (config_fault e) as [[bytes|]|]; right; (split_and!; [done..|]); [left|by left|by right].
  split; [done|]. by rewrite lookup_insert_ne.
Qed.

(** C32: What --init leaves is what a daemon starts on.  When it succeeds, the
    signer loads the new private key, a gate given the public one accepts it, and the
    configuration is the skeleton; a process that is not root, reads that file and
    gets the lock serves with that key and the backend that denies everything.  Run
    again, it fails and changes nothing: the master key is never replaced. *)
Theorem init_then_serve (toml : list ascii -> option tomlConfig) (d : KeyFile.FS)
    (Htoml : toml (Bytes.lit (init_body p)) = Some (skeleton p))
    (Hpub : List.length pub = 32) (Hpriv : List.length priv = 64) (Hpem : pem_decode pub = None)
    (Hinit : doInitFlow e configPath false fs = (d, None)) :
  (exists c, d !! configPath = Some c /\ toml (KeyFile.data c) = Some (skeleton p))
  /\ Keystore.LoadPubKey (KeyFile.gate_file d (PubPath p)) = inl (Some pub)
  /\ (forall b a held f s,
      geteuid b <> 0%Z -> decode_file b configPath = match d !! configPath with Some c => toml (KeyFile.data c) | None => None end ->
      lock_dir_ok b = true -> flock_fails b = false -> lock_file b (SockPath p +:+ ".lock") = Some f -> held !! f = None ->
      key_disk a = d -> key_stat_fails a = false -> key_read_fails a = false ->
      audit_opens a (AuditPath p) = true -> salt a = Some s ->
      acquire b held configPath = inl (skeleton p, f)
      /\ prepare a (skeleton p) = inl (mkDaemon (skeleton p) priv s StubBackend Sigwire.SignerHandlerTimeout)
      /\ answer_at_once StubBackend = Some (Daemon.mkRes Daemon.StatusDenied "" []))
  /\ (forall e', (doInitFlow e' configPath false d).1 = d /\ (doInitFlow e' configPath false d).2 <> None).
Proof.
  pose proof init_outcome as Ho. rewrite Hinit in Ho.
  destruct Ho as [[? _]|(Hk0 & Hp0 & [[? _]|(_ & Hc & ->)])]; [done|done|].
  pose proof (init_key_paths _ _ _ Hp) as Hne.
  destruct (pair_loads (KeyPath p) (PubPath p) pub priv (remove_fails e) fs Hne Hpub Hpriv Hpem) as [Hload Hgate].
  fold with_pair in Hload, Hgate.
  assert (with_pair !! KeyPath p = Some (private_file priv)) as Hkey.
  { unfold with_pair, leaves. rewrite lookup_insert_ne by done. apply lookup_insert_eq. }
  assert (configPath <> KeyPath p) as Hck by congruence.
  assert (configPath <> PubPath p) as Hcp.
  { intros ->. unfold with_pair, leaves in Hc. by rewrite lookup_insert_eq in Hc. }
  rewrite lookup_insert_eq. split_and!.
  - by eexists.
  - unfold KeyFile.gate_file in *. by rewrite lookup_insert_ne.
  - intros b a held f s Hu Hd Hl Hf Hlf Hh Hd1 Hd2 Hd3 Ha Hs. cbn in Hd. rewrite Htoml in Hd. split_and!; [| |done].
    + unfold acquire, assertNonRoot, flockOrFail. apply Z.eqb_neq in Hu. rewrite Hu, Hd.
      rewrite (skeleton_loads _ _ _ Hp). cbn [skeleton Paths Socket]. by rewrite Hl, Hlf, Hf, Hh.
    + unfold prepare. rewrite Hd1, Hd2, Hd3. cbn [skeleton Paths Key AuditLog].
      replace (KeyFile.LoadKey _ _ _ _) with (KeyFile.LoadKey with_pair false false (KeyPath p)).
      * by rewrite Hload, Ha, Hs.
      * unfold KeyFile.LoadKey. by rewrite lookup_insert_ne.
  - intros e'. assert (resolveInitPaths (dev_env e') configPath false = Some p) as Hp' by exact Hp.
    unfold doInitFlow. rewrite Hp'. destruct (mkdirs _ _); [done|].
    unfold KeyFile.GenerateKeyPair, KeyFile.preflight. rewrite lookup_insert_ne, Hkey by done.
    by destruct (stat_fails e' (KeyPath p)).
Qed.

End Init.

(** ** Where its words are not kept *)

(** A daemon whose server cannot listen exits with success. *)
Lemma listen_failure_succeeds s err : Socket.bind s = inr err ->
  exit_of_listen (Some err) = 0%Z /\ forall why, exit_of_start why = 1%Z.
Proof. done. Qed.

(** Without --config, --init --dev works beside the production configuration,
    wherever the runtime directory is. *)
Lemma dev_init_in_production v :
  exists p, resolveInitPaths v (defaultConfigPath "") true = Some p
  /\ Root p = "/var/lib/sshgatesigner/config" /\ KeyPath p = "/var/lib/sshgatesigner/config/gate.key".
Proof. eexists. split; [reflexivity|]. by vm_compute. Qed.

(** With a relative --config it has a root of its own and writes the configuration
    elsewhere. *)
Lemma dev_config_outside_root v path : GoUrl.IsAbs path = false ->
  exists p, resolveInitPaths v path true = Some p /\ ConfigPath p = path.
Proof. intros _. by eexists. Qed.

(** ** Witnesses *)

(** TOML as far as the skeleton needs it: sections, comments, plain strings. *)
Fixpoint toml_lines (section : string) (ls : list (list ascii)) : list (string * string) :=
  match ls with
  | [] => []
  | l :: ls =>
      match l with
      | "["%char :: l' =>
          match GoUrl.cut "]" l' with
          | Some (name, _) => toml_lines (string_of_list_ascii name) ls
          | None => toml_lines section ls
          end
      | "#"%char :: _ => toml_lines section ls
      | _ =>
          match GoUrl.cut "=" l with
          | Some (name, value) =>
              match GoUrl.cut DQUOTE value with
              | Some (_, rest) =>
                  match GoUrl.cut DQUOTE rest with
                  | Some (v, _) =>
                      (section +:+ "." +:+ GoStr.TrimSpace (string_of_list_ascii name), string_of_list_ascii v)
                      :: toml_lines section ls
                  | None => toml_lines section ls
                  end
              | None => toml_lines section ls
              end
          | None => toml_lines section ls
          end
      end
  end.

Definition small_toml (b : list ascii) : option tomlConfig :=
  let kvs := toml_lines "" (split_on (Ascii.eqb NL) b) in
  let get k := from_option snd "" (List.find (fun kv => kv.1 =s k) kvs) in
  Some (mkConfig (mkPaths (get "paths.key") (get "paths.pubkey") (get "paths.audit_log") (get "paths.socket"))
          (get "backend.type") no_telegram no_hosted).

Definition config_path : string := "/var/lib/sshgatesigner/config/config.toml".

Definition init_env : InitEnv :=
  mkInitEnv (mkDevEnv "" "/tmp" "1") (fun _ => false) (fun _ => false) (Some (sample_pub, sample_priv))
    (KeyFile.mkAttempt "k.tmp-1" None [], KeyFile.mkAttempt "p.tmp-2" None []) false None.

(** --init on an empty disk, and the disk it leaves. *)
Definition init_disk : KeyFile.FS := (doInitFlow init_env config_path false ∅).1.

Definition init_paths : initPaths :=
  mkInitPaths "/var/lib/sshgatesigner" "/var/lib/sshgatesigner/keys/gate.key" "/var/lib/sshgatesigner/keys/gate.pub"
    "/var/lib/sshgatesigner/log/approvals.log" "/run/sshgatesigner/sock" config_path.

Definition at_start : Before :=
  mkBefore 990 (fun path => match init_disk !! path with Some c => small_toml (KeyFile.data c) | None => None end)
    true (fun _ => Some 7) false.

Definition at_lock : After :=
  mkAfter init_disk false false (fun _ => true) (Some (Bytes.lit "salt")) (mkOutside (fun _ => None) "" (fun _ _ => false) (fun _ => true)).

Lemma init_then_serve_witness :
  acquire at_start ∅ config_path = inl (skeleton init_paths, 7)
  /\ prepare at_lock (skeleton init_paths)
     = inl (mkDaemon (skeleton init_paths) sample_priv (Bytes.lit "salt") StubBackend Sigwire.SignerHandlerTimeout)
  /\ answer_at_once StubBackend = Some (Daemon.mkRes Daemon.StatusDenied "" []).
Proof.
  destruct (@init_then_serve keys_pem init_env config_path ∅ init_paths sample_pub sample_priv) with (toml := small_toml) (d := init_disk)
    as (_ & _ & Hserve & _); try (vm_compute; reflexivity); try (split_and!; [discriminate|discriminate|reflexivity]).
  apply (Hserve at_start at_lock ∅ 7 (Bytes.lit "salt")); try reflexivity; try discriminate.
Defined.

Definition serving_daemon : Running :=
  mkDaemon (skeleton init_paths) sample_priv (Bytes.lit "salt") StubBackend Sigwire.SignerHandlerTimeout.

(** One process serves; a second start finds the lock held. *)
Lemma one_signer_witness :
  exists m, rtc step no_process m /\ procs m !! 1 = Some (Serving serving_daemon 7)
  /\ acquire at_start (held m) config_path = inr LockHeld.
Proof.
  assert (exists m, rtc step no_process m /\ procs m !! 1 = Some (Serving serving_daemon 7)) as (m & Hr & Hp).
  { eexists. split; [|].
    - eapply rtc_l; [apply (Acquires _ 1 at_start config_path (skeleton init_paths) 7); [reflexivity|vm_compute; reflexivity]|].
      eapply rtc_l; [apply (Serves _ 1 at_lock (skeleton init_paths) 7 serving_daemon);
        [apply lookup_insert_eq|vm_compute; reflexivity]|]. apply rtc_refl.
    - apply lookup_insert_eq. }
  exists m. split; [done|]. split; [done|].
  destruct (one_signer m Hr) as (_ & Hheld & _).
  apply (Hheld 1 (Serving serving_daemon 7) at_start config_path (skeleton init_paths) Hp); [discriminate|..];
    vm_compute; reflexivity.
Defined.

(** A configuration that is there already is found after the new pair is written;
    the next --init finds the pair. *)
Lemma config_found_late :
  let fs : KeyFile.FS := {[ config_path := KeyFile.mkFile 416 [] ]} in
  let '(d, err) := doInitFlow init_env config_path false fs in
  err = Some ConfigExists /\ d !! KeyPath init_paths = Some (private_file sample_priv)
  /\ (doInitFlow init_env config_path false d).2 = Some (KeysFailed (KeyFile.Overwrite (KeyPath init_paths))).
Proof. vm_compute. auto. Qed.
