(* ===== verification/Cli.v ===== *)
(** * The provisioning command and two main programs

    sshgate (src/cli/cmd/sshgate/main.go): its arguments, its paths, the key pair it
    makes (src/mcp/tools/provision.go) and the call of Provision.  sshgate-mcp
    (src/mcp/cmd/sshgate-mcp/main.go): what it checks before it serves.  The
    signer-server (src/signer-server/cmd): how it starts and ends.  The file system
    and the environment answer as they please. *)

From S2P Require Import Prelude RedactScanner GoUrl Sigwire SignerKeys SignerServer McpRegistry McpKeys McpProvision McpHost McpLive.

(** x/crypto/ssh: the public half of a private key file, in wire bytes, and the
    file of a new private key with its comment. *)
Class SSHPrivateKeys := {
  ParsePrivateKey : list ascii -> option (list ascii);
  MarshalPrivateKey : list ascii -> option (list ascii)
}.

Module KeyPair.
Import KeyFile.

(** What a call meets: whether the directory can be made and the key read; the new
    pair, its public half in wire bytes; and whether the key's file can be created,
    how much of it is written and whether it closes. *)
Record Env := mkEnv {
  mkdir_ok : bool;
  read_ok : bool;
  generated : option (list ascii * list ascii);
  create_ok : bool;
  key_written : option nat;
  close_ok : bool;
  public_ok : bool;
  pub_opened : bool;
  pub_written : option nat
}.

(** What is in a file of which [n] bytes were written, or all. *)
Definition landed (n : option nat) (b : list ascii) : list ascii :=
  match n with None => b | Some n => take n b end.

Section KeyPair.
Context `{SSHKeys} `{SSHPrivateKeys}.

Definition public_line (pub : list ascii) : list ascii :=
  Keys.trim_newlines (MarshalAuthorizedKey pub) ++ Bytes.lit " sshgate-dedicated".

(** ensurePubFile: the file is cut and written over, and keeps its mode. *)
Definition ensurePubFile (e : Env) (keyPath : string) (pub : list ascii) (fs : FS) : FS * option (list ascii) :=
  let path := keyPath +:+ ".pub" in
  if negb (pub_opened e) then (fs, None)
  else
    let md := match fs !! path with Some f => mode f | None => 420%Z end in
    (<[path := mkFile md (landed (pub_written e) (public_line pub ++ [NL]))]> fs,
     match pub_written e with None => Some (public_line pub) | Some _ => None end).

(** EnsureSSHGateKeypair *)
Definition EnsureSSHGateKeypair (e : Env) (keyPath : string) (fs : FS) : FS * option (list ascii) :=
  if negb (mkdir_ok e) then (fs, None)
  else if negb (read_ok e) then (fs, None)
  else match fs !! keyPath with
       | Some f =>
           match ParsePrivateKey (data f) with
           | None => (fs, None)
           | Some pub => ensurePubFile e keyPath pub fs
           end
       | None =>
           match generated e with
           | None => (fs, None)
           | Some (pub, priv) =>
               match MarshalPrivateKey priv with
               | None => (fs, None)
               | Some pem =>
                   if negb (create_ok e) then (fs, None)
                   else
                     let fs := <[keyPath := mkFile 384 (landed (key_written e) pem)]> fs in
                     match key_written e with
                     | Some _ => (fs, None)
                     | None =>
                         if negb (close_ok e) then (fs, None)
                         else if negb (public_ok e) then (fs, None)
                         else ensurePubFile e keyPath pub fs
                     end
               end
           end
       end.

End KeyPair.

End KeyPair.

Module Cli.

(** ** Arguments *)

Inductive TargetErr := NotUserAtHost | InvalidPort (port : string) | EmptyHost.

Definition str := string_of_list_ascii.

(** parseUserHostPort *)
Definition parseUserHostPort (s : string) : (string * string * Z) + TargetErr :=
  match GoUrl.cut "@" (list_ascii_of_string s) with
  | None | Some ([], _) | Some (_, []) => inr NotUserAtHost
  | Some (user, hostPort) =>
      match GoUrl.cut_last ":" hostPort with
      | Some (host, portStr) =>
          match GoUrl.Atoi (str portStr) with
          | Some p =>
              if (p <? 1)%Z || (65535 <? p)%Z then inr (InvalidPort (str portStr))
              else match host with [] => inr EmptyHost | _ => inl (str user, str host, p) end
          | None => inr (InvalidPort (str portStr))
          end
      | None => inl (str user, str hostPort, 22%Z)
      end
  end.

(** What the arguments ask for: an exit at once, the key's line, or a server. *)
Inductive Action :=
  | Exits (code : Z)
  | Pubkey
  | AddServer (alias user host : string) (port : Z) (readOnly : bool).

(** runAdd, its loop over the arguments. *)
Fixpoint add_args (positional : list string) (readOnly : bool) (args : list string) : Action + (list string * bool) :=
  match args with
  | [] => inr (positional, readOnly)
  | a :: args =>
      if GoStr.one_of a ["--read-only"; "--ro"] then add_args positional true args
      else if GoStr.one_of a ["-h"; "--help"] then inl (Exits 0)
      else if GoStr.HasPrefix a "-" then inl (Exits 2)
      else add_args (positional ++ [a]) readOnly args
  end.

Definition parse_add (args : list string) : Action :=
  match add_args [] false args with
  | inl action => action
  | inr ([alias; target], readOnly) =>
      match parseUserHostPort target with
      | inl (user, host, port) => AddServer alias user host port readOnly
      | inr _ => Exits 2
      end
  | inr _ => Exits 2
  end.

(** run, its dispatch. *)
Definition dispatch (args : list string) : Action :=
  match args with
  | [] => Exits 2
  | sub :: args =>
      if sub =s "pubkey" then match args with [] => Pubkey | _ => Exits 2 end
      else if sub =s "add" then parse_add args
      else if GoStr.one_of sub ["-h"; "--help"; "help"] then Exits 0
      else Exits 2
  end.

(** ** Paths *)

(** The environment: $XDG_CONFIG_HOME, the home directory, $SSHGATE_GATE_BIN. *)
Record Environ := mkEnviron { xdg_config : string; home_dir : option string; gate_bin_env : string }.

(** configRoot; [None] is its error. *)
Definition configRoot (v : Environ) : option string :=
  if xdg_config v =s "" then option_map (fun home => GoUrl.Join [home; ".config"; "sshgate"]) (home_dir v)
  else Some (GoUrl.Join [xdg_config v; "sshgate"]).

(** gateBinaryPath *)
Definition gateBinaryPath (v : Environ) (root : string) : string :=
  if gate_bin_env v =s "" then GoUrl.Join [root; "bin"; "sshgate-gate-linux-amd64"] else gate_bin_env v.

Record ProvisionConfig := mkProvisionConfig {
  GateBinaryPath : string; GatePubPath : string; SSHGateKeyPath : string; SSHGatePubPath : string;
  KnownHostsPath : string; ServersPath : string
}.

Definition provision_config (v : Environ) (root : string) : ProvisionConfig :=
  mkProvisionConfig (gateBinaryPath v root) (GoUrl.Join [root; "pubkey-distrib"; "gate.pub"])
    (GoUrl.Join [root; "ssh"; "sshgate_ed25519"]) (GoUrl.Join [root; "ssh"; "sshgate_ed25519.pub"])
    (GoUrl.Join [root; "known_hosts"]) (GoUrl.Join [root; "servers.json"]).

Section Cli.
Context `{Sha256} `{SSHKeys} `{SSHPrivateKeys}.
(** The connection to the target, and where its commands stop. *)
Variable c : Provision.Session.
Variable ParseIP : string -> bool.
(** What making the key pair meets. *)
Variable pair : KeyPair.Env.
(** What Provision finds at the paths of its configuration. *)
Variable finds : ProvisionConfig -> Provision.Env.

(** run, with runPubkey and runAdd: what goes to stdout of the key, the disk and the
    target after it, and the exit code. *)
Definition run (v : Environ) (args : list string) (disk : KeyFile.FS) (target : Provision.St)
    : option (list ascii) * KeyFile.FS * Provision.St * Z :=
  match dispatch args with
  | Exits code => (None, disk, target, code)
  | Pubkey =>
      match configRoot v with
      | None => (None, disk, target, 1%Z)
      | Some root =>
          let '(disk, line) :=
            KeyPair.EnsureSSHGateKeypair pair (GoUrl.Join [root; "ssh"; "sshgate_ed25519"]) disk in
          (line, disk, target, match line with Some _ => 0%Z | None => 1%Z end)
      end
  | AddServer alias user host port readOnly =>
      match configRoot v with
      | None => (None, disk, target, 1%Z)
      | Some root =>
          let '(target, _, result) :=
            Provision.Provision c ParseIP (finds (provision_config v root))
              (Provision.mkInput alias host port user readOnly) target in
          (None, disk, target, match result with inl _ => 0%Z | inr _ => 1%Z end)
      end
  end.

End Cli.

End Cli.

Module McpMain.

Definition defaultSignerSock : string := "/run/sshgatesigner/sock".
Definition signTimeout : Z := Sigwire.ClientSignTimeout.
Definition sshTimeout : Z := 30 * Sigwire.Second.
Definition defaultLiveLogCapBytes : Z := 5 * 1024 * 1024.

(** requireFile, by one os.Stat; [true] is no error. *)
Definition requireFile (stat : Registry.Stat) (maxPerm : Z) : bool :=
  match stat with
  | Registry.StatMode mode => (Z.land (Z.land mode 511) (Z.lnot maxPerm) =? 0)%Z
  | _ => false
  end.

(** requireFileIfExists, which looks twice. *)
Definition requireFileIfExists (first again : Registry.Stat) (maxPerm : Z) : bool :=
  match first with
  | Registry.StatNotExist => true
  | Registry.StatError => false
  | Registry.StatMode _ => requireFile again maxPerm
  end.

(** buildLiveLog: the log's path and cap, if there is one; [cap_file] is what
    audit-live-cap holds. *)
Definition buildLiveLog (cfgRoot : string) (cap_file : option string) : option (string * Z) :=
  let capBytes :=
    match cap_file with
    | Some text => match GoUrl.Atoi (GoStr.TrimSpace text) with Some n => n | None => defaultLiveLogCapBytes end
    | None => defaultLiveLogCapBytes
    end in
  if (capBytes <=? 0)%Z then None else Some (GoUrl.Join [cfgRoot; "audit-live.log"], capBytes).

Inductive StartErr := RegistryFailed (why : Registry.LoadErr) | KeyInsecure | KnownHostsInsecure | NoSalt.

(** What buildServer finds: the registry's file, the two looks at the key and at
    known_hosts, the cap and the salt. *)
Record Found := mkFound {
  registry_file : Registry.Stat * Registry.Read;
  key_stats : Registry.Stat * Registry.Stat;
  known_hosts_stats : Registry.Stat * Registry.Stat;
  cap_file : option string;
  salt : option (list ascii)
}.

(** The server it builds. *)
Record Server `{Sha256} := mkServer {
  servers : Registry.Servers; client : SSHClient.Client; signer_sock : string;
  sign_timeout : Z; ssh_timeout : Z; live_log : option (string * Z); redact_salt : list ascii
}.

(** buildServer *)
Definition buildServer `{Sha256} (cfgRoot socketPath : string) (f : Found) : Server + StartErr :=
  let keyPath := GoUrl.Join [cfgRoot; "ssh"; "sshgate_ed25519"] in
  let khPath := GoUrl.Join [cfgRoot; "known_hosts"] in
  match Registry.New (registry_file f).1 (registry_file f).2 with
  | inr why => inr (RegistryFailed why)
  | inl servers =>
      if negb (requireFileIfExists (key_stats f).1 (key_stats f).2 384) then inr KeyInsecure
      else if negb (requireFileIfExists (known_hosts_stats f).1 (known_hosts_stats f).2 384) then inr KnownHostsInsecure
      else match salt f with
           | None => inr NoSalt
           | Some s =>
               inl (mkServer _ servers (SSHClient.mkClient keyPath khPath) socketPath signTimeout sshTimeout
                      (buildLiveLog cfgRoot (cap_file f)) s)
           end
  end.

(** run, up to the server; the code of a start that failed. *)
Definition start `{Sha256} (v : Cli.Environ) (sock_env : string) (f : Found) : Server + Z :=
  match Cli.configRoot v with
  | None => inr 1%Z
  | Some root =>
      match buildServer root (if sock_env =s "" then defaultSignerSock else sock_env) f with
      | inl s => inl s
      | inr _ => inr 1%Z
      end
  end.

End McpMain.

Module ServerMain.

(** loadAPIKey, on what the file holds. *)
Definition loadAPIKey (file : option string) : option string :=
  match file with
  | None => None
  | Some raw =>
      let key := GoStr.TrimSpace (GoStr.TrimSpace raw) in
      if key =s "" then None else Some key
  end.

(** defaultConfigPath, on its variable. *)
Definition defaultConfigPath (env : string) : string :=
  if env =s "" then "/etc/signer-server/config.toml" else env.

(** NewServer; [None] is its panic. *)
Definition PollWait : Z := 30 * Sigwire.Second.

Definition NewServer (auth : string) (has_store : bool) : option Server.Config :=
  if auth =s "" then None else Some (Server.mkServer auth PollWait has_store).

(** The time the shutdown gives the requests under way. *)
Definition drainWindow : Z := 5 * Sigwire.Second.

Record Flags := mkFlags { apiKeyFile : string; showVersion : bool }.

(** How the process ends once it listens: the listener fails or is closed, or a
    signal comes while requests go on for [busy] more. *)
Inductive Ending := ListenFailed | ListenClosed | Signalled (busy : Z).

(** run, up to the server: it, or the exit code; [opened] is the store. *)
Definition startServer (flags : option Flags) (root : bool) (file : option string) (opened : bool)
    : Server.Config + Z :=
  match flags with
  | None => inr 2%Z
  | Some f =>
      if showVersion f then inr 0%Z
      else if root then inr 1%Z
      else if apiKeyFile f =s "" then inr 1%Z
      else match loadAPIKey file with
           | None => inr 1%Z
           | Some key =>
               if negb opened then inr 1%Z
               else match NewServer key true with Some sv => inl sv | None => inr 2%Z end
           end
  end.

(** run, after the server listens. *)
Definition finish (how : Ending) : Z :=
  match how with
  | ListenFailed => 1%Z
  | ListenClosed => 0%Z
  | Signalled busy => if (busy <? drainWindow)%Z then 0%Z else 1%Z
  end.

End ServerMain.
