(* ===== verification/CliProps.v ===== *)
(** * What the three main programs accept, and the key pair that is made once *)

From S2P Require Import Prelude RedactScanner GoUrl Sigwire SignerKeys SignerServer McpRegistry McpKeys McpProvision McpHost McpLive SignerMain SignerMainProps Cli.
Import Bytes Cli McpMain.

(** ** The target *)

Lemma cut_first c l a b : GoUrl.cut c l = Some (a, b) -> ~ In c a.
Proof.
  revert a b. induction l as [|d l IH]; intros a b; cbn; [done|].
  destruct (d =c c) eqn:E; [intros [= <- <-]; by intros []|]. apply Ascii.eqb_neq in E.
  destruct (GoUrl.cut c l) as [[x y]|]; [|done]. intros [= <- <-] [->|Hin]; [done|]. by apply (IH x y).
Qed.

Lemma cut_none c l : GoUrl.cut c l = None <-> ~ In c l.
Proof.
  induction l as [|d l IH]; cbn; [naive_solver|]. destruct (d =c c) eqn:E.
  - apply Ascii.eqb_eq in E as ->. naive_solver.
  - apply Ascii.eqb_neq in E. destruct (GoUrl.cut c l) as [[x y]|]; cbn; naive_solver.
Qed.

Lemma cut_at c a b : ~ In c a -> GoUrl.cut c (a ++ c :: b) = Some (a, b).
Proof.
  induction a as [|d a IH]; intros Hn; cbn; [by rewrite Ascii.eqb_refl|].
  destruct (d =c c) eqn:E; [apply Ascii.eqb_eq in E as ->; destruct Hn; by left|].
  rewrite IH; [done|]. intros Hin. apply Hn. by right.
Qed.

Lemma in_reverse {A} (x : A) l : In x (reverse l) <-> In x l.
Proof. by rewrite <- !list_elem_of_In, elem_of_reverse. Qed.

Lemma cut_last_some c l a b : GoUrl.cut_last c l = Some (a, b) -> l = a ++ c :: b /\ ~ In c b.
Proof.
  unfold GoUrl.cut_last. destruct (GoUrl.cut c (reverse l)) as [[x y]|] eqn:E; [|done]. intros [= <- <-].
  pose proof (cut_first _ _ _ _ E) as Hn. apply cut_app in E. split; [|by rewrite in_reverse].
  rewrite <- (reverse_involutive l), E, reverse_app, reverse_cons, <- app_assoc. done.
Qed.

Lemma cut_last_at c a b : ~ In c b -> GoUrl.cut_last c (a ++ c :: b) = Some (a, b).
Proof.
  intros Hn. unfold GoUrl.cut_last. rewrite reverse_app, reverse_cons, <- app_assoc. cbn [app].
  rewrite cut_at by (by rewrite in_reverse). cbn. by rewrite !reverse_involutive.
Qed.

Lemma cut_last_none c l : GoUrl.cut_last c l = None <-> ~ In c l.
Proof.
  unfold GoUrl.cut_last. rewrite <- in_reverse, <- cut_none. destruct (GoUrl.cut c (reverse l)) as [[x y]|]; cbn; naive_solver.
Qed.

(** A target text, and what it stands for. *)
Definition target_text (s user host : string) (port : Z) : Prop :=
  user <> "" /\ host <> "" /\ ~ In "@"%char (lit user)
  /\ ((s = user +:+ "@" +:+ host /\ ~ In ":"%char (lit host) /\ port = 22%Z)
      \/ exists t, s = user +:+ "@" +:+ host +:+ ":" +:+ t /\ ~ In ":"%char (lit t)
           /\ GoUrl.Atoi t = Some port /\ (1 <= port <= 65535)%Z).

Lemma text_app a b : lit (a +:+ b) = lit a ++ lit b.
Proof. apply list_ascii_of_app. Qed.

Lemma lit_str l : lit (str l) = l.
Proof. apply list_ascii_of_string_of_list_ascii. Qed.

Lemma str_lit s : str (lit s) = s.
Proof. apply string_of_list_ascii_of_string. Qed.

Lemma lit_nonempty s : s <> "" <-> lit s <> [].
Proof. by destruct s. Qed.

Lemma split_text s a c b : lit s = a ++ c :: b -> s = str a +:+ String c (str b).
Proof.
  intros Hs. rewrite <- (str_lit s), Hs. rewrite <- (str_lit (str a +:+ String c (str b))). f_equal.
  rewrite text_app. cbn. change (list_ascii_of_string (str a)) with (lit (str a)).
  change (list_ascii_of_string (str b)) with (lit (str b)). by rewrite !lit_str.
Qed.

(** What parseUserHostPort accepts, and what it takes it for: the first at sign ends
    the user, the last colon begins the port, which is a number of sixteen bits and
    not zero, and 22 where there is none. *)
Lemma parse_target_iff s user host port :
  parseUserHostPort s = inl (user, host, port) <-> target_text s user host port.
Proof.
  unfold parseUserHostPort, target_text. split.
  - destruct (GoUrl.cut "@" (list_ascii_of_string s)) as [[u hp]|] eqn:E; [|done].
    pose proof (cut_first _ _ _ _ E) as Hu. apply cut_app in E. change (list_ascii_of_string s) with (lit s) in E.
    apply split_text in E. destruct u as [|u0 u], hp as [|h0 hp]; try done.
    destruct (GoUrl.cut_last ":" (h0 :: hp)) as [[h t]|] eqn:El.
    + apply cut_last_some in El as [El Ht]. destruct (GoUrl.Atoi (str t)) as [p|] eqn:Ea; [|done].
      destruct ((p <? 1)%Z || _) eqn:Er; [done|]. destruct h as [|h1 h]; [done|]. intros [= <- <- <-].
      change (String u0 (str u)) with (str (u0 :: u)). change (String h1 (str h)) with (str (h1 :: h)).
      split_and!; [done|done|by rewrite lit_str|]. right. exists (str t). rewrite lit_str. split_and!; [|done|done|lia..].
      rewrite E, El. f_equal. change ("@" +:+ ?x) with (String "@" x). f_equal.
      apply (split_text (str ((h1 :: h) ++ ":"%char :: t))), lit_str.
    + apply cut_last_none in El. intros [= <- <- <-].
      change (String u0 (str u)) with (str (u0 :: u)). change (String h0 (str hp)) with (str (h0 :: hp)).
      split_and!; [done|done|by rewrite lit_str|]. left. split; [exact E|]. split; [|done]. by rewrite lit_str.
  - intros (Hu & Hh & Ha & Hs). change (list_ascii_of_string s) with (lit s).
    apply lit_nonempty in Hu, Hh.
    destruct Hs as [(-> & Hc & ->)|(t & -> & Ht & Hat & Hr)]; rewrite !text_app.
    + change (lit "@" ++ lit host) with ("@"%char :: lit host). rewrite cut_at by done.
      destruct (lit user) as [|u0 u] eqn:Eu; [done|]. destruct (lit host) as [|h0 h] eqn:Eh; [done|].
      rewrite (proj2 (cut_last_none _ _) Hc). by rewrite <- Eu, <- Eh, !str_lit.
    + change (lit "@" ++ ?x) with ("@"%char :: x). change (lit ":" ++ ?x) with (":"%char :: x). rewrite cut_at by done.
      destruct (lit user) as [|u0 u] eqn:Eu; [done|]. destruct (lit host) as [|h0 h] eqn:Eh; [done|].
      cbn [app]. pose proof (cut_last_at ":"%char (h0 :: h) (lit t) Ht) as Hl. cbn [app] in Hl. rewrite Hl, str_lit, Hat.
      replace ((port <? 1)%Z || _) with false by lia. by rewrite <- Eu, <- Eh, !str_lit.
Qed.

(** ** The arguments of add *)

Definition is_flag (a : string) : bool := GoStr.one_of a ["--read-only"; "--ro"].

(** The loop, without its state: the two names are what is no flag, in order, and
    the mode is read-only when a flag says so anywhere. *)
Lemma add_args_iff args : forall ps ro ps' ro',
  add_args ps ro args = inr (ps', ro') <->
  forallb (fun a => is_flag a || negb (GoStr.HasPrefix a "-")) args = true
  /\ ps' = ps ++ List.filter (fun a => negb (is_flag a)) args /\ ro' = ro || existsb is_flag args.
Proof.
  induction args as [|a args IH]; intros ps ro ps' ro'; cbn [add_args forallb List.filter existsb].
  { rewrite app_nil_r, orb_false_r. split; [intros [= <- <-]; done|intros (_ & -> & ->); done]. }
  fold (is_flag a). destruct (is_flag a) eqn:Ef; cbn [negb orb andb].
  - rewrite IH, orb_true_r. cbn [orb]. done.
  - destruct (GoStr.one_of a ["-h"; "--help"]) eqn:Eh.
    { split; [done|]. intros [[Hp _]%andb_true_iff _]. exfalso.
      unfold GoStr.one_of in Eh. apply existsb_exists in Eh as (x & Hx & <-%String.eqb_eq).
      cbn in Hx. destruct Hx as [<-|[<-|[]]]; discriminate. }
    destruct (GoStr.HasPrefix a "-"); [by split; [|intros []]|]. cbn [negb andb].
    rewrite IH, <- app_assoc. done.
Qed.

(** A server is added for exactly two names, the second a target, with nothing that
    looks like another flag, in the mode the flags say wherever they stand. *)
Lemma add_iff args alias user host port ro :
  parse_add args = AddServer alias user host port ro <->
  forallb (fun a => is_flag a || negb (GoStr.HasPrefix a "-")) args = true
  /\ exists target, List.filter (fun a => negb (is_flag a)) args = [alias; target]
  /\ target_text target user host port /\ ro = existsb is_flag args.
Proof.
  unfold parse_add. setoid_rewrite <- parse_target_iff. split.
  - destruct (add_args [] false args) as [act|[ps r]] eqn:E.
    { intros ->. exfalso. clear -E. revert E. generalize (@nil string), false.
      induction args as [|a args IH]; intros ps r; cbn [add_args]; [done|].
      destruct (GoStr.one_of a _); [apply IH|]. destruct (GoStr.one_of a _); [done|].
      destruct (GoStr.HasPrefix a "-"); [done|apply IH]. }
    apply add_args_iff in E as (Hf & -> & ->). cbn [app orb].
    destruct (List.filter _ args) as [|a [|t [|? ?]]] eqn:El; try done.
    destruct (parseUserHostPort t) as [[[u h] p]|] eqn:Et; [|done]. intros [= <- <- <- <- <-].
    split; [done|]. by exists t.
  - intros (Hf & t & Hl & Ht & ->).
    rewrite (proj2 (add_args_iff args [] false [alias; t] (existsb is_flag args))); [by rewrite Ht|].
    split; [done|]. by rewrite Hl.
Qed.

(** ** The agent's server *)

Section Start.
Context `{Sha256}.

(** No bit but the owner's reading and writing. *)
Definition owner_only (mode : Z) : Prop := Z.land (Z.land mode 511) (Z.lnot 384) = 0%Z.

Lemma require_if_exists_ok first again :
  requireFileIfExists first again 384 = true <->
  first = Registry.StatNotExist
  \/ (exists m m', first = Registry.StatMode m /\ again = Registry.StatMode m' /\ owner_only m').
Proof.
  unfold requireFileIfExists, requireFile, owner_only. destruct first as [| |m]; [naive_solver|naive_solver|].
  destruct again as [| |m']; [naive_solver|naive_solver|]. rewrite Z.eqb_eq. naive_solver.
Qed.

(** The server starts only over a registry that loads, and a key and known_hosts that
    are not there or are their owner's alone; it waits for a signer longer than the
    signer takes; and its log is rolled, at a positive size, or off. *)
Lemma server_starts v sock f s :
  start v sock f = inl s ->
  exists root, configRoot v = Some root
  /\ Registry.New (registry_file f).1 (registry_file f).2 = inl (servers s)
  /\ (forall st, st = key_stats f \/ st = known_hosts_stats f ->
      st.1 = Registry.StatNotExist \/ exists m, st.2 = Registry.StatMode m /\ owner_only m)
  /\ SSHClient.KeyPath (client s) = GoUrl.Join [root; "ssh"; "sshgate_ed25519"]
  /\ (Sigwire.SignerHandlerTimeout < sign_timeout s)%Z
  /\ (forall path cap, live_log s = Some (path, cap) -> (0 < cap)%Z).
Proof.
  unfold start, buildServer. destruct (configRoot v) as [root|]; [|done].
  destruct (Registry.New _ _) as [reg|]; [|done].
  destruct (negb (requireFileIfExists (key_stats f).1 _ _)) eqn:Ek; [done|].
  destruct (negb (requireFileIfExists (known_hosts_stats f).1 _ _)) eqn:Eh; [done|].
  destruct (salt f); [|done]. intros [= <-]. apply negb_false_iff, require_if_exists_ok in Ek, Eh.
  exists root. split_and!; try done.
  - intros st [->| ->]; [destruct Ek as [?|(m & m' & _ & ? & ?)]|destruct Eh as [?|(m & m' & _ & ? & ?)]];
      first [by left|right; by exists m'].
  - intros path cap. cbn. unfold buildLiveLog. destruct (_ <=? 0)%Z eqn:Ec; [done|]. intros [= _ <-]. lia.
Qed.

End Start.

(** ** The key pair *)

Section Pair.
Import KeyFile KeyPair.
Context `{SSHKeys} `{SSHPrivateKeys}.

Lemma length_pub s : String.length (s +:+ ".pub") = String.length s + 4.
Proof. induction s as [|c s IH]; [done|]. cbn. by rewrite <- IH. Qed.

Lemma pub_path_other p : p +:+ ".pub" <> p.
Proof. intros Hp. apply (f_equal String.length) in Hp. rewrite length_pub in Hp. lia. Qed.

Lemma ensurePubFile_key e p pub fs : (ensurePubFile e p pub fs).1 !! p = fs !! p.
Proof.
  unfold ensurePubFile. destruct (pub_opened e); cbn [negb fst]; [|done].
  apply lookup_insert_ne, pub_path_other.
Qed.

(** Whatever fails, a key that is there stays as it is. *)
Lemma key_never_changed e p fs f :
  fs !! p = Some f -> (EnsureSSHGateKeypair e p fs).1 !! p = Some f.
Proof.
  intros Hf. unfold EnsureSSHGateKeypair. rewrite Hf. destruct (mkdir_ok e), (read_ok e); try done. cbn [negb].
  destruct (ParsePrivateKey (data f)); [|done]. by rewrite ensurePubFile_key.
Qed.

(** A call that prints a line leaves a key of which it is the public half, and the
    line in the file beside it; a new key is its owner's alone. *)
Lemma line_is_the_keys e p fs fs' line :
  (forall pub priv pem, generated e = Some (pub, priv) -> MarshalPrivateKey priv = Some pem ->
     ParsePrivateKey pem = Some pub) ->
  EnsureSSHGateKeypair e p fs = (fs', Some line) ->
  exists f pub, fs' !! p = Some f /\ ParsePrivateKey (data f) = Some pub /\ line = public_line pub
    /\ (fs !! p = None -> mode f = 384%Z)
    /\ option_map data (fs' !! (p +:+ ".pub")) = Some (line ++ [NL]).
Proof.
  intros Hgen He.
  assert (forall fs0 f pub, fs0 !! p = Some f -> ParsePrivateKey (data f) = Some pub ->
    ensurePubFile e p pub fs0 = (fs', Some line) ->
    fs' !! p = Some f /\ line = public_line pub
    /\ option_map data (fs' !! (p +:+ ".pub")) = Some (line ++ [NL])) as Hpub.
  { intros fs0 f pub Hf Hp Hr. pose proof (ensurePubFile_key e p pub fs0) as Hk. rewrite Hr in Hk. cbn [fst] in Hk.
    split; [by rewrite Hk|]. unfold ensurePubFile in Hr. destruct (pub_opened e); [|done]. cbn [negb] in Hr.
    destruct (pub_written e); [done|]. injection Hr as <- <-. split; [done|]. by rewrite lookup_insert_eq. }
  unfold EnsureSSHGateKeypair in He. destruct (mkdir_ok e), (read_ok e); try done. cbn [negb] in He.
  destruct (fs !! p) as [f|] eqn:Ef.
  - destruct (ParsePrivateKey (data f)) as [pub|] eqn:Ep; [|done].
    destruct (Hpub _ _ _ Ef Ep He) as (H1 & H2 & H3). exists f, pub. by split_and!.
  - destruct (generated e) as [[pub priv]|] eqn:Eg; [|done].
    destruct (MarshalPrivateKey priv) as [pem|] eqn:Em; [|done]. destruct (create_ok e); [|done]. cbn [negb] in He.
    destruct (key_written e) as [n|]; [done|]. destruct (close_ok e), (public_ok e); try done. cbn [negb landed] in He.
    destruct (Hpub _ (mkFile 384 pem) pub (lookup_insert_eq _ _ _) (Hgen _ _ _ eq_refl Em) He) as (H1 & H2 & H3).
    exists (mkFile 384 pem), pub. split_and!; try done. by apply (Hgen pub priv).
Qed.

(** Asked again, whatever pair would be made now, it prints the same line. *)
Lemma pair_made_once e e' p fs fs' line :
  (forall pub priv pem, generated e = Some (pub, priv) -> MarshalPrivateKey priv = Some pem ->
     ParsePrivateKey pem = Some pub) ->
  EnsureSSHGateKeypair e p fs = (fs', Some line) ->
  mkdir_ok e' = true -> read_ok e' = true -> pub_opened e' = true -> pub_written e' = None ->
  (EnsureSSHGateKeypair e' p fs').2 = Some line.
Proof.
  intros Hgen He H1 H2 H3 H4. destruct (line_is_the_keys _ _ _ _ _ Hgen He) as (f & pub & Hf & Hp & -> & _).
  unfold EnsureSSHGateKeypair. rewrite H1, H2, Hf, Hp. unfold ensurePubFile. by rewrite H3, H4.
Qed.

(** A private key whose writing stopped short stays: every later call fails on it. *)
Lemma torn_key_stays e e' p fs pub priv pem n :
  fs !! p = None -> mkdir_ok e = true -> read_ok e = true -> create_ok e = true ->
  generated e = Some (pub, priv) -> MarshalPrivateKey priv = Some pem -> key_written e = Some n ->
  ParsePrivateKey (take n pem) = None ->
  let fs' := (EnsureSSHGateKeypair e p fs).1 in
  EnsureSSHGateKeypair e' p fs' = (fs', None).
Proof.
  intros Hf H1 H2 H3 Hg Hm Hw Hp fs'. subst fs'. unfold EnsureSSHGateKeypair at 2 3. rewrite H1, H2, Hf, Hg, Hm, H3, Hw.
  cbn [negb fst landed]. unfold EnsureSSHGateKeypair. rewrite lookup_insert_eq. cbn [data]. rewrite Hp.
  by destruct (mkdir_ok e'), (read_ok e').
Qed.

End Pair.

(** ** The signer-server *)

(** It serves only a key that is not empty and has no blank around it, not as root,
    over a store; and it ends well only when its listener is closed, or when the
    requests under way at a signal end in the drain window. *)
Lemma server_start flags root file opened sv :
  ServerMain.startServer flags root file opened = inl sv ->
  root = false /\ opened = true /\ Server.has_store sv = true
  /\ exists raw, file = Some raw /\ Server.APIKey sv = GoStr.TrimSpace (GoStr.TrimSpace raw)
     /\ Server.APIKey sv <> "".
Proof.
  unfold ServerMain.startServer, ServerMain.loadAPIKey, ServerMain.NewServer. intros Hs.
  destruct flags as [f|]; [|done]. destruct (ServerMain.showVersion f), root; try done.
  destruct (_ =s ""); [done|]. destruct file as [raw|]; [|done].
  destruct (GoStr.TrimSpace (GoStr.TrimSpace raw) =s "") eqn:E; [done|].
  destruct opened; [|done]. cbn [negb] in Hs. rewrite E in Hs. injection Hs as <-.
  split_and!; try done. exists raw. split_and!; try done. by apply String.eqb_neq.
Qed.

Lemma server_finish how :
  ServerMain.finish how = 0%Z <->
  how = ServerMain.ListenClosed \/ exists busy, how = ServerMain.Signalled busy /\ (busy < ServerMain.drainWindow)%Z.
Proof.
  destruct how as [| |busy]; cbn [ServerMain.finish]; [naive_solver|naive_solver|].
  destruct (busy <? ServerMain.drainWindow)%Z eqn:E; split; try naive_solver.
  - intros _. right. exists busy. split; [done|lia].
  - intros [?|(b & [= <-] & ?)]; [done|lia].
Qed.

(** A signal while a client polls for a request nobody decides ends in a failure. *)
Lemma poll_outlasts_drain : ServerMain.finish (ServerMain.Signalled ServerMain.PollWait) = 1%Z.
Proof. done. Qed.
