(* ===== verification/SignerSystem.v ===== *)
(** * The signer as a whole: the daemon over the Telegram approver

    The daemon's handlers wait on the channels of the Telegram backend.  The two
    transition systems run side by side; a handler goes on with a result only if
    the entry of its own request holds it.  Then the daemon's authority and the
    approver's causes are composed: every signature goes back to a tap. *)

From S2P Require Import Prelude Sigwire GateVerify RedactScanner SignerDaemon SignerDaemonProps SignerTelegram SignerTelegramProps.
Import Sigwire Daemon.

Module Signer.

Section System.
Context `{Hmac} `{Ed25519} `{Telegram.ChatStore}.
Variables (cfg : Config) (opts : Telegram.Options) (latency : Z).

(** What a waiting handler asked the backend for. *)
Definition ask_of (p : Pending) : Telegram.Ask :=
  match p with
  | PendingSign req => Telegram.AskSign (approval_request req)
  | PendingGrant req => Telegram.AskGrant (Telegram.grant_approval_request req)
  end.

Definition is_answer (ev : Daemon.event) : bool :=
  match ev with Resolve _ _ (Resolved _) => true | _ => false end.

Inductive event :=
  | OfDaemon (ev : Daemon.event)
  | OfTelegram (ev : Telegram.event).

(** A restart of the process loses the backend's requests, not its chat store. *)
Definition restarted (t : Telegram.State) : Telegram.State :=
  Telegram.initial (Telegram.chat t) (Telegram.clock t).

Inductive step : Daemon.State * Telegram.State -> event -> Daemon.State * Telegram.State -> Prop :=
  | step_daemon d ev d' t :
      is_answer ev = false -> ev <> RestartProcess -> Daemon.step cfg d ev d' ->
      step (d, t) (OfDaemon ev) (d', t)
  | step_answer d e p r d' t h ps :
      Telegram.entries t !! h = Some ps -> Telegram.ask ps = ask_of p -> Telegram.ch ps = Some r ->
      Daemon.step cfg d (Resolve e p (Resolved r)) d' ->
      step (d, t) (OfDaemon (Resolve e p (Resolved r))) (d', t)
  | step_restart d d' t :
      Daemon.step cfg d RestartProcess d' ->
      step (d, t) (OfDaemon RestartProcess) (d', restarted t)
  | step_telegram d t ev t' :
      Telegram.step opts latency t ev t' -> step (d, t) (OfTelegram ev) (d, t').

Inductive reach (c0 : Telegram.store) (t0 : Z)
    : list event -> Daemon.State * Telegram.State -> Prop :=
  | reach_init : reach c0 t0 [] (Daemon.initial, Telegram.initial c0 t0)
  | reach_step tr s ev s' : reach c0 t0 tr s -> step s ev s' -> reach c0 t0 (tr ++ [ev]) s'.

(** The daemon's part of a run. *)
Definition daemon_part (tr : list event) : list Daemon.event :=
  flat_map (fun ev => match ev with OfDaemon e => [e] | OfTelegram _ => [] end) tr.

End System.

End Signer.

(** ** Every signature goes back to a tap *)


Section System.
Context `{Hmac} `{Ed25519} `{Telegram.ChatStore}.
Variables (cfg : Config) (opts : Telegram.Options) (latency : Z).
Variables (c0 : Telegram.store) (t0 : Z).
#[local] Abbreviation run_of := (Signer.reach cfg opts latency c0 t0).

Lemma daemon_part_snoc tr ev :
  Signer.daemon_part (tr ++ [ev])
  = Signer.daemon_part tr ++ match ev with Signer.OfDaemon e => [e] | Signer.OfTelegram _ => [] end.
Proof. unfold Signer.daemon_part. rewrite flat_map_app. cbn. by rewrite app_nil_r. Qed.

Lemma daemon_part_in tr e : In e (Signer.daemon_part tr) <-> In (Signer.OfDaemon e) tr.
Proof.
  unfold Signer.daemon_part. rewrite in_flat_map. split.
  - intros ([e'|] & Hi & Hin); [by destruct Hin as [->|[]]|done].
  - intros Hi. exists (Signer.OfDaemon e). split; [done|by left].
Qed.

(** ** The parts of a run are runs of the parts *)

Lemma daemon_run tr s : run_of tr s -> Daemon.reach cfg (Signer.daemon_part tr) s.1.
Proof.
  induction 1 as [|tr s ev s' _ IH Hs]; [constructor|]. rewrite daemon_part_snoc.
  destruct Hs; cbn [fst] in *; try (by eapply Daemon.reach_step). by rewrite app_nil_r.
Qed.

Lemma telegram_run tr s :
  run_of tr s ->
  exists c t tr', Telegram.reach opts latency (Telegram.initial c t) tr' s.2
    /\ forall ev, In ev tr' -> In (Signer.OfTelegram ev) tr.
Proof.
  induction 1 as [|tr s ev s' _ (c & t & tr' & Hr & Hi) Hs].
  { exists c0, t0, []. split; [constructor|done]. }
  assert (forall e, In e tr' -> In (Signer.OfTelegram e) (tr ++ [ev])) as Hi'
    by (intros e He; apply in_or_app; left; by apply Hi).
  destruct Hs as [d e d' t' _ _ _|d e p r d' t' h ps _ _ _ _|d d' t' _|d t' e t'' Hs]; cbn [snd] in *;
    [by exists c, t, tr'..| |].
  - eexists _, _, []. split; [constructor|done].
  - exists c, t, (tr' ++ [e]). split; [by eapply Telegram.reach_step|].
    intros e' [?|[<-|[]]]%in_app_or; [by apply Hi'|apply in_elt].
Qed.

(** ** Taps *)

(** The allowed user tapped the approve button of what [p] asked. *)
Definition tapped_for (tr : list Signer.event) (p : Pending) : Prop :=
  exists f u cb, In (Signer.OfTelegram (Telegram.Poll f u)) tr /\ Telegram.uCallback u = Some cb
    /\ Telegram.from_id (Telegram.cbFrom cb) (Telegram.allowedUserID opts) = true
    /\ Telegram.parseCallbackData (Telegram.cbData cb)
       = Some (Telegram.Approve, Telegram.ask_id (Signer.ask_of p)).

Lemma tapped_for_mono tr ev p : tapped_for tr p -> tapped_for (tr ++ [ev]) p.
Proof.
  intros (f & u & cb & Hi & ?). exists f, u, cb. split; [|done]. apply in_or_app. by left.
Qed.

Lemma entry_tapped tr s h ps p r :
  run_of tr s -> Telegram.entries s.2 !! h = Some ps -> Telegram.ask ps = Signer.ask_of p ->
  Telegram.ch ps = Some r -> Status r = StatusApproved -> tapped_for tr p.
Proof.
  intros Hr Hh Ha Hc Hst. destruct (telegram_run _ _ Hr) as (c & t & tr' & Hrt & Hi).
  destruct (inv_result _ _ _ _ _ _ (reach_inv _ _ _ _ _ _ Hrt) _ _ _ Hh Hc)
    as [(cb & a & (tr1 & f & u & tr2 & s1 & -> & _ & Hu & [Hf Hp] & _) & _ & ->)|[-> _]]; [|done].
  destruct a; [|done]. exists f, u, cb. rewrite <- Ha. split_and!; try done. apply Hi, in_elt.
Qed.

Lemma answer_tapped tr s e p r :
  run_of tr s -> In (Resolve e p (Resolved r)) (Signer.daemon_part tr) -> Status r = StatusApproved ->
  tapped_for tr p.
Proof.
  intros Hr Hi%daemon_part_in Hst. induction Hr as [|tr s ev s' Hr IH Hs]; [done|].
  apply in_app_or in Hi as [Hi|[->|[]]]; [by apply tapped_for_mono, IH|apply tapped_for_mono].
  inversion Hs as [? ? ? ? Ha _ _|? ? ? ? ? ? h ps Hh Hask Hc _| |]; subst; [done|].
  by eapply entry_tapped.
Qed.

(** C2: No signature without a tap.  Whatever the interleaving of handlers, taps,
    timers and restarts, a response with signatures answers a request that the
    allowed user approved with a button that carries its id, or one of which every
    command is covered by a standing grant that the allowed user approved that
    way: for its alias, and for all commands or this one. *)
Theorem no_signature_without_tap (tr : list Signer.event) (s : Daemon.State * Telegram.State)
    (rid st mode : string) (sigs : list SignedCmd) (err : option Reason_)
    (Hr : run_of tr s) (Hin : In (SignResponse rid st mode sigs err) (sent s.1)) (Hsigs : sigs <> []) :
  exists req, rid = sID req
    /\ (tapped_for tr (PendingSign req)
        \/ Forall (fun c => CmdReveal c = false
             /\ exists greq, tapped_for tr (PendingGrant greq) /\ gAlias greq = Server c
                  /\ (gScope greq = "all" \/ gScope greq = "commands" /\ In (Command c) (gCommands greq)))
             (sCommands req)).
Proof.
  pose proof (daemon_run _ _ Hr) as Hd.
  pose proof (sent_signed_ok cfg _ _ Hd) as Hall. rewrite List.Forall_forall in Hall.
  destruct (Hall _ Hin Hsigs) as (req & -> & _ & _ & _ & Hj & _).
  exists req. split; [done|].
  destruct Hj as [tr0 e l tr1 d0 gid Etr Hr0 Hl Hm _ _|tr0 e r tr1 Etr Hst _ _]; [right|left].
  - apply match_covered in Hm. eapply Forall_impl; [exact Hm|]. intros c [Hrev (g & Hg & _ & Hsc)].
    split; [done|].
    destruct (grants_origin cfg _ _ Hr0 _ _ Hg) as (tr2 & e2 & greq & r & gid' & tr3 & E2 & Hst & _ & Hal & -> & _).
    exists greq. split; [|done]. apply (answer_tapped tr s e2 _ r Hr); [|done].
    rewrite Etr, E2. apply in_or_app. left. apply in_elt.
  - eapply answer_tapped; [exact Hr| |exact Hst]. rewrite Etr. apply in_elt.
Qed.

End System.

(** ** Witness *)

Lemma lift_telegram `{Hmac} `{Ed25519} `{Telegram.ChatStore} cfg opts latency c0 t0 trs d s0 tr t :
  Signer.reach cfg opts latency c0 t0 trs (d, s0) -> Telegram.reach opts latency s0 tr t ->
  Signer.reach cfg opts latency c0 t0 (trs ++ map Signer.OfTelegram tr) (d, t).
Proof.
  intros Hr Ht. induction Ht as [|tr s ev s' _ IH Hs]; [by rewrite app_nil_r|].
  rewrite map_app, app_assoc. eapply Signer.reach_step; [exact IH|by constructor].
Qed.

#[local] Existing Instance telegram_hmac.
#[local] Existing Instance Telegram.MemChatStore.

Definition signer_req : signRequest := mkSign "sign" "r1" [mkCmd "web" "reboot" 60 "" false ""].
Definition signer_waits : Daemon.State := arrive sample_cfg (sample_env 10) (sign_line signer_req) initial.
Definition signer_done : Daemon.State :=
  resolve sample_cfg (sample_env 20) (PendingSign signer_req)
    (Resolved (mkRes StatusApproved "@op" [])) (set_pending [] signer_waits).

(** A request arrives, is posted, tapped and signed. *)
Lemma no_signature_without_tap_witness :
  exists tr t req, Signer.reach sample_cfg sample_options 0 sample_store 0 tr (signer_done, t)
    /\ sID req = "r1" /\ (tapped_for sample_options tr (PendingSign req) \/ sCommands req = []
       \/ exists g, tapped_for sample_options tr (PendingGrant g)).
Proof.
  destruct sample_approved as (trt & t & r & Ht & He & ->).
  assert (exists tr, Signer.reach sample_cfg sample_options 0 sample_store 0 tr (signer_done, t)) as [tr Hr].
  { eexists. eapply Signer.reach_step.
    - eapply (lift_telegram sample_cfg sample_options 0 sample_store 0
                [Signer.OfDaemon (Arrive (sample_env 10) (sign_line signer_req))] signer_waits); [|exact Ht].
      eapply (Signer.reach_step _ _ _ _ _ []); [constructor|]. apply Signer.step_daemon; [reflexivity|discriminate|]. exact (step_arrive _ _ _ _).
    - eapply (Signer.step_answer sample_cfg sample_options 0 _ (sample_env 20) (PendingSign signer_req));
        [exact (f_equal (fun l => l !! 0) He)|reflexivity|reflexivity|]. exact (step_resolve sample_cfg (sample_env 20) (PendingSign signer_req) _ signer_waits [] [] eq_refl). }
  assert (exists mode sigs, In (SignResponse "r1" "approved" mode sigs None) (sent signer_done)
            /\ sigs <> []) as (mode & sigs & Hin & Hne).
  { eexists _, _. split; [vm_compute; left; reflexivity|discriminate]. }
  destruct (no_signature_without_tap sample_cfg sample_options 0 sample_store 0 tr (signer_done, t)
              "r1" "approved" mode sigs None Hr Hin Hne) as (req & Hid & Hj).
  exists tr, t, req. split; [exact Hr|]. split; [by rewrite Hid|].
  destruct Hj as [Hj|Hj]; [by left|right]. destruct (sCommands req) as [|c cs]; [by left|right].
  apply Forall_inv in Hj as (_ & g & Hg & _). by exists g.
Defined.
