(* ===== verification/RedTeamRig.v ===== *)
(** * The red-team rig (internal/redteam/container.go, state.go, tripwire.go; cmd/gate-redteam)

    Instances and what is derived from their port, the state file of a standing
    target, the boot with its undoing, the tear-down, both modes of the tripwire
    with the listing they read, and what each subcommand ends with.  Docker, ssh and
    the file system answer as they please; a call's commands to them are listed. *)

From S2P Require Import Prelude Json JsonProps JsonValue JsonValueProps Sigwire SignerWire SignerWireProps Regexp GoTime GoUrl McpRegistry McpRegistryProps RedTeam RedTeamProps.

Module Rig.
Import JsonValue Wire RedTeam.

(** ** Instances *)

Definition DefaultPort : Z := 2222.
Definition DefaultContainerName : string := "sshgate-test-sshd".

(** Instance *)
Record RigInstance := mkInstance {
  iPort : Z; iLabel : string; iProject : string; iContainer : string
}.

(** InstanceForPort *)
Definition InstanceForPort (port : Z) (label : string) : RigInstance :=
  let name := "sshgate-redteam-" +:+ GoTime.itoa port in mkInstance port label name name.

Definition DefaultInstance : RigInstance := InstanceForPort DefaultPort "".

(** fmt.Sscanf of one %d, on text that does not begin with a blank: what follows the
    digits is not looked at. *)
Definition Sscanf_d (s : string) : option Z :=
  let '(sign, l) :=
    match list_ascii_of_string s with
    | c :: l => if ((c =c "-") || (c =c "+"))%char then ([c], l) else ([], c :: l)
    | [] => ([], [])
    end in
  GoUrl.Atoi (string_of_list_ascii (sign ++ (GoTime.span_digits l).1)).

(** InstanceFromEnv, on the values of the two variables. *)
Definition InstanceFromEnv (port label : string) : RigInstance :=
  let v := GoStr.TrimSpace port in
  let p :=
    if v =s "" then DefaultPort
    else match Sscanf_d v with
         | Some p => if ((0 <? p) && (p <? 65536))%Z then p else DefaultPort
         | None => DefaultPort
         end in
  InstanceForPort p (GoStr.TrimSpace label).

Definition InstanceStateFile (inst : RigInstance) : string :=
  ".gate-redteam-state-" +:+ GoTime.itoa (iPort inst) +:+ ".json".

Definition InstanceKeyDir (inst : RigInstance) : string :=
  GoUrl.Join [".gate-redteam"; GoTime.itoa (iPort inst)].

(** ** The state of a standing target *)

(** State; its names are the JSON's. *)
Record RigState := mkState {
  compose_file : string; key_path : string; known_hosts : string; sentinel : string;
  fixtures_pub : string; key_dir : string; watch_log : string; tripwire_fallback : bool;
  brought_up : string; port : Z; label : string; project : string; container : string
}.

Definition zero_state : RigState := mkState "" "" "" "" "" "" "" false "" 0 "" "" "".

Definition state_value (s : RigState) : value :=
  VObj (member "compose_file" (vstr (compose_file s)) ++ member "key_path" (vstr (key_path s))
        ++ member "known_hosts" (vstr (known_hosts s)) ++ member "sentinel" (vstr (sentinel s))
        ++ member "fixtures_pub" (vstr (fixtures_pub s)) ++ member "key_dir" (vstr (key_dir s))
        ++ member "watch_log" (vstr (watch_log s))
        ++ member "tripwire_fallback" (VBool (tripwire_fallback s))
        ++ member "brought_up" (vstr (brought_up s))
        ++ omitempty (port s =? 0)%Z "port" (vint (port s))
        ++ omitempty (label s =s "") "label" (vstr (label s))
        ++ omitempty (project s =s "") "project" (vstr (project s))
        ++ omitempty (container s =s "") "container" (vstr (container s))).

Definition state_decoder : decoder RigState :=
  decode_struct false
    [field "compose_file" decode_string compose_file
       (fun x '(mkState _ b c d e f g h i j k l m) => mkState x b c d e f g h i j k l m);
     field "key_path" decode_string key_path
       (fun x '(mkState a _ c d e f g h i j k l m) => mkState a x c d e f g h i j k l m);
     field "known_hosts" decode_string known_hosts
       (fun x '(mkState a b _ d e f g h i j k l m) => mkState a b x d e f g h i j k l m);
     field "sentinel" decode_string sentinel
       (fun x '(mkState a b c _ e f g h i j k l m) => mkState a b c x e f g h i j k l m);
     field "fixtures_pub" decode_string fixtures_pub
       (fun x '(mkState a b c d _ f g h i j k l m) => mkState a b c d x f g h i j k l m);
     field "key_dir" decode_string key_dir
       (fun x '(mkState a b c d e _ g h i j k l m) => mkState a b c d e x g h i j k l m);
     field "watch_log" decode_string watch_log
       (fun x '(mkState a b c d e f _ h i j k l m) => mkState a b c d e f x h i j k l m);
     field "tripwire_fallback" decode_bool tripwire_fallback
       (fun x '(mkState a b c d e f g _ i j k l m) => mkState a b c d e f g x i j k l m);
     field "brought_up" decode_string brought_up
       (fun x '(mkState a b c d e f g h _ j k l m) => mkState a b c d e f g h x j k l m);
     field "port" decode_int64 port
       (fun x '(mkState a b c d e f g h i _ k l m) => mkState a b c d e f g h i x k l m);
     field "label" decode_string label
       (fun x '(mkState a b c d e f g h i j _ l m) => mkState a b c d e f g h i j x l m);
     field "project" decode_string project
       (fun x '(mkState a b c d e f g h i j k _ m) => mkState a b c d e f g h i j k x m);
     field "container" decode_string container
       (fun x '(mkState a b c d e f g h i j k l _) => mkState a b c d e f g h i j k l x)].

(** What SaveState writes. *)
Definition state_file (s : RigState) : list ascii :=
  Registry.write_indented 0 (state_value s) ++ [NL].

(** What reading a state file gives: there is none, it can not be used, or a state. *)
Inductive Loaded := NotExist | Unusable | LoadedState (s : RigState).

(** LoadState *)
Definition LoadState (r : Registry.Read) : Loaded :=
  match r with
  | Registry.ReadNotExist => NotExist
  | Registry.ReadError => Unusable
  | Registry.ReadBody body =>
      let '(s, ok) := Unmarshal state_decoder body zero_state in
      if ok then LoadedState s else Unusable
  end.

(** State.instance *)
Definition instance (s : RigState) : RigInstance :=
  if (port s =? 0)%Z then DefaultInstance
  else
    let inst := InstanceForPort (port s) (label s) in
    mkInstance (iPort inst) (iLabel inst)
      (if project s =s "" then iProject inst else project s)
      (if container s =s "" then iContainer inst else container s).

(** Target, without its client and its snapshots. *)
Record Target := mkTarget {
  inst : RigInstance; composeFile : string; keyPath : string; knownHosts : string;
  tSentinel : string; tripwireFallback : bool
}.

(** NewStandingTarget's state of a new target. *)
Definition fixtures_path (root : string) : string :=
  GoUrl.Join [root; "tests"; "integration"; "fixtures"; "keys"; "sshgate_ed25519.pub"].

Definition standing_state (root keyDir now : string) (t : Target) : RigState :=
  mkState (composeFile t) (keyPath t) (knownHosts t) (tSentinel t) (fixtures_path root) keyDir watchLog
    (tripwireFallback t) now (iPort (inst t)) (iLabel (inst t)) (iProject (inst t)) (iContainer (inst t)).

(** LoadTarget *)
Definition LoadTarget (s : RigState) : Target :=
  mkTarget (instance s) (compose_file s) (key_path s) (known_hosts s) (sentinel s) (tripwire_fallback s).

Definition TripwireMode (t : Target) : string := if tripwireFallback t then "snapshot" else "inotify".

(** ** Bringing a target up and tearing it down *)

(** What is asked of docker and the file system, and may fail. *)
Inductive Op :=
  | ComposeUp (project file : string)
  | ComposeDown (project file : string)
  | RemoveContainer (name : string)
  | WriteFile (path : string)
  | Remove (path : string)
  | RemoveAll (path : string)
  | Stat (path : string)
  | MkdirAll (path : string)
  | WaitForBanner (port : Z)
  | Exec (project what : string).

(** The steps of NewTarget up to the tripwire. *)
Definition compose_path (root : string) : string :=
  GoUrl.Join [root; "tests"; "integration"; "docker-compose.yml"].

Definition boot_steps (inst : RigInstance) (root keyDir : string) : list Op :=
  [Stat (compose_path root); WriteFile (GoUrl.Join [keyDir; "id_ed25519"]);
   MkdirAll (GoUrl.Dir (fixtures_path root)); WriteFile (fixtures_path root);
   ComposeUp (iProject inst) (compose_path root); WaitForBanner (iPort inst);
   Exec (iProject inst) "deploy"; Exec (iProject inst) "seed"; Exec (iProject inst) "tripwire"].

(** The teardown that NewTarget hands to its caller. *)
Definition teardown (inst : RigInstance) (root : string) : list Op :=
  [ComposeDown (iProject inst) (compose_path root); Remove (fixtures_path root)].

(** What NewTarget undoes when the step that fails is [op]. *)
Definition undo (inst : RigInstance) (root : string) (op : Op) : list Op :=
  match op with
  | ComposeUp _ _ => [Remove (fixtures_path root)]
  | WaitForBanner _ | Exec _ _ => teardown inst root
  | _ => []
  end.

(** The steps in order, up to the first that fails and what undoes them; whether
    all succeeded. *)
Fixpoint run_steps (ok : Op -> bool) (inst : RigInstance) (root : string) (steps : list Op)
    : list Op * bool :=
  match steps with
  | [] => ([], true)
  | op :: steps =>
      if ok op then let '(ops, r) := run_steps ok inst root steps in (op :: ops, r)
      else (op :: undo inst root op, false)
  end.

(** NewTarget; [snapshot] is the tripwire's mode, [suffix] the sentinel's random part. *)
Definition NewTarget (ok : Op -> bool) (inst : RigInstance) (root keyDir suffix : string) (snapshot : bool)
    : list Op * option Target :=
  let '(ops, up) := run_steps ok inst root (boot_steps inst root keyDir) in
  (ops,
   if up
   then Some (mkTarget inst (compose_path root) (GoUrl.Join [keyDir; "id_ed25519"])
                (GoUrl.Join [keyDir; "known_hosts"]) ("REDTEAM-SECRET-" +:+ suffix) snapshot)
   else None).

(** DownTarget: what it asks for. *)
Definition DownTarget (stateFile : string) (l : Loaded) : list Op :=
  match l with
  | NotExist => []
  | _ =>
      let s := match l with LoadedState s => s | _ => zero_state end in
      (if negb (compose_file s =s "") then [ComposeDown (iProject (instance s)) (compose_file s)]
       else [RemoveContainer (if negb (container s =s "") then container s else DefaultContainerName)])
      ++ (if negb (fixtures_pub s =s "") then [Remove (fixtures_pub s)] else [])
      ++ (if negb (key_dir s =s "") then [RemoveAll (key_dir s); Remove (GoUrl.Dir (key_dir s))] else [])
      ++ [Remove stateFile]
  end.

(** What it reports, given which of these succeed. *)
Definition down_action (ok : Op -> bool) (stateFile : string) (s : RigState) (op : Op) : list string :=
  match op with
  | ComposeDown _ _ =>
      [if ok op then "compose down -v: container + volumes removed" else "compose down warning"]
  | RemoveContainer name => ["best-effort container removal by name (" +:+ name +:+ ")"]
  | RemoveAll path => if ok op then ["removed standing key dir " +:+ path] else []
  | Remove path =>
      if negb (ok op) then []
      else if path =s stateFile then ["removed state file " +:+ stateFile]
      else if path =s fixtures_pub s then ["removed fixtures pubkey"]
      else []
  | _ => []
  end.

(** ** The tripwire's two modes *)

(** An event log is read from the line its mark counted. *)
Definition count_newlines (log : string) : nat :=
  List.length (List.filter (fun c => c =c NL) (list_ascii_of_string log)).

(** [wc -l], or nothing when there is no log yet. *)
Definition WriteMark (log : option string) : Z := Z.of_nat (count_newlines (default "" log)).

Definition WriteEventsSince (log : option string) (m : Z) : list WriteEvent :=
  (parseWatchLog (default "" log) m).1.

(** strings.SplitN(line, "\t", 4), when it gives four parts. *)
Definition four_parts (line : string) : option (string * string * string * string) :=
  match cut_tab (list_ascii_of_string line) with
  | None => None
  | Some (a, rest) =>
      match cut_tab rest with
      | None => None
      | Some (b, rest) =>
          match cut_tab rest with
          | None => None
          | Some (c, d) =>
              Some (string_of_list_ascii a, string_of_list_ascii b, string_of_list_ascii c,
                    string_of_list_ascii d)
          end
      end
  end.

(** One line of a listing, as an entry of the snapshot. *)
Definition listed (line : string) : option (string * FileState) :=
  match four_parts line with
  | Some (mt, sz, sha, path) =>
      Some (path, mkFileState true sha (default 0%Z (Sscanf_d mt)) (default 0%Z (Sscanf_d sz)))
  | None => None
  end.

(** The maps the two listings are read into; the last line of a path stays. *)
Definition snapshot_of (keep : string -> bool) (lines : list string) : gmap string FileState :=
  fold_left (fun snap line =>
    match listed line with
    | Some (path, st) => if keep path then <[path := st]> snap else snap
    | None => snap
    end) lines ∅.

(** Target.Snapshot's reading of the script's output. *)
Definition Snapshot_of (out : string) : gmap string FileState :=
  snapshot_of (fun _ => true)
    (List.filter (fun l => negb (l =s ""))
       (map (fun l => TrimRight (string_of_list_ascii l) CR)
          (split_on (fun c => c =c NL) (list_ascii_of_string out)))).

(** ** What the tripwire does not look at *)

Definition watchExcludes : list string :=
  ["/redteam-watch/events\.log"; "/redteam-watch/inotify\.pid"; "/config/\.sshgate-gate/audit\.log";
   "/etc/s6-overlay"; "/etc/services\.d"; "/etc/cont-init\.d"; "/etc/ssh/ssh_host_"; "/config/\.cache";
   "/config/logs"; "/config/\.ssh/known_hosts"; "/tmp/sort"].

Definition watchRoots : list string :=
  [Corpus.CanaryRoot; Corpus.beaconDir; Corpus.containerHome; "/tmp"; "/etc"; "/root"; "/home";
   "/usr/local/bin"; "/var/spool/cron"].

Definition excludeMatchers : list (list ascii -> list (list Z)) :=
  omap (fun frag => Regexp.MustCompile (list_ascii_of_string frag)) watchExcludes.

(** excludedPath *)
Definition excludedPath (p : string) : bool :=
  existsb (fun re => match re (list_ascii_of_string p) with [] => false | _ => true end) excludeMatchers.

(** watchSnapshot's reading of the script's output. *)
Definition watchSnapshot_of (out : string) : gmap string FileState :=
  snapshot_of (fun p => negb (excludedPath p)) (splitLogLines out).

(** The snapshots kept for marks, and the next mark. *)
Record Fallback := mkFallback { snaps : gmap nat (gmap string FileState); nextID : nat }.

Definition no_snaps : Fallback := mkFallback ∅ 0.

(** snapshotMark; [snap] is the snapshot it takes, if it gets one. *)
Definition snapshotMark (snap : option (gmap string FileState)) (f : Fallback) : option (nat * Fallback) :=
  match snap with
  | None => None
  | Some s => Some (nextID f, mkFallback (<[nextID f := s]> (snaps f)) (S (nextID f)))
  end.

(** snapshotEventsSince: the mark's snapshot is looked up in [f] and dropped from
    [f'], what [f] has become when the new snapshot [snap] is there. *)
Definition snapshotEventsSince (m : nat) (f : Fallback) (snap : option (gmap string FileState)) (f' : Fallback)
    : option (list WriteEvent * Fallback) :=
  match snaps f !! m with
  | None => None
  | Some before =>
      match snap with
      | None => None
      | Some after =>
          Some (map (mkEvent "SNAPSHOT") (Diff before after), mkFallback (delete m (snaps f')) (nextID f'))
      end
  end.

(** What other callers do to the kept snapshots meanwhile. *)
Inductive Meanwhile := Marks (snap : gmap string FileState) | Drops (m : nat).

Definition meanwhile (f : Fallback) (op : Meanwhile) : Fallback :=
  match op with
  | Marks s => mkFallback (<[nextID f := s]> (snaps f)) (S (nextID f))
  | Drops m => mkFallback (delete m (snaps f)) (nextID f)
  end.

(** ** The subcommands *)

Inductive Sub := Up | Down | Status | TestOne | Campaign | Batch.

(** run: a subcommand and its arguments, or an exit code. *)
Definition subcommand (args : list string) : (Sub * list string) + Z :=
  match args with
  | [] => inr 2%Z
  | sub :: rest =>
      if sub =s "up" then inl (Up, rest)
      else if sub =s "down" then inl (Down, rest)
      else if sub =s "status" then inl (Status, rest)
      else if sub =s "test" then inl (TestOne, rest)
      else if sub =s "campaign" then inl (Campaign, rest)
      else if sub =s "batch" then inl (Batch, rest)
      else if (sub =s "-h") || (sub =s "--help") || (sub =s "help") then inr 0%Z
      else inr 2%Z
  end.

(** The flags every subcommand has, and its other arguments. *)
Record Flags := mkFlags { fState : string; fPort : Z; fLabel : string; fArgs : list string }.

(** commonFlags.resolve *)
Definition resolve (f : Flags) : RigInstance * string :=
  let inst := InstanceForPort (fPort f) (fLabel f) in
  (inst, if fState f =s "" then InstanceStateFile inst else fState f).

(** What a command finds. *)
Record Machine := mkMachine {
  docker : bool;
  state_at : string -> Registry.Read;
  probe : RigState -> RunResult;
  repo_root : option string;
  temp_dir : option string;
  abs_path : string -> string;
  mkdir_ok : string -> bool;
  op_ok : Op -> bool;
  random : string;
  no_inotify : bool;
  time_now : string;
  test_one : Target -> string -> string -> option Verdict;
  campaign_on : Target -> option CampaignResult;
  read_file : string -> option string;
  report_ok : bool
}.

(** Target.Reachable *)
Definition Reachable (r : RunResult) : bool :=
  if Err r then false
  else match classifyDecision r with DecisionExecuted => true | _ => false end.

(** withTarget's boot and tear-down around [fn]. *)
Definition ephemeral (w : Machine) (pinned : RigInstance) (fn : Target -> Z) : list Op * Z :=
  match repo_root w, temp_dir w with
  | Some root, Some keyDir =>
      match NewTarget (op_ok w) pinned root keyDir (random w) (no_inotify w) with
      | (ops, None) => (ops ++ [RemoveAll keyDir], 1%Z)
      | (ops, Some t) => (ops ++ teardown pinned root ++ [RemoveAll keyDir], fn t)
      end
  | _, _ => ([], 1%Z)
  end.

(** withTarget.  LoadTarget pins the process to the state's own instance. *)
Definition withTarget (w : Machine) (inst : RigInstance) (stateFile : string) (fn : Target -> Z) : list Op * Z :=
  if negb (docker w) then ([], 2%Z)
  else
    match LoadState (state_at w stateFile) with
    | LoadedState s =>
        if Reachable (probe w s) then ([], fn (LoadTarget s)) else ephemeral w (instance s) fn
    | _ => ephemeral w inst fn
    end.

(** cmdTest *)
Definition cmdTest (w : Machine) (flags : option Flags) : list Op * Z :=
  match flags with
  | None => ([], 2%Z)
  | Some f =>
      match fArgs f with
      | [cmd] =>
          if GoStr.TrimSpace cmd =s "" then ([], 2%Z)
          else
            let '(inst, statePath) := resolve f in
            withTarget w inst statePath (fun t =>
              match test_one w t "adhoc" cmd with
              | None => 1%Z
              | Some v => if BYPASS v then 3%Z else 0%Z
              end)
      | _ => ([], 2%Z)
      end
  end.

(** cmdCampaign *)
Definition cmdCampaign (w : Machine) (flags : option Flags) : list Op * Z :=
  match flags with
  | None => ([], 2%Z)
  | Some f =>
      let '(inst, statePath) := resolve f in
      withTarget w inst statePath (fun t =>
        match campaign_on w t with
        | None => 1%Z
        | Some res => if 0 <? Bypasses res then 3%Z else 0%Z
        end)
  end.

(** cmdBatch's candidates: a line each, but for blank lines and comments. *)
Definition candidates (raw : string) : list string :=
  List.filter (fun line => negb ((GoStr.TrimSpace line =s "") || GoStr.HasPrefix (GoStr.TrimSpace line) "#"))
    (map (fun l => TrimRight (string_of_list_ascii l) CR)
       (split_on (fun c => c =c NL) (list_ascii_of_string raw))).

(** The bypasses its loop counts; a test that fails is passed over. *)
Definition batch_bypasses (test : string -> option Verdict) (cmds : list string) : nat :=
  List.length (List.filter BYPASS (omap test cmds)).

Definition cmdBatch (w : Machine) (report : bool) (flags : option Flags) : list Op * Z :=
  match flags with
  | None => ([], 2%Z)
  | Some f =>
      match fArgs f with
      | [path] =>
          match read_file w path with
          | None => ([], 1%Z)
          | Some raw =>
              match candidates raw with
              | [] => ([], 2%Z)
              | cmds =>
                  let '(inst, statePath) := resolve f in
                  withTarget w inst statePath (fun t =>
                    if report && negb (report_ok w) then 1%Z
                    else if 0 <? batch_bypasses (test_one w t "batch") cmds then 3%Z else 0%Z)
              end
          end
      | _ => ([], 2%Z)
      end
  end.

(** cmdUp *)
Definition cmdUp (w : Machine) (flags : option Flags) : list Op * Z :=
  match flags with
  | None => ([], 2%Z)
  | Some f =>
      let '(inst, statePath) := resolve f in
      if negb (docker w) then ([], 2%Z)
      else
        let found := LoadState (state_at w statePath) in
        if match found with LoadedState s => Reachable (probe w s) | _ => false end then ([], 0%Z)
        else
          let cleaned := match found with LoadedState _ => DownTarget statePath found | _ => [] end in
          match repo_root w with
          | None => (cleaned, 1%Z)
          | Some root =>
              let keyDir := GoUrl.Join [GoUrl.Dir (abs_path w statePath); InstanceKeyDir inst] in
              if negb (mkdir_ok w keyDir) then (cleaned, 1%Z)
              else
                match NewTarget (op_ok w) inst root keyDir (random w) (no_inotify w) with
                | (ops, None) =>
                    let left :=
                      match found with
                      | LoadedState s => if op_ok w (Remove statePath) then NotExist else found
                      | _ => found
                      end in
                    (cleaned ++ ops ++ DownTarget statePath left, 1%Z)
                | (ops, Some t) =>
                    (cleaned ++ ops ++ [WriteFile statePath],
                     if op_ok w (WriteFile statePath) then 0%Z else 1%Z)
                end
          end
  end.

(** cmdDown; docker is asked even when it can not be reached. *)
Definition cmdDown (w : Machine) (flags : option Flags) : list Op * Z :=
  match flags with
  | None => ([], 2%Z)
  | Some f =>
      let '(_, statePath) := resolve f in
      (DownTarget statePath (LoadState (state_at w statePath)), 0%Z)
  end.

(** cmdStatus *)
Definition cmdStatus (w : Machine) (flags : option Flags) : Z :=
  match flags with
  | None => 2%Z
  | Some f =>
      match LoadState (state_at w (resolve f).2) with
      | Unusable => 1%Z
      | _ => 0%Z
      end
  end.

(** ** The repository's root *)

(** repoRoot's walk from one directory to the top. *)
Fixpoint walk_up (fuel : nat) (exists_ : string -> bool) (dir : string) : option string :=
  match fuel with
  | 0 => None
  | S fuel =>
      if exists_ (GoUrl.Join [dir; "go.mod"]) && exists_ (compose_path dir) then Some dir
      else
        let parent := GoUrl.Dir dir in
        if parent =s dir then None else walk_up fuel exists_ parent
  end.

(** repoRoot, from the working directory and the executable. *)
Definition repoRoot (exists_ : string -> bool) (wd exe : option string) : option string :=
  head (omap (walk_up 12 exists_) (omap id [wd; option_map GoUrl.Dir exe])).

End Rig.

Import Json JsonValue Wire RedTeam Rig.

(** ** Instances *)

Lemma itoa_inj a b : GoTime.itoa a = GoTime.itoa b -> a = b.
Proof.
  unfold GoTime.itoa, Sigwire.str. intros H.
  apply (f_equal list_ascii_of_string) in H. rewrite !list_ascii_of_string_of_list_ascii in H.
  pose proof (scan_format_int a [] I) as Ha. pose proof (scan_format_int b [] I) as Hb.
  rewrite !app_nil_r in *. rewrite H in Ha. congruence.
Qed.

Lemma sapp_inj_l (p a b : string) : p +:+ a = p +:+ b -> a = b.
Proof. induction p as [|c p IH]; [done|]. intros [= H]. by apply IH. Qed.

Lemma sapp_inj_r (a b s : string) : a +:+ s = b +:+ s -> a = b.
Proof.
  intros H. apply (f_equal Sigwire.bytes) in H. rewrite !bytes_app in H. apply app_inv_tail in H.
  unfold Sigwire.bytes in H. rewrite <- (string_of_list_ascii_of_string a), H. apply string_of_list_ascii_of_string.
Qed.

(** Instances on different ports share neither project, nor container, nor state
    file; the port of the environment is one, or the default. *)
Lemma instances_apart p q l l' :
  p <> q ->
  let a := InstanceForPort p l in
  let b := InstanceForPort q l' in
  iProject a <> iProject b /\ iContainer a <> iContainer b /\ InstanceStateFile a <> InstanceStateFile b.
Proof.
  intros Hne a b. repeat split; intros H; apply Hne, itoa_inj.
  - by apply sapp_inj_l in H.
  - by apply sapp_inj_l in H.
  - by apply sapp_inj_l, sapp_inj_r in H.
Qed.

Lemma env_port_valid v l : (0 < iPort (InstanceFromEnv v l) < 65536)%Z.
Proof. unfold InstanceFromEnv. repeat case_match; cbn; bool_hyps; unfold DefaultPort; lia. Qed.

(** A port that is not a number is read as far as it is one. *)
Example port_prefix_taken : iPort (InstanceFromEnv " 22x" "") = 22%Z /\ iPort (InstanceFromEnv "x22" "") = 2222%Z.
Proof. by split. Qed.

(** But all instances write the one key file that their containers mount. *)
Lemma one_key_file inst root keyDir : In (WriteFile (fixtures_path root)) (boot_steps inst root keyDir).
Proof. cbn. tauto. Qed.

(** ** The state file *)

Lemma only_value_saved v :
  wf_value v -> flat v -> depth v <= maxNestingDepth ->
  only_value (Registry.write_indented 0 v ++ [NL]) = Some v.
Proof.
  intros Hw Hfl Hd. unfold only_value.
  rewrite (indented_reads_back v Hw Hfl 0); [done| |done|by right].
  unfold fuel_for. rewrite length_app. lia.
Qed.

Definition utf8_state (s : RigState) : Prop :=
  utf8 (compose_file s) /\ utf8 (key_path s) /\ utf8 (known_hosts s) /\ utf8 (sentinel s)
  /\ utf8 (fixtures_pub s) /\ utf8 (key_dir s) /\ utf8 (watch_log s) /\ utf8 (brought_up s)
  /\ JsonValue.is_int64 (port s) = true /\ utf8 (label s) /\ utf8 (project s) /\ utf8 (container s).

Lemma decode_state s : JsonValue.is_int64 (port s) = true -> state_decoder (state_value s) zero_state = (s, true).
Proof.
  intros Hp. destruct s as [a b c d e f g h i j k l m]. cbn [port] in Hp.
  unfold state_decoder, state_value, decode_struct.
  cbn [compose_file key_path known_hosts sentinel fixtures_pub key_dir watch_log tripwire_fallback
       brought_up port label project container].
  rewrite <- (app_nil_r (omitempty (m =s "") _ _)). by step_members.
Qed.

Lemma state_fits s : utf8_state s -> fits 1 (state_value s).
Proof. intros (H1 & H2 & H3 & H4 & H5 & H6 & H7 & H8 & _ & H9 & H10 & H11). unfold state_value. auto 40 with fits. Qed.

Lemma state_flat s : flat (state_value s).
Proof.
  apply flat_members. repeat (apply Forall_app; split); try (by repeat constructor);
    unfold omitempty; destruct (_ : bool); by repeat constructor.
Qed.

(** What SaveState writes is what LoadState reads. *)
Lemma state_reads_back s : utf8_state s -> LoadState (Registry.ReadBody (state_file s)) = LoadedState s.
Proof.
  intros Hs. unfold LoadState, Unmarshal, state_file. destruct (state_fits s Hs) as [Hw Hd].
  rewrite only_value_saved; [|done|apply state_flat|by apply (Nat.le_trans _ 1), Nat.leb_le].
  rewrite decode_state; [done|]. by destruct Hs as (_ & _ & _ & _ & _ & _ & _ & _ & ? & _).
Qed.

(** A target that is saved and loaded again is the same target, on its own instance. *)
Theorem standing_target_reloaded root keyDir now t :
  iProject (inst t) <> "" -> iContainer (inst t) <> "" -> iPort (inst t) <> 0%Z ->
  utf8_state (standing_state root keyDir now t) ->
  exists s, LoadState (Registry.ReadBody (state_file (standing_state root keyDir now t))) = LoadedState s
    /\ LoadTarget s = t.
Proof.
  intros Hpr Hc Hp Hu. eexists. split; [by apply state_reads_back|].
  destruct t as [[po la pr co] cf kp kh se fb]. unfold LoadTarget, standing_state, instance. cbn in *.
  by rewrite (proj2 (Z.eqb_neq _ _) Hp), (proj2 (String.eqb_neq _ _) Hpr), (proj2 (String.eqb_neq _ _) Hc).
Qed.

(** ** Booting and tearing down *)

(** Wherever a boot fails, a container that was started is taken down again, and once
    one was asked for the public key written for it is removed. *)
Lemma failed_boot_undone ok i root keyDir suffix snapshot ops p f :
  NewTarget ok i root keyDir suffix snapshot = (ops, None) -> In (ComposeUp p f) ops ->
  In (Remove (fixtures_path root)) ops /\ (ok (ComposeUp p f) = true -> In (ComposeDown p f) ops).
Proof.
  unfold NewTarget, boot_steps. intros Hb Hi. cbn [run_steps] in Hb.
  repeat (match type of Hb with context [if ok ?o then _ else _] => destruct (ok o) eqn:? end; cbn [undo teardown app] in Hb);
    try discriminate; injection Hb as <-;
    unfold teardown in *; cbn [In] in *; destruct_or?; try discriminate; try contradiction;
    simplify_eq; split; try congruence; tauto.
Qed.


Lemma boot_complete ok i root keyDir suffix snapshot ops t p f :
  NewTarget ok i root keyDir suffix snapshot = (ops, Some t) -> In (ComposeUp p f) ops ->
  In (ComposeDown p f) (teardown i root).
Proof.
  unfold NewTarget, boot_steps. intros Hb Hi. cbn [run_steps] in Hb.
  repeat (match type of Hb with context [if ok ?o then _ else _] => destruct (ok o) end; cbn in Hb); try discriminate.
  injection Hb as <- _. cbn [In] in Hi. destruct_or?; try discriminate; try contradiction.
  injection Hi as <- <-. by left.
Qed.

(** A command that does not keep its machine leaves neither container nor keys,
    whatever step fails. *)
Lemma ephemeral_leaves_nothing w i stateFile fn ops code p f :
  withTarget w i stateFile fn = (ops, code) -> In (ComposeUp p f) ops -> op_ok w (ComposeUp p f) = true ->
  In (ComposeDown p f) ops /\ (exists root, In (Remove (fixtures_path root)) ops)
  /\ exists keyDir, last ops = Some (RemoveAll keyDir).
Proof.
  intros Hw Hi Hok.
  assert (exists pinned, ephemeral w pinned fn = (ops, code)) as [pinned He].
  { unfold withTarget in Hw. destruct (docker w); cbn [negb] in Hw; [|by simplify_eq].
    destruct (LoadState _); eauto. destruct (Reachable _); [by simplify_eq|eauto]. }
  unfold ephemeral in He. destruct (repo_root w) as [root|]; [|by simplify_eq].
  destruct (temp_dir w) as [keyDir|]; [|by simplify_eq].
  destruct (NewTarget _ _ _ _ _ _) as [ops' [t|]] eqn:Hn; simplify_eq.
  - rewrite app_assoc, last_snoc in *. apply in_app_iff in Hi as [Hi|[]]; [|done|done].
    apply in_app_iff in Hi as [Hi|Hi]; [|by cbn in Hi; destruct_or?].
    pose proof (boot_complete _ _ _ _ _ _ _ _ _ _ Hn Hi).
    rewrite !in_app_iff. split; [tauto|]. split; [|eauto]. exists root. rewrite !in_app_iff. left. right. cbn. tauto.
  - rewrite last_snoc. apply in_app_iff in Hi as [Hi|[]]; [|done|done].
    destruct (failed_boot_undone _ _ _ _ _ _ _ _ _ Hn Hi) as [Hr Hd].
    rewrite !in_app_iff. split; [left; by apply Hd|]. split; [|eauto]. exists root. rewrite in_app_iff. by left.
Qed.

(** A state file that can not be read is removed, with a container of that name no
    instance has; the instance's own keeps running, and nothing names it any more. *)
Lemma corrupt_state_wrong_container stateFile port label :
  DownTarget stateFile Unusable = [RemoveContainer DefaultContainerName; Remove stateFile]
  /\ iContainer (InstanceForPort port label) <> DefaultContainerName.
Proof. split; [done|]. discriminate. Qed.

(** The clean-up after a failed boot of a standing target finds no state file yet, and
    so leaves the directory with the private key. *)
Lemma half_built_uncleaned w f root ops :
  docker w = true -> state_at w (resolve f).2 = Registry.ReadNotExist -> repo_root w = Some root ->
  (forall dir, mkdir_ok w dir = true) ->
  (forall keyDir, NewTarget (op_ok w) (resolve f).1 root keyDir (random w) (no_inotify w) = (ops, None)) ->
  cmdUp w (Some f) = (ops, 1%Z) /\ forall dir, ~ In (RemoveAll dir) ops.
Proof.
  intros Hd Hs Hr Hm Hn. split.
  - unfold cmdUp. destruct (resolve f) as [inst statePath]. cbn [fst snd] in *.
    rewrite Hd, Hs. cbn [LoadState negb]. by rewrite Hr, Hm, Hn; cbn; rewrite app_nil_r.
  - intros dir Hi. specialize (Hn ""). unfold NewTarget, boot_steps in Hn. cbn [run_steps] in Hn.
    repeat (match type of Hn with context [if op_ok w ?o then _ else _] => destruct (op_ok w o) end;
            cbn [undo teardown app] in Hn); try discriminate; injection Hn as <-;
      unfold teardown in *; cbn [In] in Hi; by destruct_or?.
Qed.

(** A boot in place of a target that does not answer runs on that target's instance,
    not on the one asked for. *)
Lemma boots_on_state_instance w inst stateFile fn s :
  docker w = true -> LoadState (state_at w stateFile) = LoadedState s -> Reachable (probe w s) = false ->
  withTarget w inst stateFile fn = ephemeral w (instance s) fn.
Proof. intros Hd Hl Hr. unfold withTarget. by rewrite Hd, Hl, Hr. Qed.

(** ** Exit codes *)

Lemma ephemeral_code w i fn ops code :
  ephemeral w i fn = (ops, code) -> code = 1%Z \/ exists t, code = fn t.
Proof. unfold ephemeral. intros H. repeat case_match; simplify_eq; eauto. Qed.

Lemma withTarget_code w inst stateFile fn ops code :
  withTarget w inst stateFile fn = (ops, code) -> code = 1%Z \/ code = 2%Z \/ exists t, code = fn t.
Proof.
  unfold withTarget. intros H.
  repeat case_match; simplify_eq; eauto; apply ephemeral_code in H as [?|?]; eauto.
Qed.

(** A command that says 3 has seen a bypass. *)
Theorem exit_3_is_a_bypass w flags :
  (forall ops, cmdTest w flags = (ops, 3%Z) ->
     exists t cmd v, test_one w t "adhoc" cmd = Some v /\ BYPASS v = true)
  /\ (forall ops, cmdCampaign w flags = (ops, 3%Z) ->
        exists t res, campaign_on w t = Some res /\ 0 < Bypasses res)
  /\ (forall report ops, cmdBatch w report flags = (ops, 3%Z) ->
        exists t cmd v, test_one w t "batch" cmd = Some v /\ BYPASS v = true).
Proof.
  split; [|split].
  - intros ops H. unfold cmdTest in H. destruct flags as [f|]; [|done].
    destruct (fArgs f) as [|cmd [|]]; try done. destruct (_ =s _); [done|]. destruct (resolve f) as [i sp].
    apply withTarget_code in H as [?|[?|[t H]]]; try done. exists t, cmd.
    destruct (test_one _ _ _ _) as [v|]; [|done]. exists v. by destruct (BYPASS v).
  - intros ops H. unfold cmdCampaign in H. destruct flags as [f|]; [|done]. destruct (resolve f) as [i sp].
    apply withTarget_code in H as [?|[?|[t H]]]; try done. exists t.
    destruct (campaign_on w t) as [res|]; [|done]. exists res. split; [done|].
    destruct (0 <? Bypasses res) eqn:E; [|done]. by apply Nat.ltb_lt.
  - intros report ops H. unfold cmdBatch in H. destruct flags as [f|]; [|done].
    destruct (fArgs f) as [|path [|]]; try done. destruct (read_file w path) as [raw|]; [|done].
    destruct (candidates raw) as [|c cs]; [done|]. destruct (resolve f) as [i sp].
    apply withTarget_code in H as [?|[?|[t H]]]; try done. exists t.
    destruct (report && _); [done|]. unfold batch_bypasses in H.
    destruct (List.filter BYPASS (omap (test_one w t "batch") (c :: cs))) as [|v vs] eqn:E; [done|].
    assert (In v (v :: vs)) as Hv by by left. rewrite <- E in Hv. apply filter_In in Hv as [Hv Hb].
    apply list_elem_of_In, list_elem_of_omap in Hv as (cmd & _ & Hv). eauto.
Qed.

(** A batch of which every test fails ends like a clean one. *)
Lemma batch_of_errors_is_clean w f s path raw :
  docker w = true -> LoadState (state_at w (resolve f).2) = LoadedState s -> Reachable (probe w s) = true ->
  fArgs f = [path] -> read_file w path = Some raw -> candidates raw <> [] ->
  (forall t cmd, test_one w t "batch" cmd = None) ->
  cmdBatch w false (Some f) = ([], 0%Z).
Proof.
  intros Hd Hl Hr Ha Hf Hc Ht. unfold cmdBatch. rewrite Ha, Hf. destruct (candidates raw) as [|c cs]; [done|].
  destruct (resolve f) as [i sp]. cbn [snd] in Hl. unfold withTarget. rewrite Hd, Hl, Hr. cbn [negb andb].
  unfold batch_bypasses. assert (omap (test_one w (LoadTarget s) "batch") (c :: cs) = []) as ->; [|done].
  generalize (c :: cs). intros l. induction l as [|x l IH]; [done|]. cbn. by rewrite Ht.
Qed.

(** ** The repository's root *)

Lemma walk_up_found n exists_ dir root :
  walk_up n exists_ dir = Some root ->
  exists_ (GoUrl.Join [root; "go.mod"]) = true /\ exists_ (compose_path root) = true.
Proof.
  revert dir. induction n as [|n IH]; intros dir; [done|]. cbn [walk_up].
  destruct (exists_ _ && exists_ _) eqn:E; [intros [= <-]; by apply andb_true_iff|].
  destruct (_ =s _); [done|]. apply IH.
Qed.

(** The root that is found is this repository's, by the file the rig starts from. *)
Lemma repoRoot_found exists_ wd exe root :
  repoRoot exists_ wd exe = Some root ->
  exists_ (GoUrl.Join [root; "go.mod"]) = true /\ exists_ (compose_path root) = true.
Proof.
  intros H. unfold repoRoot in H.
  assert (root ∈ omap (walk_up 12 exists_) (omap id [wd; option_map GoUrl.Dir exe])) as Hi.
  { destruct (omap _ _) as [|r rs]; [done|]. injection H as ->. by left. }
  apply list_elem_of_omap in Hi as (dir & _ & Hd). by eapply walk_up_found.
Qed.

(** ** The kept snapshots *)

(** Whatever other marks are taken and dropped meanwhile, a mark's events are the
    paths that changed since it was taken; and no two marks are the same. *)
Theorem mark_sees_its_changes before f m f0 ops after :
  snapshotMark (Some before) f = Some (m, f0) -> ~ In (Drops m) ops ->
  exists f1, snapshotEventsSince m (fold_left meanwhile ops f0) (Some after) (fold_left meanwhile ops f0)
             = Some (map (mkEvent "SNAPSHOT") (Diff before after), f1)
    /\ snaps f1 !! m = None /\ m < nextID f1.
Proof.
  intros Hm Hops. injection Hm as <- <-.
  assert (forall ops f', ~ In (Drops (nextID f)) ops -> nextID f < nextID f' ->
            snaps f' !! nextID f = Some before ->
            snaps (fold_left meanwhile ops f') !! nextID f = Some before
            /\ nextID f < nextID (fold_left meanwhile ops f')) as H.
  { clear. intros ops. induction ops as [|op ops IH]; intros f' Hops Hlt Hf; [done|].
    cbn [fold_left]. apply IH; [by intros ?; apply Hops; right| |]; destruct op as [s|m]; cbn; try lia.
    - rewrite lookup_insert_ne by lia. done.
    - rewrite lookup_delete_ne; [done|]. intros ->. apply Hops. by left. }
  destruct (H ops (mkFallback (<[nextID f := before]> (snaps f)) (S (nextID f)))) as [Hl Hn];
    [done|cbn; lia|apply lookup_insert_eq|].
  eexists. unfold snapshotEventsSince. rewrite Hl. split; [done|]. split; [apply lookup_delete_eq|done].
Qed.

(** ** The event log since a mark *)

Definition is_nl (c : ascii) : bool := (c =c NL).

Definition trim_cr (l : list ascii) : string := TrimRight (string_of_list_ascii l) CR.

(** The newlines at the end of a text. *)
Lemma trailing_newlines l : exists k, l = reverse (drop_all NL (reverse l)) ++ repeat NL k.
Proof.
  induction l as [|c l IH] using rev_ind; [by exists 0|].
  rewrite reverse_app, reverse_singleton. cbn [app drop_all]. destruct (c =c NL) eqn:E.
  - apply Ascii.eqb_eq in E as ->. destruct IH as [k Hk]. exists (k + 1).
    rewrite repeat_app, app_assoc, <- Hk. done.
  - exists 0. cbn [repeat]. by rewrite app_nil_r, reverse_cons, reverse_involutive.
Qed.

Lemma split_newlines l k :
  split_on is_nl (l ++ repeat NL k) = split_on is_nl l ++ repeat [] k.
Proof.
  revert l. induction k as [|k IH]; intros l; [by rewrite !app_nil_r|].
  change (repeat NL (S k)) with (NL :: repeat NL k). rewrite split_on_app by done.
  specialize (IH []). cbn [app] in IH. by rewrite IH.
Qed.

Lemma omap_blank {A} (f : string -> option A) n k :
  f "" = None -> omap f (drop n (map trim_cr (repeat [] k))) = [].
Proof.
  intros Hf. revert n. induction k as [|k IH]; intros n; cbn [repeat map]; [by destruct n|].
  destruct n as [|n]; cbn [drop]; [|apply IH]. cbn. change (trim_cr []) with "". rewrite Hf. apply (IH 0).
Qed.

(** Blank lines at the end of a log make no event. *)
Lemma lines_of_log {A} (f : string -> option A) raw n :
  f "" = None ->
  omap f (drop n (splitLogLines raw))
  = omap f (drop n (map trim_cr (split_on is_nl (list_ascii_of_string raw)))).
Proof.
  intros Hf.
  set (l := list_ascii_of_string raw). destruct (trailing_newlines l) as [k Hk].
  unfold splitLogLines, TrimRight at 1 3. fold l. set (t := reverse (drop_all NL (reverse l))) in *.
  rewrite Hk, split_newlines, map_app, skipn_app, omap_app, omap_blank, app_nil_r by done.
  destruct (string_of_list_ascii t =s "") eqn:E.
  - apply String.eqb_eq in E. apply (f_equal list_ascii_of_string) in E.
    rewrite list_ascii_of_string_of_list_ascii in E. cbn in E. rewrite E.
    change (split_on is_nl []) with (repeat (@nil ascii) 1).
    rewrite (omap_blank f n 1) by done. by destruct n.
  - by rewrite list_ascii_of_string_of_list_ascii.
Qed.

(** What is appended after a mark, and nothing else, is what the mark's reader gets;
    the log is to end in a newline when the mark is taken. *)
Theorem mark_reads_the_rest old new :
  old = "" \/ (exists o, old = o +:+ String NL "") ->
  WriteEventsSince (Some (old +:+ new)) (WriteMark (Some old)) = WriteEventsSince (Some new) 0.
Proof.
  intros Ho. unfold WriteEventsSince, WriteMark, parseWatchLog. cbn [default from_option id fst]. f_equal.
  rewrite !(lines_of_log parseWatchLine), Nat2Z.id by done. destruct Ho as [->|[o ->]]; [done|].
  pose proof (bytes_app (o +:+ String NL "") new) as Hb. pose proof (bytes_app o (String NL "")) as Hb'.
  unfold Sigwire.bytes in *. rewrite Hb' in Hb. unfold count_newlines. rewrite Hb, Hb'.
  generalize (list_ascii_of_string o) as l. generalize (list_ascii_of_string new) as l'. intros l' l.
  change (list_ascii_of_string (String NL "")) with [NL]. rewrite <- app_assoc. cbn [app].
  rewrite split_on_app, map_app by done. f_equal. rewrite skipn_app.
  assert (List.length (map trim_cr (split_on is_nl l)) = List.length (List.filter is_nl (l ++ [NL]))) as Hl.
  { rewrite length_map. clear. induction l as [|c l IH]; [done|]. cbn [split_on app List.filter].
    destruct (is_nl c) eqn:E; cbn [List.length]; [by rewrite IH|].
    pose proof (split_on_ne is_nl l). destruct (split_on is_nl l); [done|]. exact IH. }
  unfold is_nl in Hl at 2. rewrite <- Hl, skipn_all, Nat.sub_diag. done.
Qed.

(** ** The listing is read back *)

(** A file of the container as the script prints it. *)
Record Listed := mkListed { lMtime : Z; lSize : Z; lSha : string; lPath : string }.

Definition listing_line (e : Listed) : list ascii :=
  format_int (lMtime e) ++ TAB :: format_int (lSize e) ++ TAB :: bytes (lSha e) ++ TAB :: bytes (lPath e).

Definition listing (es : list Listed) : list ascii := flat_map (fun e => listing_line e ++ [NL]) es.

Definition listed_state (e : Listed) : string * FileState :=
  (lPath e, mkFileState true (lSha e) (lMtime e) (lSize e)).

(** What a path must be to be listed on a line of its own. *)
Definition wf_listed (e : Listed) : Prop :=
  JsonValue.is_int64 (lMtime e) = true /\ JsonValue.is_int64 (lSize e) = true
  /\ Forall (fun c => c <> TAB /\ c <> NL) (bytes (lSha e))
  /\ Forall (fun c => c <> NL) (bytes (lPath e)) /\ last (bytes (lPath e)) <> Some CR /\ lPath e <> "".

Lemma digits_value_uint u : forall acc,
  fold_left (fun v c => (v * 10 + (byte_val c - 48))%Z) (uint_chars u) (Zpos acc) = Zpos (Pos.of_uint_acc u acc).
Proof.
  induction u as [|u IH|u IH|u IH|u IH|u IH|u IH|u IH|u IH|u IH|u IH]; intros acc;
    cbn [uint_chars fold_left Pos.of_uint_acc]; [done|..];
    rewrite <- IH; f_equal;
    match goal with |- context [byte_val ?c] =>
      let v := eval vm_compute in (byte_val c) in change (byte_val c) with v end; lia.
Qed.

Lemma digits_value_nat n : GoUrl.digits_value (format_nat n) = Z.of_N n.
Proof.
  unfold GoUrl.digits_value, format_nat. rewrite <- (DecimalN.Unsigned.of_to n) at 2.
  generalize (N.to_uint n). intros u. induction u; cbn [uint_chars fold_left]; try done; try apply digits_value_uint.
Qed.

Lemma uint_digits u : forallb GoStr.is_digit (uint_chars u) = true.
Proof. by induction u. Qed.

Lemma span_digits_all l : forallb GoStr.is_digit l = true -> GoTime.span_digits l = (l, []).
Proof.
  induction l as [|c l IH]; [done|]. cbn. intros [Hc Hl]%andb_true_iff. by rewrite Hc, IH.
Qed.

Lemma digit_not_sign c : GoStr.is_digit c = true -> (c =c "-")%char = false /\ (c =c "+")%char = false.
Proof. by destruct c as [[] [] [] [] [] [] [] []]. Qed.

(** A printed number is read back, and so is what follows no digit. *)
Lemma Sscanf_itoa z : JsonValue.is_int64 z = true -> Sscanf_d (GoTime.itoa z) = Some z.
Proof.
  intros Hz. unfold Sscanf_d, GoTime.itoa, Sigwire.str. rewrite list_ascii_of_string_of_list_ascii.
  assert (forall n, GoTime.span_digits (format_nat n) = (format_nat n, [])) as Hs.
  { intros n. apply span_digits_all, uint_digits. }
  unfold format_int. destruct (z <? 0)%Z eqn:E.
  - change (("-" =c "-") || ("-" =c "+"))%char with true. cbv iota. rewrite Hs. cbn [fst].
    unfold GoUrl.Atoi. rewrite list_ascii_of_string_of_list_ascii. cbn [app].
    change ("-" =c "-")%char with true. cbv iota.
    destruct (format_nat_digit (Z.to_N (- z))) as (c & l & Hf & _). rewrite Hf at 1.
    unfold format_nat at 1. rewrite uint_digits, digits_value_nat.
    assert (- Z.of_N (Z.to_N (- z)) = z)%Z as -> by lia. unfold JsonValue.is_int64 in Hz. by rewrite Hz.
  - destruct (format_nat_digit (Z.to_N z)) as (c & l & Hf & Hc). destruct (digit_not_sign c Hc) as [H1 H2].
    specialize (Hs (Z.to_N z)). pose proof (digits_value_nat (Z.to_N z)) as Hv.
    pose proof (uint_digits (N.to_uint (Z.to_N z))) as Hd. fold (format_nat (Z.to_N z)) in Hd. rewrite Hf in *.
    rewrite H1, H2. cbn [orb]. rewrite Hs. cbn [fst app]. unfold GoUrl.Atoi.
    rewrite list_ascii_of_string_of_list_ascii, H1, H2. cbv beta iota zeta. rewrite Hd, Hv, Z2N.id by lia.
    unfold JsonValue.is_int64 in Hz. by rewrite Hz.
Qed.

Lemma cut_tab_app a b : Forall (fun c => c <> TAB) a -> cut_tab (a ++ TAB :: b) = Some (a, b).
Proof.
  induction 1 as [|c a Hc _ IH]; [done|]. cbn [app cut_tab]. apply Ascii.eqb_neq in Hc. by rewrite Hc, IH.
Qed.

Lemma number_bytes z (P : ascii -> Prop) :
  P "-"%char -> (forall c, GoStr.is_digit c = true -> P c) -> Forall P (format_int z).
Proof.
  intros Hm Hd. assert (forall n, Forall P (format_nat n)) as Hn.
  { intros n. apply Forall_forall. intros c Hc. apply Hd. pose proof (uint_digits (N.to_uint n)) as H.
    rewrite forallb_forall in H. apply H. by apply list_elem_of_In. }
  unfold format_int. destruct (z <? 0)%Z; [by constructor|done].
Qed.

Lemma digit_plain c : GoStr.is_digit c = true -> c <> TAB /\ c <> NL.
Proof. intros H. by split; intros ->. Qed.

Lemma str_of_bytes s : string_of_list_ascii (bytes s) = s.
Proof. apply string_of_list_ascii_of_string. Qed.

(** A line of the listing is its file. *)
Lemma listed_line e : wf_listed e -> listed (string_of_list_ascii (listing_line e)) = Some (listed_state e).
Proof.
  intros (Hm & Hs & Hh & _). unfold listed, four_parts, listing_line.
  assert (forall z, Forall (fun c => c <> TAB) (format_int z)) as Hz.
  { intros z. apply number_bytes; [done|]. intros c Hc. by apply digit_plain. }
  rewrite list_ascii_of_string_of_list_ascii, cut_tab_app, cut_tab_app, cut_tab_app by
    (first [apply Hz | eapply Forall_impl; [exact Hh|by intros ? []]]).
  rewrite !str_of_bytes. change (string_of_list_ascii (format_int (lMtime e))) with (GoTime.itoa (lMtime e)).
  change (string_of_list_ascii (format_int (lSize e))) with (GoTime.itoa (lSize e)).
  by rewrite !Sscanf_itoa.
Qed.

Lemma line_no_nl e : wf_listed e -> Forall (fun c => is_nl c = false) (listing_line e).
Proof.
  intros (_ & _ & Hh & Hp & _).
  assert (forall z, Forall (fun c => c <> NL) (format_int z)) as Hz.
  { intros z. apply number_bytes; [done|]. intros c Hc. by apply digit_plain. }
  eapply (Forall_impl (fun c => c <> NL)); [|by intros c ?; apply Ascii.eqb_neq].
  unfold listing_line. repeat (apply Forall_app_2 || apply Forall_cons_2); try done.
  eapply Forall_impl; [exact Hh|]. by intros ? [].
Qed.

Lemma trim_kept l : last l <> Some CR -> trim_cr l = string_of_list_ascii l.
Proof.
  intros Hl. unfold trim_cr, TrimRight. rewrite list_ascii_of_string_of_list_ascii.
  destruct l as [|c l _] using rev_ind; [done|]. rewrite reverse_app, reverse_singleton. cbn [app drop_all].
  rewrite last_snoc in Hl. destruct (c =c CR) eqn:E; [by apply Ascii.eqb_eq in E as ->|].
  by rewrite reverse_cons, reverse_involutive.
Qed.

Lemma line_trimmed e : wf_listed e -> trim_cr (listing_line e) = string_of_list_ascii (listing_line e).
Proof.
  intros (_ & _ & _ & _ & Hl & Hne). apply trim_kept. unfold listing_line.
  assert (bytes (lPath e) <> []) as Hb by (by destruct (lPath e)).
  destruct (bytes (lPath e)) as [|c l] using rev_ind; [done|]. clear IHl.
  rewrite last_snoc in Hl.
  by rewrite !app_comm_cons, !app_assoc, last_snoc.
Qed.

Lemma split_listing es :
  Forall wf_listed es -> split_on is_nl (listing es) = map listing_line es ++ [[]].
Proof.
  induction 1 as [|e es He _ IH]; [done|]. unfold listing in *. cbn [flat_map map].
  rewrite <- app_assoc. cbn [app]. rewrite split_on_app, IH, split_on_no_sep by (done || by apply line_no_nl). done.
Qed.

(** What a snapshot keeps of its lines. *)
Definition kept (keep : string -> bool) (line : string) : option (string * FileState) :=
  match listed line with Some (p, st) => if keep p then Some (p, st) else None | None => None end.

Lemma snapshot_kept keep lines :
  snapshot_of keep lines = list_to_map (reverse (omap (kept keep) lines)).
Proof.
  unfold snapshot_of. induction lines as [|line lines IH] using rev_ind; [done|].
  rewrite fold_left_app, IH, omap_app, reverse_app. cbn [fold_left]. unfold kept at 3. cbn [omap list_omap].
  destruct (kept keep line) as [[p st]|] eqn:Ek; unfold kept in Ek;
    (destruct (listed line) as [[p' st']|]; [|done || by cbn]); destruct (keep p') eqn:E; try done; by simplify_eq.
Qed.

Lemma omap_lines {A} (f : string -> option A) (g : Listed -> option A) es :
  f "" = None -> Forall (fun e => f (string_of_list_ascii (listing_line e)) = g e) es -> Forall wf_listed es ->
  omap f (map trim_cr (map listing_line es ++ [[]])) = omap g es.
Proof.
  intros Hn Hf Hw. rewrite map_app, omap_app. cbn [map]. change (trim_cr []) with "".
  cbn [omap list_omap]. rewrite Hn, app_nil_r.
  induction Hw as [|e es He _ IH]; [done|]. apply Forall_cons in Hf as [Hfe Hf]. cbn [map].
  rewrite line_trimmed by done. specialize (IH Hf). cbn in *. by rewrite Hfe, IH.
Qed.

Lemma omap_some {A B} (f : A -> B) l : omap (fun a => Some (f a)) l = map f l.
Proof. induction l as [|x l IH]; [done|]. cbn. by f_equal. Qed.

Lemma omap_nonblank {A} (f : string -> option A) lines :
  f "" = None -> omap f (List.filter (fun l => negb (l =s "")) lines) = omap f lines.
Proof.
  intros Hf. induction lines as [|l lines IH]; [done|]. cbn [List.filter].
  destruct (l =s "") eqn:E; cbn [negb].
  - apply String.eqb_eq in E as ->. cbn. by rewrite Hf, IH.
  - cbn. by rewrite IH.
Qed.

(** The files a listing is to keep. *)
Definition visible (keep : string -> bool) (es : list Listed) : list (string * FileState) :=
  omap (fun e => if keep (lPath e) then Some (listed_state e) else None) es.

Lemma kept_line keep e :
  wf_listed e -> kept keep (string_of_list_ascii (listing_line e))
                 = if keep (lPath e) then Some (listed_state e) else None.
Proof. intros He. unfold kept. by rewrite listed_line. Qed.

Lemma visible_NoDup keep es : NoDup (map lPath es) -> NoDup (visible keep es).*1.
Proof.
  induction es as [|e es IH]; cbn [map]; intros Hn; [constructor|]. apply NoDup_cons in Hn as [He Hn].
  unfold visible. cbn [omap list_omap]. fold (visible keep es). destruct (keep (lPath e)); [|by apply IH].
  cbn. apply NoDup_cons. split; [|by apply IH]. intros Hi. apply He.
  apply list_elem_of_fmap in Hi as ([p st] & -> & Hi). apply list_elem_of_omap in Hi as (e' & Hi & Hp).
  destruct (keep (lPath e')); [|done]. injection Hp as <- _. by apply list_elem_of_fmap; exists e'.
Qed.

(** Both snapshots hold exactly the files the container listed, each with its hash,
    size and time - the tripwire's without the paths it does not look at. *)
Theorem snapshots_read_back es :
  Forall wf_listed es -> NoDup (map lPath es) ->
  Snapshot_of (string_of_list_ascii (listing es)) = list_to_map (visible (fun _ => true) es)
  /\ watchSnapshot_of (string_of_list_ascii (listing es))
     = list_to_map (visible (fun p => negb (excludedPath p)) es).
Proof.
  intros Hw Hn.
  assert (forall keep, list_to_map (reverse (visible keep es)) = (list_to_map (visible keep es) : gmap string FileState)) as Hr.
  { intros keep. apply list_to_map_proper; [|apply reverse_Permutation].
    rewrite fmap_reverse, reverse_Permutation. by apply visible_NoDup. }
  assert (forall keep, Forall (fun e => kept keep (string_of_list_ascii (listing_line e))
                                  = if keep (lPath e) then Some (listed_state e) else None) es) as Hk.
  { intros keep. eapply Forall_impl; [exact Hw|]. intros e. apply kept_line. }
  split; rewrite <- Hr.
  - unfold Snapshot_of. rewrite snapshot_kept, omap_nonblank, list_ascii_of_string_of_list_ascii by done.
    change (fun c => c =c NL) with is_nl. rewrite split_listing by done. f_equal. f_equal. by apply omap_lines.
  - unfold watchSnapshot_of. rewrite snapshot_kept. set (keep := fun p => negb (excludedPath p)) in *.
    f_equal. f_equal. rewrite <- (skipn_O (splitLogLines _)), lines_of_log by done.
    rewrite list_ascii_of_string_of_list_ascii, split_listing by done. by apply omap_lines.
Qed.

(** What the excludes hide, by being looked for anywhere in a path: more than sort's
    temporary files, the gate's log and the paths they name. *)
Example excludes_are_loose :
  Forall (fun p => excludedPath p = true)
    ["/tmp/sort_pwned"; "/config/.sshgate-gate/audit.log.sh"; "/home/u/tmp/sort"; "/config/logs_pwned"]
  /\ Forall (fun p => excludedPath p = false)
    ["/tmp/pwned"; "/config/.ssh/authorized_keys"; "/etc/ssh/sshd_config.d/99-evil.conf";
     "/config/.sshgate-gate/gate"].
Proof. split; repeat constructor. Qed.
